(** * Urban Opportunity Mapper: the accessibility and opportunity-scoring engine

    A shallow embedding of [src/analyze.py] and [src/population_data.py].

    - Python floats and integers are exact rationals extended with the
      special values [+inf], [-inf] and [nan] ([num]); rounding and the sign
      of zero are not represented, except in the two [while] loops of the
      grid builder: the number of their turns can hang on the rounding of
      [+=], so they take the addition as a parameter, and
      [create_analysis_grid] is the builder under exact addition.
    - A pandas [DataFrame] is an ordered list of named columns over a common
      row count.  Frames live in a heap and Python variables hold
      references, so that in-place column assignment, [.copy()] and boolean
      indexing can be told apart.
    - Functions run in a state-and-exception monad: the state is the heap of
      frames plus the trace of what was printed or written; an exception
      keeps the state reached so far, as [try]/[except] observes it.
    - [while] loops take fuel; running out of fuel is an outcome of its own,
      never an exception.
    - numpy's cosine, geopy's geodesic distance, the file system and the
      population raster are parameters of the development. *)

From Stdlib Require Import QArith Qround Qminmax Lqa ZArith Lia String Ascii List
  Sorted Permutation.
From Stdlib Require Floats Uint63.
From stdpp Require Import base list strings.
Import ListNotations.

Open Scope string_scope.
Open Scope Q_scope.

(** ** Numbers *)

Inductive num := Fin (q : Q) | PInf | NInf | NaN.

Definition np_inf : num := PInf.

(** [np.pi] is the binary64 number nearest to pi, an exact rational. *)
Definition np_pi : Q := 884279719003555 # 281474976710656.

Definition Qltb (a b : Q) : bool :=
  match a ?= b with Lt => true | _ => false end.
Definition Qleb (a b : Q) : bool :=
  match a ?= b with Gt => false | _ => true end.
Definition Qeqb (a b : Q) : bool :=
  match a ?= b with Eq => true | _ => false end.

Definition signed_inf (a : Q) (pos neg zero : num) : num :=
  match a ?= 0 with Gt => pos | Lt => neg | Eq => zero end.

Definition num_opp (x : num) : num :=
  match x with
  | Fin q => Fin (- q)
  | PInf => NInf
  | NInf => PInf
  | NaN => NaN
  end.

Definition num_add (x y : num) : num :=
  match x, y with
  | Fin a, Fin b => Fin (a + b)
  | NaN, _ | _, NaN => NaN
  | PInf, NInf | NInf, PInf => NaN
  | PInf, _ | _, PInf => PInf
  | NInf, _ | _, NInf => NInf
  end.

Definition num_sub (x y : num) : num := num_add x (num_opp y).

Definition num_mul (x y : num) : num :=
  match x, y with
  | Fin a, Fin b => Fin (a * b)
  | NaN, _ | _, NaN => NaN
  | Fin a, PInf | PInf, Fin a => signed_inf a PInf NInf NaN
  | Fin a, NInf | NInf, Fin a => signed_inf a NInf PInf NaN
  | PInf, PInf | NInf, NInf => PInf
  | PInf, NInf | NInf, PInf => NInf
  end.

(** numpy division: a zero divisor yields an infinity or [nan], no
    exception. *)
Definition num_div (x y : num) : num :=
  match x, y with
  | NaN, _ | _, NaN => NaN
  | Fin a, Fin b =>
      if Qeqb b 0 then signed_inf a PInf NInf NaN else Fin (a / b)
  | Fin _, (PInf | NInf) => Fin 0
  | PInf, Fin b => if Qleb 0 b then PInf else NInf
  | NInf, Fin b => if Qleb 0 b then NInf else PInf
  | (PInf | NInf), (PInf | NInf) => NaN
  end.

(** Comparisons; every comparison with [nan] is false. *)
Definition num_ltb (x y : num) : bool :=
  match x, y with
  | NaN, _ | _, NaN => false
  | Fin a, Fin b => Qltb a b
  | NInf, (Fin _ | PInf) => true
  | Fin _, PInf => true
  | _, _ => false
  end.

Definition num_eqb (x y : num) : bool :=
  match x, y with
  | Fin a, Fin b => Qeqb a b
  | PInf, PInf | NInf, NInf => true
  | _, _ => false
  end.

Definition num_leb (x y : num) : bool := num_ltb x y || num_eqb x y.
Definition num_gtb (x y : num) : bool := num_ltb y x.
Definition num_geb (x y : num) : bool := num_leb y x.

(** Python's builtin [max(a, b)]: the first argument unless the second is
    strictly greater. *)
Definition py_max (a b : num) : num := if num_gtb b a then b else a.

Definition of_nat (n : nat) : num := Fin (inject_Z (Z.of_nat n)).

(** ** Exceptions, outcomes and the trace *)

Inductive exn :=
| KeyError (key : string)
| ValueError (msg : string)
| FileNotFoundError (msg : string)
| ZeroDivisionError
| RuntimeError (msg : string).

Inductive outcome (A : Type) :=
| Ok (a : A)
| Raise (e : exn)
| OutOfFuel.
Arguments Ok {A} a.
Arguments Raise {A} e.
Arguments OutOfFuel {A}.

(** What a call into a library or the operating system gives back. *)
Inductive result (A : Type) :=
| Return (a : A)
| Throws (e : exn).
Arguments Return {A} a.
Arguments Throws {A} e.

(** ** Series and frames *)

Abbreviation Series := (list num).

(** A row as the Python code builds it: a dict from column name to value,
    in insertion order. *)
Abbreviation dict := (list (string * num)).

Record DataFrame := mkDF {
  index : nat;                        (* number of rows, [len(df)] *)
  columns : list (string * Series)    (* in column order *)
}.

Definition ref := nat.

Inductive event :=
| Printed (text : string) (args : list num)
| MakeDirs (path : string)
| ToCsv (path : string) (f : DataFrame).

Record state := mkState {
  heap : list DataFrame;
  trace : list event
}.

(** ** The monad *)

Definition M (A : Type) : Type := state -> outcome A * state.

Definition ret {A} (a : A) : M A := fun st => (Ok a, st).

Definition bind {A B} (m : M A) (k : A -> M B) : M B :=
  fun st =>
    match m st with
    | (Ok a, st') => k a st'
    | (Raise e, st') => (Raise e, st')
    | (OutOfFuel, st') => (OutOfFuel, st')
    end.

Definition raise {A} (e : exn) : M A := fun st => (Raise e, st).
Definition out_of_fuel {A} : M A := fun st => (OutOfFuel, st).

(** [try: m except Exception as e: h e]. *)
Definition try_except {A} (m : M A) (h : exn -> M A) : M A :=
  fun st =>
    match m st with
    | (Raise e, st') => h e st'
    | r => r
    end.

Declare Scope py_scope.
Delimit Scope py_scope with py.
Notation "x <- m ;; k" := (bind m (fun x => k))
  (at level 100, m at next level, right associativity) : py_scope.
Notation "m ;;; k" := (bind m (fun _ => k))
  (at level 100, right associativity) : py_scope.
Open Scope py_scope.

Definition lift {A} (o : result A) : M A :=
  match o with
  | Return a => ret a
  | Throws e => raise e
  end.

Definition emit (e : event) : M unit :=
  fun st => (Ok tt, mkState (heap st) (trace st ++ [e])).

(** [print(...)]: the text with the interpolated strings, and the
    interpolated numbers beside it. Progress lines are left out, and so
    are separator lines, except in the batch driver, whose status table
    they frame. *)
Definition print (text : string) (args : list num) : M unit :=
  emit (Printed text args).

(** [os.makedirs(path, exist_ok=True)] *)
Definition os_makedirs (path : string) : M unit := emit (MakeDirs path).

(** [df.to_csv(path, index=False)] *)
Definition to_csv (f : DataFrame) (path : string) : M unit :=
  emit (ToCsv path f).

Fixpoint mapM {A B} (f : A -> M B) (l : list A) : M (list B) :=
  match l with
  | [] => ret []
  | x :: l' => y <- f x ;; ys <- mapM f l' ;; ret (y :: ys)
  end.

Fixpoint forM_ {A} (l : list A) (f : A -> M unit) : M unit :=
  match l with
  | [] => ret tt
  | x :: l' => f x ;;; forM_ l' f
  end.

(** ** Association lists (ordered dicts, column tables) *)

Fixpoint assoc {A} (k : string) (l : list (string * A)) : option A :=
  match l with
  | [] => None
  | (k', v) :: l' => if String.eqb k k' then Some v else assoc k l'
  end.

(** [d[k] = v]: replace in place when the key exists, append otherwise. *)
Fixpoint assoc_set {A} (k : string) (v : A) (l : list (string * A))
  : list (string * A) :=
  match l with
  | [] => [(k, v)]
  | (k', v') :: l' =>
      if String.eqb k k' then (k', v) :: l' else (k', v') :: assoc_set k v l'
  end.

Definition keys {A} (l : list (string * A)) : list string := map fst l.

Definition has_key {A} (k : string) (l : list (string * A)) : bool :=
  match assoc k l with Some _ => true | None => false end.

(** ** Series operations *)

Fixpoint mask_filter {A} (m : list bool) (l : list A) : list A :=
  match m, l with
  | b :: m', x :: l' =>
      if b then x :: mask_filter m' l' else mask_filter m' l'
  | _, _ => []
  end.

Fixpoint mask_set (m : list bool) (x : num) (s : Series) : Series :=
  match m, s with
  | b :: m', y :: s' => (if b then x else y) :: mask_set m' x s'
  | _, _ => s
  end.

Fixpoint zip_with {A B C} (f : A -> B -> C) (l : list A) (l' : list B)
  : list C :=
  match l, l' with
  | x :: t, y :: t' => f x y :: zip_with f t t'
  | _, _ => []
  end.

Definition is_nan (x : num) : bool :=
  match x with NaN => true | _ => false end.

(** [Series.max()]: [nan] entries are skipped; an empty series gives [nan]. *)
Definition series_max (s : Series) : num :=
  fold_left (fun acc x =>
               if is_nan x then acc
               else if is_nan acc then x
               else if num_ltb acc x then x else acc) s NaN.

Definition series_sum (s : Series) : num :=
  fold_left num_add (filter (fun x => negb (is_nan x)) s) (Fin 0).

(** [Series.mean()]: [nan] entries are skipped; no entry left gives [nan]. *)
Definition series_mean (s : Series) : num :=
  let s' := filter (fun x => negb (is_nan x)) s in
  match s' with
  | [] => NaN
  | _ => num_div (series_sum s') (of_nat (length s'))
  end.

(** [Series.clip(upper=u)]. *)
Definition clip_upper (u : num) (x : num) : num :=
  if num_gtb x u then u else x.

(** ** Frames as values *)

Definition empty_frame : DataFrame := mkDF 0 [].

Definition df_col (f : DataFrame) (c : string) : option Series :=
  assoc c (columns f).

Definition df_set (f : DataFrame) (c : string) (s : Series) : DataFrame :=
  mkDF (index f) (assoc_set c s (columns f)).

Definition count_true (m : list bool) : nat :=
  length (filter (fun b : bool => b) m).

Definition df_mask (f : DataFrame) (m : list bool) : DataFrame :=
  mkDF (count_true m) (map (fun cs => (fst cs, mask_filter m (snd cs))) (columns f)).

(** Row [i] as a dict, as [iterrows] and [iloc] hand it out. *)
Definition row_at (f : DataFrame) (i : nat) : dict :=
  map (fun cs => (fst cs, nth i (snd cs) NaN)) (columns f).

Definition take_rows (f : DataFrame) (idxs : list nat)
  : list (string * Series) :=
  map (fun cs => (fst cs, map (fun i => nth i (snd cs) NaN) idxs)) (columns f).

(** [pd.DataFrame(records)] for a list of dicts: the columns are the keys in
    order of first appearance, a key missing from a record reads [nan].
    An empty list gives a frame without any column. *)
Definition union_keys (records : list dict) : list string :=
  fold_left (fun acc d =>
               fold_left (fun acc' k =>
                            if existsb (String.eqb k) acc' then acc'
                            else (acc' ++ [k])%list) (keys d) acc)
            records [].

Definition frame_of_records (records : list dict) : DataFrame :=
  mkDF (length records)
       (map (fun k => (k, map (fun d => default NaN (assoc k d)) records))
            (union_keys records)).

(** Ordering used by [sort_values]: ascending, [nan] last. *)
Definition sort_leb (x y : num) : bool :=
  match x, y with
  | _, NaN => true
  | NaN, _ => false
  | _, _ => num_leb x y
  end.

Fixpoint insert_by_key (p : num * nat) (l : list (num * nat))
  : list (num * nat) :=
  match l with
  | [] => [p]
  | q :: l' =>
      if sort_leb (fst p) (fst q) then p :: l else q :: insert_by_key p l'
  end.

Definition sort_permutation (s : Series) : list nat :=
  map snd (fold_right insert_by_key [] (zip_with pair s (seq 0 (length s)))).

(** Row pairs of an inner join, left order first. Keys that are both [nan]
    match, as in pandas. *)
Definition key_eqb (x y : num) : bool :=
  (is_nan x && is_nan y) || num_eqb x y.

Definition join_pairs (lk rk : Series) : list (nat * nat) :=
  flat_map (fun ix =>
              flat_map (fun jy =>
                          if key_eqb (snd ix) (snd jy)
                          then [(fst ix, fst jy)] else [])
                       (zip_with pair (seq 0 (length rk)) rk))
           (zip_with pair (seq 0 (length lk)) lk).

(** ** Frames in the heap *)

Definition deref (r : ref) : M DataFrame :=
  fun st =>
    match heap st !! r with
    | Some f => (Ok f, st)
    | None => (Raise (RuntimeError "dangling reference"), st)
    end.

Definition alloc (f : DataFrame) : M ref :=
  fun st => (Ok (length (heap st)), mkState (heap st ++ [f]) (trace st)).

Definition assign (r : ref) (f : DataFrame) : M unit :=
  fun st => (Ok tt, mkState (<[r := f]> (heap st)) (trace st)).

(** [len(df)] *)
Definition len (r : ref) : M nat :=
  f <- deref r ;; ret (index f).

(** [df[c]] *)
Definition getitem (r : ref) (c : string) : M Series :=
  f <- deref r ;;
  match df_col f c with
  | Some s => ret s
  | None => raise (KeyError c)
  end.

(** [df.get(c, default)], the default broadcast over the rows. *)
Definition get_or (r : ref) (c : string) (d : num) : M Series :=
  f <- deref r ;;
  match df_col f c with
  | Some s => ret s
  | None => ret (repeat d (index f))
  end.

(** [df[c] = s] *)
Definition setitem (r : ref) (c : string) (s : Series) : M unit :=
  f <- deref r ;;
  if Nat.eqb (length s) (index f) then assign r (df_set f c s)
  else raise (ValueError "Length of values does not match length of index").

(** [df[c] = x] for a scalar [x] *)
Definition setitem_scalar (r : ref) (c : string) (x : num) : M unit :=
  f <- deref r ;; assign r (df_set f c (repeat x (index f))).

(** [df.loc[mask, c] = x]; a column that does not exist yet is created with
    [nan] outside the mask. *)
Definition loc_set (r : ref) (m : list bool) (c : string) (x : num) : M unit :=
  f <- deref r ;;
  if Nat.eqb (length m) (index f) then
    assign r (df_set f c (mask_set m x (default (repeat NaN (index f)) (df_col f c))))
  else raise (ValueError "Item wrong length").

(** [df.copy()] *)
Definition copy (r : ref) : M ref :=
  f <- deref r ;; alloc f.

(** [df[mask]] for a boolean mask: a new frame. *)
Definition select (r : ref) (m : list bool) : M ref :=
  f <- deref r ;;
  if Nat.eqb (length m) (index f) then alloc (df_mask f m)
  else raise (ValueError "Item wrong length").

(** [df[[c1, ..., cn]]]: a new frame with these columns. *)
Definition getitems (r : ref) (cs : list string) : M ref :=
  f <- deref r ;;
  cols <- mapM (fun c => match df_col f c with
                         | Some s => ret (c, s)
                         | None => raise (KeyError c)
                         end) cs ;;
  alloc (mkDF (index f) cols).

(** [pd.DataFrame(records)] *)
Definition pd_DataFrame (records : list dict) : M ref :=
  alloc (frame_of_records records).

(** The rows of [df.iterrows()]. *)
Definition iterrows (r : ref) : M (list dict) :=
  f <- deref r ;; ret (map (row_at f) (seq 0 (index f))).

(** [row[c]] on a dict or a row. *)
Definition dict_get (d : dict) (c : string) : M num :=
  match assoc c d with
  | Some x => ret x
  | None => raise (KeyError c)
  end.

(** [df.sort_values(c)]: ascending, [nan] last. Equal keys keep their
    order here; pandas does not promise it, and nothing the engine reads
    depends on it. *)
Definition sort_values (r : ref) (c : string) : M ref :=
  f <- deref r ;;
  match df_col f c with
  | Some s => alloc (mkDF (index f) (take_rows f (sort_permutation s)))
  | None => raise (KeyError c)
  end.

(** [df.iloc[i]]; position 0 of an empty frame is out of bounds. *)
Definition iloc (r : ref) (i : nat) : M dict :=
  f <- deref r ;;
  if Nat.ltb i (index f) then ret (row_at f i)
  else raise (RuntimeError "IndexError: single positional indexer is out-of-bounds").

(** [df.nlargest(n, c)]: the [n] rows with the largest [c], largest first,
    rows without a value left out. *)
Definition nlargest (r : ref) (n : nat) (c : string) : M ref :=
  f <- deref r ;;
  match df_col f c with
  | Some s =>
      let order :=
        firstn n (filter (fun i => negb (is_nan (nth i s NaN)))
                         (sort_permutation (map num_opp s))) in
      alloc (mkDF (length order) (take_rows f order))
  | None => raise (KeyError c)
  end.

(** [df.head(n)] *)
Definition head (r : ref) (n : nat) : M ref :=
  f <- deref r ;;
  alloc (mkDF (Nat.min n (index f))
              (map (fun cs => (fst cs, firstn n (snd cs))) (columns f))).

(** [left.merge(right, on=k)]: inner join, the key column kept once. The
    other column names of the two sides are taken to be distinct (pandas
    would rename clashing ones). *)
Definition merge (l r : ref) (k : string) : M ref :=
  fl <- deref l ;;
  fr <- deref r ;;
  match df_col fl k, df_col fr k with
  | Some lk, Some rk =>
      let ps := join_pairs lk rk in
      alloc (mkDF (length ps)
                  (take_rows fl (map fst ps) ++
                   filter (fun cs => negb (String.eqb (fst cs) k))
                          (take_rows fr (map snd ps))))
  | _, _ => raise (KeyError k)
  end.

(** ** Python strings and builtins *)

Definition startswith (s p : string) : bool := String.prefix p s.

Definition endswith (s suf : string) : bool :=
  Nat.leb (String.length suf) (String.length s) &&
  String.eqb (substring (String.length s - String.length suf)
                        (String.length suf) s) suf.

(** [s.split(c)] for a one-character separator. *)
Fixpoint split_on (c : ascii) (s : string) : list string :=
  match s with
  | EmptyString => [EmptyString]
  | String a s' =>
      if Ascii.eqb a c then EmptyString :: split_on c s'
      else match split_on c s' with
           | [] => [String a EmptyString]
           | w :: ws => String a w :: ws
           end
  end.

(** [s.replace(old, new)] for a non-empty [old]. *)
Fixpoint replace_from (old new : string) (skip : nat) (s : string) : string :=
  match s with
  | EmptyString => EmptyString
  | String a s' =>
      match skip with
      | S k => replace_from old new k s'
      | O =>
          if String.prefix old s
          then new ++ replace_from old new (String.length old - 1) s'
          else String a (replace_from old new 0 s')
      end
  end.

Definition py_replace (old new s : string) : string := replace_from old new 0 s.

(** [sub in s] *)
Fixpoint contains (sub s : string) : bool :=
  String.prefix sub s ||
  match s with
  | EmptyString => false
  | String _ s' => contains sub s'
  end.

Fixpoint insert_string (x : string) (l : list string) : list string :=
  match l with
  | [] => [x]
  | y :: l' => if String.leb x y then x :: l else y :: insert_string x l'
  end.

(** [sorted(l)] on strings. *)
Definition py_sorted (l : list string) : list string :=
  fold_right insert_string [] l.

(** [sorted(list(set(l)))] *)
Definition sorted_set (l : list string) : list string :=
  py_sorted (nodup string_dec l).

(** [a / b] on Python integers. *)
Definition py_truediv (a b : nat) : M num :=
  match b with
  | O => raise ZeroDivisionError
  | _ => ret (Fin (inject_Z (Z.of_nat a) / inject_Z (Z.of_nat b)))
  end.

(** The viability lambda of the supply-only scorer. *)
Definition viability_of (x : num) : num :=
  if num_leb (Fin 1) x && num_leb x (Fin 3) then Fin 1.0
  else if num_eqb x (Fin 0) then Fin 0.5
  else py_max (Fin 0)
              (num_sub (Fin 1) (num_div (num_sub x (Fin 3)) (Fin 10))).

(** What a batch run records per business type. *)
Inductive info :=
| Success (total_locations service_deserts : nat)
          (avg_opportunity_score top_opportunity_score : num)
| Error (error : exn).

Definition CITY_BOUNDS : list (string * dict) :=
  [ ("milan", [("north", Fin 45.535); ("south", Fin 45.395);
               ("east", Fin 9.280); ("west", Fin 9.065)]);
    ("copenhagen", [("north", Fin 55.727); ("south", Fin 55.615);
                    ("east", Fin 12.650); ("west", Fin 12.453)]);
    ("bologna", [("north", Fin 44.5450); ("south", Fin 44.4450);
                 ("east", Fin 11.4000); ("west", Fin 11.2850)]);
    ("rome", [("north", Fin 42.0500); ("south", Fin 41.7500);
              ("east", Fin 12.7000); ("west", Fin 12.3500)]);
    ("turin", [("north", Fin 45.1300); ("south", Fin 45.0100);
               ("east", Fin 7.7500); ("west", Fin 7.6200)]) ].

Definition possible_files : list string :=
  [ "data/population/worldpop_ITA_2020.tif";
    "data/population/ita_ppp_2020_1km_Aggregated.tif";
    "data/population/ita_ppp_2020.tif" ].

(** [np.radians] *)
Definition np_radians (x : num) : num :=
  num_mul x (Fin (np_pi / 180)).

(** * The engine *)

Section Engine.

(** [np.cos] *)
Variable np_cos : num -> num.
(** [geodesic((lat1, lng1), (lat2, lng2)).kilometers] *)
Variable geodesic_km : num -> num -> num -> num -> result num.
(** [os.listdir], [os.path.exists], [glob], [pd.read_csv] and the date stamp
    [datetime.now().strftime('%Y%m%d')] *)
Variable os_listdir : string -> result (list string).
Variable path_exists : string -> bool.
Variable glob : string -> list string.
Variable pd_read_csv : string -> result DataFrame.
Variable today : string.
(** Reading one pixel of the population raster at [(lat, lng)]: an exception
    when the file cannot be opened or read, [None] outside the raster. *)
Variable raster_read : string -> num -> num -> result (option num).
(** Whether [import rasterio] succeeds. *)
Variable rasterio_installed : bool.

(** ** analyze.py *)

Definition load_data (city business_type : string) : M ref :=
  let data_dir := "data/raw" in
  names <- lift (os_listdir data_dir) ;;
  let files :=
    filter (fun f => startswith f (city ++ "_" ++ business_type ++ "_")) names in
  match files with
  | [] => raise (FileNotFoundError
                   ("No data found for " ++ city ++ " " ++ business_type))
  | _ =>
      let latest_file := List.last (py_sorted files) "" in
      let filepath := data_dir ++ "/" ++ latest_file in
      print ("Loading: " ++ filepath) [] ;;;
      f <- lift (pd_read_csv filepath) ;;
      df <- alloc f ;;
      n <- len df ;;
      print ("Loaded " ++ business_type ++ " locations") [of_nat n] ;;;
      ret df
  end.

Definition grid_cell (cell_id : nat) (lat lng lat_step lng_step : num) : dict :=
  [ ("cell_id", of_nat cell_id);
    ("center_lat", lat);
    ("center_lng", lng);
    ("lat_min", num_sub lat (num_div lat_step (Fin 2)));
    ("lat_max", num_add lat (num_div lat_step (Fin 2)));
    ("lng_min", num_sub lng (num_div lng_step (Fin 2)));
    ("lng_max", num_add lng (num_div lng_step (Fin 2))) ].

(** [x += step] on Python floats is a binary64 addition: it rounds, and the
    number of turns of a [while] loop can hang on the rounding. The two
    loops of the grid builder take the addition as the parameter [add]. *)

(** [while lng <= bounds["east"]: ...] *)
Fixpoint lng_loop (add : num -> num -> num) (fuel : nat) (bounds : dict)
    (lat lat_step lng_step : num) (lng : num) (cell_id : nat)
    (grid_cells : list dict)
  : M (list dict * nat) :=
  match fuel with
  | O => out_of_fuel
  | S fuel' =>
      east <- dict_get bounds "east" ;;
      if num_leb lng east then
        lng_loop add fuel' bounds lat lat_step lng_step
                 (add lng lng_step) (S cell_id)
                 (grid_cells ++ [grid_cell cell_id lat lng lat_step lng_step])
      else ret (grid_cells, cell_id)
  end.

(** [while lat <= bounds["north"]: ...] *)
Fixpoint lat_loop (add : num -> num -> num) (fuel inner : nat) (bounds : dict)
    (lat_step lng_step : num) (lat : num) (cell_id : nat)
    (grid_cells : list dict)
  : M (list dict * nat) :=
  match fuel with
  | O => out_of_fuel
  | S fuel' =>
      north <- dict_get bounds "north" ;;
      if num_leb lat north then
        lng <- dict_get bounds "west" ;;
        r <- lng_loop add inner bounds lat lat_step lng_step lng cell_id
                      grid_cells ;;
        lat_loop add fuel' inner bounds lat_step lng_step
                 (add lat lat_step) (snd r) (fst r)
      else ret (grid_cells, cell_id)
  end.

(** [create_analysis_grid] with [add] for the two [+=] of its loops. *)
Definition create_analysis_grid_with (add : num -> num -> num) (fuel : nat)
    (bounds : dict) (grid_size_km : num) : M ref :=
  let lat_step := num_div grid_size_km (Fin 111) in
  north <- dict_get bounds "north" ;;
  south <- dict_get bounds "south" ;;
  let center_lat := num_div (num_add north south) (Fin 2) in
  let lng_step :=
    num_div grid_size_km (num_mul (Fin 111) (np_cos (np_radians center_lat))) in
  lat <- dict_get bounds "south" ;;
  r <- lat_loop add fuel fuel bounds lat_step lng_step lat 0 [] ;;
  df <- pd_DataFrame (fst r) ;;
  n <- len df ;;
  print "Created analysis grid cells" [of_nat n] ;;;
  ret df.

(** The grid builder in exact arithmetic, as the rest of the engine. *)
Definition create_analysis_grid (fuel : nat) (bounds : dict)
    (grid_size_km : num) : M ref :=
  create_analysis_grid_with num_add fuel bounds grid_size_km.

Definition calculate_distance_matrix (grid_cells places : ref) : M ref :=
  print "Calculating distances (this may take a minute)..." [] ;;;
  cells <- iterrows grid_cells ;;
  distances <-
    mapM (fun cell =>
            cell_lat <- dict_get cell "center_lat" ;;
            cell_lng <- dict_get cell "center_lng" ;;
            rows <- iterrows places ;;
            mapM (fun place =>
                    place_lat <- dict_get place "lat" ;;
                    place_lng <- dict_get place "lng" ;;
                    dist_km <- lift (geodesic_km cell_lat cell_lng
                                                 place_lat place_lng) ;;
                    cell_id <- dict_get cell "cell_id" ;;
                    place_id <- dict_get place "place_id" ;;
                    ret [ ("cell_id", cell_id);
                          ("place_id", place_id);
                          ("distance_km", dist_km) ]) rows) cells ;;
  df <- pd_DataFrame (concat distances) ;;
  n <- len df ;;
  print "Calculated distance measurements" [of_nat n] ;;;
  ret df.

(** The body of the analyzer's loop over the cell ids. *)
Definition cell_accessibility (distances : ref) (walking_distance_km : num)
    (cell_id : num) : M dict :=
  key <- getitem distances "cell_id" ;;
  selected <- select distances (map (fun k => num_eqb k cell_id) key) ;;
  copied <- copy selected ;;
  cell_distances <- sort_values copied "distance_km" ;;
  d <- getitem cell_distances "distance_km" ;;
  walk <- select cell_distances
                 (map (fun x => num_leb x walking_distance_km) d) ;;
  within_walking <- len walk ;;
  n <- len cell_distances ;;
  nearest_distance <-
    (if Nat.ltb 0 n
     then (row <- iloc cell_distances 0 ;; dict_get row "distance_km")
     else ret np_inf) ;;
  top_3 <- head cell_distances 3 ;;
  n3 <- len top_3 ;;
  avg_distance_top3 <-
    (if Nat.ltb 0 n3
     then (s <- getitem top_3 "distance_km" ;; ret (series_mean s))
     else ret np_inf) ;;
  d1 <- getitem cell_distances "distance_km" ;;
  near <- select cell_distances (map (fun x => num_leb x (Fin 1.0)) d1) ;;
  services_1km <- len near ;;
  let density_per_km2 :=
    num_div (of_nat services_1km) (Fin (np_pi * (1.0 * 1.0))) in
  ret [ ("cell_id", cell_id);
        ("services_within_walking", of_nat within_walking);
        ("nearest_distance_km", nearest_distance);
        ("avg_distance_top3_km", avg_distance_top3);
        ("density_per_km2", density_per_km2) ].

Definition analyze_accessibility (grid_cells places distances : ref)
    (walking_distance_km : num) : M ref :=
  print "Analyzing accessibility" [walking_distance_km] ;;;
  cell_ids <- getitem grid_cells "cell_id" ;;
  results <- mapM (cell_accessibility distances walking_distance_km) cell_ids ;;
  df <- pd_DataFrame results ;;
  coords <- getitems grid_cells ["cell_id"; "center_lat"; "center_lng"] ;;
  df <- merge df coords "cell_id" ;;
  print "Accessibility analysis complete" [] ;;;
  ret df.

Definition identify_service_deserts (accessibility_df : ref)
    (threshold_distance_km : num) : M ref :=
  nearest <- getitem accessibility_df "nearest_distance_km" ;;
  within <- getitem accessibility_df "services_within_walking" ;;
  selected <-
    select accessibility_df
           (zip_with orb
              (map (fun x => num_gtb x threshold_distance_km) nearest)
              (map (fun x => num_ltb x (Fin 2)) within)) ;;
  deserts <- copy selected ;;
  print "SERVICE DESERT ANALYSIS" [] ;;;
  total <- len accessibility_df ;;
  print "Total grid cells analyzed" [of_nat total] ;;;
  found <- len deserts ;;
  print "Service deserts identified" [of_nat found] ;;;
  share <- py_truediv found total ;;
  print "Percentage underserved" [num_mul share (Fin 100)] ;;;
  ret deserts.

Definition calculate_opportunity_scores (accessibility_df : ref) : M ref :=
  df <- copy accessibility_df ;;
  density <- getitem df "density_per_km2" ;;
  let max_density := series_max density in
  (if num_gtb max_density (Fin 0) then
     density <- getitem df "density_per_km2" ;;
     setitem df "competition_gap"
             (map (fun x => num_sub (Fin 1) (num_div x max_density)) density)
   else setitem_scalar df "competition_gap" (Fin 1.0)) ;;;
  nearest <- getitem df "nearest_distance_km" ;;
  setitem df "accessibility_gap"
          (map (fun x => num_div (clip_upper (Fin 3.0) x) (Fin 3.0)) nearest) ;;;
  within <- getitem df "services_within_walking" ;;
  setitem df "viability" (map viability_of within) ;;;
  competition_gap <- getitem df "competition_gap" ;;
  accessibility_gap <- getitem df "accessibility_gap" ;;
  viability <- getitem df "viability" ;;
  setitem df "opportunity_score"
          (map (fun x => num_mul x (Fin 10))
               (zip_with num_add
                  (zip_with num_add
                     (map (num_mul (Fin 0.40)) competition_gap)
                     (map (num_mul (Fin 0.40)) accessibility_gap))
                  (map (num_mul (Fin 0.20)) viability))) ;;;
  score <- getitem df "opportunity_score" ;;
  print "Opportunity scores calculated" [series_max score; series_mean score] ;;;
  ret df.

Definition save_analysis (df : ref) (city business_type : string) : M string :=
  let filename :=
    "data/processed/" ++ city ++ "_" ++ business_type ++ "_analysis_"
                      ++ today ++ ".csv" in
  os_makedirs "data/processed" ;;;
  f <- deref df ;;
  to_csv f filename ;;;
  print ("Analysis saved: " ++ filename) [] ;;;
  ret filename.

Definition analyze_city (fuel : nat) (city business_type : string)
  : M (ref * ref) :=
  print ("ANALYZING " ++ city ++ " - " ++ business_type) [] ;;;
  match assoc city CITY_BOUNDS with
  | None =>
      raise (ValueError
               ("City " ++ city ++ " not configured. Available: "
                ++ "['milan', 'copenhagen', 'bologna', 'rome', 'turin']"))
  | Some bounds =>
      places <- load_data city business_type ;;
      grid <- create_analysis_grid fuel bounds (Fin 0.5) ;;
      distances <- calculate_distance_matrix grid places ;;
      accessibility <- analyze_accessibility grid places distances (Fin 1.0) ;;
      deserts <- identify_service_deserts accessibility (Fin 1.5) ;;
      results <- calculate_opportunity_scores accessibility ;;
      filename <- save_analysis results city business_type ;;
      print "ANALYSIS COMPLETE" [] ;;;
      print "Top 5 opportunity areas:" [] ;;;
      largest <- nlargest results 5 "opportunity_score" ;;
      top5 <- getitems largest [ "center_lat"; "center_lng";
                                 "opportunity_score";
                                 "services_within_walking";
                                 "nearest_distance_km" ] ;;
      shown <- getitem top5 "opportunity_score" ;;
      print "top5" shown ;;;
      ret (results, deserts)
  end.

Definition get_available_business_types (city : string) : M (list string) :=
  let data_dir := "data/raw" in
  if negb (path_exists data_dir) then ret []
  else
    names <- lift (os_listdir data_dir) ;;
    ret (sorted_set
           (flat_map
              (fun file =>
                 if startswith file (city ++ "_") && endswith file ".csv" then
                   let parts := split_on "_"%char (py_replace ".csv" "" file) in
                   if Nat.leb 3 (length parts)
                   then [nth 1 parts ""] else []
                 else []) names)).

(** The separator lines [print(f"{'='*70}")] and [print(f"{'-'*70}")] that
    frame the output of the batch driver. *)
Definition separator : string :=
  "======================================================================".
Definition rule : string :=
  "----------------------------------------------------------------------".

(** The [for idx, biz_type in enumerate(business_types, 1)] loop of the batch
    driver, threading the summary dict; [total] is [len(business_types)]. *)
Fixpoint batch_loop (fuel : nat) (city : string) (total idx : nat)
    (business_types : list string) (results_summary : list (string * info))
  : M (list (string * info)) :=
  match business_types with
  | [] => ret results_summary
  | biz_type :: rest =>
      print separator [] ;;;
      print ("Processing: " ++ biz_type) [of_nat idx; of_nat total] ;;;
      print separator [] ;;;
      results_summary <-
        try_except
          (r <- analyze_city fuel city biz_type ;;
           places <- load_data city biz_type ;;
           total_locations <- len places ;;
           service_deserts <- len (snd r) ;;
           score <- getitem (fst r) "opportunity_score" ;;
           ret (assoc_set biz_type
                          (Success total_locations service_deserts
                                   (series_mean score) (series_max score))
                          results_summary))
          (fun e =>
             print ("Error analyzing " ++ biz_type) [] ;;;
             ret (assoc_set biz_type (Error e) results_summary)) ;;
      batch_loop fuel city total (S idx) rest results_summary
  end.

Definition summary_row (entry : string * info) : M unit :=
  match snd entry with
  | Success total_locations service_deserts avg _ =>
      print (fst entry ++ " success")
            [of_nat total_locations; of_nat service_deserts; avg]
  | Error _ => print (fst entry ++ " ERROR") []
  end.

Definition analyze_all_business_types (fuel : nat) (city : string)
  : M (list (string * info)) :=
  business_types <- get_available_business_types city ;;
  match business_types with
  | [] =>
      print ("No data found for " ++ city) [] ;;;
      print "Run data collection first: python src/collect_data.py" [] ;;;
      ret []
  | _ =>
      print separator [] ;;;
      print ("BATCH ANALYSIS - " ++ city) [] ;;;
      print separator [] ;;;
      print "Found business types to analyze:"
            [of_nat (length business_types)] ;;;
      print (String.concat ", " business_types) [] ;;;
      print separator [] ;;;
      results_summary <-
        batch_loop fuel city (length business_types) 1 business_types [] ;;
      print separator [] ;;;
      print ("BATCH ANALYSIS COMPLETE - " ++ city) [] ;;;
      print separator [] ;;;
      print "Business Type / Status / Locations / Deserts / Avg Score" [] ;;;
      print rule [] ;;;
      forM_ results_summary summary_row ;;;
      print separator [] ;;;
      ret results_summary
  end.

(** ** population_data.py *)

Definition download_worldpop_data_manual_instructions (country : string)
  : M string :=
  print "WORLDPOP DATA DOWNLOAD REQUIRED" [] ;;;
  print "The automated download isn't working. Please download manually:" [] ;;;
  let output_dir := "data/population" in
  os_makedirs output_dir ;;;
  let output_file := output_dir ++ "/worldpop_ITA_2020.tif" in
  print ("Save it to: " ++ output_file) [] ;;;
  print "Then re-run this script" [] ;;;
  ret output_file.

Definition check_for_existing_population_data : M (option string) :=
  match find path_exists possible_files with
  | Some filepath =>
      print ("Found existing population data: " ++ filepath) [] ;;;
      ret (Some filepath)
  | None => ret None
  end.

Definition get_population_for_point (lat lng : num) (raster_path : string)
  : M num :=
  if negb rasterio_installed then
    print "ERROR: rasterio not installed" [] ;;;
    print "Run: pip install rasterio" [] ;;;
    ret (Fin 0)
  else
    match raster_read raster_path lat lng with
    | Return None => ret (Fin 0)
    | Return (Some value) =>
        if num_ltb value (Fin 0) then ret (Fin 0) else ret value
    | Throws e =>
        print "Warning: Could not read population" [lat; lng] ;;;
        ret (Fin 0)
    end.

Definition recalculate_opportunity_with_population (df : ref) : M ref :=
  population <- getitem df "population_1km" ;;
  let max_pop := series_max population in
  (if num_gtb max_pop (Fin 0) then
     population <- getitem df "population_1km" ;;
     setitem df "demand_score" (map (fun x => num_div x max_pop) population)
   else setitem_scalar df "demand_score" (Fin 0)) ;;;
  population <- getitem df "population_1km" ;;
  loc_set df (map (fun x => num_ltb x (Fin 100)) population)
          "demand_score" (Fin 0) ;;;
  original <- getitem df "opportunity_score" ;;
  setitem df "opportunity_score_original" original ;;;
  competition_gap <- get_or df "competition_gap" (Fin 0) ;;
  accessibility_gap <- get_or df "accessibility_gap" (Fin 0) ;;
  demand_score <- getitem df "demand_score" ;;
  viability <- get_or df "viability" (Fin 0.5) ;;
  setitem df "opportunity_score"
          (map (fun x => num_mul x (Fin 10))
               (zip_with num_add
                  (zip_with num_add
                     (zip_with num_add
                        (map (num_mul (Fin 0.30)) competition_gap)
                        (map (num_mul (Fin 0.30)) accessibility_gap))
                     (map (num_mul (Fin 0.30)) demand_score))
                  (map (num_mul (Fin 0.10)) viability))) ;;;
  population <- getitem df "population_1km" ;;
  loc_set df (map (fun x => num_ltb x (Fin 100)) population)
          "opportunity_score" (Fin 0) ;;;
  original <- getitem df "opportunity_score_original" ;;
  let orig_avg := series_mean original in
  score <- getitem df "opportunity_score" ;;
  let new_avg := series_mean score in
  score <- getitem df "opportunity_score" ;;
  zeroed_cells <- select df (map (fun x => num_eqb x (Fin 0)) score) ;;
  zeroed <- len zeroed_cells ;;
  print "Opportunity scores updated" [orig_avg; new_avg; of_nat zeroed] ;;;
  ret df.

(** The enrichment of one analysis file. *)
Definition enrich_file (pop_raster filepath : string) : M unit :=
  if contains "_enriched" filepath then
    print ("Skipping (already enriched): " ++ filepath) []
  else
    print ("Processing: " ++ filepath) [] ;;;
    f <- lift (pd_read_csv filepath) ;;
    df <- alloc f ;;
    rows <- iterrows df ;;
    populations <-
      mapM (fun row =>
              lat <- dict_get row "center_lat" ;;
              lng <- dict_get row "center_lng" ;;
              get_population_for_point lat lng pop_raster) rows ;;
    setitem df "population" populations ;;;
    cells <- iterrows df ;;
    pop_1km <-
      mapM (fun cell =>
              cell_lat <- dict_get cell "center_lat" ;;
              cell_lng <- dict_get cell "center_lng" ;;
              others <- iterrows df ;;
              fold_left
                (fun acc other_cell =>
                   nearby_pop <- acc ;;
                   other_lat <- dict_get other_cell "center_lat" ;;
                   other_lng <- dict_get other_cell "center_lng" ;;
                   dist <- lift (geodesic_km cell_lat cell_lng
                                             other_lat other_lng) ;;
                   if num_leb dist (Fin 1.0) then
                     p <- dict_get other_cell "population" ;;
                     ret (num_add nearby_pop p)
                   else ret nearby_pop)
                others (ret (Fin 0))) cells ;;
    setitem df "population_1km" pop_1km ;;;
    df <- recalculate_opportunity_with_population df ;;
    let new_filepath := py_replace ".csv" "_enriched.csv" filepath in
    f <- deref df ;;
    to_csv f new_filepath ;;;
    population <- getitem df "population_1km" ;;
    let total_pop := series_sum population in
    population <- getitem df "population_1km" ;;
    let avg_pop := series_mean population in
    population <- getitem df "population_1km" ;;
    populated <- select df (map (fun x => num_gtb x (Fin 0)) population) ;;
    cells_with_pop <- len populated ;;
    population <- getitem df "population_1km" ;;
    empty <- select df (map (fun x => num_eqb x (Fin 0)) population) ;;
    empty_cells <- len empty ;;
    print ("Saved: " ++ new_filepath)
          [total_pop; avg_pop; of_nat cells_with_pop; of_nat empty_cells].

Definition add_population_to_analysis (city country : string) : M unit :=
  print ("ADDING POPULATION DATA TO " ++ city ++ " ANALYSES") [] ;;;
  pop_raster <- check_for_existing_population_data ;;
  match pop_raster with
  | None =>
      expected_path <- download_worldpop_data_manual_instructions country ;;
      print "Script paused. Please download the file and re-run." []
  | Some pop_raster =>
      let files :=
        match glob ("data/processed/" ++ city ++ "_*_analysis_filtered_*.csv") with
        | [] =>
            filter (fun f => negb (contains "_enriched" f))
                   (glob ("data/processed/" ++ city ++ "_*_analysis_*.csv"))
        | files => files
        end in
      match files with
      | [] =>
          print ("No analysis files found for " ++ city) [] ;;;
          print ("Run analysis first: python src/analyze.py " ++ city) []
      | _ =>
          print "Found analysis files to enrich" [of_nat (length files)] ;;;
          forM_ files (enrich_file pop_raster) ;;;
          print "COMPLETE!" []
      end
  end.

End Engine.

(** * Specification-side definitions *)

Open Scope list_scope.

(** The frame the supply-only scorer builds from [f]. *)
Definition competition_gap_of (f : DataFrame) (density : Series) : Series :=
  if num_gtb (series_max density) (Fin 0)
  then map (fun x => num_sub (Fin 1) (num_div x (series_max density))) density
  else repeat (Fin 1.0) (index f).

Definition accessibility_gap_of (nearest : Series) : Series :=
  map (fun x => num_div (clip_upper (Fin 3.0) x) (Fin 3.0)) nearest.

Definition supply_score_of (cg ag v : Series) : Series :=
  map (fun x => num_mul x (Fin 10))
      (zip_with num_add
         (zip_with num_add (map (num_mul (Fin 0.40)) cg)
                           (map (num_mul (Fin 0.40)) ag))
         (map (num_mul (Fin 0.20)) v)).

Definition scored_frame (f : DataFrame) (density nearest within : Series)
  : DataFrame :=
  let cg := competition_gap_of f density in
  let ag := accessibility_gap_of nearest in
  let v := map viability_of within in
  df_set (df_set (df_set (df_set f "competition_gap" cg)
                         "accessibility_gap" ag)
                 "viability" v)
         "opportunity_score" (supply_score_of cg ag v).

Definition finite_nonneg (x : num) : Prop := exists q, x = Fin q /\ 0 <= q.

Definition distance_value (x : num) : Prop := x = PInf \/ finite_nonneg x.

Definition count_value (x : num) : Prop :=
  exists (q : Q) (n : Z), x = Fin q /\ q == inject_Z n /\ (0 <= n)%Z.

Definition cell (f : DataFrame) (c : string) (i : nat) : option num :=
  match df_col f c with
  | Some s => s !! i
  | None => None
  end.

(** Every column has one entry per row. *)
Definition frame_ok (f : DataFrame) : Prop :=
  Forall (fun cs => length (snd cs) = index f) (columns f).

Record accessibility_frame (f : DataFrame) (density nearest within : Series)
  : Prop := {
  acc_ok : frame_ok f;
  acc_density : df_col f "density_per_km2" = Some density;
  acc_nearest : df_col f "nearest_distance_km" = Some nearest;
  acc_within : df_col f "services_within_walking" = Some within;
  acc_density_val : Forall finite_nonneg density;
  acc_nearest_val : Forall distance_value nearest;
  acc_within_val : Forall count_value within
}.

(** [m] is the largest value of the series. *)
Definition is_maximum (m : Q) (s : Series) : Prop :=
  (exists q, In (Fin q) s /\ q == m) /\ (forall q, In (Fin q) s -> q <= m).

(** [Series.max] on finite values is the mathematical maximum. *)
Definition max_step (acc x : num) : num :=
  if is_nan x then acc
  else if is_nan acc then x
  else if num_ltb acc x then x else acc.

(** The supply-only sub-scores of one cell, as the specification words
    them. *)
Definition supply_only_cell (max_density d : Q) (n : num) (s : Q)
    (cg ag v score : Q) : Prop :=
  (~ max_density == 0 -> cg == 1 - d / max_density) /\
  (max_density == 0 -> cg == 1) /\
  match n with
  | Fin q => ag == Qmin q 3 / 3
  | PInf => ag == 3 / 3
  | _ => False
  end /\
  (1 <= s /\ s <= 3 -> v == 1) /\
  (s == 0 -> v == 0.5) /\
  (~ (1 <= s /\ s <= 3) -> ~ s == 0 -> v == Qmax 0 (1 - (s - 3) / 10)) /\
  score == 10 * (0.40 * cg + 0.40 * ag + 0.20 * v).

Definition preserves {A} (I : state -> Prop) (m : M A) : Prop :=
  forall st, I st -> I (snd (m st)).

(** The heap extends [h] by some frames. *)
Definition extends (h : list DataFrame) (st : state) : Prop :=
  exists new, heap st = h ++ new.

(** The heap is [h] followed by exactly one frame. *)
Definition one_more (h : list DataFrame) (st : state) : Prop :=
  exists g, heap st = h ++ [g].

(** An invariant that only looks at the heap. *)
Definition heap_only (I : state -> Prop) : Prop :=
  forall st st', heap st = heap st' -> I st -> I st'.

Definition desert_mask (thr : num) (nearest within : Series) : list bool :=
  zip_with orb (map (fun x => num_gtb x thr) nearest)
               (map (fun x => num_ltb x (Fin 2)) within).

(** The desert rule of the specification. *)
Definition is_desert (n : num) (s : Q) : Prop :=
  match n with
  | Fin q => 1.5 < q
  | PInf => True
  | _ => False
  end \/ s < 2.

Definition accessibility_columns : list string :=
  [ "cell_id"; "services_within_walking"; "nearest_distance_km";
    "avg_distance_top3_km"; "density_per_km2"; "center_lat"; "center_lng" ].

Definition demand_of (f : DataFrame) (population : Series) : Series :=
  if num_gtb (series_max population) (Fin 0)
  then map (fun x => num_div x (series_max population)) population
  else repeat (Fin 0) (index f).

Definition low_population (population : Series) : list bool :=
  map (fun x => num_ltb x (Fin 100)) population.

Definition demand_score_of (cg ag dem v : Series) : Series :=
  map (fun x => num_mul x (Fin 10))
      (zip_with num_add
         (zip_with num_add
            (zip_with num_add (map (num_mul (Fin 0.30)) cg)
                              (map (num_mul (Fin 0.30)) ag))
            (map (num_mul (Fin 0.30)) dem))
         (map (num_mul (Fin 0.10)) v)).

(** The frame the demand-weighted re-scoring leaves at its argument. *)
Definition rescored_frame (f : DataFrame) (population original : Series)
  : DataFrame :=
  let low := low_population population in
  let dem := mask_set low (Fin 0) (demand_of f population) in
  let cg := default (repeat (Fin 0) (index f)) (df_col f "competition_gap") in
  let ag := default (repeat (Fin 0) (index f)) (df_col f "accessibility_gap") in
  let v := default (repeat (Fin 0.5) (index f)) (df_col f "viability") in
  df_set (df_set (df_set f "demand_score" dem)
                 "opportunity_score_original" original)
         "opportunity_score"
         (mask_set low (Fin 0) (demand_score_of cg ag dem v)).

Record demand_frame (f : DataFrame) (population original cg ag v : Series)
  : Prop := {
  dem_ok : frame_ok f;
  dem_population : df_col f "population_1km" = Some population;
  dem_original : df_col f "opportunity_score" = Some original;
  dem_cg : df_col f "competition_gap" = Some cg;
  dem_ag : df_col f "accessibility_gap" = Some ag;
  dem_v : df_col f "viability" = Some v;
  dem_population_val : Forall finite_nonneg population
}.

Definition sample_population : DataFrame :=
  mkDF 2 [ ("cell_id", [Fin 0; Fin 1]);
           ("competition_gap", [Fin 1; Fin 1]);
           ("accessibility_gap", [Fin 1; Fin 1]);
           ("viability", [Fin 1; Fin 1]);
           ("opportunity_score", [Fin 10; Fin 10]);
           ("population_1km", [Fin 50; Fin 200]) ].

Definition unit_value (x : num) : Prop := exists q, x = Fin q /\ 0 <= q <= 1.

Definition scores_within (f : DataFrame) (lo hi : Q) : Prop :=
  forall i x, cell f "opportunity_score" i = Some x ->
              exists q, x = Fin q /\ lo <= q <= hi.

(** [n] is the number of points [l, l + s, l + 2 s, ...] that do not
    exceed [e]. *)
Definition steps (l s e : Q) (n : nat) : Prop :=
  e < l + inject_Z (Z.of_nat n) * s /\
  forall j : nat, (j < n)%nat -> l + inject_Z (Z.of_nat j) * s <= e.

(** The centre latitude the grid builder hands to the cosine. *)
Definition center_lat (north south : Q) : num :=
  np_radians (num_div (num_add (Fin north) (Fin south)) (Fin 2)).

Definition milan : dict :=
  [("north", Fin 45.535); ("south", Fin 45.395);
   ("east", Fin 9.280); ("west", Fin 9.065)].



(** [m] never runs out of fuel. *)
Definition terminates {A} (m : M A) : Prop :=
  forall st, fst (m st) <> OutOfFuel.

(** The cosine is positive at the centre latitude of [city]. *)
Definition cos_positive_at (np_cos : num -> num) (city : string) : Prop :=
  forall (bounds : dict) north south,
    assoc city CITY_BOUNDS = Some bounds ->
    assoc "north" bounds = Some (Fin north) ->
    assoc "south" bounds = Some (Fin south) ->
    exists c, np_cos (center_lat north south) = Fin c /\ 0 < c.

(** One row of the final status table. *)
Definition summary_line (entry : string * info) : event :=
  match snd entry with
  | Success total_locations service_deserts avg _ =>
      Printed (fst entry ++ " success")
            [of_nat total_locations; of_nat service_deserts; avg]
  | Error _ => Printed (fst entry ++ " ERROR") []
  end.

Definition header_only_places : DataFrame :=
  mkDF 0 [("place_id", []); ("name", []); ("lat", []); ("lng", [])].

Definition listing (dir : string) : result (list string) :=
  Return ["milan_pharmacy_20240101.csv"].

Definition read_header_only (path : string) : result DataFrame :=
  Return header_only_places.

Definition sample_accessibility : DataFrame :=
  mkDF 3 [ ("cell_id", [Fin 0; Fin 1; Fin 2]);
           ("services_within_walking", [Fin 0; Fin 2; Fin 7]);
           ("nearest_distance_km", [PInf; Fin 0.4; Fin 1.5]);
           ("avg_distance_top3_km", [PInf; Fin 0.6; Fin 2.5]);
           ("density_per_km2", [Fin 0; Fin 0.6; Fin 2.2]);
           ("center_lat", [Fin 45.40; Fin 45.41; Fin 45.42]);
           ("center_lng", [Fin 9.10; Fin 9.11; Fin 9.12]) ].

Definition sample_enriched : DataFrame :=
  mkDF 2 [ ("cell_id", [Fin 0; Fin 1]);
           ("competition_gap", [Fin 1; Fin 0.5]);
           ("accessibility_gap", [Fin 1; Fin 0.2]);
           ("viability", [Fin 0.5; Fin 1]);
           ("opportunity_score", [Fin 9; Fin 4.8]);
           ("population_1km", [Fin 50; Fin 200]) ].

Definition cos_table (x : num) : num := Fin 0.7013.

Definition no_file (path : string) : bool := false.
Definition no_glob (pattern : string) : list string := [].
Definition no_raster (path : string) (lat lng : num) : result (option num) :=
  Throws (FileNotFoundError path).
Definition geodesic_zero (a b c d : num) : result num := Return (Fin 0).

Definition two_listings (dir : string) : result (list string) :=
  Return ["milan_pharmacy_20240101.csv"; "milan_cafe_20240101.csv"].
Definition always_there (path : string) : bool := true.

(** The event leaves every file as it was. *)
Definition writes_no_file (e : event) : Prop :=
  match e with
  | ToCsv _ _ => False
  | _ => True
  end.

(** The frame [f] with its columns and no row. *)
Definition emptied (f : DataFrame) : DataFrame :=
  mkDF 0 (map (fun cs => (fst cs, [])) (columns f)).

(** The cells of one grid row, from longitude [lng] eastwards, and of the
    rows from latitude [lat] northwards, as the two [while] loops append
    them. *)
Fixpoint row_cells (n : nat) (lat_step lng_step lat lng : Q) (cell_id : nat)
  : list dict :=
  match n with
  | O => []
  | S n' =>
      grid_cell cell_id (Fin lat) (Fin lng) (Fin lat_step) (Fin lng_step)
      :: row_cells n' lat_step lng_step lat (lng + lng_step) (S cell_id)
  end.

Fixpoint grid_rows (m n : nat) (lat_step lng_step west lat : Q) (cell_id : nat)
  : list dict :=
  match m with
  | O => []
  | S m' =>
      row_cells n lat_step lng_step lat west cell_id
      ++ grid_rows m' n lat_step lng_step west (lat + lat_step) (cell_id + n)
  end.

Definition grid_columns : list string :=
  [ "cell_id"; "center_lat"; "center_lng";
    "lat_min"; "lat_max"; "lng_min"; "lng_max" ].

(** The records of the distance table for the cells [ids, lats, lngs] and
    the places [pids, plats, plngs]: one per cell and place, cell by cell,
    with [dist] for the geodesic distance. *)
Definition distance_records (dist : num -> num -> num -> num -> num)
    (cells places : nat) (ids lats lngs pids plats plngs : Series)
  : list dict :=
  flat_map (fun i =>
              map (fun j =>
                     [ ("cell_id", nth i ids NaN);
                       ("place_id", nth j pids NaN);
                       ("distance_km", dist (nth i lats NaN) (nth i lngs NaN)
                                            (nth j plats NaN) (nth j plngs NaN)) ])
                  (seq 0 places))
           (seq 0 cells).

Definition distance_columns : list string :=
  [ "cell_id"; "place_id"; "distance_km" ].

(** A series in the order [sort_values] gives it. *)
Definition sorted_series (s : Series) : Series :=
  map (fun i => nth i s NaN) (sort_permutation s).

(** The record the analyzer makes for a cell whose distances are [ds]. *)
Definition accessibility_record (walking cell_id : num) (ds : Series) : dict :=
  let sd := sorted_series ds in
  [ ("cell_id", cell_id);
    ("services_within_walking",
     of_nat (count_true (map (fun x => num_leb x walking) sd)));
    ("nearest_distance_km",
     if Nat.ltb 0 (length ds) then nth 0 sd NaN else np_inf);
    ("avg_distance_top3_km",
     if Nat.ltb 0 (Nat.min 3 (length ds)) then series_mean (firstn 3 sd)
     else np_inf);
    ("density_per_km2",
     num_div (of_nat (count_true (map (fun x => num_leb x (Fin 1.0)) sd)))
             (Fin (np_pi * (1.0 * 1.0)))) ].

(** The distances of the table [key, dist] that belong to [cell_id]. *)
Definition distances_of (key dist : Series) (cell_id : num) : Series :=
  mask_filter (map (fun k => num_eqb k cell_id) key) dist.

Definition record_columns : list string :=
  [ "cell_id"; "services_within_walking"; "nearest_distance_km";
    "avg_distance_top3_km"; "density_per_km2" ].

(** The paths of the CSV files written along a trace, in order. *)
Definition written_files (t : list event) : list string :=
  flat_map (fun e => match e with ToCsv path _ => [path] | _ => [] end) t.

(** [m] writes no file. *)
Definition quiet {A} (m : M A) : Prop :=
  forall st, written_files (trace (snd (m st))) = written_files (trace st).

(** The file [save_analysis] writes to. *)
Definition analysis_file (today city business_type : string) : string :=
  "data/processed/" ++ city ++ "_" ++ business_type ++ "_analysis_"
                    ++ today ++ ".csv".

(** [m] appends to the files written so far a list that satisfies [P]. *)
Definition appends {A} (m : M A) (P : list string -> Prop) : Prop :=
  forall st, exists new,
    written_files (trace (snd (m st))) = written_files (trace st) ++ new /\
    P new.

(** [m] writes [files] when it returns, and nothing or [files] when it
    does not. *)
Definition writes_upto {A} (files : list string) (m : M A) : Prop :=
  forall st, exists new,
    written_files (trace (snd (m st))) = written_files (trace st) ++ new /\
    (new = [] \/ new = files) /\
    (forall a, fst (m st) = Ok a -> new = files).

(** [m] writes [files], whatever its outcome. *)
Definition writes_exactly {A} (files : list string) (m : M A) : Prop :=
  forall st,
    written_files (trace (snd (m st))) = written_files (trace st) ++ files.

(** The name under which the enrichment of [filepath] is saved. *)
Definition enriched_file (filepath : string) : string :=
  py_replace ".csv" "_enriched.csv" filepath.

Definition score_columns : list string :=
  [ "competition_gap"; "accessibility_gap"; "viability"; "opportunity_score" ].

(** The population that [get_population_for_point] hands back. *)
Definition point_population
    (raster_read : string -> num -> num -> result (option num))
    (rasterio_installed : bool) (path : string) (lat lng : num) : num :=
  if negb rasterio_installed then Fin 0
  else match raster_read path lat lng with
       | Return (Some value) => if num_ltb value (Fin 0) then Fin 0 else value
       | _ => Fin 0
       end.

(** The population within 1 km of the cell at [(lat, lng)]: the sum over
    the cells whose centre is at most 1.0 km away. *)
Definition nearby_population (dist : num -> num -> num -> num -> num)
    (lats lngs populations : Series) (lat lng : num) : num :=
  fold_left (fun acc j =>
               if num_leb (dist lat lng (nth j lats NaN) (nth j lngs NaN))
                          (Fin 1.0)
               then num_add acc (nth j populations NaN) else acc)
            (seq 0 (length lats)) (Fin 0).

(** The frame that the enrichment of the analysis frame [f] saves. *)
Definition enriched_frame
    (raster_read : string -> num -> num -> result (option num))
    (rasterio_installed : bool) (dist : num -> num -> num -> num -> num)
    (pop_raster : string) (f : DataFrame) (lats lngs original : Series)
  : DataFrame :=
  let populations :=
    zip_with (point_population raster_read rasterio_installed pop_raster)
             lats lngs in
  let population_1km :=
    zip_with (nearby_population dist lats lngs populations) lats lngs in
  rescored_frame
    (df_set (df_set f "population" populations) "population_1km" population_1km)
    population_1km original.

(** ** Sample data *)

Definition sample_places : DataFrame :=
  mkDF 2 [ ("place_id", [Fin 1; Fin 2]);
           ("lat", [Fin 45.40; Fin 45.50]);
           ("lng", [Fin 9.10; Fin 9.20]) ].

Definition read_places (path : string) : result DataFrame :=
  Return sample_places.

Definition sample_grid : DataFrame :=
  mkDF 2 [ ("cell_id", [Fin 0; Fin 1]);
           ("center_lat", [Fin 45.40; Fin 45.41]);
           ("center_lng", [Fin 9.10; Fin 9.11]) ].

Definition sample_distances : DataFrame :=
  mkDF 3 [ ("cell_id", [Fin 0; Fin 1; Fin 0]);
           ("place_id", [Fin 1; Fin 1; Fin 2]);
           ("distance_km", [Fin 0.8; Fin 2.5; Fin 0.3]) ].

Definition flat_distance (lat1 lng1 lat2 lng2 : num) : num := Fin 0.

Definition sample_pair : DataFrame :=
  mkDF 2 [ ("cell_id", [Fin 0; Fin 1]);
           ("services_within_walking", [Fin 2; Fin 2]);
           ("nearest_distance_km", [Fin 0.5; Fin 0.5]);
           ("avg_distance_top3_km", [Fin 0.7; Fin 0.7]);
           ("density_per_km2", [Fin 0.3; Fin 0.6]);
           ("center_lat", [Fin 45.40; Fin 45.41]);
           ("center_lng", [Fin 9.10; Fin 9.11]) ].

Definition sample_counts : DataFrame :=
  mkDF 2 [ ("cell_id", [Fin 0; Fin 1]);
           ("opportunity_score", [Fin 9; Fin 4.8]);
           ("population_1km", [Fin 150; Fin 200]) ].

Definition sample_unscored : DataFrame :=
  mkDF 2 [ ("cell_id", [Fin 0; Fin 1]);
           ("population_1km", [Fin 50; Fin 200]) ].

Definition no_cells : DataFrame :=
  mkDF 0 [ ("nearest_distance_km", []); ("services_within_walking", []) ].

Definition sample_scored : DataFrame :=
  mkDF 2 [ ("cell_id", [Fin 0; Fin 1]);
           ("center_lat", [Fin 45.40; Fin 45.41]);
           ("center_lng", [Fin 9.10; Fin 9.11]);
           ("opportunity_score", [Fin 9; Fin 4.8]) ].

Definition read_scored (path : string) : result DataFrame :=
  Return sample_scored.

Definition sample_analysis_file : string :=
  "data/processed/milan_pharmacy_analysis_20240102.csv".

Definition flat_raster (path : string) (lat lng : num) : result (option num) :=
  Return (Some (Fin 120)).

(** The value of [x] after [k] turns of [x += step], started at [start],
    with [add] for the addition. *)
Fixpoint stepped (add : num -> num -> num) (start step : num) (k : nat) : num :=
  match k with
  | O => start
  | S k' => stepped add (add start step) step k'
  end.

(** The loop [while x <= bound: ...; x += step], started at [start], makes
    [n] turns. *)
Definition turns (add : num -> num -> num) (start step bound : num) (n : nat)
  : Prop :=
  (forall k : nat, (k < n)%nat -> num_leb (stepped add start step k) bound = true) /\
  num_leb (stepped add start step n) bound = false.

(** The first [n] values of [x += step] never go backwards. *)
Definition never_back (add : num -> num -> num) (start step : num) (n : nat)
  : Prop :=
  forall k : nat, (S k < n)%nat ->
    num_leb (stepped add start step k) (stepped add start step (S k)) = true.

(** [turns] and [never_back], decided on the first [n] values. *)
Definition turnsb (add : num -> num -> num) (start step bound : num) (n : nat)
  : bool :=
  forallb (fun k => num_leb (stepped add start step k) bound) (seq 0 n)
  && negb (num_leb (stepped add start step n) bound).

Definition never_backb (add : num -> num -> num) (start step : num) (n : nat)
  : bool :=
  forallb (fun k => num_leb (stepped add start step k)
                            (stepped add start step (S k)))
          (seq 0 (Nat.pred n)).

(** The records of one row of the grid: [n] cells at latitude [lat], from
    longitude [lng] on. *)
Fixpoint row_records (add : num -> num -> num) (n : nat)
    (lat lat_step lng_step lng : num) (cell_id : nat) : list dict :=
  match n with
  | O => []
  | S n' =>
      grid_cell cell_id lat lng lat_step lng_step
      :: row_records add n' lat lat_step lng_step (add lng lng_step) (S cell_id)
  end.

(** The records of [m] rows of [n] cells, from latitude [lat] on. *)
Fixpoint grid_records (add : num -> num -> num) (m n : nat)
    (lat_step lng_step west lat : num) (cell_id : nat) : list dict :=
  match m with
  | O => []
  | S m' =>
      row_records add n lat lat_step lng_step west cell_id
      ++ grid_records add m' n lat_step lng_step west (add lat lat_step)
                      (cell_id + n)
  end.

(** The number of rows of the frame a run has just made, if it returned
    one. *)
Definition index_of_grid (run : outcome ref * state) : option nat :=
  match run with
  | (Ok grid, st) => index <$> heap st !! grid
  | _ => None
  end.

(** ** Binary64 addition *)

(** An integer as a binary64 number; exact below 2^53 and on the powers of
    two below 2^63. *)
Definition float_of_Z (z : Z) : PrimFloat.float :=
  match z with
  | Z0 => PrimFloat.zero
  | Zpos _ => PrimFloat.of_uint63 (Uint63.of_Z z)
  | Zneg p => PrimFloat.opp (PrimFloat.of_uint63 (Uint63.of_Z (Zpos p)))
  end.

(** A rational read as a binary64 number by one correctly rounded division:
    the nearest binary64 number when numerator and denominator are below
    2^53, and the number itself when it is a binary64 number of magnitude
    between 2^-10 and 2^53, which covers coordinates in degrees and the
    steps of a grid. *)
Definition float_of_Q (q : Q) : PrimFloat.float :=
  PrimFloat.div (float_of_Z (Qnum q)) (float_of_Z (Zpos (Qden q))).

(** A binary64 number as the rational or special value it is. *)
Definition num_of_float (f : PrimFloat.float) : num :=
  match FloatOps.Prim2SF f with
  | SpecFloat.S754_zero _ => Fin 0
  | SpecFloat.S754_infinity false => PInf
  | SpecFloat.S754_infinity true => NInf
  | SpecFloat.S754_nan => NaN
  | SpecFloat.S754_finite s m e =>
      let n := if s then Zneg m else Zpos m in
      Fin (match e with
           | Z0 => inject_Z n
           | Zpos _ => inject_Z (n * 2 ^ e)
           | Zneg k => n # (2 ^ k)%positive
           end)
  end.

(** Python's [x + y] on floats: the binary64 sum, rounded to nearest. *)
Definition binary64_add (x y : num) : num :=
  match x, y with
  | Fin a, Fin b => num_of_float (PrimFloat.add (float_of_Q a) (float_of_Q b))
  | _, _ => num_add x y
  end.

(** Bounds on which exact and binary64 stepping part ways: half a degree of
    latitude at a spacing of 0.5 km is 111 steps to the last digit. *)
Definition half_degree : dict :=
  [("north", Fin 0.5); ("south", Fin 0); ("east", Fin 0); ("west", Fin 0)].

(** ** What the batch driver owes each business type *)

(** The state [st] once [lines] have been printed after it. *)
Definition after (st : state) (lines : list event) : state :=
  mkState (heap st) (trace st ++ lines).

Section BatchRecord.

Variable np_cos : num -> num.
Variable geodesic_km : num -> num -> num -> num -> result num.
Variable os_listdir : string -> result (list string).
Variable pd_read_csv : string -> result DataFrame.
Variable today : string.

(** The summary entry of a business type whose analysis ended as [run], and
    the state [st'] in which the driver goes on: an analysis that raised
    [e] is recorded as the error [e]; one that returned is recorded as a
    success, with the number of places in the file (loaded once more), the
    number of deserts and the mean and the maximum of the scores. Running
    out of fuel is recorded as nothing. *)
Definition recorded (city biz_type : string)
    (run : outcome (ref * ref) * state) (entry : info) (st' : state) : Prop :=
  match run with
  | (Ok (results, deserts), s1) =>
      exists places loaded found scored score,
        load_data os_listdir pd_read_csv city biz_type s1 = (Ok places, st') /\
        heap st' !! places = Some loaded /\
        heap st' !! deserts = Some found /\
        heap st' !! results = Some scored /\
        df_col scored "opportunity_score" = Some score /\
        entry = Success (index loaded) (index found)
                        (series_mean score) (series_max score)
  | (Raise e, s1) =>
      entry = Error e /\
      st' = after s1 [Printed ("Error analyzing " ++ biz_type) []]
  | (OutOfFuel, _) => False
  end.

(** The driver's loop over [types], started in [st] at position [idx] of
    [total], leaves the entries [summary], one per type and in the order of
    the types, and ends in [st']: every type is announced and analysed in
    the state its predecessor left, whatever became of the predecessor, and
    gets the entry that its own analysis earns. *)
Fixpoint batch_run (fuel : nat) (city : string) (total idx : nat)
    (types : list string) (st : state) (summary : list (string * info))
    (st' : state) : Prop :=
  match types, summary with
  | [], [] => st' = st
  | biz_type :: rest, (key, entry) :: more =>
      key = biz_type /\
      exists s2,
        recorded city biz_type
          (analyze_city np_cos geodesic_km os_listdir pd_read_csv today
                        fuel city biz_type
             (after st [ Printed separator [];
                         Printed ("Processing: " ++ biz_type)
                                 [of_nat idx; of_nat total];
                         Printed separator [] ]))
          entry s2 /\
        batch_run fuel city total (S idx) rest s2 more st'
  | _, _ => False
  end.

End BatchRecord.

(** The lines the driver prints before its loop and between the loop and
    the rows of the status table. *)
Definition batch_header (city : string) (types : list string) : list event :=
  [ Printed separator [];
    Printed ("BATCH ANALYSIS - " ++ city) [];
    Printed separator [];
    Printed "Found business types to analyze:" [of_nat (length types)];
    Printed (String.concat ", " types) [];
    Printed separator [] ].

Definition table_header (city : string) : list event :=
  [ Printed separator [];
    Printed ("BATCH ANALYSIS COMPLETE - " ++ city) [];
    Printed separator [];
    Printed "Business Type / Status / Locations / Deserts / Avg Score" [];
    Printed rule [] ].

(** * Verification *)

(** * Basic facts *)

Lemma Qltb_lt a b : Qltb a b = true <-> a < b.
Proof. unfold Qltb. rewrite Qlt_alt. destruct (a ?= b); split; congruence. Qed.

Lemma Qleb_le a b : Qleb a b = true <-> a <= b.
Proof.
  unfold Qleb. rewrite Qle_alt. destruct (a ?= b); split; congruence.
Qed.

Lemma Qeqb_eq a b : Qeqb a b = true <-> a == b.
Proof. unfold Qeqb. rewrite Qeq_alt. destruct (a ?= b); split; congruence. Qed.

Lemma Qltb_nlt a b : Qltb a b = false <-> ~ a < b.
Proof. rewrite <- Qltb_lt. destruct (Qltb a b); split; congruence. Qed.

Lemma Qeqb_neq a b : Qeqb a b = false <-> ~ a == b.
Proof. rewrite <- Qeqb_eq. destruct (Qeqb a b); split; congruence. Qed.

Lemma num_leb_fin a b : num_leb (Fin a) (Fin b) = true <-> a <= b.
Proof.
  unfold num_leb; simpl. rewrite orb_true_iff, Qltb_lt, Qeqb_eq. split.
  - intros [H | H]; lra.
  - intros H. destruct (Qlt_le_dec a b); [left | right]; lra.
Qed.

Lemma num_leb_fin_false a b : num_leb (Fin a) (Fin b) = false <-> b < a.
Proof.
  split.
  - intros H. destruct (Qlt_le_dec b a) as [|Hle]; [easy|].
    apply num_leb_fin in Hle. congruence.
  - intros H. destruct (num_leb (Fin a) (Fin b)) eqn:E; [|easy].
    apply num_leb_fin in E. lra.
Qed.

(** * Running the primitives *)

Lemma bind_ok {A B} (m : M A) (k : A -> M B) st a st' :
  m st = (Ok a, st') -> bind m k st = k a st'.
Proof. unfold bind. intros ->. reflexivity. Qed.

Lemma deref_run st r f : heap st !! r = Some f -> deref r st = (Ok f, st).
Proof. unfold deref. intros ->. reflexivity. Qed.

Lemma getitem_run st r f c s :
  heap st !! r = Some f -> df_col f c = Some s -> getitem r c st = (Ok s, st).
Proof.
  intros Hr Hc. unfold getitem. rewrite (bind_ok _ _ _ _ _ (deref_run _ _ _ Hr)).
  rewrite Hc. reflexivity.
Qed.

Lemma setitem_run st r f c s :
  heap st !! r = Some f -> length s = index f ->
  setitem r c s st =
    (Ok tt, mkState (<[r := df_set f c s]> (heap st)) (trace st)).
Proof.
  intros Hr Hl. unfold setitem. rewrite (bind_ok _ _ _ _ _ (deref_run _ _ _ Hr)).
  rewrite Hl, Nat.eqb_refl. reflexivity.
Qed.

Lemma assoc_set_eq {A} k (v : A) l : assoc k (assoc_set k v l) = Some v.
Proof.
  induction l as [|[k' v'] l IH]; simpl.
  - rewrite String.eqb_refl. reflexivity.
  - destruct (String.eqb k k') eqn:E; simpl; rewrite E; [reflexivity | exact IH].
Qed.

Lemma assoc_set_ne {A} k k' (v : A) l :
  k <> k' -> assoc k' (assoc_set k v l) = assoc k' l.
Proof.
  intros Hne. induction l as [|[k0 v0] l IH]; simpl.
  - apply String.eqb_neq in Hne. rewrite String.eqb_sym, Hne. reflexivity.
  - destruct (String.eqb k k0) eqn:E; simpl.
    + apply String.eqb_eq in E. subst k0.
      destruct (String.eqb k' k) eqn:E'; [|reflexivity].
      apply String.eqb_eq in E'. congruence.
    + destruct (String.eqb k' k0); [reflexivity | exact IH].
Qed.

Lemma assoc_set_fresh {A} k (v : A) l :
  assoc k l = None -> assoc_set k v l = (l ++ [(k, v)])%list.
Proof.
  induction l as [|[k' v'] l IH]; simpl; [reflexivity|].
  destruct (String.eqb k k'); [discriminate|]. intros H. rewrite IH; auto.
Qed.

Lemma df_col_set_eq f c s : df_col (df_set f c s) c = Some s.
Proof. apply assoc_set_eq. Qed.

Lemma df_col_set_ne f c c' s :
  c <> c' -> df_col (df_set f c s) c' = df_col f c'.
Proof. apply assoc_set_ne. Qed.

Ltac col :=
  repeat match goal with x := _ : DataFrame |- _ => progress unfold x end;
  rewrite ?df_col_set_ne by done;
  first [ apply df_col_set_eq | eassumption ].

Ltac step_get H s :=
  match type of H with
  | heap ?st !! ?r = Some ?f =>
      match goal with
      | |- context [bind (getitem r ?c) ?k ?st'] =>
          unify st st';
          let C := fresh "C" in
          assert (C : df_col f c = Some s) by col;
          rewrite (bind_ok (getitem r c) k st' s st'
                           (getitem_run st' r f c s H C));
          clear C
      end
  end.

Lemma copy_run st r f :
  heap st !! r = Some f ->
  copy r st = (Ok (length (heap st)), mkState (heap st ++ [f]) (trace st)).
Proof.
  intros Hr. unfold copy. rewrite (bind_ok _ _ _ _ _ (deref_run _ _ _ Hr)).
  reflexivity.
Qed.

Lemma setitem_scalar_run st r f c x :
  heap st !! r = Some f ->
  setitem_scalar r c x st =
    (Ok tt, mkState (<[r := df_set f c (repeat x (index f))]> (heap st)) (trace st)).
Proof.
  intros Hr. unfold setitem_scalar.
  rewrite (bind_ok _ _ _ _ _ (deref_run _ _ _ Hr)). reflexivity.
Qed.

Lemma lookup_snoc {A} (h : list A) x : (h ++ [x]) !! length h = Some x.
Proof. by apply list_lookup_middle. Qed.

Lemma insert_snoc {A} (h : list A) x y : <[length h := y]> (h ++ [x]) = h ++ [y].
Proof.
  rewrite insert_app_r_alt by lia. by rewrite Nat.sub_diag.
Qed.

Lemma length_zip_with {A B C} (g : A -> B -> C) l l' :
  length l = length l' -> length (zip_with g l l') = length l.
Proof.
  revert l'; induction l as [|x l IH]; intros [|y l']; simpl; try easy.
  intros H. f_equal. apply IH. lia.
Qed.

Lemma calculate_opportunity_scores_run st r f density nearest within :
  heap st !! r = Some f ->
  df_col f "density_per_km2" = Some density ->
  df_col f "nearest_distance_km" = Some nearest ->
  df_col f "services_within_walking" = Some within ->
  length density = index f -> length nearest = index f ->
  length within = index f ->
  exists t',
    calculate_opportunity_scores r st =
      (Ok (length (heap st)),
       mkState (heap st ++ [scored_frame f density nearest within]) t').
Proof.
  intros Hr Hd Hn Hw Ld Ln Lw. unfold calculate_opportunity_scores.
  rewrite (bind_ok _ _ _ _ _ (copy_run _ _ _ Hr)).
  assert (H0 : heap (mkState (heap st ++ [f]) (trace st)) !! length (heap st)
               = Some f) by apply lookup_snoc.
  rewrite (bind_ok _ _ _ _ _ (getitem_run _ _ _ _ _ H0 Hd)).
  set (cg := competition_gap_of f density).
  assert (Lcg : length cg = index f).
  { unfold cg, competition_gap_of. destruct (num_gtb _ _).
    - by rewrite length_map.
    - by rewrite repeat_length. }
  set (f1 := df_set f "competition_gap" cg).
  lazymatch goal with
  | |- context [bind (if ?b then ?m1 else ?m2) _ ?s] =>
      assert (E1 : (if b then m1 else m2) s
                   = (Ok tt, mkState (heap st ++ [f1]) (trace st)))
  end.
  { unfold f1, cg, competition_gap_of. destruct (num_gtb _ _) eqn:E.
    - rewrite (bind_ok _ _ _ _ _ (getitem_run _ _ _ _ _ H0 Hd)).
      rewrite (setitem_run _ _ _ _ _ H0) by (by rewrite length_map).
      simpl. by rewrite insert_snoc.
    - rewrite (setitem_scalar_run _ _ _ _ _ H0). simpl. by rewrite insert_snoc. }
  rewrite (bind_ok _ _ _ _ _ E1). clear E1.
  assert (H1 : heap (mkState (heap st ++ [f1]) (trace st)) !! length (heap st) = Some f1)
    by apply lookup_snoc.
  step_get H1 nearest.
  set (ag := accessibility_gap_of nearest).
  assert (Lag : length ag = index f) by (unfold ag, accessibility_gap_of; by rewrite length_map).
  rewrite (bind_ok _ _ _ _ _ (setitem_run _ _ _ "accessibility_gap" ag H1 Lag)).
  simpl heap; simpl trace. rewrite insert_snoc.
  set (f2 := df_set f1 "accessibility_gap" ag).
  assert (H2 : heap (mkState (heap st ++ [f2]) (trace st)) !! length (heap st) = Some f2)
    by apply lookup_snoc.
  step_get H2 within.
  set (v := map viability_of within).
  assert (Lv : length v = index f) by (unfold v; by rewrite length_map).
  rewrite (bind_ok _ _ _ _ _ (setitem_run _ _ _ "viability" v H2 Lv)).
  simpl heap; simpl trace. rewrite insert_snoc.
  set (f3 := df_set f2 "viability" v).
  assert (H3 : heap (mkState (heap st ++ [f3]) (trace st)) !! length (heap st) = Some f3)
    by apply lookup_snoc.
  step_get H3 cg.
  step_get H3 ag.
  step_get H3 v.
  assert (Ls : length (supply_score_of cg ag v) = index f).
  { unfold supply_score_of. rewrite length_map.
    rewrite length_zip_with; rewrite length_zip_with; rewrite ?length_map; lia. }
  fold (supply_score_of cg ag v).
  rewrite (bind_ok _ _ _ _ _ (setitem_run _ _ _ "opportunity_score" _ H3 Ls)).
  simpl heap; simpl trace. rewrite insert_snoc.
  set (f4 := df_set f3 "opportunity_score" (supply_score_of cg ag v)).
  assert (H4 : heap (mkState (heap st ++ [f4]) (trace st)) !! length (heap st) = Some f4)
    by apply lookup_snoc.
  step_get H4 (supply_score_of cg ag v).
  unfold bind, print, ret. simpl. eexists. reflexivity.
Qed.

(** * The data model of accessibility records *)

Lemma frame_ok_col f c s : frame_ok f -> df_col f c = Some s -> length s = index f.
Proof.
  unfold frame_ok, df_col. induction (columns f) as [|[k v] l IH]; simpl.
  - discriminate.
  - intros H. apply Forall_cons_1 in H as [Hv Hl].
    destruct (String.eqb c k); [intros [= <-]; exact Hv | auto].
Qed.

Lemma lookup_map {A B} (g : A -> B) l i :
  map g l !! i = option_map g (l !! i).
Proof.
  revert i; induction l as [|x l IH]; intros [|i]; simpl; auto.
Qed.

Lemma lookup_zip_with {A B C} (g : A -> B -> C) l l' i x y :
  l !! i = Some x -> l' !! i = Some y ->
  zip_with g l l' !! i = Some (g x y).
Proof.
  revert l' i; induction l as [|a l IH]; intros [|b l'] [|i]; simpl;
    try discriminate; try congruence.
  apply IH.
Qed.

Lemma lookup_repeat {A} (x : A) n i : (i < n)%nat -> repeat x n !! i = Some x.
Proof.
  revert i; induction n as [|n IH]; intros [|i] H; simpl; try lia; auto.
  apply IH. lia.
Qed.

Lemma lookup_In {A} (l : list A) i x : l !! i = Some x -> In x l.
Proof.
  revert i; induction l as [|a l IH]; intros [|i]; simpl; try discriminate.
  - intros [= ->]. by left.
  - intros H. right. eauto.
Qed.

Lemma fold_max_finite s a :
  Forall finite_nonneg s ->
  exists m, fold_left max_step s (Fin a) = Fin m /\ a <= m /\
            (m = a \/ In (Fin m) s) /\
            (forall q, In (Fin q) s -> q <= m).
Proof.
  revert a; induction s as [|x s IH]; intros a Hs; simpl.
  - exists a. repeat split; auto; try lra. intros q [].
  - inversion Hs as [|? ? [q [-> Hq]] Hs']; subst.
    unfold max_step at 2; simpl.
    destruct (Qltb a q) eqn:E.
    + apply Qltb_lt in E. destruct (IH q Hs') as (m & Hm & Hle & Hin & Hall).
      exists m. repeat split; auto; try lra.
      * destruct Hin as [-> | Hin]; auto.
      * intros q' [[= <-] | Hq']; auto.
    + apply Qltb_nlt in E. destruct (IH a Hs') as (m & Hm & Hle & Hin & Hall).
      exists m. repeat split; auto.
      * destruct Hin as [-> | Hin]; auto.
      * intros q' [[= <-] | Hq']; auto. lra.
Qed.

Lemma series_max_finite s :
  Forall finite_nonneg s -> s <> [] ->
  exists m, series_max s = Fin m /\ In (Fin m) s /\ 0 <= m /\
            (forall q, In (Fin q) s -> q <= m).
Proof.
  intros Hs Hne. destruct s as [|x s]; [congruence|].
  inversion Hs as [|? ? [q [-> Hq]] Hs']; subst.
  unfold series_max; simpl.
  destruct (fold_max_finite s q Hs') as (m & Hm & Hle & Hin & Hall).
  exists m. change (fold_left _ s (Fin q)) with (fold_left max_step s (Fin q)).
  repeat split; auto; try lra.
  - destruct Hin as [-> | Hin]; auto.
  - intros q' [[= <-] | Hq']; auto.
Qed.

Lemma is_maximum_unique m m' s : is_maximum m s -> is_maximum m' s -> m == m'.
Proof.
  intros [(q & Hq & Eq) Hle] [(q' & Hq' & Eq') Hle'].
  apply Hle in Hq'. apply Hle' in Hq. lra.
Qed.

(** * The supply-only policy, cell by cell *)

Lemma py_max_fin a b : py_max (Fin a) (Fin b) = Fin (if Qltb a b then b else a).
Proof. unfold py_max, num_gtb; simpl. destruct (Qltb a b); reflexivity. Qed.

Lemma Qltb_max a b : (if Qltb a b then b else a) == Qmax a b.
Proof.
  destruct (Q.max_spec a b) as [[Hlt ->] | [Hle ->]].
  - apply Qltb_lt in Hlt. rewrite Hlt. reflexivity.
  - destruct (Qltb a b) eqn:E; [|reflexivity]. apply Qltb_lt in E. lra.
Qed.

Lemma decay_value s :
  num_sub (Fin 1) (num_div (num_sub (Fin s) (Fin 3)) (Fin 10))
  = Fin (1 - (s - 3) / 10).
Proof. reflexivity. Qed.

Lemma viability_of_fin s :
  exists v, viability_of (Fin s) = Fin v /\
    (1 <= s /\ s <= 3 -> v == 1) /\
    (s == 0 -> v == 0.5) /\
    (~ (1 <= s /\ s <= 3) -> ~ s == 0 -> v == Qmax 0 (1 - (s - 3) / 10)).
Proof.
  unfold viability_of. rewrite decay_value, py_max_fin.
  destruct (num_leb (Fin 1) (Fin s)) eqn:E1;
    [destruct (num_leb (Fin s) (Fin 3)) eqn:E3 |]; simpl andb; cbv iota.
  - apply num_leb_fin in E1, E3. exists 1.0. repeat split; intros; try lra.
  - apply num_leb_fin in E1. apply num_leb_fin_false in E3.
    change (num_eqb (Fin s) (Fin 0)) with (Qeqb s 0).
    destruct (Qeqb s 0) eqn:E0; [apply Qeqb_eq in E0; lra|].
    eexists. split; [reflexivity|].
    repeat split; intros; try lra. apply Qltb_max.
  - apply num_leb_fin_false in E1.
    change (num_eqb (Fin s) (Fin 0)) with (Qeqb s 0).
    destruct (Qeqb s 0) eqn:E0.
    + apply Qeqb_eq in E0. exists 0.5. repeat split; intros; try lra.
    + apply Qeqb_neq in E0. eexists. split; [reflexivity|].
      repeat split; intros; try lra. apply Qltb_max.
Qed.

Lemma accessibility_gap_value n :
  distance_value n ->
  exists ag, num_div (clip_upper (Fin 3.0) n) (Fin 3.0) = Fin ag /\
    match n with
    | Fin q => ag == Qmin q 3 / 3
    | PInf => ag == 3 / 3
    | _ => False
    end.
Proof.
  intros [-> | (q & -> & Hq)].
  - exists (3.0 / 3.0). split; reflexivity.
  - unfold clip_upper, num_gtb; simpl.
    destruct (Qltb 3.0 q) eqn:E.
    + apply Qltb_lt in E. exists (3.0 / 3.0). split; [reflexivity|].
      rewrite Q.min_r by lra. reflexivity.
    + apply Qltb_nlt in E. exists (q / 3.0). split; [reflexivity|].
      rewrite Q.min_l by lra. assert (E3 : 3.0 == 3) by reflexivity.
      rewrite E3. reflexivity.
Qed.

Lemma competition_gap_value f density i d :
  Forall finite_nonneg density -> length density = index f ->
  density !! i = Some (Fin d) ->
  exists cg, competition_gap_of f density !! i = Some (Fin cg) /\
    forall m, is_maximum m density ->
      (~ m == 0 -> cg == 1 - d / m) /\ (m == 0 -> cg == 1).
Proof.
  intros Hv Hl Hi.
  assert (Hne : density <> []) by (intros ->; discriminate).
  destruct (series_max_finite _ Hv Hne) as (m & Hm & Hin & Hpos & Hall).
  assert (Hmax : is_maximum m density).
  { split; auto. exists m. split; auto. reflexivity. }
  unfold competition_gap_of. rewrite Hm.
  change (num_gtb (Fin m) (Fin 0)) with (Qltb 0 m).
  destruct (Qltb 0 m) eqn:E.
  - apply Qltb_lt in E. rewrite lookup_map, Hi. unfold option_map, num_div.
    destruct (Qeqb m 0) eqn:E0; [apply Qeqb_eq in E0; lra|].
    eexists. split; [reflexivity|].
    intros m' Hm'. rewrite (is_maximum_unique _ _ _ Hm' Hmax).
    split; intros; [reflexivity | lra].
  - apply Qltb_nlt in E. rewrite lookup_repeat.
    2:{ rewrite <- Hl. eapply lookup_lt_Some; eauto. }
    exists 1.0. split; [reflexivity|].
    intros m' Hm'. rewrite (is_maximum_unique _ _ _ Hm' Hmax).
    split; intros; [lra | reflexivity].
Qed.

Lemma supply_score_value cg ag v (x y z : Q) i :
  cg !! i = Some (Fin x) -> ag !! i = Some (Fin y) -> v !! i = Some (Fin z) ->
  supply_score_of cg ag v !! i
  = Some (Fin ((0.40 * x + 0.40 * y + 0.20 * z) * 10)).
Proof.
  intros Hx Hy Hz. unfold supply_score_of.
  rewrite lookup_map.
  rewrite (lookup_zip_with _ _ _ _
             (num_add (num_mul (Fin 0.40) (Fin x)) (num_mul (Fin 0.40) (Fin y)))
             (num_mul (Fin 0.20) (Fin z))).
  - reflexivity.
  - apply lookup_zip_with; rewrite lookup_map; [rewrite Hx | rewrite Hy];
      reflexivity.
  - rewrite lookup_map, Hz. reflexivity.
Qed.

(** C1. On every set of accessibility records the supply-only scorer
    returns a new frame in which every cell has
    competition_gap = 1 - density / max_density (1 when the largest density
    of the set is 0), accessibility_gap = min(nearest_distance_km, 3) / 3,
    viability = 1 for one to three services within walking distance, 0.5 for
    none and max(0, 1 - (s - 3) / 10) otherwise, and
    opportunity_score = 10 * (0.40 cg + 0.40 ag + 0.20 v). *)
Theorem supply_only_scores_formula st r f density nearest within :
  heap st !! r = Some f ->
  accessibility_frame f density nearest within ->
  exists st' f',
    calculate_opportunity_scores r st = (Ok (length (heap st)), st') /\
    heap st' !! length (heap st) = Some f' /\
    forall i d n s max_density,
      density !! i = Some (Fin d) -> nearest !! i = Some n ->
      within !! i = Some (Fin s) -> is_maximum max_density density ->
      exists cg ag v score,
        cell f' "competition_gap" i = Some (Fin cg) /\
        cell f' "accessibility_gap" i = Some (Fin ag) /\
        cell f' "viability" i = Some (Fin v) /\
        cell f' "opportunity_score" i = Some (Fin score) /\
        supply_only_cell max_density d n s cg ag v score.
Proof.
  intros Hr [Hok Hd Hn Hw Vd Vn Vw].
  pose proof (frame_ok_col _ _ _ Hok Hd) as Ld.
  pose proof (frame_ok_col _ _ _ Hok Hn) as Ln.
  pose proof (frame_ok_col _ _ _ Hok Hw) as Lw.
  destruct (calculate_opportunity_scores_run st r f density nearest within)
    as [t' Hrun]; auto.
  eexists _, _. split; [exact Hrun|]. split; [apply lookup_snoc|].
  intros i d n s m Hi Hni Hsi Hmax.
  destruct (competition_gap_value f density i d Vd Ld Hi) as (cg & Hcg & Hcgs).
  destruct (accessibility_gap_value n (Forall_lookup_1 _ _ _ _ Vn Hni))
    as (ag & Hag & Hags).
  destruct (viability_of_fin s) as (v & Hv & Hv1 & Hv2 & Hv3).
  exists cg, ag, v, ((0.40 * cg + 0.40 * ag + 0.20 * v) * 10).
  assert (Hagi : accessibility_gap_of nearest !! i = Some (Fin ag)).
  { unfold accessibility_gap_of. rewrite lookup_map, Hni. simpl. by rewrite Hag. }
  assert (Hvi : map viability_of within !! i = Some (Fin v)).
  { rewrite lookup_map, Hsi. simpl. by rewrite Hv. }
  unfold cell, scored_frame.
  repeat split.
  - rewrite !df_col_set_ne by done. rewrite df_col_set_eq. exact Hcg.
  - rewrite !df_col_set_ne by done. rewrite df_col_set_eq. exact Hagi.
  - rewrite !df_col_set_ne by done. rewrite df_col_set_eq. exact Hvi.
  - rewrite df_col_set_eq. by apply supply_score_value.
  - apply (Hcgs m Hmax).
  - apply (Hcgs m Hmax).
  - exact Hags.
  - exact Hv1.
  - exact Hv2.
  - exact Hv3.
  - lra.
Qed.
(** * Invariants of the heap along a run *)

Lemma preserves_ret {A} I (a : A) : preserves I (ret a).
Proof. intros st H. exact H. Qed.

Lemma preserves_raise {A} I e : preserves I (@raise A e).
Proof. intros st H. exact H. Qed.

Lemma preserves_bind {A B} I (m : M A) (k : A -> M B) :
  preserves I m -> (forall a, preserves I (k a)) -> preserves I (bind m k).
Proof.
  intros Hm Hk st H. unfold bind. specialize (Hm st H).
  destruct (m st) as [[a | e |] st1]; simpl in *; auto. by apply Hk.
Qed.

Lemma preserves_if {A} I (b : bool) (m1 m2 : M A) :
  preserves I m1 -> preserves I m2 -> preserves I (if b then m1 else m2).
Proof. destruct b; auto. Qed.

Lemma extends_heap_only h : heap_only (extends h).
Proof. intros st st' E [new H]. exists new. congruence. Qed.

Lemma one_more_heap_only h : heap_only (one_more h).
Proof. intros st st' E [g H]. exists g. congruence. Qed.

Lemma preserves_deref I r : preserves I (deref r).
Proof. intros st H. unfold deref. by destruct (heap st !! r). Qed.

Lemma preserves_print I text args :
  heap_only I -> preserves I (print text args).
Proof. intros HI st H. eapply HI; [|exact H]. reflexivity. Qed.

Lemma preserves_getitem I r c : preserves I (getitem r c).
Proof.
  apply preserves_bind; [apply preserves_deref|].
  intros f. destruct (df_col f c); [apply preserves_ret | apply preserves_raise].
Qed.

Lemma preserves_len I r : preserves I (len r).
Proof.
  apply preserves_bind; [apply preserves_deref | intros; apply preserves_ret].
Qed.

Lemma preserves_py_truediv I a b : preserves I (py_truediv a b).
Proof. destruct b; [apply preserves_raise | apply preserves_ret]. Qed.

Lemma extends_alloc h f : preserves (extends h) (alloc f).
Proof.
  intros st [new H]. exists (new ++ [f]). simpl. rewrite H. by rewrite app_assoc.
Qed.

Lemma extends_copy h r : preserves (extends h) (copy r).
Proof.
  apply preserves_bind; [apply preserves_deref | intros; apply extends_alloc].
Qed.

Lemma extends_select h r m : preserves (extends h) (select r m).
Proof.
  apply preserves_bind; [apply preserves_deref|]. intros f.
  apply preserves_if; [apply extends_alloc | apply preserves_raise].
Qed.

Lemma one_more_assign h f : preserves (one_more h) (assign (length h) f).
Proof.
  intros st [g H]. exists f. simpl. rewrite H.
  rewrite insert_app_r_alt by lia. by rewrite Nat.sub_diag.
Qed.

Lemma one_more_setitem h c s : preserves (one_more h) (setitem (length h) c s).
Proof.
  apply preserves_bind; [apply preserves_deref|]. intros f.
  apply preserves_if; [apply one_more_assign | apply preserves_raise].
Qed.

Lemma one_more_setitem_scalar h c x :
  preserves (one_more h) (setitem_scalar (length h) c x).
Proof.
  apply preserves_bind; [apply preserves_deref | intros; apply one_more_assign].
Qed.

Create HintDb frame.
#[local] Hint Resolve preserves_ret preserves_raise preserves_deref
  preserves_getitem preserves_len preserves_py_truediv extends_alloc
  extends_copy extends_select one_more_setitem one_more_setitem_scalar
  extends_heap_only one_more_heap_only preserves_print : frame.

Ltac frame :=
  repeat first
    [ solve [auto with frame]
    | apply preserves_bind; [| intros ?]
    | apply preserves_if ].

Lemma identify_service_deserts_extends r thr st :
  extends (heap st) (snd (identify_service_deserts r thr st)).
Proof.
  assert (H : preserves (extends (heap st)) (identify_service_deserts r thr)).
  { unfold identify_service_deserts. frame. }
  apply H. exists []. by rewrite app_nil_r.
Qed.

Lemma calculate_opportunity_scores_extends r st :
  extends (heap st) (snd (calculate_opportunity_scores r st)).
Proof.
  unfold calculate_opportunity_scores. unfold bind at 1.
  destruct (copy r st) as [[df | e |] st1] eqn:E.
  - unfold copy, bind, deref in E. destruct (heap st !! r) as [f|] eqn:Hr;
      [|discriminate]. injection E as <- <-.
    match goal with |- extends _ (snd (?m _)) =>
      assert (H : preserves (one_more (heap st)) m) end.
    { frame. }
    destruct (H (mkState (heap st ++ [f]) (trace st))) as [g Hg].
    { by exists f. }
    exists [g]. exact Hg.
  - unfold copy, bind, deref in E. destruct (heap st !! r); [discriminate|].
    injection E as <- <-. exists []. by rewrite app_nil_r.
  - unfold copy, bind, deref in E. destruct (heap st !! r); discriminate.
Qed.

(** * The desert classifier *)

Lemma select_run st r f m :
  heap st !! r = Some f -> length m = index f ->
  select r m st =
    (Ok (length (heap st)), mkState (heap st ++ [df_mask f m]) (trace st)).
Proof.
  intros Hr Hl. unfold select. rewrite (bind_ok _ _ _ _ _ (deref_run _ _ _ Hr)).
  rewrite Hl, Nat.eqb_refl. reflexivity.
Qed.

Lemma len_run st r f : heap st !! r = Some f -> len r st = (Ok (index f), st).
Proof.
  intros Hr. unfold len. rewrite (bind_ok _ _ _ _ _ (deref_run _ _ _ Hr)).
  reflexivity.
Qed.

Lemma print_run st text args :
  print text args st = (Ok tt, mkState (heap st) (trace st ++ [Printed text args])).
Proof. reflexivity. Qed.

Lemma length_desert_mask thr nearest within n :
  length nearest = n -> length within = n ->
  length (desert_mask thr nearest within) = n.
Proof.
  intros H1 H2. unfold desert_mask.
  rewrite length_zip_with; rewrite !length_map; lia.
Qed.

Lemma identify_service_deserts_run st r f thr nearest within :
  heap st !! r = Some f ->
  df_col f "nearest_distance_km" = Some nearest ->
  df_col f "services_within_walking" = Some within ->
  length nearest = index f -> length within = index f ->
  exists t',
    identify_service_deserts r thr st =
      (match index f with
       | O => Raise ZeroDivisionError
       | S _ => Ok (S (length (heap st)))
       end,
       mkState (heap st ++ [df_mask f (desert_mask thr nearest within);
                            df_mask f (desert_mask thr nearest within)]) t').
Proof.
  intros Hr Hn Hw Ln Lw. unfold identify_service_deserts.
  rewrite (bind_ok _ _ _ _ _ (getitem_run _ _ _ _ _ Hr Hn)).
  rewrite (bind_ok _ _ _ _ _ (getitem_run _ _ _ _ _ Hr Hw)).
  fold (desert_mask thr nearest within).
  rewrite (bind_ok _ _ _ _ _
             (select_run _ _ _ _ Hr (length_desert_mask thr _ _ _ Ln Lw))).
  set (g := df_mask f (desert_mask thr nearest within)).
  destruct st as [h t]. cbn [heap trace] in *.
  rewrite (bind_ok _ _ _ _ _ (copy_run (mkState (h ++ [g]) t) _ g (lookup_snoc _ _))).
  cbn [heap trace]. rewrite <- app_assoc. cbn [app].
  rewrite (bind_ok _ _ _ _ _ (print_run _ _ _)). cbn [heap trace].
  assert (Hr' : forall t, heap (mkState (h ++ [g; g]) t) !! r = Some f).
  { intros t0. cbn [heap]. rewrite lookup_app_l; [exact Hr|].
    eapply lookup_lt_Some; eauto. }
  rewrite (bind_ok _ _ _ _ _ (len_run _ _ _ (Hr' _))).
  rewrite (bind_ok _ _ _ _ _ (print_run _ _ _)). cbn [heap trace].
  assert (Hg : forall t, heap (mkState (h ++ [g; g]) t) !! S (length h) = Some g).
  { intros t0. cbn [heap]. rewrite lookup_app_r by lia.
    replace (S (length h) - length h)%nat with 1%nat by lia.
    reflexivity. }
  rewrite length_app, Nat.add_1_r.
  rewrite (bind_ok _ _ _ _ _ (len_run _ _ _ (Hg _))).
  rewrite (bind_ok _ _ _ _ _ (print_run _ _ _)). cbn [heap trace].
  destruct (index f) as [|n] eqn:En.
  - unfold bind, py_truediv, raise. eexists. reflexivity.
  - unfold bind, py_truediv, ret, print. cbn [heap trace]. eexists. reflexivity.
Qed.

Lemma desert_mask_lookup nearest within i n s :
  nearest !! i = Some n -> within !! i = Some (Fin s) -> distance_value n ->
  exists b, desert_mask (Fin 1.5) nearest within !! i = Some b /\
            (b = true <-> is_desert n s).
Proof.
  intros Hn Hs Vn. unfold desert_mask.
  erewrite lookup_zip_with;
    [| rewrite lookup_map, Hn; reflexivity | rewrite lookup_map, Hs; reflexivity ].
  eexists. split; [reflexivity|].
  rewrite orb_true_iff. unfold is_desert.
  change (num_ltb (Fin s) (Fin 2)) with (Qltb s 2). rewrite Qltb_lt.
  destruct Vn as [-> | (q & -> & Hq)].
  - simpl. tauto.
  - change (num_gtb (Fin q) (Fin 1.5)) with (Qltb 1.5 q). rewrite Qltb_lt. tauto.
Qed.

(** C3. The desert classifier keeps exactly the cells with
    nearest_distance_km > 1.5 or services_within_walking < 2; a cell at
    distance exactly 1.5 with exactly 2 services is not kept. *)
Theorem service_desert_rule st r f density nearest within :
  heap st !! r = Some f ->
  accessibility_frame f density nearest within ->
  (0 < index f)%nat ->
  exists st' deserts mask,
    identify_service_deserts r (Fin 1.5) st = (Ok deserts, st') /\
    heap st' !! deserts = Some (df_mask f mask) /\
    length mask = index f /\
    (forall i n s,
        nearest !! i = Some n -> within !! i = Some (Fin s) ->
        (mask !! i = Some true <-> is_desert n s) /\
        (mask !! i = Some false <-> ~ is_desert n s)) /\
    (forall i q s,
        nearest !! i = Some (Fin q) -> within !! i = Some (Fin s) ->
        q == 1.5 -> s == 2 -> mask !! i = Some false).
Proof.
  intros Hr [Hok Hd Hn Hw Vd Vn Vw] Hpos.
  pose proof (frame_ok_col _ _ _ Hok Hn) as Ln.
  pose proof (frame_ok_col _ _ _ Hok Hw) as Lw.
  destruct (identify_service_deserts_run st r f (Fin 1.5) nearest within)
    as [t' Hrun]; auto.
  destruct (index f) as [|k] eqn:Ek; [lia|].
  assert (Hmask : forall i n s,
             nearest !! i = Some n -> within !! i = Some (Fin s) ->
             (desert_mask (Fin 1.5) nearest within !! i = Some true
              <-> is_desert n s) /\
             (desert_mask (Fin 1.5) nearest within !! i = Some false
              <-> ~ is_desert n s)).
  { intros i n s Hni Hsi.
    destruct (desert_mask_lookup nearest within i n s Hni Hsi
                (Forall_lookup_1 _ _ _ _ Vn Hni)) as (b & Hb & Hrule).
    rewrite Hb. split; split.
    - intros [= ->]. by apply Hrule.
    - intros H. f_equal. by apply Hrule.
    - intros [= ->] H. apply Hrule in H. discriminate.
    - intros H. destruct b; [|reflexivity]. exfalso. apply H. by apply Hrule. }
  eexists _, _, (desert_mask (Fin 1.5) nearest within).
  split; [exact Hrun|]. cbn [heap]. split; [|split; [|split]].
  - rewrite lookup_app_r by lia.
    replace (S (length (heap st)) - length (heap st))%nat with 1%nat by lia.
    reflexivity.
  - by apply length_desert_mask.
  - exact Hmask.
  - intros i q s Hni Hsi Hq Hs. apply (Hmask i (Fin q) s Hni Hsi).
    unfold is_desert. lra.
Qed.

(** * Frame effects *)

Lemma extends_lookup h st r (f : DataFrame) :
  extends h st -> h !! r = Some f -> heap st !! r = Some f.
Proof.
  intros [new ->] Hr. rewrite lookup_app_l; [exact Hr|].
  eapply lookup_lt_Some; eauto.
Qed.

(** C10. Neither the desert classifier nor the supply-only scorer changes a
    frame that was in the heap before the call, their argument included;
    what they return is a new frame; the scorer's result has the columns of
    its input, unchanged and in place, followed by the four score
    columns. *)
Theorem classifier_and_scorer_work_on_copies st r f thr :
  heap st !! r = Some f ->
  keys (columns f) = accessibility_columns ->
  frame_ok f ->
  (exists res st',
      identify_service_deserts r thr st = (res, st') /\
      (forall r0 f0, heap st !! r0 = Some f0 -> heap st' !! r0 = Some f0) /\
      (forall deserts, res = Ok deserts -> heap st !! deserts = None)) /\
  (exists st' f' cg ag v score,
      calculate_opportunity_scores r st = (Ok (length (heap st)), st') /\
      (forall r0 f0, heap st !! r0 = Some f0 -> heap st' !! r0 = Some f0) /\
      heap st !! length (heap st) = None /\
      heap st' !! length (heap st) = Some f' /\
      index f' = index f /\
      columns f' = columns f ++ [ ("competition_gap", cg);
                                  ("accessibility_gap", ag);
                                  ("viability", v);
                                  ("opportunity_score", score) ]).
Proof.
  intros Hr Hk Hok. destruct f as [n cols]. unfold frame_ok in Hok.
  cbn [columns index] in *.
  do 7 (destruct cols as [|[? ?] cols]; [discriminate|]).
  destruct cols; [|discriminate]. injection Hk as -> -> -> -> -> -> ->.
  repeat match goal with H : Forall _ (_ :: _) |- _ =>
           apply Forall_cons_1 in H; destruct H as [? H] end.
  cbn [snd] in *. split.
  - edestruct (identify_service_deserts_run st r) as [t' Hrun];
      [exact Hr | reflexivity | reflexivity | assumption | assumption |].
    eexists _, _. split; [exact Hrun|]. split.
    + intros r0 f0 Hr0. eapply extends_lookup; [|exact Hr0]. by eexists.
    + cbn [index]. destruct n; [discriminate|]. intros ? [= <-].
      apply lookup_ge_None. lia.
  - edestruct (calculate_opportunity_scores_run st r) as [t' Hrun];
      [exact Hr | reflexivity | reflexivity | reflexivity
       | assumption | assumption | assumption |].
    eexists _, _, _, _, _, _. split; [exact Hrun|].
    split; [|split; [|split; [|split]]].
    + intros r0 f0 Hr0. eapply extends_lookup; [|exact Hr0]. by eexists.
    + apply lookup_ge_None. lia.
    + apply lookup_snoc.
    + reflexivity.
    + reflexivity.
Qed.

(** * The demand-weighted policy *)

Lemma get_or_run st r f c d :
  heap st !! r = Some f ->
  get_or r c d st = (Ok (default (repeat d (index f)) (df_col f c)), st).
Proof.
  intros Hr. unfold get_or. rewrite (bind_ok _ _ _ _ _ (deref_run _ _ _ Hr)).
  destruct (df_col f c); reflexivity.
Qed.

Lemma loc_set_run st r f m c x :
  heap st !! r = Some f -> length m = index f ->
  loc_set r m c x st =
    (Ok tt,
     mkState (<[r := df_set f c (mask_set m x
                        (default (repeat NaN (index f)) (df_col f c)))]> (heap st))
             (trace st)).
Proof.
  intros Hr Hl. unfold loc_set. rewrite (bind_ok _ _ _ _ _ (deref_run _ _ _ Hr)).
  rewrite Hl, Nat.eqb_refl. reflexivity.
Qed.

Lemma length_mask_set (m : list bool) x (s : Series) : length (mask_set m x s) = length s.
Proof.
  revert s; induction m as [|b m IH]; intros [|y s]; simpl; auto.
Qed.

Lemma lookup_mask_set (m : list bool) (x : num) (s : Series) (i : nat) (b : bool) (y : num) :
  m !! i = Some b -> s !! i = Some y ->
  mask_set m x s !! i = Some (if b then x else y).
Proof.
  revert s i; induction m as [|b' m IH]; intros [|y' s] [|i]; simpl;
    try discriminate.
  - intros [= ->] [= ->]. reflexivity.
  - apply IH.
Qed.

Lemma df_set_set f c s s' : df_set (df_set f c s) c s' = df_set f c s'.
Proof.
  unfold df_set; simpl. f_equal.
  induction (columns f) as [|[k v] l IH]; simpl.
  - by rewrite String.eqb_refl.
  - destruct (String.eqb c k) eqn:E; simpl; rewrite E; [reflexivity|].
    by rewrite IH.
Qed.

Lemma length_default_col f c d :
  frame_ok f -> length (default (repeat d (index f)) (df_col f c)) = index f.
Proof.
  intros Hok. destruct (df_col f c) eqn:E; simpl.
  - eapply frame_ok_col; eauto.
  - apply repeat_length.
Qed.

Lemma length_demand_of f population :
  length population = index f -> length (demand_of f population) = index f.
Proof.
  intros H. unfold demand_of. destruct (num_gtb _ _).
  - by rewrite length_map.
  - apply repeat_length.
Qed.

Lemma length_demand_score_of cg ag dem v n :
  length cg = n -> length ag = n -> length dem = n -> length v = n ->
  length (demand_score_of cg ag dem v) = n.
Proof.
  intros. unfold demand_score_of. rewrite length_map.
  rewrite length_zip_with; rewrite length_zip_with; rewrite ?length_zip_with;
    rewrite ?length_map; lia.
Qed.

Lemma recalculate_run st r f population original :
  heap st !! r = Some f -> frame_ok f ->
  df_col f "population_1km" = Some population ->
  df_col f "opportunity_score" = Some original ->
  exists zeroed t',
    recalculate_opportunity_with_population r st =
      (Ok r,
       mkState (<[r := rescored_frame f population original]> (heap st)
                ++ [zeroed]) t').
Proof.
  intros Hr Hok Hp Ho.
  assert (Lp : length population = index f) by (eapply frame_ok_col; eauto).
  assert (Lo : length original = index f) by (eapply frame_ok_col; eauto).
  assert (Hlt : (r < length (heap st))%nat) by (eapply lookup_lt_Some; eauto).
  destruct st as [h t]. cbn [heap trace] in Hlt |- *.
  unfold recalculate_opportunity_with_population.
  rewrite (bind_ok _ _ _ _ _ (getitem_run _ _ _ _ _ Hr Hp)).
  set (dem0 := demand_of f population).
  assert (Ld0 : length dem0 = index f) by (by apply length_demand_of).
  set (f1 := df_set f "demand_score" dem0).
  lazymatch goal with
  | |- context [bind (if ?b then ?m1 else ?m2) _ ?s] =>
      assert (E1 : (if b then m1 else m2) s
                   = (Ok tt, mkState (<[r := f1]> h) t))
  end.
  { unfold f1, dem0, demand_of. destruct (num_gtb _ _) eqn:E.
    - rewrite (bind_ok _ _ _ _ _ (getitem_run _ _ _ _ _ Hr Hp)).
      rewrite (setitem_run _ _ _ _ _ Hr) by (by rewrite length_map).
      reflexivity.
    - rewrite (setitem_scalar_run _ _ _ _ _ Hr). reflexivity. }
  rewrite (bind_ok _ _ _ _ _ E1). clear E1.
  assert (H1 : heap (mkState (<[r := f1]> h) t) !! r = Some f1)
    by (by apply list_lookup_insert_eq).
  step_get H1 population.
  set (low := low_population population).
  assert (Llow : length low = index f) by (unfold low, low_population; by rewrite length_map).
  fold (low_population population). fold low.
  rewrite (bind_ok _ _ _ _ _ (loc_set_run _ _ _ low "demand_score" (Fin 0) H1 Llow)).
  cbn [heap trace]. rewrite list_insert_insert_eq.
  replace (df_col f1 "demand_score") with (Some dem0) by (symmetry; col).
  cbn [from_option id]. unfold f1 at 1. rewrite df_set_set.
  set (dem := mask_set low (Fin 0) dem0).
  assert (Ldem : length dem = index f) by (unfold dem; by rewrite length_mask_set).
  set (f2 := df_set f "demand_score" dem).
  assert (H2 : heap (mkState (<[r := f2]> h) t) !! r = Some f2)
    by (by apply list_lookup_insert_eq).
  step_get H2 original.
  rewrite (bind_ok _ _ _ _ _ (setitem_run _ _ _ "opportunity_score_original" original H2 Lo)).
  cbn [heap trace]. rewrite list_insert_insert_eq.
  set (f3 := df_set f2 "opportunity_score_original" original).
  assert (H3 : heap (mkState (<[r := f3]> h) t) !! r = Some f3)
    by (by apply list_lookup_insert_eq).
  rewrite (bind_ok _ _ _ _ _ (get_or_run _ _ _ "competition_gap" _ H3)).
  rewrite (bind_ok _ _ _ _ _ (get_or_run _ _ _ "accessibility_gap" _ H3)).
  step_get H3 dem.
  rewrite (bind_ok _ _ _ _ _ (get_or_run _ _ _ "viability" _ H3)).
  replace (df_col f3 "competition_gap") with (df_col f "competition_gap")
    by (unfold f3, f2; by rewrite !df_col_set_ne).
  replace (df_col f3 "accessibility_gap") with (df_col f "accessibility_gap")
    by (unfold f3, f2; by rewrite !df_col_set_ne).
  replace (df_col f3 "viability") with (df_col f "viability")
    by (unfold f3, f2; by rewrite !df_col_set_ne).
  change (index f3) with (index f).
  set (cg := default (repeat (Fin 0) (index f)) (df_col f "competition_gap")).
  set (ag := default (repeat (Fin 0) (index f)) (df_col f "accessibility_gap")).
  set (v := default (repeat (Fin 0.5) (index f)) (df_col f "viability")).
  fold (demand_score_of cg ag dem v).
  assert (Ls : length (demand_score_of cg ag dem v) = index f).
  { apply length_demand_score_of; auto; by apply length_default_col. }
  rewrite (bind_ok _ _ _ _ _ (setitem_run _ _ _ "opportunity_score" _ H3 Ls)).
  cbn [heap trace]. rewrite list_insert_insert_eq.
  set (f4 := df_set f3 "opportunity_score" (demand_score_of cg ag dem v)).
  assert (H4 : heap (mkState (<[r := f4]> h) t) !! r = Some f4)
    by (by apply list_lookup_insert_eq).
  step_get H4 population.
  fold (low_population population). fold low.
  rewrite (bind_ok _ _ _ _ _ (loc_set_run _ _ _ low "opportunity_score" (Fin 0) H4 Llow)).
  cbn [heap trace]. rewrite list_insert_insert_eq.
  replace (df_col f4 "opportunity_score")
    with (Some (demand_score_of cg ag dem v)) by (symmetry; col).
  cbn [from_option id]. unfold f4 at 1. rewrite df_set_set.
  set (f5 := df_set f3 "opportunity_score"
                   (mask_set low (Fin 0) (demand_score_of cg ag dem v))).
  assert (H5 : heap (mkState (<[r := f5]> h) t) !! r = Some f5)
    by (by apply list_lookup_insert_eq).
  step_get H5 original.
  step_get H5 (mask_set low (Fin 0) (demand_score_of cg ag dem v)).
  step_get H5 (mask_set low (Fin 0) (demand_score_of cg ag dem v)).
  rewrite (bind_ok _ _ _ _ _ (select_run _ _ _ _ H5 ltac:(
             rewrite length_map, length_mask_set; exact Ls))).
  cbn [heap trace].
  rewrite (bind_ok _ _ _ _ _
             (len_run (mkState (<[r := f5]> h ++ [_]) t) _ _ (lookup_snoc _ _))).
  rewrite (bind_ok _ _ _ _ _ (print_run _ _ _)). cbn [heap trace].
  eexists _, _. reflexivity.
Qed.

Lemma lookup_insert_snoc {A} (h : list A) (r : nat) x y z :
  h !! r = Some x -> (<[r := y]> h ++ [z]) !! r = Some y.
Proof.
  intros H. apply lookup_lt_Some in H.
  rewrite lookup_app_l by (by rewrite length_insert).
  by apply list_lookup_insert_eq.
Qed.

(** ** The demand floor *)

Lemma rescored_demand f population original (i : nat) (p : num) :
  length population = index f ->
  population !! i = Some p ->
  exists d0,
    demand_of f population !! i = Some d0 /\
    cell (rescored_frame f population original) "demand_score" i
    = Some (if num_ltb p (Fin 100) then Fin 0 else d0).
Proof.
  intros Lp Hp.
  assert (Hi : (i < index f)%nat) by (rewrite <- Lp; eapply lookup_lt_Some; eauto).
  destruct (lookup_lt_is_Some_2 (demand_of f population) i) as [d0 Hd0].
  { by rewrite length_demand_of. }
  exists d0. split; [exact Hd0|].
  unfold cell, rescored_frame. rewrite !df_col_set_ne by done.
  rewrite df_col_set_eq.
  apply lookup_mask_set; [|exact Hd0].
  unfold low_population. rewrite lookup_map, Hp. reflexivity.
Qed.

Lemma rescored_score f population original (i : nat) (p : num) :
  frame_ok f -> length population = index f ->
  population !! i = Some p ->
  exists cg ag dem v,
    default (repeat (Fin 0) (index f)) (df_col f "competition_gap") !! i = Some cg /\
    default (repeat (Fin 0) (index f)) (df_col f "accessibility_gap") !! i = Some ag /\
    mask_set (low_population population) (Fin 0) (demand_of f population) !! i
      = Some dem /\
    default (repeat (Fin 0.5) (index f)) (df_col f "viability") !! i = Some v /\
    cell (rescored_frame f population original) "opportunity_score" i
    = Some (if num_ltb p (Fin 100) then Fin 0
            else num_mul
                   (num_add
                      (num_add
                         (num_add (num_mul (Fin 0.30) cg) (num_mul (Fin 0.30) ag))
                         (num_mul (Fin 0.30) dem))
                      (num_mul (Fin 0.10) v))
                   (Fin 10)).
Proof.
  intros Hok Lp Hp.
  assert (Hi : (i < index f)%nat) by (rewrite <- Lp; eapply lookup_lt_Some; eauto).
  set (cgs := default (repeat (Fin 0) (index f)) (df_col f "competition_gap")).
  set (ags := default (repeat (Fin 0) (index f)) (df_col f "accessibility_gap")).
  set (vs := default (repeat (Fin 0.5) (index f)) (df_col f "viability")).
  set (dems := mask_set (low_population population) (Fin 0) (demand_of f population)).
  destruct (lookup_lt_is_Some_2 cgs i) as [cg Hcg].
  { unfold cgs. by rewrite length_default_col. }
  destruct (lookup_lt_is_Some_2 ags i) as [ag Hag].
  { unfold ags. by rewrite length_default_col. }
  destruct (lookup_lt_is_Some_2 vs i) as [v Hv].
  { unfold vs. by rewrite length_default_col. }
  destruct (lookup_lt_is_Some_2 dems i) as [dem Hdem].
  { unfold dems. by rewrite length_mask_set, length_demand_of. }
  exists cg, ag, dem, v. repeat split; auto.
  unfold cell, rescored_frame. rewrite df_col_set_eq.
  fold cgs ags vs dems.
  eapply lookup_mask_set.
  - unfold low_population. rewrite lookup_map, Hp. reflexivity.
  - unfold demand_score_of. rewrite lookup_map.
    erewrite lookup_zip_with; [reflexivity | | rewrite lookup_map, Hv; reflexivity].
    erewrite lookup_zip_with; [reflexivity | | rewrite lookup_map, Hdem; reflexivity].
    erewrite lookup_zip_with; [reflexivity | |]; rewrite lookup_map;
      [rewrite Hcg | rewrite Hag]; reflexivity.
Qed.

(** C2. After the demand-weighted re-scoring every cell whose
    population_1km is below 100 has demand_score 0 and opportunity_score 0,
    whatever its competition gap, accessibility gap and viability. *)
Theorem demand_floor st r f population original :
  heap st !! r = Some f -> frame_ok f ->
  df_col f "population_1km" = Some population ->
  df_col f "opportunity_score" = Some original ->
  exists st' f',
    recalculate_opportunity_with_population r st = (Ok r, st') /\
    heap st' !! r = Some f' /\
    forall i p,
      population !! i = Some (Fin p) -> p < 100 ->
      cell f' "demand_score" i = Some (Fin 0) /\
      cell f' "opportunity_score" i = Some (Fin 0).
Proof.
  intros Hr Hok Hp Ho.
  destruct (recalculate_run st r f population original Hr Hok Hp Ho)
    as (zeroed & t' & Hrun).
  pose proof (frame_ok_col _ _ _ Hok Hp) as Lp.
  eexists _, _. split; [exact Hrun|]. split.
  { cbn [heap]. eapply lookup_insert_snoc; eauto. }
  intros i p Hi Hlt.
  assert (E : num_ltb (Fin p) (Fin 100) = true) by (by apply Qltb_lt).
  split.
  - destruct (rescored_demand f population original i _ Lp Hi) as (d0 & _ & H).
    rewrite H, E. reflexivity.
  - destruct (rescored_score f population original i _ Hok Lp Hi)
      as (cg & ag & dem & v & _ & _ & _ & _ & H).
    rewrite H, E. reflexivity.
Qed.

(** ** The demand-weighted formula *)

Lemma demand_of_lookup f population (i : nat) p :
  Forall finite_nonneg population -> length population = index f ->
  population !! i = Some (Fin p) ->
  exists d0 m,
    demand_of f population !! i = Some (Fin d0) /\
    is_maximum m population /\ 0 <= d0 <= 1 /\
    (0 < m -> d0 == p / m).
Proof.
  intros Vp Lp Hp.
  assert (Hne : population <> []) by (intros ->; discriminate).
  destruct (series_max_finite _ Vp Hne) as (m & Hm & Hin & Hpos & Hall).
  assert (Hmax : is_maximum m population).
  { split; auto. exists m. split; auto. reflexivity. }
  assert (Hpm : 0 <= p <= m).
  { split.
    - destruct (Forall_lookup_1 _ _ _ _ Vp Hp) as (q & [= <-] & Hq). exact Hq.
    - apply Hall. eapply lookup_In; eauto. }
  unfold demand_of. rewrite Hm.
  change (num_gtb (Fin m) (Fin 0)) with (Qltb 0 m).
  destruct (Qltb 0 m) eqn:E.
  - apply Qltb_lt in E. rewrite lookup_map, Hp. unfold option_map, num_div.
    destruct (Qeqb m 0) eqn:E0; [apply Qeqb_eq in E0; lra|].
    exists (p / m), m. split; [reflexivity|]. split; [exact Hmax|].
    split; [split|].
    + apply Qle_shift_div_l; lra.
    + apply Qle_shift_div_r; lra.
    + intros _. reflexivity.
  - apply Qltb_nlt in E. rewrite lookup_repeat.
    2:{ rewrite <- Lp. eapply lookup_lt_Some; eauto. }
    exists 0, m. split; [reflexivity|]. split; [exact Hmax|].
    split; [lra | intros; lra].
Qed.

(** C6, amended. The demand-weighted re-scoring keeps the previous score of
    every cell in opportunity_score_original; for every cell with
    population_1km >= 100 it sets demand_score = population_1km / max and
    opportunity_score = 10 * (0.30 cg + 0.30 ag + 0.30 demand + 0.10 v); when
    the largest population is 0 every demand_score is 0. *)
Theorem demand_weighted_scores st r f population original cgs ags vs :
  heap st !! r = Some f ->
  demand_frame f population original cgs ags vs ->
  exists st' f',
    recalculate_opportunity_with_population r st = (Ok r, st') /\
    heap st' !! r = Some f' /\
    forall i p c a w o m,
      population !! i = Some (Fin p) -> cgs !! i = Some (Fin c) ->
      ags !! i = Some (Fin a) -> vs !! i = Some (Fin w) ->
      original !! i = Some o -> is_maximum m population ->
      cell f' "opportunity_score_original" i = Some o /\
      (m == 0 -> cell f' "demand_score" i = Some (Fin 0)) /\
      (100 <= p ->
       exists dem score,
         cell f' "demand_score" i = Some (Fin dem) /\
         dem == p / m /\
         cell f' "opportunity_score" i = Some (Fin score) /\
         score == 10 * (0.30 * c + 0.30 * a + 0.30 * dem + 0.10 * w)).
Proof.
  intros Hr [Hok Hp Ho Hcg Hag Hv Vp].
  destruct (recalculate_run st r f population original Hr Hok Hp Ho)
    as (zeroed & t' & Hrun).
  pose proof (frame_ok_col _ _ _ Hok Hp) as Lp.
  eexists _, _. split; [exact Hrun|]. split.
  { cbn [heap]. eapply lookup_insert_snoc; eauto. }
  intros i p c a w o m Hpi Hci Hai Hwi Hoi Hmax.
  destruct (demand_of_lookup f population i p Vp Lp Hpi)
    as (d0 & m' & Hd0 & Hmax' & Hd01 & Hdm).
  pose proof (is_maximum_unique _ _ _ Hmax Hmax') as Emm.
  assert (Hpm : 0 <= p <= m).
  { split.
    - destruct (Forall_lookup_1 _ _ _ _ Vp Hpi) as (q & [= <-] & Hq). exact Hq.
    - apply Hmax. eapply lookup_In; eauto. }
  destruct (rescored_demand f population original i _ Lp Hpi) as (d0' & Hd0' & Hdem).
  rewrite Hd0 in Hd0'. injection Hd0' as <-.
  destruct (rescored_score f population original i _ Hok Lp Hpi)
    as (cg' & ag' & dem' & v' & Hcg' & Hag' & Hdem' & Hv' & Hsc).
  rewrite Hcg in Hcg'. rewrite Hag in Hag'. rewrite Hv in Hv'.
  cbn [from_option id] in Hcg', Hag', Hv'.
  rewrite Hci in Hcg'. rewrite Hai in Hag'. rewrite Hwi in Hv'.
  injection Hcg' as <-. injection Hag' as <-. injection Hv' as <-.
  split; [|split].
  - unfold cell, rescored_frame. rewrite df_col_set_ne by done.
    rewrite df_col_set_eq. exact Hoi.
  - intros Hm0. rewrite Hdem.
    assert (E : num_ltb (Fin p) (Fin 100) = true) by (apply Qltb_lt; lra).
    by rewrite E.
  - intros Hp100.
    assert (E : num_ltb (Fin p) (Fin 100) = false) by (apply Qltb_nlt; lra).
    rewrite E in Hdem, Hsc.
    erewrite lookup_mask_set in Hdem'; [| | exact Hd0].
    2:{ unfold low_population. rewrite lookup_map, Hpi. reflexivity. }
    change (num_ltb (Fin p) (Fin 100)) with (Qltb p 100) in Hdem'.
    change (num_ltb (Fin p) (Fin 100)) with (Qltb p 100) in E.
    rewrite E in Hdem'. injection Hdem' as <-.
    exists d0, ((0.30 * c + 0.30 * a + 0.30 * d0 + 0.10 * w) * 10).
    repeat split; auto.
    + rewrite Emm. apply Hdm. lra.
    + lra.
Qed.

(** C6 as stated fails below the floor: with populations 50 and 200 the
    first cell ends with demand_score 0, not 50/200, and opportunity_score 0,
    not the weighted sum. *)
Lemma demand_formula_below_floor :
  exists st' f',
    recalculate_opportunity_with_population 0%nat (mkState [sample_population] [])
      = (Ok 0%nat, st') /\
    heap st' !! 0%nat = Some f' /\
    cell sample_population "population_1km" 0 = Some (Fin 50) /\
    is_maximum 200 [Fin 50; Fin 200] /\
    cell f' "demand_score" 0 = Some (Fin 0) /\
    ~ 0 == 50 / 200 /\
    cell f' "opportunity_score" 0 = Some (Fin 0) /\
    ~ 0 == 10 * (0.30 * 1 + 0.30 * 1 + 0.30 * (50 / 200) + 0.10 * 1).
Proof.
  eexists _, _. split; [vm_compute; reflexivity|].
  split; [reflexivity|]. split; [reflexivity|]. split.
  { split.
    - exists 200. split; [right; left; reflexivity | reflexivity].
    - intros q [[= <-] | [[= <-] | []]]; lra. }
  split; [reflexivity|]. split; [intros H; vm_compute in H; discriminate|].
  split; [reflexivity|]. intros H; vm_compute in H; discriminate.
Qed.

(** ** Score bounds *)

Lemma viability_unit x : count_value x -> unit_value (viability_of x).
Proof.
  intros (s & k & -> & Hs & Hk).
  destruct (viability_of_fin s) as (v & Hv & H1 & H2 & H3).
  exists v. split; [exact Hv|].
  destruct (Z.eq_dec k 0%Z) as [-> | Hk0].
  { rewrite H2 by exact Hs. lra. }
  destruct (Z_le_gt_dec k 3%Z) as [Hk3 | Hk3].
  { assert (1 <= s /\ s <= 3).
    { rewrite Hs. split.
      - change 1 with (inject_Z 1). rewrite <- Zle_Qle. lia.
      - change 3 with (inject_Z 3). rewrite <- Zle_Qle. lia. }
    rewrite H1 by assumption. lra. }
  assert (Hs4 : 4 <= s).
  { rewrite Hs. change 4 with (inject_Z 4). rewrite <- Zle_Qle. lia. }
  rewrite H3 by lra.
  split.
  - apply Q.le_max_l.
  - apply Q.max_lub; [lra|].
    assert (0 <= (s - 3) / 10) by (apply Qle_shift_div_l; lra). lra.
Qed.

Lemma accessibility_gap_unit n :
  distance_value n -> unit_value (num_div (clip_upper (Fin 3.0) n) (Fin 3.0)).
Proof.
  intros Vn. destruct (accessibility_gap_value n Vn) as (ag & Hag & Hspec).
  exists ag. split; [exact Hag|].
  destruct Vn as [-> | (q & -> & Hq)].
  - rewrite Hspec. split; [|apply Qle_shift_div_r]; try lra.
    apply Qle_shift_div_l; lra.
  - rewrite Hspec. destruct (Q.min_spec q 3) as [[Hlt ->] | [Hle ->]].
    + split; [apply Qle_shift_div_l | apply Qle_shift_div_r]; lra.
    + split; [apply Qle_shift_div_l | apply Qle_shift_div_r]; lra.
Qed.

Lemma competition_gap_unit f density (i : nat) x :
  Forall finite_nonneg density -> length density = index f ->
  competition_gap_of f density !! i = Some x -> unit_value x.
Proof.
  intros Vd Ld Hx.
  assert (Hi : (i < length density)%nat).
  { apply lookup_lt_Some in Hx. unfold competition_gap_of in Hx.
    destruct (num_gtb _ _); [by rewrite length_map in Hx|].
    rewrite repeat_length in Hx. lia. }
  destruct (lookup_lt_is_Some_2 density i Hi) as [y Hy].
  destruct (Forall_lookup_1 _ _ _ _ Vd Hy) as (d & -> & Hd).
  destruct (competition_gap_value f density i d Vd Ld Hy) as (cg & Hcg & Hspec).
  rewrite Hcg in Hx. injection Hx as <-. exists cg. split; [reflexivity|].
  assert (Hne : density <> []) by (intros ->; discriminate).
  destruct (series_max_finite _ Vd Hne) as (m & Hm & Hin & Hpos & Hall).
  assert (Hmax : is_maximum m density).
  { split; auto. exists m. split; auto. reflexivity. }
  destruct (Hspec m Hmax) as [Hnz Hz].
  destruct (Qeq_dec m 0) as [E | E].
  - rewrite Hz by exact E. lra.
  - rewrite Hnz by exact E.
    assert (d <= m) by (apply Hall; eapply lookup_In; eauto).
    assert (0 <= d / m) by (apply Qle_shift_div_l; lra).
    assert (d / m <= 1) by (apply Qle_shift_div_r; lra). lra.
Qed.

Lemma frame_ok_set f c s :
  frame_ok f -> length s = index f -> frame_ok (df_set f c s).
Proof.
  unfold frame_ok, df_set; cbn [columns index]. intros Hok Hl.
  induction (columns f) as [|[k v] l IH]; simpl.
  - repeat constructor. exact Hl.
  - apply Forall_cons_1 in Hok as [Hv Hok].
    destruct (String.eqb c k); constructor; auto.
Qed.

Lemma length_competition_gap_of f density :
  length density = index f -> length (competition_gap_of f density) = index f.
Proof.
  intros H. unfold competition_gap_of. destruct (num_gtb _ _).
  - by rewrite length_map.
  - apply repeat_length.
Qed.

Lemma length_supply_score_of cg ag v n :
  length cg = n -> length ag = n -> length v = n ->
  length (supply_score_of cg ag v) = n.
Proof.
  intros. unfold supply_score_of. rewrite length_map.
  rewrite length_zip_with; rewrite ?length_zip_with; rewrite ?length_map; lia.
Qed.

Lemma scored_frame_ok f density nearest within :
  frame_ok f -> length density = index f -> length nearest = index f ->
  length within = index f ->
  frame_ok (scored_frame f density nearest within).
Proof.
  intros Hok Ld Ln Lw. unfold scored_frame.
  assert (L1 : length (competition_gap_of f density) = index f)
    by (by apply length_competition_gap_of).
  assert (L2 : length (accessibility_gap_of nearest) = index f)
    by (unfold accessibility_gap_of; by rewrite length_map).
  assert (L3 : length (map viability_of within) = index f)
    by (by rewrite length_map).
  apply frame_ok_set; [apply frame_ok_set; [apply frame_ok_set;
    [apply frame_ok_set; [exact Hok | exact L1] | exact L2] | exact L3] |].
  cbn [index df_set]. by apply length_supply_score_of.
Qed.

Lemma Forall_map_unit {A} (g : A -> num) (P : A -> Prop) l :
  (forall a, P a -> unit_value (g a)) -> Forall P l -> Forall unit_value (map g l).
Proof.
  intros Hg Hl. induction Hl; simpl; constructor; auto.
Qed.

Lemma competition_gap_all_unit f density :
  Forall finite_nonneg density -> length density = index f ->
  Forall unit_value (competition_gap_of f density).
Proof.
  intros Vd Ld. apply Forall_lookup_2. intros i x Hx.
  eapply competition_gap_unit; eauto.
Qed.

Lemma lookup_zip_with_inv {A B C} (g : A -> B -> C) l l' (i : nat) z :
  zip_with g l l' !! i = Some z ->
  exists x y, z = g x y /\ l !! i = Some x /\ l' !! i = Some y.
Proof.
  revert l' i; induction l as [|a l IH]; intros [|b l'] [|i]; simpl;
    try discriminate.
  - intros [= <-]. eauto.
  - apply IH.
Qed.

Lemma supply_score_within cg ag v (i : nat) x :
  Forall unit_value cg -> Forall unit_value ag -> Forall unit_value v ->
  supply_score_of cg ag v !! i = Some x ->
  exists q, x = Fin q /\ 0 <= q <= 10.
Proof.
  intros Vc Va Vv Hx. unfold supply_score_of in Hx.
  rewrite lookup_map in Hx.
  destruct (zip_with _ _ _ !! i) as [y|] eqn:E; [|discriminate].
  injection Hx as <-.
  apply lookup_zip_with_inv in E as (y1 & y2 & -> & E1 & E2).
  apply lookup_zip_with_inv in E1 as (z1 & z2 & -> & F1 & F2).
  rewrite lookup_map in F1, F2, E2.
  destruct (cg !! i) as [c|] eqn:Hc; [|discriminate].
  destruct (ag !! i) as [a|] eqn:Ha; [|discriminate].
  destruct (v !! i) as [w|] eqn:Hw; [|discriminate].
  injection F1 as <-. injection F2 as <-. injection E2 as <-.
  destruct (Forall_lookup_1 _ _ _ _ Vc Hc) as (qc & -> & Hqc).
  destruct (Forall_lookup_1 _ _ _ _ Va Ha) as (qa & -> & Hqa).
  destruct (Forall_lookup_1 _ _ _ _ Vv Hw) as (qv & -> & Hqv).
  eexists. split; [reflexivity|]. lra.
Qed.

Lemma rescored_scores_within f population original cgs ags vs :
  demand_frame f population original cgs ags vs ->
  Forall unit_value cgs -> Forall unit_value ags -> Forall unit_value vs ->
  scores_within (rescored_frame f population original) 0 10.
Proof.
  intros [Hok Hp Ho Hcg Hag Hv Vp] Vc Va Vv i x Hx.
  pose proof (frame_ok_col _ _ _ Hok Hp) as Lp.
  assert (Hi : (i < length population)%nat).
  { unfold cell, rescored_frame in Hx. rewrite df_col_set_eq in Hx.
    apply lookup_lt_Some in Hx. rewrite length_mask_set in Hx.
    erewrite length_demand_score_of in Hx; [rewrite Lp; exact Hx | | | |].
    - by apply length_default_col.
    - by apply length_default_col.
    - by rewrite length_mask_set, length_demand_of.
    - by apply length_default_col. }
  destruct (lookup_lt_is_Some_2 population i Hi) as [y Hy].
  destruct (Forall_lookup_1 _ _ _ _ Vp Hy) as (p & -> & Hp0).
  destruct (rescored_score f population original i _ Hok Lp Hy)
    as (cg & ag & dem & v & Hcg' & Hag' & Hdem' & Hv' & Hsc).
  rewrite Hcg in Hcg'. rewrite Hag in Hag'. rewrite Hv in Hv'.
  cbn [from_option id] in Hcg', Hag', Hv'.
  destruct (Forall_lookup_1 _ _ _ _ Vc Hcg') as (qc & -> & Hqc).
  destruct (Forall_lookup_1 _ _ _ _ Va Hag') as (qa & -> & Hqa).
  destruct (Forall_lookup_1 _ _ _ _ Vv Hv') as (qv & -> & Hqv).
  destruct (demand_of_lookup f population i p Vp Lp Hy)
    as (d0 & m & Hd0 & _ & Hd01 & _).
  erewrite lookup_mask_set in Hdem'; [| | exact Hd0].
  2:{ unfold low_population. rewrite lookup_map, Hy. reflexivity. }
  change (num_ltb (Fin p) (Fin 100)) with (Qltb p 100) in *.
  rewrite Hx in Hsc.
  destruct (Qltb p 100).
  - injection Hsc as ->. exists 0. split; [reflexivity | lra].
  - injection Hdem' as <-. injection Hsc as ->.
    eexists. split; [reflexivity|]. lra.
Qed.

(** C4. For accessibility records with non-negative distances (possibly
    +inf), the supply-only opportunity_score of every cell lies in [0, 10];
    and when the scored table is enriched with non-negative populations, the
    demand-weighted opportunity_score of every cell lies in [0, 10] too. *)
Theorem opportunity_score_bounds st r f density nearest within :
  heap st !! r = Some f ->
  accessibility_frame f density nearest within ->
  exists st1 f1,
    calculate_opportunity_scores r st = (Ok (length (heap st)), st1) /\
    heap st1 !! length (heap st) = Some f1 /\
    scores_within f1 0 10 /\
    forall st2 r2 point population,
      length point = index f -> length population = index f ->
      Forall finite_nonneg population ->
      heap st2 !! r2
      = Some (df_set (df_set f1 "population" point) "population_1km" population) ->
      exists st3 f3,
        recalculate_opportunity_with_population r2 st2 = (Ok r2, st3) /\
        heap st3 !! r2 = Some f3 /\
        scores_within f3 0 10.
Proof.
  intros Hr [Hok Hd Hn Hw Vd Vn Vw].
  pose proof (frame_ok_col _ _ _ Hok Hd) as Ld.
  pose proof (frame_ok_col _ _ _ Hok Hn) as Ln.
  pose proof (frame_ok_col _ _ _ Hok Hw) as Lw.
  destruct (calculate_opportunity_scores_run st r f density nearest within)
    as [t' Hrun]; auto.
  set (f1 := scored_frame f density nearest within) in *.
  assert (Vc : Forall unit_value (competition_gap_of f density))
    by (by apply competition_gap_all_unit).
  assert (Va : Forall unit_value (accessibility_gap_of nearest)).
  { unfold accessibility_gap_of.
    eapply Forall_map_unit; [|exact Vn]. apply accessibility_gap_unit. }
  assert (Vv : Forall unit_value (map viability_of within)).
  { eapply Forall_map_unit; [|exact Vw]. apply viability_unit. }
  eexists _, f1. split; [exact Hrun|]. split; [apply lookup_snoc|]. split.
  - intros i x Hx. unfold cell, f1, scored_frame in Hx.
    rewrite df_col_set_eq in Hx.
    exact (supply_score_within _ _ _ i x Vc Va Vv Hx).
  - intros st2 r2 point population Lpt Lp Vp Hr2.
    set (f2 := df_set (df_set f1 "population" point) "population_1km" population)
      in *.
    assert (Hok1 : frame_ok f1) by (by apply scored_frame_ok).
    assert (Hok2 : frame_ok f2).
    { apply frame_ok_set; [apply frame_ok_set|]; auto. }
    assert (Hdem : demand_frame f2 population
                     (supply_score_of (competition_gap_of f density)
                        (accessibility_gap_of nearest)
                        (map viability_of within))
                     (competition_gap_of f density)
                     (accessibility_gap_of nearest)
                     (map viability_of within)).
    { split; auto; unfold f2, f1, scored_frame;
        rewrite ?df_col_set_ne by done; apply df_col_set_eq. }
    destruct (recalculate_run st2 r2 f2 population _ Hr2 Hok2
                (dem_population _ _ _ _ _ _ Hdem) (dem_original _ _ _ _ _ _ Hdem))
      as (zeroed & t2 & Hrun2).
    eexists _, _. split; [exact Hrun2|]. split.
    { cbn [heap]. eapply lookup_insert_snoc; eauto. }
    eapply rescored_scores_within; eauto.
Qed.

(** * The grid builder *)

Lemma inject_Z_S (n : nat) : inject_Z (Z.of_nat (S n)) == inject_Z (Z.of_nat n) + 1.
Proof. rewrite Nat2Z.inj_succ. unfold Z.succ. rewrite inject_Z_plus. reflexivity. Qed.

Lemma steps_intro l s e n :
  0 < s -> e < l + inject_Z (Z.of_nat n) * s ->
  (forall k, n = S k -> l + inject_Z (Z.of_nat k) * s <= e) ->
  steps l s e n.
Proof.
  intros Hs Hgt Hle. split; [exact Hgt|]. intros j Hj.
  destruct n as [|k]; [lia|]. specialize (Hle k eq_refl).
  assert (Hjk : inject_Z (Z.of_nat j) <= inject_Z (Z.of_nat k)).
  { rewrite <- Zle_Qle. lia. }
  pose proof (Qmult_le_compat_r _ _ s Hjk (Qlt_le_weak _ _ Hs)). lra.
Qed.

Lemma steps_next l s e n : steps l s e (S n) -> steps (l + s) s e n.
Proof.
  intros [Hgt Hle]. split.
  - rewrite inject_Z_S in Hgt. lra.
  - intros j Hj. specialize (Hle (S j) ltac:(lia)).
    rewrite inject_Z_S in Hle. lra.
Qed.

Lemma steps_exists l s e : 0 < s -> exists n, steps l s e n.
Proof.
  intros Hs. destruct (Qlt_le_dec e l) as [Hlt | Hle].
  - exists 0%nat. split; [|intros; lia].
    change (inject_Z (Z.of_nat 0)) with 0. lra.
  - set (x := (e - l) / s).
    assert (Hx : 0 <= x) by (apply Qle_shift_div_l; lra).
    assert (Hk : (0 <= Qfloor x)%Z).
    { change 0%Z with (Qfloor 0). by apply Qfloor_resp_le. }
    assert (Hxs : x * s == e - l) by (unfold x; field; lra).
    clearbody x.
    exists (S (Z.to_nat (Qfloor x))). apply steps_intro; auto.
    + rewrite inject_Z_S, Z2Nat.id by exact Hk.
      pose proof (Qlt_floor x) as Hf. rewrite inject_Z_plus in Hf.
      change (inject_Z 1) with 1 in Hf.
      pose proof (Qmult_lt_compat_r _ _ s Hs Hf). lra.
    + intros k [= <-]. rewrite Z2Nat.id by exact Hk.
      pose proof (Qmult_le_compat_r _ _ s (Qfloor_le x) (Qlt_le_weak _ _ Hs)).
      lra.
Qed.

Section Loops.

Variable bounds : dict.
Variables north east west : Q.
Hypothesis bounds_north : assoc "north" bounds = Some (Fin north).
Hypothesis bounds_east : assoc "east" bounds = Some (Fin east).
Hypothesis bounds_west : assoc "west" bounds = Some (Fin west).
Variables lat_step lng_step : Q.

Lemma lng_loop_run (n : nat) :
  forall fuel lat l cell_id cells st,
    steps l lng_step east n -> (n < fuel)%nat ->
    exists new,
      lng_loop num_add fuel bounds lat (Fin lat_step) (Fin lng_step) (Fin l)
               cell_id cells st
      = (Ok (cells ++ new, (cell_id + n)%nat), st) /\
      length new = n.
Proof.
  induction n as [|n IH]; intros fuel lat l cell_id cells st Hsteps Hfuel;
    (destruct fuel as [|fuel]; [lia|]); cbn [lng_loop];
    unfold dict_get; rewrite bounds_east;
    rewrite (bind_ok _ _ _ _ _ (eq_refl : ret (Fin east) st = (Ok (Fin east), st))).
  - destruct Hsteps as [Hgt _]. change (inject_Z (Z.of_nat 0)) with 0 in Hgt.
    assert (E : num_leb (Fin l) (Fin east) = false)
      by (apply num_leb_fin_false; lra).
    rewrite E. exists []. rewrite app_nil_r, Nat.add_0_r. split; reflexivity.
  - assert (E : num_leb (Fin l) (Fin east) = true).
    { apply num_leb_fin. destruct Hsteps as [_ Hle].
      specialize (Hle 0%nat ltac:(lia)).
      change (inject_Z (Z.of_nat 0)) with 0 in Hle. lra. }
    rewrite E. change (num_add (Fin l) (Fin lng_step)) with (Fin (l + lng_step)).
    destruct (IH fuel lat (l + lng_step) (S cell_id)
                (cells ++ [grid_cell cell_id lat (Fin l) (Fin lat_step) (Fin lng_step)])
                st (steps_next _ _ _ _ Hsteps) ltac:(lia)) as (new & Hrun & Hlen).
    rewrite Hrun. eexists (_ :: new). split.
    + rewrite <- app_assoc. cbn [app].
      replace (S cell_id + n)%nat with (cell_id + S n)%nat by lia. reflexivity.
    + simpl. by rewrite Hlen.
Qed.

Lemma lat_loop_run (n : nat) (inner : nat) :
  steps west lng_step east n -> (n < inner)%nat ->
  forall m fuel lat cell_id cells st,
    steps lat lat_step north m -> (m < fuel)%nat ->
    exists new,
      lat_loop num_add fuel inner bounds (Fin lat_step) (Fin lng_step) (Fin lat)
               cell_id cells st
      = (Ok (cells ++ new, (cell_id + m * n)%nat), st) /\
      length new = (m * n)%nat.
Proof.
  intros Hn Hinner. induction m as [|m IH];
    intros fuel lat cell_id cells st Hsteps Hfuel;
    (destruct fuel as [|fuel]; [lia|]); cbn [lat_loop];
    unfold dict_get at 1; rewrite bounds_north;
    rewrite (bind_ok _ _ _ _ _ (eq_refl : ret (Fin north) st = (Ok (Fin north), st))).
  - destruct Hsteps as [Hgt _]. change (inject_Z (Z.of_nat 0)) with 0 in Hgt.
    assert (E : num_leb (Fin lat) (Fin north) = false)
      by (apply num_leb_fin_false; lra).
    rewrite E. exists []. rewrite app_nil_r, Nat.add_0_r. split; reflexivity.
  - assert (E : num_leb (Fin lat) (Fin north) = true).
    { apply num_leb_fin. destruct Hsteps as [_ Hle].
      specialize (Hle 0%nat ltac:(lia)).
      change (inject_Z (Z.of_nat 0)) with 0 in Hle. lra. }
    rewrite E. unfold dict_get; rewrite bounds_west.
    rewrite (bind_ok _ _ _ _ _ (eq_refl : ret (Fin west) st = (Ok (Fin west), st))).
    destruct (lng_loop_run n inner (Fin lat) west cell_id cells st Hn Hinner)
      as (row & Hrow & Hrowlen).
    rewrite (bind_ok _ _ _ _ _ Hrow). cbn [fst snd].
    change (num_add (Fin lat) (Fin lat_step)) with (Fin (lat + lat_step)).
    destruct (IH fuel (lat + lat_step) (cell_id + n)%nat (cells ++ row) st
                (steps_next _ _ _ _ Hsteps) ltac:(lia)) as (new & Hrun & Hlen).
    rewrite Hrun. exists (row ++ new). split.
    + rewrite <- app_assoc.
      replace (cell_id + n + m * n)%nat with (cell_id + S m * n)%nat by lia.
      reflexivity.
    + rewrite length_app, Hrowlen, Hlen. lia.
Qed.

End Loops.

Lemma dict_get_run (d : dict) c x st :
  assoc c d = Some x -> dict_get d c st = (Ok x, st).
Proof. unfold dict_get. intros ->. reflexivity. Qed.

Lemma alloc_run f st :
  alloc f st = (Ok (length (heap st)), mkState (heap st ++ [f]) (trace st)).
Proof. reflexivity. Qed.

Lemma create_analysis_grid_run np_cos (bounds : dict) north south east west
    g c (m n fuel : nat) st :
  assoc "north" bounds = Some (Fin north) ->
  assoc "south" bounds = Some (Fin south) ->
  assoc "east" bounds = Some (Fin east) ->
  assoc "west" bounds = Some (Fin west) ->
  0 < g -> np_cos (center_lat north south) = Fin c -> 0 < c ->
  steps south (g / 111) north m ->
  steps west (g / (111 * c)) east n ->
  (m < fuel)%nat -> (n < fuel)%nat ->
  exists cells,
    length cells = (m * n)%nat /\
    create_analysis_grid np_cos fuel bounds (Fin g) st
    = (Ok (length (heap st)),
       mkState (heap st ++ [frame_of_records cells])
               (trace st ++ [Printed "Created analysis grid cells"
                                   [of_nat (m * n)]])).
Proof.
  intros Hn Hs He Hw Hg Hc Hcpos Hm Hk Hfm Hfn.
  unfold create_analysis_grid, create_analysis_grid_with.
  rewrite (bind_ok _ _ _ _ _ (dict_get_run _ _ _ _ Hn)).
  rewrite (bind_ok _ _ _ _ _ (dict_get_run _ _ _ _ Hs)).
  fold (center_lat north south). rewrite Hc.
  rewrite (bind_ok _ _ _ _ _ (dict_get_run _ _ _ _ Hs)).
  change (num_div (Fin g) (Fin 111)) with (Fin (g / 111)).
  assert (E : num_div (Fin g) (num_mul (Fin 111) (Fin c)) = Fin (g / (111 * c))).
  { unfold num_mul, num_div.
    destruct (Qeqb (111 * c) 0) eqn:E0; [|reflexivity].
    apply Qeqb_eq in E0. lra. }
  rewrite E.
  destruct (lat_loop_run bounds north east west Hn He Hw (g / 111) (g / (111 * c))
              n fuel Hk Hfn m fuel south 0%nat [] st Hm Hfm)
    as (cells & Hrun & Hlen).
  rewrite (bind_ok _ _ _ _ _ Hrun). cbn [fst app].
  unfold pd_DataFrame. rewrite (bind_ok _ _ _ _ _ (alloc_run _ _)).
  rewrite (bind_ok _ _ _ _ _
             (len_run (mkState (heap st ++ [frame_of_records cells]) (trace st))
                      _ _ (lookup_snoc _ _))).
  rewrite (bind_ok _ _ _ _ _ (print_run _ _ _)).
  exists cells. split; [exact Hlen|].
  cbn [heap trace index frame_of_records]. rewrite Hlen. reflexivity.
Qed.

Lemma Qceiling_unique x (n : Z) :
  inject_Z n - 1 < x -> x <= inject_Z n -> Qceiling x = n.
Proof.
  intros Hlo Hhi.
  pose proof (Qle_ceiling x) as H1. pose proof (Qceiling_lt x) as H2.
  assert (A : inject_Z (Qceiling x - 1) < inject_Z n) by lra.
  rewrite <- Zlt_Qlt in A.
  assert (B : inject_Z (n - 1) < inject_Z (Qceiling x)).
  { assert (E : inject_Z (n - 1) == inject_Z n - 1)
      by (unfold Z.sub; rewrite inject_Z_plus; reflexivity).
    rewrite E. lra. }
  rewrite <- Zlt_Qlt in B. lia.
Qed.

(** C8. For the bounds of Milan and a spacing of 0.5 km, whenever the cosine
    of the centre latitude lies between 0.70 and 0.71 (it is about 0.7013),
    the grid builder returns, with enough fuel, a table of
    ceil((north - south) / lat_step) * ceil((east - west) / lng_step)
    = 32 * 34 cells. *)
Theorem milan_grid_count np_cos (c : Q) (fuel : nat) st :
  np_cos (center_lat 45.535 45.395) = Fin c ->
  0.70 <= c <= 0.71 ->
  (34 < fuel)%nat ->
  assoc "milan" CITY_BOUNDS = Some milan /\
  exists st' grid,
    create_analysis_grid np_cos fuel milan (Fin 0.5) st
      = (Ok (length (heap st)), st') /\
    heap st' !! length (heap st) = Some grid /\
    Z.of_nat (index grid)
    = (Qceiling ((45.535 - 45.395) / (0.5 / 111))
       * Qceiling ((9.280 - 9.065) / (0.5 / (111 * c))))%Z /\
    index grid = 1088%nat.
Proof.
  intros Hc [Hc1 Hc2] Hfuel. split; [reflexivity|].
  assert (Hlng : 0 < 0.5 / (111 * c)) by (apply Qlt_shift_div_l; lra).
  assert (Hinv : 0.5 / (111 * c) * (111 * c) == 0.5) by (field; lra).
  assert (Hm : steps 45.395 (0.5 / 111) 45.535 32).
  { apply steps_intro.
    - reflexivity.
    - vm_compute. reflexivity.
    - intros k [= <-]. vm_compute. discriminate. }
  assert (Hn : steps 9.065 (0.5 / (111 * c)) 9.280 34).
  { apply steps_intro; [exact Hlng | |].
    - change (inject_Z (Z.of_nat 34)) with 34. nra.
    - intros k [= <-]. change (inject_Z (Z.of_nat 33)) with 33. nra. }
  destruct (create_analysis_grid_run np_cos milan 45.535 45.395 9.280 9.065
              0.5 c 32 34 fuel st) as (cells & Hlen & Hrun);
    try reflexivity; try assumption; try lra; try lia.
  eexists _, _. split; [exact Hrun|]. split; [apply lookup_snoc|].
  cbn [index frame_of_records]. rewrite Hlen. split; [|reflexivity].
  rewrite (Qceiling_unique _ 32), (Qceiling_unique _ 34).
  - reflexivity.
  - change (inject_Z 34) with 34.
    apply Qlt_shift_div_l; [exact Hlng|]. nra.
  - change (inject_Z 34) with 34.
    apply Qle_shift_div_r; [exact Hlng|]. nra.
  - vm_compute. reflexivity.
  - vm_compute. discriminate.
Qed.

(** * Configuration errors *)






(** * Running to completion *)

Lemma terminates_ret {A} (a : A) : terminates (ret a).
Proof. intros st. discriminate. Qed.

Lemma terminates_raise {A} e : terminates (@raise A e).
Proof. intros st. discriminate. Qed.

Lemma terminates_bind {A B} (m : M A) (k : A -> M B) :
  terminates m -> (forall a, terminates (k a)) -> terminates (bind m k).
Proof.
  intros Hm Hk st. unfold bind. specialize (Hm st).
  destruct (m st) as [[a | e |] st1]; simpl in *; try discriminate; auto.
  apply Hk.
Qed.

Lemma terminates_if {A} (b : bool) (m1 m2 : M A) :
  terminates m1 -> terminates m2 -> terminates (if b then m1 else m2).
Proof. destruct b; auto. Qed.

Lemma terminates_lift {A} (o : result A) : terminates (lift o).
Proof. destruct o; [apply terminates_ret | apply terminates_raise]. Qed.

Lemma terminates_print text args : terminates (print text args).
Proof. intros st. discriminate. Qed.

Lemma terminates_deref r : terminates (deref r).
Proof. intros st. unfold deref. destruct (heap st !! r); discriminate. Qed.

Lemma terminates_alloc f : terminates (alloc f).
Proof. intros st. discriminate. Qed.

Lemma terminates_assign r f : terminates (assign r f).
Proof. intros st. discriminate. Qed.

Lemma terminates_mapM {A B} (g : A -> M B) l :
  (forall x, terminates (g x)) -> terminates (mapM g l).
Proof.
  intros Hg. induction l as [|x l IH]; cbn [mapM].
  - apply terminates_ret.
  - apply terminates_bind; [apply Hg|]. intros y.
    apply terminates_bind; [exact IH|]. intros ys. apply terminates_ret.
Qed.

Lemma terminates_forM_ {A} (g : A -> M unit) l :
  (forall x, terminates (g x)) -> terminates (forM_ l g).
Proof.
  intros Hg. induction l as [|x l IH]; cbn [forM_].
  - apply terminates_ret.
  - apply terminates_bind; [apply Hg | intros; exact IH].
Qed.

Lemma terminates_try_except {A} (m : M A) h :
  terminates m -> (forall e, terminates (h e)) -> terminates (try_except m h).
Proof.
  intros Hm Hh st. unfold try_except. specialize (Hm st).
  destruct (m st) as [[a | e |] st1]; simpl in *; try discriminate; auto.
  apply Hh.
Qed.

Lemma terminates_match_option {A B} (o : option A) (g : A -> M B) (d : M B) :
  (forall a, terminates (g a)) -> terminates d ->
  terminates (match o with Some a => g a | None => d end).
Proof. destruct o; auto. Qed.

Ltac finishes :=
  repeat first
    [ apply terminates_ret | apply terminates_raise | apply terminates_lift
    | apply terminates_print | apply terminates_deref | apply terminates_alloc
    | apply terminates_assign
    | apply terminates_bind; [| intros ?]
    | apply terminates_if
    | apply terminates_mapM; intros ?
    | apply terminates_match_option; [intros ? |]
    | assumption ].

Lemma terminates_len r : terminates (len r).
Proof. unfold len. finishes. Qed.

Lemma terminates_getitem r c : terminates (getitem r c).
Proof. unfold getitem. finishes. Qed.

Lemma terminates_setitem r c s : terminates (setitem r c s).
Proof. unfold setitem. finishes. Qed.

Lemma terminates_setitem_scalar r c x : terminates (setitem_scalar r c x).
Proof. unfold setitem_scalar. finishes. Qed.

Lemma terminates_copy r : terminates (copy r).
Proof. unfold copy. finishes. Qed.

Lemma terminates_select r m : terminates (select r m).
Proof. unfold select. finishes. Qed.

Lemma terminates_getitems r cs : terminates (getitems r cs).
Proof. unfold getitems. finishes. Qed.

Lemma terminates_pd_DataFrame records : terminates (pd_DataFrame records).
Proof. unfold pd_DataFrame. finishes. Qed.

Lemma terminates_iterrows r : terminates (iterrows r).
Proof. unfold iterrows. finishes. Qed.

Lemma terminates_dict_get (d : dict) c : terminates (dict_get d c).
Proof. unfold dict_get. finishes. Qed.

Lemma terminates_sort_values r c : terminates (sort_values r c).
Proof. unfold sort_values. finishes. Qed.

Lemma terminates_iloc r i : terminates (iloc r i).
Proof. unfold iloc. finishes. Qed.

Lemma terminates_head r n : terminates (head r n).
Proof. unfold head. finishes. Qed.

Lemma terminates_merge l r k : terminates (merge l r k).
Proof.
  unfold merge. finishes.
Qed.

Lemma terminates_py_truediv a b : terminates (py_truediv a b).
Proof. unfold py_truediv. destruct b; finishes. Qed.

Ltac finishes' :=
  repeat first
    [ apply terminates_len | apply terminates_getitem | apply terminates_setitem
    | apply terminates_setitem_scalar | apply terminates_copy
    | apply terminates_select | apply terminates_getitems
    | apply terminates_pd_DataFrame | apply terminates_iterrows
    | apply terminates_dict_get | apply terminates_sort_values
    | apply terminates_iloc | apply terminates_head | apply terminates_merge
    | apply terminates_py_truediv
    | apply terminates_ret | apply terminates_raise | apply terminates_lift
    | apply terminates_print | apply terminates_deref | apply terminates_alloc
    | apply terminates_assign
    | apply terminates_bind; [| intros ?]
    | apply terminates_if
    | apply terminates_mapM; intros ?
    | apply terminates_match_option; [intros ? |]
    | assumption ].

Section NoTimeout.

Variable np_cos : num -> num.
Variable geodesic_km : num -> num -> num -> num -> result num.
Variable os_listdir : string -> result (list string).
Variable pd_read_csv : string -> result DataFrame.
Variable today : string.

Lemma terminates_load_data city business_type :
  terminates (load_data os_listdir pd_read_csv city business_type).
Proof.
  unfold load_data. finishes'.
  destruct (filter _ a); finishes'.
Qed.

Lemma terminates_calculate_distance_matrix grid places :
  terminates (calculate_distance_matrix geodesic_km grid places).
Proof. unfold calculate_distance_matrix. finishes'. Qed.

Lemma terminates_analyze_accessibility grid places distances walking :
  terminates (analyze_accessibility grid places distances walking).
Proof. unfold analyze_accessibility, cell_accessibility. finishes'. Qed.

Lemma terminates_identify_service_deserts r thr :
  terminates (identify_service_deserts r thr).
Proof. unfold identify_service_deserts. finishes'. Qed.

Lemma terminates_calculate_opportunity_scores r :
  terminates (calculate_opportunity_scores r).
Proof. unfold calculate_opportunity_scores. finishes'. Qed.

Lemma terminates_save_analysis df city business_type :
  terminates (save_analysis today df city business_type).
Proof.
  unfold save_analysis. finishes'.
Qed.

End NoTimeout.

Lemma CITY_BOUNDS_keys city (bounds : dict) :
  assoc city CITY_BOUNDS = Some bounds ->
  exists north south east west,
    assoc "north" bounds = Some (Fin north) /\
    assoc "south" bounds = Some (Fin south) /\
    assoc "east" bounds = Some (Fin east) /\
    assoc "west" bounds = Some (Fin west).
Proof.
  unfold CITY_BOUNDS. cbn [assoc].
  repeat (destruct (String.eqb city _);
          [intros [= <-]; eexists _, _, _, _; repeat split; reflexivity |]).
  discriminate.
Qed.

Section Batch.

Variable np_cos : num -> num.
Variable geodesic_km : num -> num -> num -> num -> result num.
Variable os_listdir : string -> result (list string).
Variable pd_read_csv : string -> result DataFrame.
Variable today : string.

Lemma create_analysis_grid_terminates city (bounds : dict) :
  cos_positive_at np_cos city ->
  assoc city CITY_BOUNDS = Some bounds ->
  exists fuel0, forall fuel, (fuel0 <= fuel)%nat ->
    terminates (create_analysis_grid np_cos fuel bounds (Fin 0.5)).
Proof.
  intros Hcos Hb.
  destruct (CITY_BOUNDS_keys _ _ Hb) as (n & s & e & w & Hn & Hs & He & Hw).
  destruct (Hcos bounds n s Hb Hn Hs) as (c & Hc & Hcpos).
  destruct (steps_exists s (0.5 / 111) n) as [m Hm]; [reflexivity|].
  destruct (steps_exists w (0.5 / (111 * c)) e) as [k Hk].
  { apply Qlt_shift_div_l; lra. }
  exists (S (Nat.max m k)). intros fuel Hfuel st.
  destruct (create_analysis_grid_run np_cos bounds n s e w 0.5 c m k fuel st)
    as (cells & _ & Hrun); auto; try lra; try lia.
  rewrite Hrun. discriminate.
Qed.

Lemma analyze_city_terminates city :
  cos_positive_at np_cos city ->
  exists fuel0, forall fuel business_type, (fuel0 <= fuel)%nat ->
    terminates (analyze_city np_cos geodesic_km os_listdir pd_read_csv today fuel city business_type).
Proof.
  intros Hcos. unfold analyze_city.
  destruct (assoc city CITY_BOUNDS) as [bounds|] eqn:Hb.
  - destruct (create_analysis_grid_terminates city bounds Hcos Hb) as [fuel0 H0].
    exists fuel0. intros fuel business_type Hfuel.
    apply terminates_bind; [apply terminates_print | intros _].
    apply terminates_bind; [apply terminates_load_data | intros places].
    apply terminates_bind; [by apply H0 | intros grid].
    apply terminates_bind;
      [apply terminates_calculate_distance_matrix | intros distances].
    apply terminates_bind;
      [apply terminates_analyze_accessibility | intros accessibility].
    apply terminates_bind;
      [apply terminates_identify_service_deserts | intros deserts].
    apply terminates_bind;
      [apply terminates_calculate_opportunity_scores | intros results].
    apply terminates_bind; [apply terminates_save_analysis | intros filename].
    finishes.
  - exists 0%nat. intros. finishes.
Qed.

Lemma summary_rows_run (summary : list (string * info)) st :
  forM_ summary summary_row st
  = (Ok tt, mkState (heap st) (trace st ++ map summary_line summary)).
Proof.
  revert st. induction summary as [|entry summary IH]; intros st; cbn [forM_ map].
  - rewrite app_nil_r. by destruct st.
  - assert (E : summary_row entry st
                = (Ok tt, mkState (heap st) (trace st ++ [summary_line entry]))).
    { unfold summary_row, summary_line. destruct (snd entry); reflexivity. }
    rewrite (bind_ok _ _ _ _ _ E), IH. cbn [heap trace].
    by rewrite <- app_assoc.
Qed.

Lemma keys_assoc_set_fresh {A} k (v : A) l :
  ~ In k (keys l) -> keys (assoc_set k v l) = keys l ++ [k].
Proof.
  intros Hk. rewrite assoc_set_fresh.
  - unfold keys. by rewrite map_app.
  - induction l as [|[k' v'] l IH]; simpl in *; [reflexivity|].
    destruct (String.eqb k k') eqn:E.
    + apply String.eqb_eq in E. subst k'. tauto.
    + apply IH. tauto.
Qed.

End Batch.

Lemma insert_string_perm x l : Permutation (insert_string x l) (x :: l).
Proof.
  induction l as [|y l IH]; simpl; [reflexivity|].
  destruct (String.leb x y); [reflexivity|].
  rewrite IH. apply perm_swap.
Qed.

Lemma py_sorted_perm l : Permutation (py_sorted l) l.
Proof.
  induction l as [|x l IH]; simpl; [reflexivity|].
  rewrite insert_string_perm. by constructor.
Qed.

Lemma NoDup_sorted_set l : NoDup (sorted_set l).
Proof.
  unfold sorted_set. rewrite py_sorted_perm.
  apply NoDup_ListNoDup, List.NoDup_nodup.
Qed.

Lemma get_available_business_types_run os_listdir path_exists city st types st0 :
  get_available_business_types os_listdir path_exists city st = (Ok types, st0) ->
  st0 = st /\ NoDup types.
Proof.
  unfold get_available_business_types.
  destruct (negb (path_exists "data/raw")).
  - intros [= <- <-]. split; [reflexivity | constructor].
  - unfold bind, lift. destruct (os_listdir "data/raw") as [names | e].
    + intros [= <- <-]. split; [reflexivity | apply NoDup_sorted_set].
    + discriminate.
Qed.

(** * A category without facilities *)

Lemma mask_filter_none {A} (m : list bool) (l : list A) :
  Forall (fun b => b = false) m -> mask_filter m l = [].
Proof.
  intros H. revert l. induction H as [|b m -> _ IH]; intros [|x l]; simpl; auto.
Qed.

Lemma count_true_none (m : list bool) :
  Forall (fun b => b = false) m -> count_true m = 0%nat.
Proof.
  unfold count_true. induction 1 as [|b m -> _ IH]; simpl; auto.
Qed.

Lemma df_mask_none f (m : list bool) :
  Forall (fun b => b = false) m -> df_mask f m = emptied f.
Proof.
  intros H. unfold df_mask, emptied. rewrite count_true_none by exact H.
  f_equal. apply map_ext. intros cs. by rewrite mask_filter_none.
Qed.

Lemma emptied_twice f : emptied (emptied f) = emptied f.
Proof. unfold emptied; cbn [columns]. by rewrite map_map. Qed.

Lemma df_mask_emptied f : df_mask (emptied f) [] = emptied f.
Proof. rewrite df_mask_none by constructor. apply emptied_twice. Qed.

Lemma take_rows_emptied f : take_rows (emptied f) [] = columns (emptied f).
Proof. unfold take_rows, emptied; cbn [columns]. by rewrite map_map. Qed.

Lemma head_emptied f (n : nat) :
  mkDF (Nat.min n (index (emptied f)))
       (map (fun cs => (fst cs, firstn n (snd cs))) (columns (emptied f)))
  = emptied f.
Proof.
  unfold emptied; cbn [columns index]. rewrite Nat.min_0_r, map_map. f_equal.
  apply map_ext. intros cs. cbn [fst snd]. by rewrite firstn_nil.
Qed.

Lemma df_col_emptied f c s :
  df_col f c = Some s -> df_col (emptied f) c = Some [].
Proof.
  unfold df_col, emptied; cbn [columns].
  induction (columns f) as [|[k v] l IH]; simpl; [discriminate|].
  destruct (String.eqb c k); [reflexivity | exact IH].
Qed.

Lemma sort_values_run st r f c s :
  heap st !! r = Some f -> df_col f c = Some s ->
  sort_values r c st
  = (Ok (length (heap st)),
     mkState (heap st ++ [mkDF (index f) (take_rows f (sort_permutation s))])
             (trace st)).
Proof.
  intros Hr Hc. unfold sort_values.
  rewrite (bind_ok _ _ _ _ _ (deref_run _ _ _ Hr)). rewrite Hc. reflexivity.
Qed.

Lemma head_run st r f n :
  heap st !! r = Some f ->
  head r n st
  = (Ok (length (heap st)),
     mkState (heap st ++ [mkDF (Nat.min n (index f))
                               (map (fun cs => (fst cs, firstn n (snd cs)))
                                    (columns f))])
             (trace st)).
Proof.
  intros Hr. unfold head.
  rewrite (bind_ok _ _ _ _ _ (deref_run _ _ _ Hr)). reflexivity.
Qed.

Lemma lookup_app_nth {A} (h : list A) (new : list A) (k : nat) x :
  new !! k = Some x -> (h ++ new) !! (length h + k)%nat = Some x.
Proof.
  intros H. rewrite lookup_app_r by lia.
  by replace (length h + k - length h)%nat with k by lia.
Qed.

(** X30. A cell none of whose distance records is in the table gets no service
    within walking distance, nearest and average distance [+inf] and
    density 0, provided the table has its two columns. *)
Lemma cell_without_records st distances f key dist walking cell_id :
  heap st !! distances = Some f -> frame_ok f ->
  df_col f "cell_id" = Some key ->
  df_col f "distance_km" = Some dist ->
  Forall (fun k => num_eqb k cell_id = false) key ->
  exists density,
    density == 0 /\
    cell_accessibility distances walking cell_id st
    = (Ok [ ("cell_id", cell_id);
            ("services_within_walking", of_nat 0);
            ("nearest_distance_km", PInf);
            ("avg_distance_top3_km", PInf);
            ("density_per_km2", Fin density) ],
       mkState (heap st ++ repeat (emptied f) 6) (trace st)).
Proof.
  intros Hr Hok Hkey Hdist Hnone.
  destruct st as [h t]. cbn [heap trace] in *.
  set (e := emptied f).
  assert (He : df_col e "distance_km" = Some []) by (eapply df_col_emptied; eauto).
  assert (Hsort : mkDF (index e) (take_rows e []) = e)
    by (unfold e at 2; rewrite take_rows_emptied; reflexivity).
  assert (Hmask : df_mask e [] = e) by apply df_mask_emptied.
  assert (Hhead : mkDF (Nat.min 3 (index e))
                    (map (fun cs => (fst cs, firstn 3 (snd cs))) (columns e)) = e)
    by apply head_emptied.
  assert (Hin : forall (k : nat) new t0, (k < length new)%nat ->
            Forall (fun g => g = e) new ->
            heap (mkState (h ++ new) t0) !! (length h + k)%nat = Some e).
  { intros k new t0 Hk Hall. cbn [heap]. apply lookup_app_nth.
    destruct (lookup_lt_is_Some_2 new k Hk) as [g Hg].
    rewrite Hg. f_equal. exact (Forall_lookup_1 _ _ _ _ Hall Hg). }
  unfold cell_accessibility.
  rewrite (bind_ok _ _ _ _ _ (getitem_run (mkState h t) _ _ _ _ Hr Hkey)).
  assert (Hlen : length (map (fun k => num_eqb k cell_id) key) = index f)
    by (rewrite length_map; eapply frame_ok_col; eauto).
  rewrite (bind_ok _ _ _ _ _ (select_run (mkState h t) _ _ _ Hr Hlen)).
  rewrite df_mask_none.
  2:{ clear - Hnone. induction Hnone; simpl; constructor; auto. }
  fold e. cbn [heap trace].
  rewrite (bind_ok _ _ _ _ _ (copy_run (mkState (h ++ [e]) t) _ e (lookup_snoc _ _))).
  cbn [heap trace]. rewrite <- app_assoc. cbn [app].
  rewrite length_app, Nat.add_1_r.
  assert (H2 : heap (mkState (h ++ [e; e]) t) !! S (length h) = Some e).
  { replace (S (length h)) with (length h + 1)%nat by lia.
    apply Hin; [simpl; lia | repeat constructor]. }
  rewrite (bind_ok _ _ _ _ _ (sort_values_run _ _ _ _ _ H2 He)).
  cbn [heap trace sort_permutation length seq zip_with fold_right map].
  rewrite Hsort.
  rewrite <- app_assoc. cbn [app]. rewrite length_app. cbn [length].
  assert (H3 : forall t0, heap (mkState (h ++ [e; e; e] ++ t0) t)
                          !! (length h + 2)%nat = Some e).
  { intros t0. cbn [heap]. apply lookup_app_nth. reflexivity. }
  pose proof (H3 []) as H30. rewrite app_nil_r in H30.
  rewrite (bind_ok _ _ _ _ _ (getitem_run _ _ _ _ _ H30 He)).
  rewrite (bind_ok _ _ _ _ _ (select_run _ _ _ [] H30 eq_refl)).
  cbn [heap trace map]. rewrite Hmask.
  rewrite <- app_assoc. cbn [app].
  assert (H4 : heap (mkState (h ++ [e; e; e; e]) t)
                 !! length (h ++ [e; e; e]) = Some e).
  { rewrite length_app. apply lookup_app_nth. reflexivity. }
  rewrite (bind_ok _ _ _ _ _ (len_run _ _ _ H4)).
  pose proof (H3 [e]) as H31.
  rewrite (bind_ok _ _ _ _ _ (len_run _ _ _ H31)).
  cbn [index e emptied Nat.ltb Nat.leb].
  rewrite (bind_ok _ _ _ _ _ (eq_refl : ret np_inf _ = (Ok np_inf, _))).
  rewrite (bind_ok _ _ _ _ _ (head_run _ _ _ 3 H31)).
  cbn [heap trace]. rewrite Hhead.
  rewrite <- !app_assoc. cbn [app].
  assert (H5 : heap (mkState (h ++ [e; e; e; e; e]) t)
                 !! length (h ++ [e; e; e; e]) = Some e).
  { rewrite length_app. apply lookup_app_nth. reflexivity. }
  rewrite (bind_ok _ _ _ _ _ (len_run _ _ _ H5)).
  cbn [index e emptied Nat.ltb Nat.leb].
  rewrite (bind_ok _ _ _ _ _ (eq_refl : ret np_inf _ = (Ok np_inf, _))).
  pose proof (H3 [e; e]) as H32.
  rewrite (bind_ok _ _ _ _ _ (getitem_run _ _ _ _ _ H32 He)).
  rewrite (bind_ok _ _ _ _ _ (select_run _ _ _ [] H32 eq_refl)).
  cbn [heap trace map]. rewrite Hmask.
  rewrite <- !app_assoc. cbn [app].
  assert (H6 : heap (mkState (h ++ [e; e; e; e; e; e]) t)
                 !! length (h ++ [e; e; e; e; e]) = Some e).
  { rewrite length_app. apply lookup_app_nth. reflexivity. }
  rewrite (bind_ok _ _ _ _ _ (len_run _ _ _ H6)).
  cbn [index e emptied].
  eexists. split; [|reflexivity]. reflexivity.
Qed.

Lemma getitem_missing st r f c :
  heap st !! r = Some f -> df_col f c = None ->
  getitem r c st = (Raise (KeyError c), st).
Proof.
  intros Hr Hc. unfold getitem. rewrite (bind_ok _ _ _ _ _ (deref_run _ _ _ Hr)).
  rewrite Hc. reflexivity.
Qed.

Lemma bind_raise {A B} (m : M A) (k : A -> M B) st e st' :
  m st = (Raise e, st') -> bind m k st = (Raise e, st').
Proof. unfold bind. intros ->. reflexivity. Qed.

(** On a distance table without a [cell_id] column, which is what no place
    at all gives, the analyzer stops at its first cell. *)
Lemma analyze_accessibility_without_columns st grid places distances g f
    first others walking :
  heap st !! grid = Some g -> df_col g "cell_id" = Some (first :: others) ->
  heap st !! distances = Some f -> df_col f "cell_id" = None ->
  fst (analyze_accessibility grid places distances walking st)
  = Raise (KeyError "cell_id").
Proof.
  intros Hg Hids Hd Hnone. unfold analyze_accessibility.
  rewrite (bind_ok _ _ _ _ _ (print_run _ _ _)).
  set (st1 := mkState _ _).
  assert (Hg1 : heap st1 !! grid = Some g) by exact Hg.
  assert (Hd1 : heap st1 !! distances = Some f) by exact Hd.
  rewrite (bind_ok _ _ _ _ _ (getitem_run _ _ _ _ _ Hg1 Hids)).
  erewrite bind_raise; [reflexivity|].
  cbn [mapM]. eapply bind_raise. unfold cell_accessibility.
  eapply bind_raise. apply (getitem_missing _ _ _ _ Hd1 Hnone).
Qed.

(** What the supply-only scorer makes of the record of such a cell. *)
Lemma isolated_cell_scores :
  viability_of (of_nat 0) = Fin 0.5 /\
  exists gap, accessibility_gap_of [PInf] = [Fin gap] /\ gap == 1.
Proof. split; [reflexivity|]. eexists. split; reflexivity. Qed.

(** C5. With a places file that has a header and no rows, the analysis of
    Milan stops in the Accessibility Analyzer with KeyError 'cell_id': the
    distance table built from no record has no column at all, so the cells
    without facilities never reach the +inf branch. *)
Lemma no_facilities_crash (geodesic_km : num -> num -> num -> num -> result num) :
  fst (analyze_city (fun _ => Fin 0.7) geodesic_km listing read_header_only
                    "20240102" 40 "milan" "pharmacy" (mkState [] []))
  = Raise (KeyError "cell_id").
Proof. vm_compute. reflexivity. Qed.

(** * Worked inputs *)

Ltac data_model :=
  repeat first
    [ apply Forall_nil_2
    | apply Forall_cons_2
    | reflexivity
    | (left; reflexivity)
    | (right; eexists; split; [reflexivity | discriminate])
    | (eexists; split; [reflexivity | discriminate])
    | (eexists _, 0%Z; split; [reflexivity | split; [reflexivity | lia]])
    | (eexists _, 2%Z; split; [reflexivity | split; [reflexivity | lia]])
    | (eexists _, 7%Z; split; [reflexivity | split; [reflexivity | lia]]) ].

Lemma sample_accessibility_frame :
  accessibility_frame sample_accessibility
    [Fin 0; Fin 0.6; Fin 2.2] [PInf; Fin 0.4; Fin 1.5] [Fin 0; Fin 2; Fin 7].
Proof. split; data_model. Defined.

Lemma supply_only_scores_formula_witness :
  accessibility_frame sample_accessibility
    [Fin 0; Fin 0.6; Fin 2.2] [PInf; Fin 0.4; Fin 1.5] [Fin 0; Fin 2; Fin 7] /\
  exists st' f',
    calculate_opportunity_scores 0%nat (mkState [sample_accessibility] [])
      = (Ok 1%nat, st') /\
    heap st' !! 1%nat = Some f' /\
    forall i d n s max_density,
      [Fin 0; Fin 0.6; Fin 2.2] !! i = Some (Fin d) ->
      [PInf; Fin 0.4; Fin 1.5] !! i = Some n ->
      [Fin 0; Fin 2; Fin 7] !! i = Some (Fin s) ->
      is_maximum max_density [Fin 0; Fin 0.6; Fin 2.2] ->
      exists cg ag v score,
        cell f' "competition_gap" i = Some (Fin cg) /\
        cell f' "accessibility_gap" i = Some (Fin ag) /\
        cell f' "viability" i = Some (Fin v) /\
        cell f' "opportunity_score" i = Some (Fin score) /\
        supply_only_cell max_density d n s cg ag v score.
Proof.
  split; [exact sample_accessibility_frame|].
  apply (supply_only_scores_formula (mkState [sample_accessibility] []) 0%nat
           sample_accessibility);
    [reflexivity | exact sample_accessibility_frame].
Defined.

Lemma service_desert_rule_witness :
  (0 < index sample_accessibility)%nat /\
  exists st' deserts mask,
    identify_service_deserts 0%nat (Fin 1.5) (mkState [sample_accessibility] [])
      = (Ok deserts, st') /\
    heap st' !! deserts = Some (df_mask sample_accessibility mask) /\
    length mask = 3%nat /\
    (forall i n s,
        [PInf; Fin 0.4; Fin 1.5] !! i = Some n ->
        [Fin 0; Fin 2; Fin 7] !! i = Some (Fin s) ->
        (mask !! i = Some true <-> is_desert n s) /\
        (mask !! i = Some false <-> ~ is_desert n s)) /\
    (forall i q s,
        [PInf; Fin 0.4; Fin 1.5] !! i = Some (Fin q) ->
        [Fin 0; Fin 2; Fin 7] !! i = Some (Fin s) ->
        q == 1.5 -> s == 2 -> mask !! i = Some false).
Proof.
  split; [simpl; lia|].
  apply (service_desert_rule (mkState [sample_accessibility] []) 0%nat
           sample_accessibility [Fin 0; Fin 0.6; Fin 2.2]);
    [reflexivity | exact sample_accessibility_frame | simpl; lia].
Defined.

Lemma classifier_and_scorer_work_on_copies_witness :
  keys (columns sample_accessibility) = accessibility_columns /\
  (exists res st',
      identify_service_deserts 0%nat (Fin 1.5)
                               (mkState [sample_accessibility] [])
        = (res, st') /\
      (forall r0 f0, [sample_accessibility] !! r0 = Some f0 ->
                     heap st' !! r0 = Some f0) /\
      (forall deserts, res = Ok deserts ->
                       [sample_accessibility] !! deserts = None)) /\
  (exists st' f' cg ag v score,
      calculate_opportunity_scores 0%nat (mkState [sample_accessibility] [])
        = (Ok 1%nat, st') /\
      (forall r0 f0, [sample_accessibility] !! r0 = Some f0 ->
                     heap st' !! r0 = Some f0) /\
      [sample_accessibility] !! 1%nat = None /\
      heap st' !! 1%nat = Some f' /\
      index f' = 3%nat /\
      columns f' = columns sample_accessibility
                   ++ [ ("competition_gap", cg); ("accessibility_gap", ag);
                        ("viability", v); ("opportunity_score", score) ]).
Proof.
  split; [reflexivity|].
  apply (classifier_and_scorer_work_on_copies
           (mkState [sample_accessibility] []) 0%nat sample_accessibility
           (Fin 1.5));
    [reflexivity | reflexivity | unfold frame_ok; data_model].
Defined.

Lemma demand_floor_witness :
  df_col sample_enriched "population_1km" = Some [Fin 50; Fin 200] /\
  exists st' f',
    recalculate_opportunity_with_population 0%nat (mkState [sample_enriched] [])
      = (Ok 0%nat, st') /\
    heap st' !! 0%nat = Some f' /\
    forall i p,
      [Fin 50; Fin 200] !! i = Some (Fin p) -> p < 100 ->
      cell f' "demand_score" i = Some (Fin 0) /\
      cell f' "opportunity_score" i = Some (Fin 0).
Proof.
  split; [reflexivity|].
  apply (demand_floor (mkState [sample_enriched] []) 0%nat sample_enriched
           [Fin 50; Fin 200] [Fin 9; Fin 4.8]);
    [reflexivity | unfold frame_ok; data_model | reflexivity | reflexivity].
Defined.

Lemma demand_weighted_scores_witness :
  demand_frame sample_enriched [Fin 50; Fin 200] [Fin 9; Fin 4.8]
               [Fin 1; Fin 0.5] [Fin 1; Fin 0.2] [Fin 0.5; Fin 1] /\
  exists st' f',
    recalculate_opportunity_with_population 0%nat (mkState [sample_enriched] [])
      = (Ok 0%nat, st') /\
    heap st' !! 0%nat = Some f' /\
    forall i p c a w o m,
      [Fin 50; Fin 200] !! i = Some (Fin p) ->
      [Fin 1; Fin 0.5] !! i = Some (Fin c) ->
      [Fin 1; Fin 0.2] !! i = Some (Fin a) ->
      [Fin 0.5; Fin 1] !! i = Some (Fin w) ->
      [Fin 9; Fin 4.8] !! i = Some o ->
      is_maximum m [Fin 50; Fin 200] ->
      cell f' "opportunity_score_original" i = Some o /\
      (m == 0 -> cell f' "demand_score" i = Some (Fin 0)) /\
      (100 <= p ->
       exists dem score,
         cell f' "demand_score" i = Some (Fin dem) /\
         dem == p / m /\
         cell f' "opportunity_score" i = Some (Fin score) /\
         score == 10 * (0.30 * c + 0.30 * a + 0.30 * dem + 0.10 * w)).
Proof.
  assert (H : demand_frame sample_enriched [Fin 50; Fin 200] [Fin 9; Fin 4.8]
                [Fin 1; Fin 0.5] [Fin 1; Fin 0.2] [Fin 0.5; Fin 1])
    by (split; unfold frame_ok; data_model).
  split; [exact H|].
  apply (demand_weighted_scores (mkState [sample_enriched] []) 0%nat
           sample_enriched); [reflexivity | exact H].
Defined.

Lemma opportunity_score_bounds_witness :
  accessibility_frame sample_accessibility
    [Fin 0; Fin 0.6; Fin 2.2] [PInf; Fin 0.4; Fin 1.5] [Fin 0; Fin 2; Fin 7] /\
  exists st1 f1,
    calculate_opportunity_scores 0%nat (mkState [sample_accessibility] [])
      = (Ok 1%nat, st1) /\
    heap st1 !! 1%nat = Some f1 /\
    scores_within f1 0 10 /\
    forall st2 r2 point population,
      length point = 3%nat -> length population = 3%nat ->
      Forall finite_nonneg population ->
      heap st2 !! r2
      = Some (df_set (df_set f1 "population" point) "population_1km" population) ->
      exists st3 f3,
        recalculate_opportunity_with_population r2 st2 = (Ok r2, st3) /\
        heap st3 !! r2 = Some f3 /\
        scores_within f3 0 10.
Proof.
  split; [exact sample_accessibility_frame|].
  apply (opportunity_score_bounds (mkState [sample_accessibility] []) 0%nat
           sample_accessibility [Fin 0; Fin 0.6; Fin 2.2]
           [PInf; Fin 0.4; Fin 1.5] [Fin 0; Fin 2; Fin 7]);
    [reflexivity | exact sample_accessibility_frame].
Defined.

Lemma milan_grid_count_witness :
  cos_table (center_lat 45.535 45.395) = Fin 0.7013 /\
  0.70 <= 0.7013 <= 0.71 /\
  assoc "milan" CITY_BOUNDS = Some milan /\
  exists st' grid,
    create_analysis_grid cos_table 35 milan (Fin 0.5) (mkState [] [])
      = (Ok 0%nat, st') /\
    heap st' !! 0%nat = Some grid /\
    Z.of_nat (index grid)
    = (Qceiling ((45.535 - 45.395) / (0.5 / 111))
       * Qceiling ((9.280 - 9.065) / (0.5 / (111 * 0.7013))))%Z /\
    index grid = 1088%nat.
Proof.
  split; [reflexivity|]. split; [split; discriminate|].
  apply (milan_grid_count cos_table 0.7013 35 (mkState [] []));
    [reflexivity | split; discriminate | lia].
Defined.

Lemma cos_table_positive : cos_positive_at cos_table "milan".
Proof.
  intros bounds north south _ _ _. exists 0.7013. split; reflexivity.
Defined.

(** * Python's string order *)

Lemma ascii_compare_refl (a : ascii) : Ascii.compare a a = Eq.
Proof. unfold Ascii.compare. apply N.compare_refl. Qed.

Lemma string_compare_refl (s : string) : String.compare s s = Eq.
Proof. induction s as [|a s IH]; simpl; [reflexivity|]. by rewrite ascii_compare_refl. Qed.

Lemma string_leb_refl (s : string) : String.leb s s = true.
Proof. unfold String.leb. by rewrite string_compare_refl. Qed.

Lemma string_leb_trans (s1 s2 s3 : string) :
  String.leb s1 s2 = true -> String.leb s2 s3 = true -> String.leb s1 s3 = true.
Proof.
  unfold String.leb. revert s2 s3.
  induction s1 as [|a s1 IH]; intros [|b s2] [|c s3]; simpl; try congruence.
  unfold Ascii.compare.
  destruct (N.compare_spec (N_of_ascii a) (N_of_ascii b)) as [E1|E1|E1];
    destruct (N.compare_spec (N_of_ascii b) (N_of_ascii c)) as [E2|E2|E2];
    try congruence.
  - rewrite E1, E2, N.compare_refl. apply IH.
  - intros _ _. rewrite E1. by apply N.compare_lt_iff in E2 as ->.
  - intros _ _. rewrite <- E2. by apply N.compare_lt_iff in E1 as ->.
  - intros _ _. assert (E : (N_of_ascii a < N_of_ascii c)%N) by lia.
    by apply N.compare_lt_iff in E as ->.
Qed.

Lemma insert_string_sorted x l :
  Sorted (fun a b => String.leb a b = true) l ->
  Sorted (fun a b => String.leb a b = true) (insert_string x l).
Proof.
  induction 1 as [|y l Hs IH Hhd]; simpl; [repeat constructor|].
  destruct (String.leb x y) eqn:E.
  - constructor; [by constructor | by constructor].
  - constructor; [exact IH|].
    destruct (String.leb_total x y) as [E'|E']; [congruence|].
    destruct l as [|z l]; simpl; [by constructor|].
    destruct (String.leb x z); constructor; auto. by inversion Hhd.
Qed.

Lemma py_sorted_sorted l : Sorted (fun a b => String.leb a b = true) (py_sorted l).
Proof. induction l; simpl; [constructor | by apply insert_string_sorted]. Qed.

Lemma sorted_last_greatest (l : list string) d x :
  Sorted (fun a b => String.leb a b = true) l -> In x l ->
  String.leb x (List.last l d) = true.
Proof.
  intros Hs. revert x. induction Hs as [|y l Hs IH Hhd]; intros x; [by intros []|].
  destruct l as [|z l].
  - intros [->|[]]. apply string_leb_refl.
  - intros [->|Hin].
    + change (List.last (x :: z :: l) d) with (List.last (z :: l) d).
      eapply string_leb_trans; [|apply IH; by left]. by inversion Hhd.
    + change (List.last (y :: z :: l) d) with (List.last (z :: l) d). by apply IH.
Qed.

Lemma last_In {A} (l : list A) d : l <> [] -> In (List.last l d) l.
Proof.
  induction l as [|x [|y l] IH]; intros H; [done | by left |].
  right. apply IH. discriminate.
Qed.

(** [sorted(files)[-1]] is a greatest element of [files]. *)
Lemma py_sorted_last (l : list string) d :
  l <> [] ->
  In (List.last (py_sorted l) d) l /\
  forall x, In x l -> String.leb x (List.last (py_sorted l) d) = true.
Proof.
  intros Hne. pose proof (py_sorted_perm l) as Hp. split.
  - eapply Permutation_in; [exact Hp|]. apply last_In.
    intros E. rewrite E in Hp. apply Permutation_nil in Hp. congruence.
  - intros x Hx. apply sorted_last_greatest; [apply py_sorted_sorted|].
    eapply Permutation_in; [symmetry; exact Hp | exact Hx].
Qed.

(** * Loading the places *)

(** X1. Without a file for the city and the type, [load_data] raises
    [FileNotFoundError] before it reads or prints anything. *)
Lemma load_data_without_file os_listdir pd_read_csv city business_type names st :
  os_listdir "data/raw" = Return names ->
  Forall (fun f => startswith f (city ++ "_" ++ business_type ++ "_")%string = false)
         names ->
  load_data os_listdir pd_read_csv city business_type st
  = (Raise (FileNotFoundError
              ("No data found for " ++ city ++ " " ++ business_type)%string), st).
Proof.
  intros Hls Hnone. unfold load_data. rewrite Hls.
  rewrite (bind_ok _ _ _ _ _ (eq_refl : lift (Return names) st = (Ok names, st))).
  replace (filter _ names) with (@nil string); [reflexivity|].
  symmetry. clear Hls. induction Hnone as [|n names Hn _ IH]; [reflexivity|].
  rewrite filter_cons_False; [exact IH|]. rewrite Hn. exact id.
Qed.

(** X2. [load_data] reads the matching file whose name is greatest in string
    order, which is the most recent one when the names end in a date. *)
Lemma load_data_reads_latest os_listdir pd_read_csv city business_type names st :
  os_listdir "data/raw" = Return names ->
  Exists (fun f => startswith f (city ++ "_" ++ business_type ++ "_")%string = true)
         names ->
  exists latest,
    In latest names /\
    startswith latest (city ++ "_" ++ business_type ++ "_")%string = true /\
    (forall f, In f names ->
               startswith f (city ++ "_" ++ business_type ++ "_")%string = true ->
               String.leb f latest = true) /\
    forall g, pd_read_csv ("data/raw/" ++ latest)%string = Return g ->
      load_data os_listdir pd_read_csv city business_type st
      = (Ok (length (heap st)),
         mkState (heap st ++ [g])
                 (trace st ++
                  [Printed ("Loading: data/raw/" ++ latest)%string [];
                   Printed ("Loaded " ++ business_type ++ " locations")%string
                           [of_nat (index g)]])).
Proof.
  intros Hls Hsome.
  set (prefix := (city ++ "_" ++ business_type ++ "_")%string) in *.
  set (files := filter (fun f => startswith f prefix) names).
  assert (Hne : files <> []).
  { apply Exists_exists in Hsome as (n & Hin & Hn).
    assert (Hf : n ∈ files).
    { apply list_elem_of_filter. split; [by rewrite Hn | exact Hin]. }
    intros E. rewrite E in Hf. by apply not_elem_of_nil in Hf. }
  destruct (py_sorted_last files "" Hne) as [Hin Hmax].
  exists (List.last (py_sorted files) "").
  apply list_elem_of_In, list_elem_of_filter in Hin as [Hpre Hin].
  apply list_elem_of_In in Hin. apply Is_true_true in Hpre.
  split; [exact Hin|]. split; [exact Hpre|]. split.
  - intros f Hf Hp. apply Hmax. apply list_elem_of_In, list_elem_of_filter.
    split; [by rewrite Hp | apply list_elem_of_In; exact Hf].
  - intros g Hread. unfold load_data. rewrite Hls.
    rewrite (bind_ok _ _ _ _ _ (eq_refl : lift (Return names) st = (Ok names, st))).
    fold prefix. fold files. destruct files as [|f0 rest] eqn:E; [congruence|].
    rewrite (bind_ok _ _ _ _ _ (print_run _ _ _)).
    change ("data/raw" ++ "/" ++ ?x)%string with ("data/raw/" ++ x)%string.
    rewrite Hread.
    rewrite (bind_ok _ _ _ _ _ (eq_refl : lift (Return g) _ = (Ok g, _))).
    rewrite (bind_ok _ _ _ _ _ (alloc_run _ _)).
    cbn [heap trace].
    rewrite (bind_ok _ _ _ _ _ (len_run (mkState (heap st ++ [g]) _) _ _
                                        (lookup_snoc _ _))).
    rewrite (bind_ok _ _ _ _ _ (print_run _ _ _)).
    cbn [heap trace]. rewrite <- app_assoc. reflexivity.
Qed.

(** * The business types on disk *)

Lemma contains_cons_false sub a s :
  contains sub (String a s) = false -> contains sub s = false.
Proof. cbn [contains]. intros H. by apply orb_false_iff in H as [_ H]. Qed.

Lemma contains_char_head (c a : ascii) s :
  contains (String c "") (String a s) = false -> Ascii.eqb c a = false.
Proof.
  cbn [contains String.prefix]. intros H. apply orb_false_iff in H as [H _].
  destruct (ascii_dec c a) as [->|Hne].
  - destruct s; discriminate H.
  - by apply Ascii.eqb_neq.
Qed.

Lemma contains_char_cons (c a : ascii) s :
  Ascii.eqb c a = false -> contains (String c "") s = false ->
  contains (String c "") (String a s) = false.
Proof.
  intros Hne Hs. cbn [contains String.prefix]. rewrite Hs, orb_false_r.
  destruct (ascii_dec c a) as [->|H]; [by rewrite Ascii.eqb_refl in Hne | reflexivity].
Qed.

(** No piece of [s.split(c)] holds the separator. *)
Lemma split_on_free (c : ascii) s :
  Forall (fun w => contains (String c "") w = false) (split_on c s).
Proof.
  induction s as [|a s IH]; cbn [split_on].
  - repeat constructor.
  - destruct (Ascii.eqb a c) eqn:E; [constructor; [reflexivity | exact IH]|].
    destruct (split_on c s) as [|w ws]; [repeat constructor|].
    + apply contains_char_cons; [by rewrite Ascii.eqb_sym | reflexivity].
    + inversion IH as [|? ? Hw Hws]; subst. constructor; [|exact Hws].
      apply contains_char_cons; [by rewrite Ascii.eqb_sym | exact Hw].
Qed.

Lemma split_on_nonempty (c : ascii) s : split_on c s <> [].
Proof.
  destruct s as [|a s]; cbn [split_on]; [discriminate|].
  destruct (Ascii.eqb a c); [discriminate|]. destruct (split_on c s); discriminate.
Qed.

(** [(a + c + rest).split(c)] when [a] is free of the separator. *)
Lemma split_on_app (c : ascii) a rest :
  contains (String c "") a = false ->
  split_on c (a ++ String c rest)%string = a :: split_on c rest.
Proof.
  induction a as [|x a IH]; intros Hfree.
  - change ("" ++ String c rest)%string with (String c rest).
    cbn [split_on]. by rewrite Ascii.eqb_refl.
  - change (String x a ++ String c rest)%string
      with (String x (a ++ String c rest)).
    cbn [split_on]. pose proof (contains_char_head _ _ _ Hfree) as Hx.
    rewrite Ascii.eqb_sym in Hx. rewrite Hx.
    rewrite (IH (contains_cons_false _ _ _ Hfree)). reflexivity.
Qed.

Lemma py_sorted_In x l : In x (py_sorted l) <-> In x l.
Proof.
  split; intros H; (eapply Permutation_in; [|exact H]);
    [apply py_sorted_perm | symmetry; apply py_sorted_perm].
Qed.

Lemma sorted_set_In x l : In x (sorted_set l) <-> In x l.
Proof. unfold sorted_set. rewrite py_sorted_In. apply nodup_In. Qed.

(** X3. The types reported for a city come out in ascending order without
    repetition, and none of them holds an underscore: a file of the type
    [transit_station] is reported as [transit]. *)
Lemma business_types_sorted_words os_listdir path_exists city names st :
  path_exists "data/raw" = true ->
  os_listdir "data/raw" = Return names ->
  exists types,
    get_available_business_types os_listdir path_exists city st = (Ok types, st) /\
    Sorted (fun a b => String.leb a b = true) types /\
    NoDup types /\
    Forall (fun business_type => contains "_" business_type = false) types.
Proof.
  intros Hdir Hls. unfold get_available_business_types. rewrite Hdir, Hls.
  eexists. split; [reflexivity|]. split; [apply py_sorted_sorted|].
  split; [apply NoDup_sorted_set|].
  apply List.Forall_forall. intros bt Hbt.
  apply sorted_set_In, in_flat_map in Hbt as (file & _ & Hbt).
  destruct (startswith file (city ++ "_")%string && endswith file ".csv");
    [|destruct Hbt].
  set (parts := split_on "_" (py_replace ".csv" "" file)) in *.
  destruct (Nat.leb 3 (length parts)) eqn:E; [|destruct Hbt].
  destruct Hbt as [<-|[]]. apply Nat.leb_le in E.
  pose proof (split_on_free "_" (py_replace ".csv" "" file)) as Hfree.
  fold parts in Hfree. rewrite List.Forall_forall in Hfree.
  apply Hfree. apply nth_In. lia.
Qed.

Lemma append_nil_l (s : string) : ("" ++ s)%string = s.
Proof. reflexivity. Qed.

Lemma append_nil_r (s : string) : (s ++ "")%string = s.
Proof. induction s as [|x s IH]; [reflexivity|]. by rewrite <- IH at 2. Qed.

Lemma append_cons (a : ascii) (s t : string) :
  (String a s ++ t)%string = String a (s ++ t).
Proof. reflexivity. Qed.

Lemma append_assoc (a b c : string) : ((a ++ b) ++ c)%string = (a ++ (b ++ c))%string.
Proof.
  induction a as [|x a IH]; [reflexivity|]. rewrite !append_cons. by rewrite IH.
Qed.

Lemma prefix_append (p s : string) : String.prefix p (p ++ s) = true.
Proof.
  induction p as [|x p IH]; [by destruct s|].
  rewrite append_cons. cbn [String.prefix].
  destruct (ascii_dec x x); [exact IH | congruence].
Qed.

Lemma length_append (s t : string) :
  String.length (s ++ t) = (String.length s + String.length t)%nat.
Proof. induction s as [|x s IH]; [reflexivity|]. rewrite append_cons. simpl. by rewrite IH. Qed.

Lemma substring_all (t : string) : substring 0 (String.length t) t = t.
Proof. induction t as [|x t IH]; [reflexivity|]. simpl. by rewrite IH. Qed.

Lemma substring_append (s t : string) :
  substring (String.length s) (String.length t) (s ++ t) = t.
Proof.
  induction s as [|x s IH]; [apply substring_all|]. rewrite append_cons. exact IH.
Qed.

Lemma endswith_append (s suf : string) : endswith (s ++ suf) suf = true.
Proof.
  unfold endswith. rewrite length_append.
  replace (String.length s + String.length suf - String.length suf)%nat
    with (String.length s) by lia.
  rewrite substring_append, String.eqb_refl, andb_true_r.
  apply Nat.leb_le. lia.
Qed.

(** [(s + t).replace(".csv", new)] when [s] holds no dot. *)
Lemma replace_free new (s t : string) :
  contains "." s = false ->
  py_replace ".csv" new (s ++ t) = (s ++ py_replace ".csv" new t)%string.
Proof.
  unfold py_replace. induction s as [|x s IH]; intros Hfree; [reflexivity|].
  rewrite !append_cons. cbn [replace_from].
  pose proof (contains_char_head _ _ _ Hfree) as Hx.
  replace (String.prefix ".csv" (String x (s ++ t))) with false.
  - by rewrite (IH (contains_cons_false _ _ _ Hfree)).
  - cbn [String.prefix]. destruct (ascii_dec "." x) as [<-|]; [|reflexivity].
    by rewrite Ascii.eqb_refl in Hx.
Qed.

(** X4. A file that the collector names [<city>_<type>_<date>.csv] is reported
    under its type and is found again by [load_data], as long as city and
    type hold no underscore and no dot occurs before the extension. *)
Lemma collected_file_is_analysable os_listdir path_exists pd_read_csv city
    business_type date names st :
  path_exists "data/raw" = true ->
  os_listdir "data/raw" = Return names ->
  (forall path, exists f, pd_read_csv path = Return f) ->
  contains "_" city = false ->
  contains "_" business_type = false ->
  contains "." (city ++ "_" ++ business_type ++ "_" ++ date)%string = false ->
  In (city ++ "_" ++ business_type ++ "_" ++ date ++ ".csv")%string names ->
  (exists types,
      get_available_business_types os_listdir path_exists city st = (Ok types, st) /\
      In business_type types) /\
  exists places st',
    load_data os_listdir pd_read_csv city business_type st = (Ok places, st').
Proof.
  intros Hdir Hls Hread Hcity Htype Hdot Hin.
  set (file := (city ++ "_" ++ business_type ++ "_" ++ date ++ ".csv")%string) in *.
  split.
  - unfold get_available_business_types. rewrite Hdir, Hls.
    eexists. split; [reflexivity|].
    apply sorted_set_In, in_flat_map. exists file. split; [exact Hin|].
    assert (Hstart : startswith file (city ++ "_")%string = true).
    { unfold startswith, file.
      change (city ++ "_" ++ business_type ++ "_" ++ date ++ ".csv")%string
        with (city ++ ("_" ++ (business_type ++ "_" ++ date ++ ".csv")))%string.
      rewrite <- append_assoc. apply prefix_append. }
    assert (Hend : endswith file ".csv" = true).
    { unfold file.
      replace (city ++ "_" ++ business_type ++ "_" ++ date ++ ".csv")%string
        with ((city ++ "_" ++ business_type ++ "_" ++ date) ++ ".csv")%string
        by (rewrite !append_assoc; reflexivity).
      apply endswith_append. }
    rewrite Hstart, Hend. cbn [andb].
    assert (Hparts : split_on "_" (py_replace ".csv" "" file)
                     = city :: business_type :: split_on "_" date).
    { unfold file.
      replace (city ++ "_" ++ business_type ++ "_" ++ date ++ ".csv")%string
        with ((city ++ "_" ++ business_type ++ "_" ++ date) ++ ".csv")%string
        by (rewrite !append_assoc; reflexivity).
      rewrite (replace_free _ _ _ Hdot).
      change (py_replace ".csv" "" ".csv") with "".
      replace ((city ++ "_" ++ business_type ++ "_" ++ date) ++ "")%string
        with (city ++ String "_" (business_type ++ String "_" date))%string.
      - rewrite (split_on_app _ _ _ Hcity), (split_on_app _ _ _ Htype). reflexivity.
      - by rewrite append_nil_r. }
    rewrite Hparts. cbn [length nth].
    pose proof (split_on_nonempty "_" date) as Hne.
    destruct (split_on "_" date) as [|d ds]; [congruence|]. by left.
  - unfold load_data. rewrite Hls.
    rewrite (bind_ok _ _ _ _ _ (eq_refl : lift (Return names) st = (Ok names, st))).
    set (prefix := (city ++ "_" ++ business_type ++ "_")%string).
    assert (Hf : file ∈ filter (fun f => startswith f prefix) names).
    { apply list_elem_of_filter. split; [|by apply list_elem_of_In].
      apply Is_true_true. unfold startswith, file, prefix.
      replace (city ++ "_" ++ business_type ++ "_" ++ date ++ ".csv")%string
        with ((city ++ "_" ++ business_type ++ "_") ++ (date ++ ".csv"))%string
        by (rewrite !append_assoc; reflexivity).
      apply prefix_append. }
    destruct (filter (fun f => startswith f prefix) names) as [|f0 rest];
      [by apply not_elem_of_nil in Hf|].
    rewrite (bind_ok _ _ _ _ _ (print_run _ _ _)).
    destruct (Hread ("data/raw" ++ "/" ++ List.last (py_sorted (f0 :: rest)) "")%string)
      as [g Hg].
    rewrite Hg. eexists. eexists.
    rewrite (bind_ok _ _ _ _ _ (eq_refl : lift (Return g) _ = (Ok g, _))).
    rewrite (bind_ok _ _ _ _ _ (alloc_run _ _)). cbn [heap trace].
    rewrite (bind_ok _ _ _ _ _ (len_run (mkState (heap st ++ [g]) _) _ _
                                        (lookup_snoc _ _))).
    rewrite (bind_ok _ _ _ _ _ (print_run _ _ _)). reflexivity.
Qed.

(** * Frames built from records *)

Lemma existsb_eqb_In (k : string) (l : list string) :
  existsb (String.eqb k) l = true <-> In k l.
Proof.
  rewrite existsb_exists. split.
  - intros (x & Hx & E). apply String.eqb_eq in E. by subst.
  - intros H. exists k. split; [exact H | apply String.eqb_refl].
Qed.

Lemma add_keys_known (ks acc : list string) :
  (forall k, In k ks -> In k acc) ->
  fold_left (fun acc' k => if existsb (String.eqb k) acc' then acc'
                           else acc' ++ [k]) ks acc = acc.
Proof.
  revert acc. induction ks as [|k ks IH]; intros acc H; [reflexivity|].
  cbn [fold_left].
  replace (existsb (String.eqb k) acc) with true
    by (symmetry; apply existsb_eqb_In, H; by left).
  apply IH. intros k' Hk'. apply H. by right.
Qed.

Lemma add_keys_fresh (ks acc : list string) :
  List.NoDup (acc ++ ks) ->
  fold_left (fun acc' k => if existsb (String.eqb k) acc' then acc'
                           else acc' ++ [k]) ks acc = acc ++ ks.
Proof.
  revert acc. induction ks as [|k ks IH]; intros acc H; cbn [fold_left].
  - by rewrite app_nil_r.
  - replace (existsb (String.eqb k) acc) with false.
    + rewrite IH; rewrite <- app_assoc; [reflexivity | exact H].
    + symmetry. apply not_true_iff_false. rewrite existsb_eqb_In.
      intros Hin. apply List.NoDup_remove_2 in H. apply H.
      apply in_or_app. by left.
Qed.

(** Records that all have the keys [ks] give a frame with the columns [ks]. *)
Lemma union_keys_same (ks : list string) (records : list dict) :
  List.NoDup ks -> records <> [] -> Forall (fun d => keys d = ks) records ->
  union_keys records = ks.
Proof.
  intros Hnd Hne Hall. unfold union_keys.
  destruct Hall as [|d records Hd Hall]; [congruence|].
  cbn [fold_left]. rewrite Hd, (add_keys_fresh ks []) by exact Hnd. cbn [app].
  clear Hne. induction Hall as [|d' records Hd' _ IH]; [reflexivity|].
  cbn [fold_left]. rewrite Hd', add_keys_known by auto. exact IH.
Qed.

Lemma assoc_map_key {A} (g : string -> A) (k : string) (ks : list string) :
  In k ks -> assoc k (map (fun k' => (k', g k')) ks) = Some (g k).
Proof.
  induction ks as [|k' ks IH]; [by intros []|]. intros Hin. cbn [map assoc].
  destruct (String.eqb k k') eqn:E; [apply String.eqb_eq in E; by subst|].
  apply IH. destruct Hin as [->|H]; [by rewrite String.eqb_refl in E | exact H].
Qed.

Lemma frame_of_records_col (ks : list string) (records : list dict) k :
  List.NoDup ks -> records <> [] -> Forall (fun d => keys d = ks) records ->
  In k ks ->
  df_col (frame_of_records records) k
  = Some (map (fun d => default NaN (assoc k d)) records).
Proof.
  intros Hnd Hne Hall Hin. unfold df_col, frame_of_records. cbn [columns].
  rewrite (union_keys_same ks) by assumption.
  exact (assoc_map_key (fun k => map (fun d => default NaN (assoc k d)) records)
                       k ks Hin).
Qed.

Lemma frame_of_records_keys (ks : list string) (records : list dict) :
  List.NoDup ks -> records <> [] -> Forall (fun d => keys d = ks) records ->
  keys (columns (frame_of_records records)) = ks.
Proof.
  intros Hnd Hne Hall. unfold frame_of_records, keys. cbn [columns].
  rewrite (union_keys_same ks) by assumption. rewrite map_map. cbn [fst].
  apply map_id.
Qed.

Lemma frame_of_records_ok (records : list dict) : frame_ok (frame_of_records records).
Proof.
  unfold frame_ok, frame_of_records. cbn [columns index].
  apply List.Forall_forall. intros cs Hcs. apply in_map_iff in Hcs as (k & <- & _).
  cbn [snd]. apply length_map.
Qed.

(** * The layout of the grid *)

Section Layout.

Variable bounds : dict.
Variables north east west : Q.
Hypothesis bounds_north : assoc "north" bounds = Some (Fin north).
Hypothesis bounds_east : assoc "east" bounds = Some (Fin east).
Hypothesis bounds_west : assoc "west" bounds = Some (Fin west).
Variables lat_step lng_step : Q.

Lemma lng_loop_cells (n : nat) :
  forall fuel lat l cell_id cells st,
    steps l lng_step east n -> (n < fuel)%nat ->
    lng_loop num_add fuel bounds (Fin lat) (Fin lat_step) (Fin lng_step) (Fin l)
             cell_id cells st
    = (Ok (cells ++ row_cells n lat_step lng_step lat l cell_id,
           (cell_id + n)%nat), st).
Proof.
  induction n as [|n IH]; intros fuel lat l cell_id cells st Hsteps Hfuel;
    (destruct fuel as [|fuel]; [lia|]); cbn [lng_loop];
    rewrite (bind_ok _ _ _ _ _ (dict_get_run _ _ _ st bounds_east)).
  - destruct Hsteps as [Hgt _]. change (inject_Z (Z.of_nat 0)) with 0 in Hgt.
    assert (E : num_leb (Fin l) (Fin east) = false)
      by (apply num_leb_fin_false; lra).
    rewrite E. cbn [row_cells]. by rewrite app_nil_r, Nat.add_0_r.
  - assert (E : num_leb (Fin l) (Fin east) = true).
    { apply num_leb_fin. destruct Hsteps as [_ Hle].
      specialize (Hle 0%nat ltac:(lia)).
      change (inject_Z (Z.of_nat 0)) with 0 in Hle. lra. }
    rewrite E. change (num_add (Fin l) (Fin lng_step)) with (Fin (l + lng_step)).
    rewrite (IH fuel lat (l + lng_step) (S cell_id) _ st
                (steps_next _ _ _ _ Hsteps) ltac:(lia)).
    rewrite <- app_assoc. cbn [app row_cells].
    by replace (S cell_id + n)%nat with (cell_id + S n)%nat by lia.
Qed.

Lemma length_row_cells n lat l cell_id :
  length (row_cells n lat_step lng_step lat l cell_id) = n.
Proof.
  revert l cell_id. induction n as [|n IH]; intros l cell_id;
    cbn [row_cells length]; [reflexivity | by rewrite IH].
Qed.

Lemma lat_loop_cells (n inner : nat) :
  steps west lng_step east n -> (n < inner)%nat ->
  forall m fuel lat cell_id cells st,
    steps lat lat_step north m -> (m < fuel)%nat ->
    lat_loop num_add fuel inner bounds (Fin lat_step) (Fin lng_step) (Fin lat)
             cell_id cells st
    = (Ok (cells ++ grid_rows m n lat_step lng_step west lat cell_id,
           (cell_id + m * n)%nat), st).
Proof.
  intros Hn Hinner. induction m as [|m IH];
    intros fuel lat cell_id cells st Hsteps Hfuel;
    (destruct fuel as [|fuel]; [lia|]); cbn [lat_loop];
    rewrite (bind_ok _ _ _ _ _ (dict_get_run _ _ _ st bounds_north)).
  - destruct Hsteps as [Hgt _]. change (inject_Z (Z.of_nat 0)) with 0 in Hgt.
    assert (E : num_leb (Fin lat) (Fin north) = false)
      by (apply num_leb_fin_false; lra).
    rewrite E. cbn [grid_rows]. by rewrite app_nil_r, Nat.add_0_r.
  - assert (E : num_leb (Fin lat) (Fin north) = true).
    { apply num_leb_fin. destruct Hsteps as [_ Hle].
      specialize (Hle 0%nat ltac:(lia)).
      change (inject_Z (Z.of_nat 0)) with 0 in Hle. lra. }
    rewrite E.
    rewrite (bind_ok _ _ _ _ _ (dict_get_run _ _ _ st bounds_west)).
    rewrite (bind_ok _ _ _ _ _
               (lng_loop_cells n inner lat west cell_id cells st Hn Hinner)).
    cbn [fst snd].
    change (num_add (Fin lat) (Fin lat_step)) with (Fin (lat + lat_step)).
    rewrite (IH fuel (lat + lat_step) (cell_id + n)%nat _ st
                (steps_next _ _ _ _ Hsteps) ltac:(lia)).
    rewrite <- app_assoc. cbn [grid_rows].
    by replace (cell_id + n + m * n)%nat with (cell_id + S m * n)%nat by lia.
Qed.

End Layout.

Lemma length_grid_rows m n lat_step lng_step west lat cell_id :
  length (grid_rows m n lat_step lng_step west lat cell_id) = (m * n)%nat.
Proof.
  revert lat cell_id. induction m as [|m IH]; intros lat cell_id;
    cbn [grid_rows]; [reflexivity|].
  rewrite length_app, length_row_cells, IH. lia.
Qed.

Lemma row_cells_keys n lat_step lng_step lat l cell_id :
  Forall (fun d => keys d = grid_columns)
         (row_cells n lat_step lng_step lat l cell_id).
Proof.
  revert l cell_id. induction n as [|n IH]; intros l cell_id; cbn [row_cells];
    constructor; [reflexivity | apply IH].
Qed.

Lemma grid_rows_keys m n lat_step lng_step west lat cell_id :
  Forall (fun d => keys d = grid_columns)
         (grid_rows m n lat_step lng_step west lat cell_id).
Proof.
  revert lat cell_id. induction m as [|m IH]; intros lat cell_id; cbn [grid_rows];
    [constructor|]. apply Forall_app. split; [apply row_cells_keys | apply IH].
Qed.

Lemma row_cells_ids n lat_step lng_step lat l cell_id :
  map (fun d => default NaN (assoc "cell_id" d))
      (row_cells n lat_step lng_step lat l cell_id)
  = map of_nat (seq cell_id n).
Proof.
  revert l cell_id. induction n as [|n IH]; intros l cell_id;
    cbn [row_cells map seq]; [reflexivity|]. rewrite IH. reflexivity.
Qed.

Lemma grid_rows_ids m n lat_step lng_step west lat cell_id :
  map (fun d => default NaN (assoc "cell_id" d))
      (grid_rows m n lat_step lng_step west lat cell_id)
  = map of_nat (seq cell_id (m * n)).
Proof.
  revert lat cell_id. induction m as [|m IH]; intros lat cell_id;
    cbn [grid_rows]; [reflexivity|].
  rewrite map_app, row_cells_ids, IH.
  replace (S m * n)%nat with (n + m * n)%nat by lia.
  by rewrite seq_app, map_app.
Qed.

Lemma grid_columns_NoDup : List.NoDup grid_columns.
Proof.
  unfold grid_columns.
  repeat (constructor; [cbn; intuition discriminate|]). constructor.
Qed.

(** The grid builder run to its end: the frame of [grid_rows]. *)
Lemma create_analysis_grid_cells np_cos (bounds : dict) north south east west
    g c (m n fuel : nat) st :
  assoc "north" bounds = Some (Fin north) ->
  assoc "south" bounds = Some (Fin south) ->
  assoc "east" bounds = Some (Fin east) ->
  assoc "west" bounds = Some (Fin west) ->
  0 < g -> np_cos (center_lat north south) = Fin c -> 0 < c ->
  steps south (g / 111) north m ->
  steps west (g / (111 * c)) east n ->
  (m < fuel)%nat -> (n < fuel)%nat ->
  create_analysis_grid np_cos fuel bounds (Fin g) st
  = (Ok (length (heap st)),
     mkState (heap st ++ [frame_of_records
                            (grid_rows m n (g / 111) (g / (111 * c))
                                       west south 0)])
             (trace st ++ [Printed "Created analysis grid cells"
                                   [of_nat (m * n)]])).
Proof.
  intros Hn Hs He Hw Hg Hc Hcpos Hm Hk Hfm Hfn.
  unfold create_analysis_grid, create_analysis_grid_with.
  rewrite (bind_ok _ _ _ _ _ (dict_get_run _ _ _ _ Hn)).
  rewrite (bind_ok _ _ _ _ _ (dict_get_run _ _ _ _ Hs)).
  fold (center_lat north south). rewrite Hc.
  rewrite (bind_ok _ _ _ _ _ (dict_get_run _ _ _ _ Hs)).
  change (num_div (Fin g) (Fin 111)) with (Fin (g / 111)).
  assert (E : num_div (Fin g) (num_mul (Fin 111) (Fin c)) = Fin (g / (111 * c))).
  { unfold num_mul, num_div.
    destruct (Qeqb (111 * c) 0) eqn:E0; [|reflexivity].
    apply Qeqb_eq in E0. lra. }
  rewrite E.
  rewrite (bind_ok _ _ _ _ _
             (lat_loop_cells bounds north east west Hn He Hw (g / 111)
                (g / (111 * c)) n fuel Hk Hfn m fuel south 0%nat [] st Hm Hfm)).
  cbn [fst app].
  unfold pd_DataFrame. rewrite (bind_ok _ _ _ _ _ (alloc_run _ _)).
  rewrite (bind_ok _ _ _ _ _
             (len_run (mkState (heap st ++ [frame_of_records _]) (trace st))
                      _ _ (lookup_snoc _ _))).
  rewrite (bind_ok _ _ _ _ _ (print_run _ _ _)).
  cbn [heap trace index frame_of_records]. by rewrite length_grid_rows.
Qed.

(** * A grid size that is not positive *)

Lemma bind_out_of_fuel {A B} (m : M A) (k : A -> M B) st st' :
  m st = (OutOfFuel, st') -> bind m k st = (OutOfFuel, st').
Proof. unfold bind. intros ->. reflexivity. Qed.

Lemma lng_loop_never_ends (bounds : dict) east lat lat_step lng_step fuel :
  assoc "east" bounds = Some (Fin east) -> lng_step <= 0 ->
  forall l cell_id cells st, l <= east ->
    lng_loop num_add fuel bounds lat lat_step (Fin lng_step) (Fin l) cell_id cells st
    = (OutOfFuel, st).
Proof.
  intros He Hstep. induction fuel as [|fuel IH]; intros l cell_id cells st Hl;
    cbn [lng_loop]; [reflexivity|].
  rewrite (bind_ok _ _ _ _ _ (dict_get_run _ _ _ st He)).
  replace (num_leb (Fin l) (Fin east)) with true
    by (symmetry; by apply num_leb_fin).
  change (num_add (Fin l) (Fin lng_step)) with (Fin (l + lng_step)).
  apply IH. lra.
Qed.

(** X7. With a grid size of zero or less and bounds in the right order the
    grid builder never leaves its loops: whatever the fuel, no grid comes
    back. *)
Lemma grid_size_not_positive_never_ends np_cos (bounds : dict)
    north south east west g c fuel st :
  assoc "north" bounds = Some (Fin north) ->
  assoc "south" bounds = Some (Fin south) ->
  assoc "east" bounds = Some (Fin east) ->
  assoc "west" bounds = Some (Fin west) ->
  south <= north -> west <= east ->
  np_cos (center_lat north south) = Fin c -> 0 < c ->
  g <= 0 ->
  create_analysis_grid np_cos fuel bounds (Fin g) st = (OutOfFuel, st).
Proof.
  intros Hn Hs He Hw Hlat Hlng Hc Hcpos Hg.
  unfold create_analysis_grid, create_analysis_grid_with.
  rewrite (bind_ok _ _ _ _ _ (dict_get_run _ _ _ _ Hn)).
  rewrite (bind_ok _ _ _ _ _ (dict_get_run _ _ _ _ Hs)).
  fold (center_lat north south). rewrite Hc.
  rewrite (bind_ok _ _ _ _ _ (dict_get_run _ _ _ _ Hs)).
  assert (E : num_div (Fin g) (num_mul (Fin 111) (Fin c)) = Fin (g / (111 * c))).
  { unfold num_mul, num_div.
    destruct (Qeqb (111 * c) 0) eqn:E0; [|reflexivity].
    apply Qeqb_eq in E0. lra. }
  rewrite E. apply bind_out_of_fuel.
  destruct fuel as [|fuel]; cbn [lat_loop]; [reflexivity|].
  rewrite (bind_ok _ _ _ _ _ (dict_get_run _ _ _ _ Hn)).
  replace (num_leb (Fin south) (Fin north)) with true
    by (symmetry; by apply num_leb_fin).
  rewrite (bind_ok _ _ _ _ _ (dict_get_run _ _ _ _ Hw)).
  apply bind_out_of_fuel. apply lng_loop_never_ends with (east := east); auto.
  assert (H : g / (111 * c) * (111 * c) == g) by (field; lra).
  assert (Hpos : 0 < 111 * c) by lra.
  destruct (Qlt_le_dec 0 (g / (111 * c))) as [Hgt|]; [|assumption].
  assert (0 * (111 * c) < g / (111 * c) * (111 * c))
    by (apply Qmult_lt_compat_r; assumption).
  lra.
Qed.

(** * The distance table *)

Lemma mapM_run {A B} (f : A -> M B) (g : A -> B) (l : list A) st :
  (forall x, In x l -> f x st = (Ok (g x), st)) ->
  mapM f l st = (Ok (map g l), st).
Proof.
  induction l as [|x l IH]; intros H; cbn [mapM map]; [reflexivity|].
  rewrite (bind_ok _ _ _ _ _ (H x (or_introl eq_refl))).
  rewrite (bind_ok _ _ _ _ _ (IH (fun y Hy => H y (or_intror Hy)))).
  reflexivity.
Qed.

Lemma mapM_map_run {A B C} (f : A -> M B) (r : C -> A) (h : C -> B)
    (l : list C) st :
  (forall i, In i l -> f (r i) st = (Ok (h i), st)) ->
  mapM f (map r l) st = (Ok (map h l), st).
Proof.
  intros H. rewrite <- (map_map r (fun x => x)), map_id.
  rewrite <- (map_map r (fun a => a)) in *.
  induction l as [|x l IH]; cbn [mapM map]; [reflexivity|].
  rewrite (bind_ok _ _ _ _ _ (H x (or_introl eq_refl))).
  rewrite (bind_ok _ _ _ _ _ (IH (fun y Hy => H y (or_intror Hy)))).
  reflexivity.
Qed.

Lemma iterrows_run st r f :
  heap st !! r = Some f ->
  iterrows r st = (Ok (map (row_at f) (seq 0 (index f))), st).
Proof.
  intros Hr. unfold iterrows. by rewrite (bind_ok _ _ _ _ _ (deref_run _ _ _ Hr)).
Qed.

Lemma assoc_map_snd {A B} (g : A -> B) k (l : list (string * A)) :
  assoc k (map (fun cs => (fst cs, g (snd cs))) l) = g <$> assoc k l.
Proof.
  induction l as [|[k' v] l IH]; [reflexivity|]. cbn [map assoc fst snd].
  destruct (String.eqb k k'); [reflexivity | exact IH].
Qed.

(** A row read by [iterrows] or [iloc] has the value of each column. *)
Lemma assoc_row_at f c s (i : nat) :
  df_col f c = Some s -> assoc c (row_at f i) = Some (nth i s NaN).
Proof.
  unfold df_col, row_at. intros H.
  by rewrite (assoc_map_snd (fun s => nth i s NaN)), H.
Qed.

Lemma flat_map_seq_lookup {A} (h : nat -> nat -> A) (places : nat) :
  forall cells start (i j : nat), (i < cells)%nat -> (j < places)%nat ->
  flat_map (fun i => map (h i) (seq 0 places)) (seq start cells)
    !! (i * places + j)%nat
  = Some (h (start + i)%nat j).
Proof.
  induction cells as [|cells IH]; intros start i j Hi Hj; [lia|].
  cbn [seq flat_map]. destruct i as [|i].
  - rewrite lookup_app_l by (rewrite length_map, length_seq; lia).
    rewrite lookup_map, lookup_seq_lt by lia. by rewrite Nat.add_0_r.
  - rewrite lookup_app_r by (rewrite length_map, length_seq; lia).
    rewrite length_map, length_seq.
    replace (S i * places + j - places)%nat with (i * places + j)%nat by lia.
    rewrite IH by lia. f_equal. f_equal. lia.
Qed.

Lemma length_flat_map_seq {A} (h : nat -> nat -> A) (places cells start : nat) :
  length (flat_map (fun i => map (h i) (seq 0 places)) (seq start cells))
  = (cells * places)%nat.
Proof.
  revert start. induction cells as [|cells IH]; intros start; [reflexivity|].
  cbn [seq flat_map]. rewrite length_app, length_map, length_seq, IH. lia.
Qed.

Lemma concat_map_flat_map {A B} (h : A -> list B) l :
  concat (map h l) = flat_map h l.
Proof. induction l as [|x l IH]; [reflexivity|]. cbn. by rewrite IH. Qed.

(** The distance table run to its end. *)
Lemma calculate_distance_matrix_run geodesic_km dist st grid places g p
    ids lats lngs pids plats plngs :
  (forall a b c d, geodesic_km a b c d = Return (dist a b c d)) ->
  heap st !! grid = Some g -> heap st !! places = Some p ->
  df_col g "cell_id" = Some ids ->
  df_col g "center_lat" = Some lats ->
  df_col g "center_lng" = Some lngs ->
  df_col p "place_id" = Some pids ->
  df_col p "lat" = Some plats ->
  df_col p "lng" = Some plngs ->
  calculate_distance_matrix geodesic_km grid places st
  = (Ok (length (heap st)),
     mkState (heap st ++
              [frame_of_records
                 (distance_records dist (index g) (index p)
                                   ids lats lngs pids plats plngs)])
             (trace st ++
              [Printed "Calculating distances (this may take a minute)..." [];
               Printed "Calculated distance measurements"
                       [of_nat (index g * index p)]])).
Proof.
  intros Hgeo Hg Hp Hids Hlats Hlngs Hpids Hplats Hplngs.
  unfold calculate_distance_matrix.
  rewrite (bind_ok _ _ _ _ _ (print_run _ _ _)).
  set (st1 := mkState _ _).
  assert (Hg1 : heap st1 !! grid = Some g) by exact Hg.
  assert (Hp1 : heap st1 !! places = Some p) by exact Hp.
  rewrite (bind_ok _ _ _ _ _ (iterrows_run _ _ _ Hg1)).
  match goal with
  | |- context [mapM ?body (map (row_at g) ?l)] =>
      assert (Hloop : mapM body (map (row_at g) l) st1
                = (Ok (map (fun i =>
                              map (fun j =>
                                     [ ("cell_id", nth i ids NaN);
                                       ("place_id", nth j pids NaN);
                                       ("distance_km",
                                        dist (nth i lats NaN) (nth i lngs NaN)
                                             (nth j plats NaN) (nth j plngs NaN)) ])
                                  (seq 0 (index p))) l), st1))
  end.
  { apply mapM_map_run. intros i _.
    rewrite (bind_ok _ _ _ _ _
               (dict_get_run _ _ _ st1 (assoc_row_at g _ _ i Hlats))).
    rewrite (bind_ok _ _ _ _ _
               (dict_get_run _ _ _ st1 (assoc_row_at g _ _ i Hlngs))).
    rewrite (bind_ok _ _ _ _ _ (iterrows_run _ _ _ Hp1)).
    apply mapM_map_run. intros j _.
    rewrite (bind_ok _ _ _ _ _
               (dict_get_run _ _ _ st1 (assoc_row_at p _ _ j Hplats))).
    rewrite (bind_ok _ _ _ _ _
               (dict_get_run _ _ _ st1 (assoc_row_at p _ _ j Hplngs))).
    rewrite Hgeo.
    rewrite (bind_ok _ _ _ _ _ (eq_refl : lift (Return _) st1 = (Ok _, st1))).
    rewrite (bind_ok _ _ _ _ _
               (dict_get_run _ _ _ st1 (assoc_row_at g _ _ i Hids))).
    rewrite (bind_ok _ _ _ _ _
               (dict_get_run _ _ _ st1 (assoc_row_at p _ _ j Hpids))).
    reflexivity. }
  rewrite (bind_ok _ _ _ _ _ Hloop). clear Hloop.
  rewrite concat_map_flat_map. fold (distance_records dist (index g) (index p)
                                       ids lats lngs pids plats plngs).
  unfold pd_DataFrame. rewrite (bind_ok _ _ _ _ _ (alloc_run _ _)).
  cbn [heap trace st1].
  rewrite (bind_ok _ _ _ _ _
             (len_run (mkState (heap st ++ [frame_of_records _]) _)
                      _ _ (lookup_snoc _ _))).
  rewrite (bind_ok _ _ _ _ _ (print_run _ _ _)).
  cbn [heap trace index frame_of_records]. rewrite <- app_assoc.
  unfold distance_records at 2. by rewrite length_flat_map_seq.
Qed.

Lemma distance_records_keys dist cells places ids lats lngs pids plats plngs :
  Forall (fun d => keys d = distance_columns)
         (distance_records dist cells places ids lats lngs pids plats plngs).
Proof.
  unfold distance_records. apply List.Forall_forall. intros d Hd.
  apply in_flat_map in Hd as (i & _ & Hd).
  apply in_map_iff in Hd as (j & <- & _). reflexivity.
Qed.

Lemma distance_columns_NoDup : List.NoDup distance_columns.
Proof.
  unfold distance_columns.
  repeat (constructor; [cbn; intuition discriminate|]). constructor.
Qed.

Lemma cell_nth f c s (i : nat) x :
  frame_ok f -> df_col f c = Some s -> cell f c i = Some x ->
  (i < index f)%nat /\ nth i s NaN = x.
Proof.
  intros Hok Hc. unfold cell. rewrite Hc. intros Hi.
  pose proof (lookup_lt_Some _ _ _ Hi) as Hlt.
  rewrite (frame_ok_col _ _ _ Hok Hc) in Hlt. split; [exact Hlt|].
  by apply nth_lookup_Some with (d := NaN) in Hi.
Qed.

(** X8. The distance table has one record per cell and place, cell by cell and
    within a cell in the order of the places: record [i * places + j] holds
    the id of cell [i], the id of place [j] and the geodesic distance
    between the centre of the one and the position of the other. *)
Lemma distance_matrix_rows geodesic_km dist st grid places g p
    ids lats lngs pids plats plngs :
  (forall a b c d, geodesic_km a b c d = Return (dist a b c d)) ->
  heap st !! grid = Some g -> heap st !! places = Some p ->
  frame_ok g -> frame_ok p ->
  df_col g "cell_id" = Some ids ->
  df_col g "center_lat" = Some lats ->
  df_col g "center_lng" = Some lngs ->
  df_col p "place_id" = Some pids ->
  df_col p "lat" = Some plats ->
  df_col p "lng" = Some plngs ->
  exists table t',
    calculate_distance_matrix geodesic_km grid places st
    = (Ok (length (heap st)), mkState (heap st ++ [table]) t') /\
    index table = (index g * index p)%nat /\
    forall (i j : nat) id lat lng pid plat plng,
      cell g "cell_id" i = Some id ->
      cell g "center_lat" i = Some lat ->
      cell g "center_lng" i = Some lng ->
      cell p "place_id" j = Some pid ->
      cell p "lat" j = Some plat ->
      cell p "lng" j = Some plng ->
      cell table "cell_id" (i * index p + j) = Some id /\
      cell table "place_id" (i * index p + j) = Some pid /\
      cell table "distance_km" (i * index p + j) = Some (dist lat lng plat plng).
Proof.
  intros Hgeo Hg Hp Hokg Hokp Hids Hlats Hlngs Hpids Hplats Hplngs.
  eexists. eexists. split.
  { eapply calculate_distance_matrix_run; eauto. }
  set (records := distance_records dist (index g) (index p)
                                   ids lats lngs pids plats plngs).
  split.
  { cbn [index frame_of_records]. apply length_flat_map_seq. }
  intros i j id lat lng pid plat plng Hid Hlat Hlng Hpid Hplat Hplng.
  destruct (cell_nth _ _ _ _ _ Hokg Hids Hid) as [Hi <-].
  destruct (cell_nth _ _ _ _ _ Hokg Hlats Hlat) as [_ <-].
  destruct (cell_nth _ _ _ _ _ Hokg Hlngs Hlng) as [_ <-].
  destruct (cell_nth _ _ _ _ _ Hokp Hpids Hpid) as [Hj <-].
  destruct (cell_nth _ _ _ _ _ Hokp Hplats Hplat) as [_ <-].
  destruct (cell_nth _ _ _ _ _ Hokp Hplngs Hplng) as [_ <-].
  assert (Hne : records <> []).
  { intros E. apply (f_equal (@length _)) in E. unfold records in E.
    unfold distance_records in E. rewrite length_flat_map_seq in E.
    simpl in E. nia. }
  assert (Hrow : records !! (i * index p + j)%nat
                 = Some [ ("cell_id", nth i ids NaN);
                          ("place_id", nth j pids NaN);
                          ("distance_km",
                           dist (nth i lats NaN) (nth i lngs NaN)
                                (nth j plats NaN) (nth j plngs NaN)) ]).
  { unfold records, distance_records.
    by rewrite (flat_map_seq_lookup _ (index p) (index g) 0%nat i j Hi Hj). }
  assert (Hcol : forall k, In k distance_columns ->
            cell (frame_of_records records) k (i * index p + j)
            = Some (default NaN
                      (assoc k [ ("cell_id", nth i ids NaN);
                                 ("place_id", nth j pids NaN);
                                 ("distance_km",
                                  dist (nth i lats NaN) (nth i lngs NaN)
                                       (nth j plats NaN) (nth j plngs NaN)) ]))).
  { intros k Hin. unfold cell.
    rewrite (frame_of_records_col distance_columns);
      [| apply distance_columns_NoDup | exact Hne
       | apply distance_records_keys | exact Hin].
    by rewrite lookup_map, Hrow. }
  split; [apply Hcol; cbn; auto|]. split; apply Hcol; cbn; auto.
Qed.

(** X9. Without any place the distance table is a frame without columns, and
    the analyzer, asked for the column [cell_id] of it, stops with a
    [KeyError] as soon as the grid has a cell. *)
Lemma no_places_no_columns geodesic_km st grid places g p lats lngs
    first others walking :
  heap st !! grid = Some g -> heap st !! places = Some p ->
  df_col g "cell_id" = Some (first :: others) ->
  df_col g "center_lat" = Some lats ->
  df_col g "center_lng" = Some lngs ->
  index p = 0%nat ->
  exists t',
    calculate_distance_matrix geodesic_km grid places st
    = (Ok (length (heap st)), mkState (heap st ++ [empty_frame]) t') /\
    fst (analyze_accessibility grid places (length (heap st)) walking
                               (mkState (heap st ++ [empty_frame]) t'))
    = Raise (KeyError "cell_id").
Proof.
  intros Hg Hp Hids Hlats Hlngs Hnone.
  eexists. split.
  - unfold calculate_distance_matrix.
    rewrite (bind_ok _ _ _ _ _ (print_run _ _ _)).
    set (st1 := mkState _ _).
    assert (Hg1 : heap st1 !! grid = Some g) by exact Hg.
    assert (Hp1 : heap st1 !! places = Some p) by exact Hp.
    rewrite (bind_ok _ _ _ _ _ (iterrows_run _ _ _ Hg1)).
    match goal with
    | |- context [mapM ?body (map (row_at g) ?l)] =>
        assert (Hloop : mapM body (map (row_at g) l) st1
                        = (Ok (map (fun _ => []) l), st1))
    end.
    { apply mapM_map_run. intros i _.
      rewrite (bind_ok _ _ _ _ _
                 (dict_get_run _ _ _ st1 (assoc_row_at g _ _ i Hlats))).
      rewrite (bind_ok _ _ _ _ _
                 (dict_get_run _ _ _ st1 (assoc_row_at g _ _ i Hlngs))).
      rewrite (bind_ok _ _ _ _ _ (iterrows_run _ _ _ Hp1)).
      rewrite Hnone. reflexivity. }
    rewrite (bind_ok _ _ _ _ _ Hloop). clear Hloop.
    replace (concat (map (fun _ : nat => @nil dict) (seq 0 (index g))))
      with (@nil dict)
      by (induction (seq 0 (index g)) as [|? ? IH]; [reflexivity | exact IH]).
    unfold pd_DataFrame. rewrite (bind_ok _ _ _ _ _ (alloc_run _ _)).
    cbn [heap trace st1].
    rewrite (bind_ok _ _ _ _ _
               (len_run (mkState (heap st ++ [frame_of_records []]) _)
                        _ _ (lookup_snoc _ _))).
    rewrite (bind_ok _ _ _ _ _ (print_run _ _ _)). reflexivity.
  - eapply analyze_accessibility_without_columns
      with (g := g) (f := empty_frame); cbn [heap].
    + rewrite lookup_app_l by (eapply lookup_lt_Some; eauto). exact Hg.
    + exact Hids.
    + apply lookup_snoc.
    + reflexivity.
Qed.

(** * The analyzer, cell by cell *)

Lemma df_col_mask f (m : list bool) c s :
  df_col f c = Some s -> df_col (df_mask f m) c = Some (mask_filter m s).
Proof.
  unfold df_col, df_mask. cbn [columns]. intros H.
  by rewrite (assoc_map_snd (mask_filter m)), H.
Qed.

Lemma length_mask_filter {A} (m : list bool) (l : list A) :
  length m = length l -> length (mask_filter m l) = count_true m.
Proof.
  unfold count_true. revert l. induction m as [|b m IH]; intros [|x l] H;
    try discriminate; [reflexivity|].
  cbn [mask_filter]. injection H as H. destruct b.
  - rewrite filter_cons_True by exact I. cbn [length]. by rewrite IH.
  - rewrite filter_cons_False by exact id. by apply IH.
Qed.

Lemma df_col_take_rows f (idxs : list nat) c s :
  df_col f c = Some s ->
  assoc c (take_rows f idxs) = Some (map (fun i => nth i s NaN) idxs).
Proof.
  unfold df_col, take_rows. intros H.
  by rewrite (assoc_map_snd (fun s => map (fun i => nth i s NaN) idxs)), H.
Qed.

Lemma length_insert_by_key p l : length (insert_by_key p l) = S (length l).
Proof.
  induction l as [|q l IH]; [reflexivity|]. cbn [insert_by_key].
  destruct (sort_leb p.1 q.1); cbn [length]; [reflexivity | by rewrite IH].
Qed.

Lemma length_sort_permutation s : length (sort_permutation s) = length s.
Proof.
  unfold sort_permutation. rewrite length_map.
  assert (H : forall l : list (num * nat),
             length (fold_right insert_by_key [] l) = length l).
  { induction l as [|p l IH]; [reflexivity|]. cbn [fold_right].
    by rewrite length_insert_by_key, IH. }
  rewrite H. apply length_zip_with. by rewrite length_seq.
Qed.

Lemma length_sorted_series s : length (sorted_series s) = length s.
Proof. unfold sorted_series. by rewrite length_map, length_sort_permutation. Qed.

Lemma df_col_head f (n : nat) c s :
  df_col f c = Some s ->
  assoc c (map (fun cs => (fst cs, firstn n (snd cs))) (columns f))
  = Some (firstn n s).
Proof.
  unfold df_col. intros H. by rewrite (assoc_map_snd (firstn n)), H.
Qed.

Lemma iloc_run st r f (i : nat) :
  heap st !! r = Some f -> (i < index f)%nat ->
  iloc r i st = (Ok (row_at f i), st).
Proof.
  intros Hr Hi. unfold iloc. rewrite (bind_ok _ _ _ _ _ (deref_run _ _ _ Hr)).
  by apply Nat.ltb_lt in Hi as ->.
Qed.

(** One turn of the analyzer's loop on a table that has its two columns:
    the record of the cell, six frames allocated, nothing printed. *)
Lemma cell_accessibility_run st distances f key dist walking cell_id :
  heap st !! distances = Some f -> frame_ok f ->
  df_col f "cell_id" = Some key ->
  df_col f "distance_km" = Some dist ->
  exists new,
    length new = 6%nat /\
    cell_accessibility distances walking cell_id st
    = (Ok (accessibility_record walking cell_id (distances_of key dist cell_id)),
       mkState (heap st ++ new) (trace st)).
Proof.
  intros Hr Hok Hkey Hdist.
  destruct st as [h t]. cbn [heap trace] in *.
  set (mask := map (fun k => num_eqb k cell_id) key).
  set (ds := distances_of key dist cell_id).
  set (sd := sorted_series ds).
  assert (Lkey : length key = index f) by (eapply frame_ok_col; eauto).
  assert (Ldist : length dist = index f) by (eapply frame_ok_col; eauto).
  assert (Lmask : length mask = index f) by (unfold mask; by rewrite length_map).
  set (f1 := df_mask f mask).
  assert (Hds : df_col f1 "distance_km" = Some ds) by (by apply df_col_mask).
  assert (Lds : length ds = index f1).
  { unfold ds, distances_of. fold mask. rewrite length_mask_filter by lia.
    reflexivity. }
  set (f2 := mkDF (index f1) (take_rows f1 (sort_permutation ds))).
  assert (Hsd : df_col f2 "distance_km" = Some sd)
    by (by apply df_col_take_rows).
  assert (Lsd : length sd = index f2)
    by (unfold sd; rewrite length_sorted_series; exact Lds).
  set (f3 := df_mask f2 (map (fun x => num_leb x walking) sd)).
  set (f4 := mkDF (Nat.min 3 (index f2))
                  (map (fun cs => (fst cs, firstn 3 (snd cs))) (columns f2))).
  set (f5 := df_mask f2 (map (fun x => num_leb x (Fin 1.0)) sd)).
  exists [f1; f1; f2; f3; f4; f5]. split; [reflexivity|].
  unfold cell_accessibility.
  rewrite (bind_ok _ _ _ _ _ (getitem_run (mkState h t) _ _ _ _ Hr Hkey)).
  fold mask.
  rewrite (bind_ok _ _ _ _ _ (select_run (mkState h t) _ _ _ Hr Lmask)).
  fold f1. cbn [heap trace].
  rewrite (bind_ok _ _ _ _ _
             (copy_run (mkState (h ++ [f1]) t) _ f1 (lookup_snoc _ _))).
  cbn [heap trace]. rewrite <- app_assoc. cbn [app].
  rewrite length_app, Nat.add_1_r.
  assert (H2 : heap (mkState (h ++ [f1; f1]) t) !! S (length h) = Some f1).
  { cbn [heap]. replace (S (length h)) with (length h + 1)%nat by lia.
    by apply lookup_app_nth. }
  rewrite (bind_ok _ _ _ _ _ (sort_values_run _ _ _ _ _ H2 Hds)).
  fold f2. cbn [heap trace]. rewrite <- app_assoc. cbn [app].
  rewrite length_app. cbn [length].
  assert (H3 : forall rest, heap (mkState (h ++ [f1; f1; f2] ++ rest) t)
                            !! (length h + 2)%nat = Some f2).
  { intros rest. cbn [heap]. by apply lookup_app_nth. }
  pose proof (H3 []) as H30. rewrite app_nil_r in H30.
  rewrite (bind_ok _ _ _ _ _ (getitem_run _ _ _ _ _ H30 Hsd)).
  assert (Lw : length (map (fun x => num_leb x walking) sd) = index f2)
    by (by rewrite length_map).
  rewrite (bind_ok _ _ _ _ _ (select_run _ _ _ _ H30 Lw)).
  fold f3. cbn [heap trace]. rewrite <- app_assoc. cbn [app].
  assert (H4 : heap (mkState (h ++ [f1; f1; f2; f3]) t)
                 !! length (h ++ [f1; f1; f2]) = Some f3).
  { rewrite length_app. by apply lookup_app_nth. }
  rewrite (bind_ok _ _ _ _ _ (len_run _ _ _ H4)).
  pose proof (H3 [f3]) as H31.
  rewrite (bind_ok _ _ _ _ _ (len_run _ _ _ H31)).
  assert (Hnear :
    (if Nat.ltb 0 (index f2)
     then (row <- iloc (length h + 2)%nat 0%nat ;; dict_get row "distance_km")
     else ret np_inf) (mkState (h ++ [f1; f1; f2] ++ [f3]) t)
    = (Ok (if Nat.ltb 0 (length ds) then nth 0 sd NaN else np_inf),
       mkState (h ++ [f1; f1; f2] ++ [f3]) t)).
  { rewrite Lds. change (index f1) with (index f2).
    destruct (Nat.ltb 0 (index f2)) eqn:E; [|reflexivity].
    apply Nat.ltb_lt in E.
    rewrite (bind_ok _ _ _ _ _ (iloc_run _ _ _ 0 H31 E)).
    apply dict_get_run. by apply assoc_row_at. }
  rewrite (bind_ok _ _ _ _ _ Hnear). clear Hnear.
  rewrite (bind_ok _ _ _ _ _ (head_run _ _ _ 3 H31)).
  fold f4. cbn [heap trace]. rewrite <- !app_assoc. cbn [app].
  assert (H5 : heap (mkState (h ++ [f1; f1; f2; f3; f4]) t)
                 !! length (h ++ [f1; f1; f2; f3]) = Some f4).
  { rewrite length_app. by apply lookup_app_nth. }
  rewrite (bind_ok _ _ _ _ _ (len_run _ _ _ H5)).
  assert (Havg :
    (if Nat.ltb 0 (index f4)
     then (s <- getitem (length (h ++ [f1; f1; f2; f3])) "distance_km" ;;
           ret (series_mean s))
     else ret np_inf) (mkState (h ++ [f1; f1; f2; f3; f4]) t)
    = (Ok (if Nat.ltb 0 (Nat.min 3 (length ds)) then series_mean (firstn 3 sd)
           else np_inf),
       mkState (h ++ [f1; f1; f2; f3; f4]) t)).
  { rewrite Lds. change (index f4) with (Nat.min 3 (index f1)).
    destruct (Nat.ltb 0 (Nat.min 3 (index f1))); [|reflexivity].
    assert (Hc : df_col f4 "distance_km" = Some (firstn 3 sd))
      by (by apply df_col_head).
    by rewrite (bind_ok _ _ _ _ _ (getitem_run _ _ _ _ _ H5 Hc)). }
  rewrite (bind_ok _ _ _ _ _ Havg). clear Havg.
  pose proof (H3 [f3; f4]) as H32.
  rewrite (bind_ok _ _ _ _ _ (getitem_run _ _ _ _ _ H32 Hsd)).
  assert (L1 : length (map (fun x => num_leb x (Fin 1.0)) sd) = index f2)
    by (by rewrite length_map).
  rewrite (bind_ok _ _ _ _ _ (select_run _ _ _ _ H32 L1)).
  fold f5. cbn [heap trace]. rewrite <- !app_assoc. cbn [app].
  assert (H6 : heap (mkState (h ++ [f1; f1; f2; f3; f4; f5]) t)
                 !! length (h ++ [f1; f1; f2; f3; f4]) = Some f5).
  { rewrite length_app. by apply lookup_app_nth. }
  rewrite (bind_ok _ _ _ _ _ (len_run _ _ _ H6)).
  reflexivity.
Qed.

(** ** What sorting does to a cell's distances *)

Lemma insert_by_key_perm p l : Permutation (insert_by_key p l) (p :: l).
Proof.
  induction l as [|q l IH]; cbn [insert_by_key]; [reflexivity|].
  destruct (sort_leb p.1 q.1); [reflexivity|]. rewrite IH. apply perm_swap.
Qed.

Lemma sorted_pairs_perm (l : list (num * nat)) :
  Permutation (fold_right insert_by_key [] l) l.
Proof.
  induction l as [|p l IH]; cbn [fold_right]; [reflexivity|].
  rewrite insert_by_key_perm. by constructor.
Qed.

Lemma zip_seq_lookup (s : Series) :
  forall start p, In p (zip_with pair s (seq start (length s))) ->
    (start <= p.2)%nat /\ s !! (p.2 - start)%nat = Some p.1.
Proof.
  induction s as [|x s IH]; intros start p; cbn [length seq zip_with];
    [by intros []|].
  intros [<-|Hin]; cbn [fst snd].
  - split; [lia|]. by rewrite Nat.sub_diag.
  - destruct (IH (S start) p Hin) as [Hle Hlk]. split; [lia|].
    replace (p.2 - start)%nat with (S (p.2 - S start)) by lia. exact Hlk.
Qed.

Lemma map_fst_zip_seq (s : Series) start :
  map fst (zip_with pair s (seq start (length s))) = s.
Proof.
  revert start. induction s as [|x s IH]; intros start; [reflexivity|].
  cbn [length seq zip_with map fst]. by rewrite IH.
Qed.

Lemma sorted_series_pairs (s : Series) :
  sorted_series s
  = map fst (fold_right insert_by_key [] (zip_with pair s (seq 0 (length s)))).
Proof.
  unfold sorted_series, sort_permutation. rewrite map_map.
  apply map_ext_in. intros p Hp.
  apply (Permutation_in _ (sorted_pairs_perm _)) in Hp.
  destruct (zip_seq_lookup s 0 p Hp) as [_ Hlk]. rewrite Nat.sub_0_r in Hlk.
  by apply nth_lookup_Some.
Qed.

(** Sorting rearranges the distances and loses none. *)
Lemma sorted_series_perm (s : Series) : Permutation (sorted_series s) s.
Proof.
  rewrite sorted_series_pairs, sorted_pairs_perm. by rewrite map_fst_zip_seq.
Qed.

Lemma count_true_perm (P : num -> bool) (s s' : Series) :
  Permutation s s' -> count_true (map P s) = count_true (map P s').
Proof.
  intros H. unfold count_true. apply Permutation_length.
  apply filter_Permutation. by apply Permutation_map.
Qed.

(** On finite keys the first pair after sorting has the least key. *)
Lemma sorted_pairs_head (l : list (num * nat)) :
  Forall (fun p => exists q, p.1 = Fin q) l -> l <> [] ->
  exists q n rest,
    fold_right insert_by_key [] l = (Fin q, n) :: rest /\
    forall q' n', In (Fin q', n') l -> q <= q'.
Proof.
  induction 1 as [|p l [q Hq] Hall IH]; [congruence|]. intros _.
  destruct p as [x n]. cbn [fst] in Hq. subst x. cbn [fold_right].
  destruct l as [|p' l'].
  - exists q, n, []. split; [reflexivity|].
    intros q' n' [[= <- <-]|[]]. lra.
  - destruct (IH ltac:(discriminate)) as (m & k & rest & Hsorted & Hmin).
    rewrite Hsorted. cbn [insert_by_key fst].
    change (sort_leb (Fin q) (Fin m)) with (num_leb (Fin q) (Fin m)).
    destruct (num_leb (Fin q) (Fin m)) eqn:E.
    + apply num_leb_fin in E. exists q, n, ((Fin m, k) :: rest).
      split; [reflexivity|].
      intros q' n' [[= <- <-]|Hin]; [lra|].
      specialize (Hmin q' n' Hin). lra.
    + apply num_leb_fin_false in E. exists m, k, (insert_by_key (Fin q, n) rest).
      split; [reflexivity|].
      intros q' n' [[= <- <-]|Hin]; [lra|]. exact (Hmin q' n' Hin).
Qed.

Lemma sorted_series_head (s : Series) :
  Forall finite_nonneg s -> s <> [] ->
  exists q, nth 0 (sorted_series s) NaN = Fin q /\
            In (Fin q) s /\ forall q', In (Fin q') s -> q <= q'.
Proof.
  intros Hfin Hne. rewrite sorted_series_pairs.
  set (pairs := zip_with pair s (seq 0 (length s))).
  assert (Hfst : map fst pairs = s) by apply map_fst_zip_seq.
  destruct (sorted_pairs_head pairs) as (q & n & rest & Hsorted & Hmin).
  - apply List.Forall_forall. intros p Hp.
    assert (Hin : In p.1 s) by (rewrite <- Hfst; by apply in_map).
    rewrite List.Forall_forall in Hfin.
    destruct (Hfin _ Hin) as (x & Hx & _). by exists x.
  - intros E. rewrite E in Hfst. by subst s.
  - rewrite Hsorted. exists q. split; [reflexivity|]. split.
    + assert (Hin : In (Fin q, n) pairs).
      { eapply Permutation_in; [apply sorted_pairs_perm|].
        rewrite Hsorted. by left. }
      rewrite <- Hfst. by apply (in_map fst) in Hin.
    + intros q' Hq'. rewrite <- Hfst in Hq'.
      apply in_map_iff in Hq' as ([x n'] & Hx & Hin). cbn [fst] in Hx. subst x.
      exact (Hmin q' n' Hin).
Qed.

(** X10. For a cell with at least one record in a table of finite distances,
    the analyzer reports the least of the cell's distances as the nearest
    one, counts the distances within walking distance, and divides the
    number of distances within 1 km by pi for the density. *)
Lemma nearest_is_least_distance st distances f key dist walking cell_id :
  heap st !! distances = Some f -> frame_ok f ->
  df_col f "cell_id" = Some key ->
  df_col f "distance_km" = Some dist ->
  Forall finite_nonneg dist ->
  distances_of key dist cell_id <> [] ->
  exists record st' nearest,
    cell_accessibility distances walking cell_id st = (Ok record, st') /\
    assoc "nearest_distance_km" record = Some (Fin nearest) /\
    In (Fin nearest) (distances_of key dist cell_id) /\
    (forall q, In (Fin q) (distances_of key dist cell_id) -> nearest <= q) /\
    assoc "services_within_walking" record
    = Some (of_nat (count_true (map (fun x => num_leb x walking)
                                    (distances_of key dist cell_id)))) /\
    exists density,
      assoc "density_per_km2" record = Some (Fin density) /\
      density * np_pi
      == inject_Z (Z.of_nat (count_true
                               (map (fun x => num_leb x (Fin 1.0))
                                    (distances_of key dist cell_id)))).
Proof.
  intros Hr Hok Hkey Hdist Hfin Hne.
  destruct (cell_accessibility_run st distances f key dist walking cell_id
              Hr Hok Hkey Hdist) as (new & _ & Hrun).
  set (ds := distances_of key dist cell_id) in *.
  assert (Hds : Forall finite_nonneg ds).
  { unfold ds, distances_of. clear - Hfin.
    revert dist Hfin. induction (map _ key) as [|b m IH]; intros dist Hfin;
      [destruct dist; constructor|].
    destruct Hfin as [|x dist Hx Hfin]; [constructor|]. cbn [mask_filter].
    destruct b; [constructor; [exact Hx|] |]; by apply IH. }
  destruct (sorted_series_head ds Hds Hne) as (q & Hq & Hin & Hmin).
  eexists. eexists. exists q. split; [exact Hrun|].
  cbn [accessibility_record assoc String.eqb Ascii.eqb Bool.eqb].
  split.
  { destruct ds as [|d ds']; [congruence|]. cbn [length Nat.ltb Nat.leb].
    by rewrite Hq. }
  split; [exact Hin|]. split; [exact Hmin|]. split.
  - f_equal. f_equal. apply count_true_perm, sorted_series_perm.
  - rewrite (count_true_perm _ _ _ (sorted_series_perm ds)).
    eexists. split; [reflexivity|]. unfold np_pi. field.
Qed.

(** ** The analyzer over the whole grid *)

Lemma cells_accessibility_run distances f key dist walking :
  frame_ok f ->
  df_col f "cell_id" = Some key ->
  df_col f "distance_km" = Some dist ->
  forall cell_ids st,
    heap st !! distances = Some f ->
    exists new,
      mapM (cell_accessibility distances walking) cell_ids st
      = (Ok (map (fun c => accessibility_record walking c
                             (distances_of key dist c)) cell_ids),
         mkState (heap st ++ new) (trace st)).
Proof.
  intros Hok Hkey Hdist. induction cell_ids as [|c cell_ids IH]; intros st Hr.
  - exists []. cbn [mapM map]. rewrite app_nil_r. by destruct st.
  - destruct (cell_accessibility_run st distances f key dist walking c
                Hr Hok Hkey Hdist) as (new1 & _ & Hrun).
    cbn [mapM map]. rewrite (bind_ok _ _ _ _ _ Hrun).
    destruct (IH (mkState (heap st ++ new1) (trace st))) as (new2 & Hrest).
    { cbn [heap]. rewrite lookup_app_l by (eapply lookup_lt_Some; eauto).
      exact Hr. }
    rewrite (bind_ok _ _ _ _ _ Hrest). cbn [heap trace].
    exists (new1 ++ new2). by rewrite app_assoc.
Qed.

Lemma of_nat_eqb (i j : nat) : key_eqb (of_nat i) (of_nat j) = Nat.eqb i j.
Proof.
  unfold key_eqb, of_nat. cbn [is_nan andb orb num_eqb].
  destruct (Nat.eqb i j) eqn:E.
  - apply Nat.eqb_eq in E as ->. apply Qeqb_eq. reflexivity.
  - apply Nat.eqb_neq in E. apply Qeqb_neq. intros H.
    apply (proj1 (inject_Z_injective _ _)) in H. lia.
Qed.

Lemma zip_seq_of_nat (start n : nat) :
  zip_with pair (seq start n) (map of_nat (seq start n))
  = map (fun i => (i, of_nat i)) (seq start n).
Proof.
  revert start. induction n as [|n IH]; intros start; [reflexivity|].
  cbn [seq map zip_with]. by rewrite IH.
Qed.

Lemma matches_none (i : nat) (l : list nat) :
  ~ In i l ->
  flat_map (fun jy : nat * num =>
              if key_eqb (of_nat i) jy.2 then [(i, jy.1)] else [])
           (map (fun j => (j, of_nat j)) l) = [].
Proof.
  induction l as [|j l IH]; intros Hnot; [reflexivity|].
  cbn [map flat_map fst snd]. rewrite of_nat_eqb.
  replace (Nat.eqb i j) with false
    by (symmetry; apply Nat.eqb_neq; intros ->; apply Hnot; by left).
  apply IH. intros H. apply Hnot. by right.
Qed.

Lemma matches_one (i : nat) :
  forall n start, (start <= i < start + n)%nat ->
    flat_map (fun jy : nat * num =>
                if key_eqb (of_nat i) jy.2 then [(i, jy.1)] else [])
             (map (fun j => (j, of_nat j)) (seq start n)) = [(i, i)].
Proof.
  induction n as [|n IH]; intros start Hi; [lia|].
  cbn [seq map flat_map fst snd]. rewrite of_nat_eqb.
  destruct (Nat.eqb i start) eqn:E.
  - apply Nat.eqb_eq in E as <-. rewrite matches_none; [reflexivity|].
    intros H. apply in_seq in H. lia.
  - apply Nat.eqb_neq in E. apply IH. lia.
Qed.

(** Joining the ids 0, ..., n-1 with themselves pairs each row with
    itself. *)
Lemma join_pairs_ids (n : nat) :
  join_pairs (map of_nat (seq 0 n)) (map of_nat (seq 0 n))
  = map (fun i => (i, i)) (seq 0 n).
Proof.
  unfold join_pairs. rewrite length_map, length_seq, zip_seq_of_nat.
  assert (H : forall l, Forall (fun i => (i < n)%nat) l ->
            flat_map (fun ix : nat * num =>
                        flat_map (fun jy : nat * num =>
                                    if key_eqb ix.2 jy.2 then [(ix.1, jy.1)]
                                    else [])
                                 (map (fun j => (j, of_nat j)) (seq 0 n)))
                     (map (fun i => (i, of_nat i)) l)
            = map (fun i => (i, i)) l).
  { induction 1 as [|i l Hi _ IH]; [reflexivity|].
    cbn [map flat_map fst snd]. rewrite IH, (matches_one i n 0) by lia.
    reflexivity. }
  apply H. apply List.Forall_forall. intros i Hi. apply in_seq in Hi. lia.
Qed.

Lemma map_nth_seq {A} (s : list A) d :
  map (fun i => nth i s d) (seq 0 (length s)) = s.
Proof.
  induction s as [|x s IH]; [reflexivity|]. cbn [length seq map nth].
  f_equal. rewrite <- seq_shift, map_map. exact IH.
Qed.

Lemma take_rows_all f : frame_ok f -> take_rows f (seq 0 (index f)) = columns f.
Proof.
  unfold frame_ok, take_rows. intros Hok.
  induction Hok as [|[k s] cols Hs _ IH]; [reflexivity|].
  cbn [map fst snd] in *. rewrite IH. f_equal. f_equal.
  rewrite <- Hs. apply map_nth_seq.
Qed.

Lemma getitems_run st r f (cs : list string) (cols : list (string * Series)) :
  heap st !! r = Some f ->
  Forall2 (fun c col => col.1 = c /\ df_col f c = Some col.2) cs cols ->
  getitems r cs st
  = (Ok (length (heap st)), mkState (heap st ++ [mkDF (index f) cols]) (trace st)).
Proof.
  intros Hr Hcols. unfold getitems.
  rewrite (bind_ok _ _ _ _ _ (deref_run _ _ _ Hr)).
  erewrite bind_ok; [reflexivity|].
  induction Hcols as [|c [k s] cs cols [Hk Hc] _ IH]; [reflexivity|].
  cbn [mapM fst snd] in *. subst k. rewrite Hc.
  rewrite (bind_ok _ _ _ _ _ (eq_refl : ret (c, s) st = (Ok (c, s), st))).
  by rewrite (bind_ok _ _ _ _ _ IH).
Qed.

Lemma merge_run st l r fl fr k lk rk :
  heap st !! l = Some fl -> heap st !! r = Some fr ->
  df_col fl k = Some lk -> df_col fr k = Some rk ->
  merge l r k st
  = (Ok (length (heap st)),
     mkState (heap st ++
              [mkDF (length (join_pairs lk rk))
                    (take_rows fl (map fst (join_pairs lk rk)) ++
                     filter (fun cs => negb (String.eqb (fst cs) k))
                            (take_rows fr (map snd (join_pairs lk rk))))])
             (trace st)).
Proof.
  intros Hl Hr Hlk Hrk. unfold merge.
  rewrite (bind_ok _ _ _ _ _ (deref_run _ _ _ Hl)).
  rewrite (bind_ok _ _ _ _ _ (deref_run _ _ _ Hr)).
  rewrite Hlk, Hrk. reflexivity.
Qed.

Lemma accessibility_records_keys walking key dist (cell_ids : Series) :
  Forall (fun d => keys d = record_columns)
         (map (fun c => accessibility_record walking c (distances_of key dist c))
              cell_ids).
Proof. apply List.Forall_forall. intros d Hd. apply in_map_iff in Hd as (c & <- & _). reflexivity. Qed.

Lemma record_columns_NoDup : List.NoDup record_columns.
Proof.
  unfold record_columns.
  repeat (constructor; [cbn; intuition discriminate|]). constructor.
Qed.

Lemma assoc_app_l {A} k (l1 l2 : list (string * A)) v :
  assoc k l1 = Some v -> assoc k (l1 ++ l2) = Some v.
Proof.
  induction l1 as [|[k' v'] l1 IH]; [discriminate|]. cbn [assoc app].
  destruct (String.eqb k k'); [auto | exact IH].
Qed.

Lemma assoc_app_r {A} k (l1 l2 : list (string * A)) :
  ~ In k (keys l1) -> assoc k (l1 ++ l2) = assoc k l2.
Proof.
  induction l1 as [|[k' v'] l1 IH]; [reflexivity|]. cbn [assoc app keys map fst].
  intros Hnot. destruct (String.eqb k k') eqn:E.
  - apply String.eqb_eq in E. subst. exfalso. apply Hnot. by left.
  - apply IH. intros H. apply Hnot. by right.
Qed.

(** The analyzer run to its end. *)
Lemma analyze_accessibility_table st grid places distances g f lats lngs
    key dist walking :
  heap st !! grid = Some g -> heap st !! distances = Some f ->
  frame_ok g -> frame_ok f -> (0 < index g)%nat ->
  df_col g "cell_id" = Some (map of_nat (seq 0 (index g))) ->
  df_col g "center_lat" = Some lats ->
  df_col g "center_lng" = Some lngs ->
  df_col f "cell_id" = Some key ->
  df_col f "distance_km" = Some dist ->
  exists new t' table,
    analyze_accessibility grid places distances walking st
    = (Ok (length (heap st ++ new)), mkState (heap st ++ new ++ [table]) t') /\
    index table = index g /\
    frame_ok table /\
    keys (columns table) = accessibility_columns /\
    df_col table "center_lat" = Some lats /\
    df_col table "center_lng" = Some lngs /\
    forall (i : nat) k, (i < index g)%nat -> In k record_columns ->
      cell table k i
      = assoc k (accessibility_record walking (of_nat i)
                                      (distances_of key dist (of_nat i))).
Proof.
  intros Hg Hf Hokg Hokf Hpos Hids Hlats Hlngs Hkey Hdist.
  set (n := index g) in *. set (ids := map of_nat (seq 0 n)) in *.
  set (records := map (fun c => accessibility_record walking c
                                  (distances_of key dist c)) ids).
  assert (Llats : length lats = n) by (eapply frame_ok_col; eauto).
  assert (Llngs : length lngs = n) by (eapply frame_ok_col; eauto).
  assert (Lids : length ids = n) by (unfold ids; by rewrite length_map, length_seq).
  assert (Lrec : length records = n) by (unfold records; by rewrite length_map).
  assert (Hne : records <> []).
  { intros E. rewrite E in Lrec. simpl in Lrec. lia. }
  set (R := frame_of_records records).
  set (C := mkDF n [("cell_id", ids); ("center_lat", lats); ("center_lng", lngs)]).
  assert (HRid : df_col R "cell_id" = Some ids).
  { unfold R. rewrite (frame_of_records_col record_columns);
      [| apply record_columns_NoDup | exact Hne
       | apply accessibility_records_keys | by left].
    f_equal. unfold records. rewrite map_map. apply map_id. }
  assert (HokR : frame_ok R) by apply frame_of_records_ok.
  assert (HokC : frame_ok C) by (repeat constructor; assumption).
  assert (HkeysR : keys (columns R) = record_columns).
  { apply frame_of_records_keys;
      [apply record_columns_NoDup | exact Hne | apply accessibility_records_keys]. }
  unfold analyze_accessibility.
  rewrite (bind_ok _ _ _ _ _ (print_run _ _ _)).
  set (st1 := mkState _ _).
  assert (Hg1 : heap st1 !! grid = Some g) by exact Hg.
  assert (Hf1 : heap st1 !! distances = Some f) by exact Hf.
  rewrite (bind_ok _ _ _ _ _ (getitem_run _ _ _ _ _ Hg1 Hids)).
  destruct (cells_accessibility_run distances f key dist walking Hokf Hkey Hdist
              ids st1 Hf1) as (new & Hloop).
  rewrite (bind_ok _ _ _ _ _ Hloop). fold records.
  unfold pd_DataFrame. rewrite (bind_ok _ _ _ _ _ (alloc_run _ _)).
  fold R. cbn [heap trace st1].
  set (h := heap st ++ new).
  assert (Hgh : forall rest t0, heap (mkState (h ++ rest) t0) !! grid = Some g).
  { intros rest t0. cbn [heap]. unfold h.
    rewrite !lookup_app_l; [exact Hg | |];
      try rewrite length_app; pose proof (lookup_lt_Some _ _ _ Hg); lia. }
  assert (Hcols : Forall2 (fun c col => col.1 = c /\ df_col g c = Some col.2)
                          ["cell_id"; "center_lat"; "center_lng"]
                          [("cell_id", ids); ("center_lat", lats);
                           ("center_lng", lngs)])
    by (repeat constructor; assumption).
  rewrite (bind_ok _ _ _ _ _ (getitems_run _ _ _ _ _ (Hgh [R] _) Hcols)).
  fold n. fold C. cbn [heap trace]. rewrite <- app_assoc. cbn [app].
  rewrite length_app. cbn [length].
  assert (HR : heap (mkState (h ++ [R; C]) (trace st ++ [Printed "Analyzing accessibility" [walking]]))
               !! length h = Some R).
  { cbn [heap]. replace (length h) with (length h + 0)%nat by lia.
    by apply lookup_app_nth. }
  assert (HC : heap (mkState (h ++ [R; C]) (trace st ++ [Printed "Analyzing accessibility" [walking]]))
               !! (length h + 1)%nat = Some C).
  { cbn [heap]. by apply lookup_app_nth. }
  rewrite (bind_ok _ _ _ _ _
             (merge_run _ _ _ _ _ _ _ _ HR HC HRid
                        (eq_refl : df_col C "cell_id" = Some ids))).
  rewrite (bind_ok _ _ _ _ _ (print_run _ _ _)).
  unfold ids at 1 2 3 4 5 6. rewrite join_pairs_ids. fold ids.
  rewrite !map_map. cbn [fst snd]. rewrite map_id, length_map, length_seq.
  replace (take_rows R (seq 0 n)) with (columns R)
    by (symmetry; rewrite <- Lrec; apply (take_rows_all R HokR)).
  replace (take_rows C (seq 0 n)) with (columns C)
    by (symmetry; apply (take_rows_all C HokC)).
  cbn [heap trace columns C].
  change (filter _ _) with [("center_lat", lats); ("center_lng", lngs)].
  exists (new ++ [R; C]). eexists. eexists. split.
  { unfold ret. f_equal.
    - f_equal. unfold h. rewrite !length_app. cbn [length]. lia.
    - f_equal. unfold h. rewrite <- !app_assoc. reflexivity. }
  split; [reflexivity|]. split.
  { unfold frame_ok. cbn [columns index]. apply Forall_app. split.
    - rewrite <- Lrec. exact HokR.
    - repeat constructor; assumption. }
  split.
  { cbn [columns]. unfold keys in *. rewrite map_app, HkeysR. reflexivity. }
  assert (Hnot : forall k, In k ["center_lat"; "center_lng"] ->
                           ~ In k (keys (columns R))).
  { intros k Hk. rewrite HkeysR. unfold record_columns.
    cbn in Hk |- *. intuition (subst; discriminate). }
  split; [|split].
  - unfold df_col. cbn [columns]. rewrite assoc_app_r by (apply Hnot; cbn; auto).
    reflexivity.
  - unfold df_col. cbn [columns]. rewrite assoc_app_r by (apply Hnot; cbn; auto).
    reflexivity.
  - intros i k Hi Hk. unfold cell, df_col. cbn [columns].
    assert (Hcol : df_col R k
              = Some (map (fun d => default NaN (assoc k d)) records)).
    { apply (frame_of_records_col record_columns);
        [apply record_columns_NoDup | exact Hne
         | apply accessibility_records_keys | exact Hk]. }
    rewrite (assoc_app_l _ _ _ _ Hcol). unfold records. rewrite map_map.
    rewrite lookup_map. unfold ids. rewrite lookup_map, lookup_seq_lt by lia.
    cbn [option_map Nat.add].
    unfold record_columns in Hk. cbn in Hk.
    destruct Hk as [<-|[<-|[<-|[<-|[<-|[]]]]]]; reflexivity.
Qed.

(** X11. On a grid whose cells are numbered 0, 1, 2, ... and a distance table
    with its two columns, the analyzer returns one row per grid cell, in
    grid order, with the seven columns of an accessibility record: the
    cell's own metrics and its centre taken from the grid. *)
Lemma analyzer_one_row_per_cell st grid places distances g f lats lngs
    key dist walking :
  heap st !! grid = Some g -> heap st !! distances = Some f ->
  frame_ok g -> frame_ok f -> (0 < index g)%nat ->
  df_col g "cell_id" = Some (map of_nat (seq 0 (index g))) ->
  df_col g "center_lat" = Some lats ->
  df_col g "center_lng" = Some lngs ->
  df_col f "cell_id" = Some key ->
  df_col f "distance_km" = Some dist ->
  exists accessibility st' table,
    analyze_accessibility grid places distances walking st
    = (Ok accessibility, st') /\
    heap st' !! accessibility = Some table /\
    heap st !! accessibility = None /\
    index table = index g /\
    keys (columns table) = accessibility_columns /\
    df_col table "center_lat" = Some lats /\
    df_col table "center_lng" = Some lngs /\
    forall (i : nat) k, (i < index g)%nat -> In k record_columns ->
      cell table k i
      = assoc k (accessibility_record walking (of_nat i)
                                      (distances_of key dist (of_nat i))).
Proof.
  intros Hg Hf Hokg Hokf Hpos Hids Hlats Hlngs Hkey Hdist.
  destruct (analyze_accessibility_table st grid places distances g f lats lngs
              key dist walking Hg Hf Hokg Hokf Hpos Hids Hlats Hlngs Hkey Hdist)
    as (new & t' & table & Hrun & Hindex & _ & Hkeys & Hlat & Hlng & Hcells).
  eexists _, _, table. split; [exact Hrun|]. cbn [heap].
  split; [by rewrite app_assoc, lookup_snoc|].
  split; [apply lookup_ge_None; rewrite length_app; lia|].
  auto.
Qed.

(** * Reading the population *)

(** X12. Whatever the raster library does, the population of a point comes back
    as a number that is not negative, and no exception leaves the
    function: either 0, or the value read from the raster. *)
Lemma population_never_negative raster_read rasterio_installed lat lng path st :
  exists v t',
    get_population_for_point raster_read rasterio_installed lat lng path st
    = (Ok v, mkState (heap st) t') /\
    num_ltb v (Fin 0) = false /\
    (v = Fin 0 \/
     rasterio_installed = true /\ raster_read path lat lng = Return (Some v)).
Proof.
  unfold get_population_for_point. destruct rasterio_installed; cbn [negb].
  - destruct (raster_read path lat lng) as [[value|]|e] eqn:E.
    + destruct (num_ltb value (Fin 0)) eqn:Hv.
      * exists (Fin 0), (trace st). split; [by destruct st|]. split; auto.
      * exists value, (trace st). split; [by destruct st|]. split; auto.
    + exists (Fin 0), (trace st). split; [by destruct st|]. split; auto.
    + eexists (Fin 0), _. split; [reflexivity|]. split; auto.
  - eexists (Fin 0), _. split; [reflexivity|]. split; auto.
Qed.

(** * More on the demand-weighted re-scoring *)

Lemma rescored_frame_other f population original c :
  c <> "demand_score" -> c <> "opportunity_score_original" ->
  c <> "opportunity_score" ->
  df_col (rescored_frame f population original) c = df_col f c.
Proof.
  intros H1 H2 H3. unfold rescored_frame. cbv zeta.
  rewrite !df_col_set_ne by congruence. reflexivity.
Qed.

Lemma rescored_frame_ok f population original :
  frame_ok f -> length population = index f -> length original = index f ->
  frame_ok (rescored_frame f population original).
Proof.
  intros Hok Lp Lo. unfold rescored_frame. cbv zeta.
  repeat apply frame_ok_set; auto; cbn [index df_set].
  - by rewrite length_mask_set, length_demand_of.
  - rewrite length_mask_set. apply length_demand_score_of;
      rewrite ?length_default_col, ?length_mask_set, ?length_demand_of; auto.
Qed.

(** X13. The re-scoring works in place: it hands back the frame it was given,
    with the same rows, and with every column other than [demand_score],
    [opportunity_score_original] and [opportunity_score] as it was. *)
Lemma rescoring_is_in_place st r f population original :
  heap st !! r = Some f -> frame_ok f ->
  df_col f "population_1km" = Some population ->
  df_col f "opportunity_score" = Some original ->
  exists st' f',
    recalculate_opportunity_with_population r st = (Ok r, st') /\
    heap st' !! r = Some f' /\
    index f' = index f /\
    (forall c, c <> "demand_score" -> c <> "opportunity_score_original" ->
               c <> "opportunity_score" -> df_col f' c = df_col f c) /\
    (forall r0 f0, r0 <> r -> heap st !! r0 = Some f0 ->
                   heap st' !! r0 = Some f0).
Proof.
  intros Hr Hok Hp Ho.
  destruct (recalculate_run st r f population original Hr Hok Hp Ho)
    as (zeroed & t' & Hrun).
  eexists _, _. split; [exact Hrun|]. cbn [heap]. split; [|split; [|split]].
  - eapply lookup_insert_snoc; eauto.
  - reflexivity.
  - intros c H1 H2 H3. by apply rescored_frame_other.
  - intros r0 f0 Hne Hr0.
    rewrite lookup_app_l
      by (rewrite length_insert; eapply lookup_lt_Some; eauto).
    by rewrite list_lookup_insert_ne.
Qed.

(** X14. A frame without the three sub-score columns is re-scored all the same:
    the gaps count as 0 and the viability as 0.5, so that a cell with at
    least 100 people gets 3 * demand_score + 0.5. *)
Lemma rescoring_without_subscores st r f population original :
  heap st !! r = Some f -> frame_ok f ->
  df_col f "population_1km" = Some population ->
  df_col f "opportunity_score" = Some original ->
  df_col f "competition_gap" = None ->
  df_col f "accessibility_gap" = None ->
  df_col f "viability" = None ->
  Forall finite_nonneg population ->
  exists st' f',
    recalculate_opportunity_with_population r st = (Ok r, st') /\
    heap st' !! r = Some f' /\
    forall (i : nat) p m,
      population !! i = Some (Fin p) -> 100 <= p -> is_maximum m population ->
      exists score,
        cell f' "opportunity_score" i = Some (Fin score) /\
        score == 3 * (p / m) + 0.5.
Proof.
  intros Hr Hok Hp Ho Hcg Hag Hv Vp.
  destruct (recalculate_run st r f population original Hr Hok Hp Ho)
    as (zeroed & t' & Hrun).
  pose proof (frame_ok_col _ _ _ Hok Hp) as Lp.
  eexists _, _. split; [exact Hrun|]. split.
  { cbn [heap]. eapply lookup_insert_snoc; eauto. }
  intros i p m Hpi Hp100 Hmax.
  assert (Hi : (i < index f)%nat) by (rewrite <- Lp; eapply lookup_lt_Some; eauto).
  destruct (demand_of_lookup f population i p Vp Lp Hpi)
    as (d0 & m' & Hd0 & Hmax' & Hd01 & Hdm).
  pose proof (is_maximum_unique _ _ _ Hmax Hmax') as Emm.
  assert (Hpm : p <= m) by (apply Hmax; eapply lookup_In; eauto).
  destruct (rescored_score f population original i _ Hok Lp Hpi)
    as (cg & ag & dem & v & Hcg' & Hag' & Hdem' & Hv' & Hsc).
  rewrite Hcg in Hcg'. rewrite Hag in Hag'. rewrite Hv in Hv'.
  cbn [default] in Hcg', Hag', Hv'.
  rewrite lookup_repeat in Hcg', Hag', Hv' by exact Hi.
  injection Hcg' as <-. injection Hag' as <-. injection Hv' as <-.
  assert (E : num_ltb (Fin p) (Fin 100) = false) by (apply Qltb_nlt; lra).
  rewrite E in Hsc.
  erewrite lookup_mask_set in Hdem'; [| | exact Hd0].
  2:{ unfold low_population. rewrite lookup_map, Hpi. reflexivity. }
  rewrite E in Hdem'. injection Hdem' as <-.
  eexists. split; [exact Hsc|].
  assert (Hd : d0 == p / m) by (rewrite Emm; apply Hdm; lra).
  rewrite Hd. lra.
Qed.

(** X15. Without an [opportunity_score] column the re-scoring raises
    [KeyError], but only after it has written the [demand_score] column
    into the frame it was given. *)
Lemma rescoring_fails_half_done st r f population :
  heap st !! r = Some f -> frame_ok f ->
  df_col f "population_1km" = Some population ->
  df_col f "opportunity_score" = None ->
  df_col f "demand_score" = None ->
  exists st' f' demand,
    recalculate_opportunity_with_population r st
    = (Raise (KeyError "opportunity_score"), st') /\
    heap st' !! r = Some f' /\
    df_col f' "demand_score" = Some demand /\
    length demand = index f.
Proof.
  intros Hr Hok Hp Ho Hd.
  pose proof (frame_ok_col _ _ _ Hok Hp) as Lp.
  assert (Hlt : (r < length (heap st))%nat) by (eapply lookup_lt_Some; eauto).
  destruct st as [h t]. cbn [heap trace] in *.
  unfold recalculate_opportunity_with_population.
  rewrite (bind_ok _ _ _ _ _ (getitem_run (mkState h t) _ _ _ _ Hr Hp)).
  set (f1 := df_set f "demand_score" (demand_of f population)).
  assert (Hstep :
    (if num_gtb (series_max population) (Fin 0)
     then population0 <- getitem r "population_1km" ;;
          setitem r "demand_score"
                  (map (fun x => num_div x (series_max population)) population0)
     else setitem_scalar r "demand_score" (Fin 0)) (mkState h t)
    = (Ok tt, mkState (<[r := f1]> h) t)).
  { unfold f1, demand_of. destruct (num_gtb (series_max population) (Fin 0)).
    - rewrite (bind_ok _ _ _ _ _ (getitem_run (mkState h t) _ _ _ _ Hr Hp)).
      apply (setitem_run (mkState h t)); [exact Hr | by rewrite length_map].
    - apply (setitem_scalar_run (mkState h t)). exact Hr. }
  rewrite (bind_ok _ _ _ _ _ Hstep). clear Hstep.
  assert (H1 : heap (mkState (<[r := f1]> h) t) !! r = Some f1)
    by (by apply list_lookup_insert_eq).
  assert (Hp1 : df_col f1 "population_1km" = Some population)
    by (unfold f1; rewrite df_col_set_ne by done; exact Hp).
  rewrite (bind_ok _ _ _ _ _ (getitem_run _ _ _ _ _ H1 Hp1)).
  assert (Llow : length (map (fun x => num_ltb x (Fin 100)) population) = index f1)
    by (by rewrite length_map).
  rewrite (bind_ok _ _ _ _ _ (loc_set_run _ _ _ _ _ _ H1 Llow)).
  cbn [heap trace]. rewrite list_insert_insert_eq.
  set (f2 := df_set f1 "demand_score" _).
  assert (H2 : heap (mkState (<[r := f2]> h) t) !! r = Some f2)
    by (by apply list_lookup_insert_eq).
  assert (Ho2 : df_col f2 "opportunity_score" = None).
  { unfold f2, f1. rewrite !df_col_set_ne by done. exact Ho. }
  erewrite bind_raise; [|apply (getitem_missing _ _ _ _ H2 Ho2)].
  eexists _, f2, _. split; [reflexivity|]. split; [exact H2|]. split.
  - unfold f2. apply df_col_set_eq.
  - rewrite length_mask_set. unfold f1. rewrite df_col_set_eq. cbn [default].
    by apply length_demand_of.
Qed.

Lemma demand_of_index f f' population :
  index f' = index f -> demand_of f' population = demand_of f population.
Proof. unfold demand_of. by intros ->. Qed.

(** X16. Re-scoring a frame that was already re-scored gives the same demand
    scores and the same opportunity scores again, but the record of the
    original, supply-only score is lost: [opportunity_score_original] then
    holds the demand-weighted score. *)
Lemma rescoring_twice st r f population original :
  heap st !! r = Some f -> frame_ok f ->
  df_col f "population_1km" = Some population ->
  df_col f "opportunity_score" = Some original ->
  exists st1 st2 f1 f2 score,
    recalculate_opportunity_with_population r st = (Ok r, st1) /\
    heap st1 !! r = Some f1 /\
    recalculate_opportunity_with_population r st1 = (Ok r, st2) /\
    heap st2 !! r = Some f2 /\
    df_col f1 "opportunity_score_original" = Some original /\
    df_col f1 "opportunity_score" = Some score /\
    df_col f2 "opportunity_score" = Some score /\
    df_col f2 "demand_score" = df_col f1 "demand_score" /\
    df_col f2 "opportunity_score_original" = Some score.
Proof.
  intros Hr Hok Hp Ho.
  pose proof (frame_ok_col _ _ _ Hok Hp) as Lp.
  pose proof (frame_ok_col _ _ _ Hok Ho) as Lo.
  destruct (recalculate_run st r f population original Hr Hok Hp Ho)
    as (zeroed & t1 & Hrun1).
  set (f1 := rescored_frame f population original) in *.
  set (st1 := mkState (<[r := f1]> (heap st) ++ [zeroed]) t1) in *.
  assert (Hr1 : heap st1 !! r = Some f1)
    by (cbn [heap st1]; eapply lookup_insert_snoc; eauto).
  assert (Hok1 : frame_ok f1) by (by apply rescored_frame_ok).
  assert (Hp1 : df_col f1 "population_1km" = Some population)
    by (unfold f1; rewrite rescored_frame_other by done; exact Hp).
  set (score := mask_set (low_population population) (Fin 0)
                  (demand_score_of
                     (default (repeat (Fin 0) (index f)) (df_col f "competition_gap"))
                     (default (repeat (Fin 0) (index f)) (df_col f "accessibility_gap"))
                     (mask_set (low_population population) (Fin 0)
                               (demand_of f population))
                     (default (repeat (Fin 0.5) (index f)) (df_col f "viability")))).
  assert (Ho1 : df_col f1 "opportunity_score" = Some score)
    by (unfold f1, rescored_frame; cbv zeta; apply df_col_set_eq).
  destruct (recalculate_run st1 r f1 population score Hr1 Hok1 Hp1 Ho1)
    as (zeroed2 & t2 & Hrun2).
  set (f2 := rescored_frame f1 population score) in *.
  exists st1, (mkState (<[r := f2]> (heap st1) ++ [zeroed2]) t2), f1, f2, score.
  split; [exact Hrun1|]. split; [exact Hr1|]. split; [exact Hrun2|].
  split; [cbn [heap]; eapply lookup_insert_snoc; eauto|].
  assert (Hsame : forall c, c <> "demand_score" ->
                   c <> "opportunity_score_original" ->
                   c <> "opportunity_score" -> df_col f1 c = df_col f c)
    by (intros; by apply rescored_frame_other).
  assert (Hdem : demand_of f1 population = demand_of f population)
    by (by apply demand_of_index).
  split; [|split; [exact Ho1|split; [|split]]].
  - unfold f1, rescored_frame. cbv zeta. rewrite df_col_set_ne by done.
    apply df_col_set_eq.
  - unfold f2, rescored_frame. cbv zeta. rewrite df_col_set_eq.
    rewrite Hdem, !Hsame by done. reflexivity.
  - unfold f2, rescored_frame at 1. cbv zeta. rewrite !df_col_set_ne by done.
    rewrite df_col_set_eq, Hdem.
    unfold f1, rescored_frame. cbv zeta. rewrite !df_col_set_ne by done.
    by rewrite df_col_set_eq.
  - unfold f2, rescored_frame. cbv zeta. rewrite df_col_set_ne by done.
    apply df_col_set_eq.
Qed.

(** * More on the supply-only scorer and the desert classifier *)

(** X17. A cell without any service near it (density 0, no service within
    walking distance, nearest service at 3 km or more, or none at all)
    always scores 9 out of 10 under the supply-only policy. *)
Lemma unserved_cell_scores_nine st r f density nearest within (i : nat) d n s :
  heap st !! r = Some f ->
  accessibility_frame f density nearest within ->
  density !! i = Some (Fin d) -> d == 0 ->
  nearest !! i = Some n -> (n = PInf \/ exists q, n = Fin q /\ 3 <= q) ->
  within !! i = Some (Fin s) -> s == 0 ->
  exists st' f' score,
    calculate_opportunity_scores r st = (Ok (length (heap st)), st') /\
    heap st' !! length (heap st) = Some f' /\
    cell f' "opportunity_score" i = Some (Fin score) /\
    score == 9.
Proof.
  intros Hr [Hok Hd Hn Hw Vd Vn Vw] Hdi Hd0 Hni Hfar Hsi Hs0.
  pose proof (frame_ok_col _ _ _ Hok Hd) as Ld.
  pose proof (frame_ok_col _ _ _ Hok Hn) as Ln.
  pose proof (frame_ok_col _ _ _ Hok Hw) as Lw.
  destruct (calculate_opportunity_scores_run st r f density nearest within)
    as [t' Hrun]; auto.
  destruct (competition_gap_value f density i d Vd Ld Hdi) as (cg & Hcg & Hcgs).
  destruct (accessibility_gap_value n (Forall_lookup_1 _ _ _ _ Vn Hni))
    as (ag & Hag & Hags).
  destruct (viability_of_fin s) as (v & Hv & _ & Hv2 & _).
  assert (Hne : density <> []) by (intros ->; discriminate).
  destruct (series_max_finite _ Vd Hne) as (m & Hm & Hin & Hpos & Hall).
  assert (Hmax : is_maximum m density).
  { split; auto. exists m. split; auto. reflexivity. }
  destruct (Hcgs m Hmax) as [Hcg1 Hcg2].
  assert (Ecg : cg == 1).
  { destruct (Qeq_dec m 0) as [E|E]; [by apply Hcg2|].
    rewrite (Hcg1 E), Hd0. field. exact E. }
  assert (Eag : ag == 1).
  { destruct Hfar as [->|(q & -> & Hq)].
    - rewrite Hags. reflexivity.
    - rewrite Hags, Q.min_r by exact Hq. reflexivity. }
  assert (Ev : v == 0.5) by (by apply Hv2).
  eexists _, _, ((0.40 * cg + 0.40 * ag + 0.20 * v) * 10).
  split; [exact Hrun|]. split; [apply lookup_snoc|]. split.
  - unfold cell, scored_frame. rewrite df_col_set_eq.
    apply supply_score_value; [exact Hcg | |].
    + unfold accessibility_gap_of. rewrite lookup_map, Hni. simpl. by rewrite Hag.
    + rewrite lookup_map, Hsi. simpl. by rewrite Hv.
  - rewrite Ecg, Eag, Ev. reflexivity.
Qed.

(** X18. Of two cells that differ only in density the one with fewer services
    around it never scores lower. *)
Lemma less_competition_scores_higher st r f density nearest within
    (i j : nat) di dj n w :
  heap st !! r = Some f ->
  accessibility_frame f density nearest within ->
  density !! i = Some (Fin di) -> density !! j = Some (Fin dj) -> di <= dj ->
  nearest !! i = Some n -> nearest !! j = Some n ->
  within !! i = Some (Fin w) -> within !! j = Some (Fin w) ->
  exists st' f' si sj,
    calculate_opportunity_scores r st = (Ok (length (heap st)), st') /\
    heap st' !! length (heap st) = Some f' /\
    cell f' "opportunity_score" i = Some (Fin si) /\
    cell f' "opportunity_score" j = Some (Fin sj) /\
    sj <= si.
Proof.
  intros Hr [Hok Hd Hn Hw Vd Vn Vw] Hdi Hdj Hle Hni Hnj Hwi Hwj.
  pose proof (frame_ok_col _ _ _ Hok Hd) as Ld.
  pose proof (frame_ok_col _ _ _ Hok Hn) as Ln.
  pose proof (frame_ok_col _ _ _ Hok Hw) as Lw.
  destruct (calculate_opportunity_scores_run st r f density nearest within)
    as [t' Hrun]; auto.
  destruct (competition_gap_value f density i di Vd Ld Hdi) as (cgi & Hcgi & Hi).
  destruct (competition_gap_value f density j dj Vd Ld Hdj) as (cgj & Hcgj & Hj).
  destruct (accessibility_gap_value n (Forall_lookup_1 _ _ _ _ Vn Hni))
    as (ag & Hag & _).
  destruct (viability_of_fin w) as (v & Hv & _).
  assert (Hne : density <> []) by (intros ->; discriminate).
  destruct (series_max_finite _ Vd Hne) as (m & Hm & Hin & Hpos & Hall).
  assert (Hmax : is_maximum m density).
  { split; auto. exists m. split; auto. reflexivity. }
  destruct (Hi m Hmax) as [Hi1 Hi2]. destruct (Hj m Hmax) as [Hj1 Hj2].
  assert (Ecg : cgj <= cgi).
  { destruct (Qeq_dec m 0) as [E|E].
    - rewrite (Hi2 E), (Hj2 E). lra.
    - rewrite (Hi1 E), (Hj1 E).
      assert (di / m <= dj / m); [|lra].
      apply Qle_shift_div_l; [lra|].
      assert (di / m * m == di) by (field; exact E). lra. }
  eexists _, _, ((0.40 * cgi + 0.40 * ag + 0.20 * v) * 10),
    ((0.40 * cgj + 0.40 * ag + 0.20 * v) * 10).
  split; [exact Hrun|]. split; [apply lookup_snoc|].
  assert (Hags : forall k, nearest !! k = Some n ->
                           accessibility_gap_of nearest !! k = Some (Fin ag)).
  { intros k Hk. unfold accessibility_gap_of. rewrite lookup_map, Hk. simpl.
    by rewrite Hag. }
  assert (Hvs : forall k, within !! k = Some (Fin w) ->
                          map viability_of within !! k = Some (Fin v)).
  { intros k Hk. rewrite lookup_map, Hk. simpl. by rewrite Hv. }
  split; [|split].
  - unfold cell, scored_frame. rewrite df_col_set_eq.
    apply supply_score_value; auto.
  - unfold cell, scored_frame. rewrite df_col_set_eq.
    apply supply_score_value; auto.
  - lra.
Qed.

(** X19. When one of the three metric columns is missing the scorer raises
    [KeyError] for the first one it misses, and the frame it was given
    stays as it was: only its copy has been touched. *)
Lemma scorer_missing_column st r f :
  heap st !! r = Some f -> frame_ok f ->
  (df_col f "density_per_km2" = None \/
   df_col f "nearest_distance_km" = None \/
   df_col f "services_within_walking" = None) ->
  exists c st',
    calculate_opportunity_scores r st = (Raise (KeyError c), st') /\
    In c ["density_per_km2"; "nearest_distance_km"; "services_within_walking"] /\
    df_col f c = None /\
    heap st' !! r = Some f.
Proof.
  intros Hr Hok Hmiss.
  assert (Hkeep : forall c st',
             calculate_opportunity_scores r st = (Raise (KeyError c), st') ->
             heap st' !! r = Some f).
  { intros c st' E. pose proof (calculate_opportunity_scores_extends r st) as Hx.
    rewrite E in Hx. eapply extends_lookup; eauto. }
  assert (Hlt : (r < length (heap st))%nat) by (eapply lookup_lt_Some; eauto).
  destruct st as [h t]. cbn [heap trace] in *.
  assert (Hrun : exists c st',
             calculate_opportunity_scores r (mkState h t)
             = (Raise (KeyError c), st') /\
             In c ["density_per_km2"; "nearest_distance_km";
                   "services_within_walking"] /\
             df_col f c = None).
  { unfold calculate_opportunity_scores.
    rewrite (bind_ok _ _ _ _ _ (copy_run (mkState h t) _ _ Hr)).
    cbn [heap trace].
    assert (H0 : heap (mkState (h ++ [f]) t) !! length h = Some f)
      by apply lookup_snoc.
    destruct (df_col f "density_per_km2") as [density|] eqn:Hd.
    2:{ exists "density_per_km2". eexists. split; [|split; [cbn; auto | exact Hd]].
        apply bind_raise. by apply getitem_missing with (f := f). }
    pose proof (frame_ok_col _ _ _ Hok Hd) as Ld.
    rewrite (bind_ok _ _ _ _ _ (getitem_run _ _ _ _ _ H0 Hd)).
    set (f1 := df_set f "competition_gap" (competition_gap_of f density)).
    assert (Hstep :
      (if num_gtb (series_max density) (Fin 0)
       then density0 <- getitem (length h) "density_per_km2" ;;
            setitem (length h) "competition_gap"
                    (map (fun x => num_sub (Fin 1)
                                     (num_div x (series_max density))) density0)
       else setitem_scalar (length h) "competition_gap" (Fin 1.0))
        (mkState (h ++ [f]) t)
      = (Ok tt, mkState (h ++ [f1]) t)).
    { unfold f1, competition_gap_of.
      destruct (num_gtb (series_max density) (Fin 0)).
      - rewrite (bind_ok _ _ _ _ _ (getitem_run _ _ _ _ _ H0 Hd)).
        rewrite (setitem_run _ _ _ _ _ H0) by (by rewrite length_map).
        cbn [heap trace]. by rewrite insert_snoc.
      - rewrite (setitem_scalar_run _ _ _ _ _ H0).
        cbn [heap trace]. by rewrite insert_snoc. }
    rewrite (bind_ok _ _ _ _ _ Hstep). clear Hstep.
    assert (H1 : heap (mkState (h ++ [f1]) t) !! length h = Some f1)
      by apply lookup_snoc.
    destruct (df_col f "nearest_distance_km") as [nearest|] eqn:Hn.
    2:{ exists "nearest_distance_km". eexists.
        split; [|split; [cbn; auto | exact Hn]].
        apply bind_raise. apply getitem_missing with (f := f1); [exact H1|].
        unfold f1. rewrite df_col_set_ne by done. exact Hn. }
    pose proof (frame_ok_col _ _ _ Hok Hn) as Ln.
    assert (Hn1 : df_col f1 "nearest_distance_km" = Some nearest)
      by (unfold f1; rewrite df_col_set_ne by done; exact Hn).
    rewrite (bind_ok _ _ _ _ _ (getitem_run _ _ _ _ _ H1 Hn1)).
    rewrite (bind_ok _ _ _ _ _ (setitem_run _ _ _ _ _ H1
                                   ltac:(by rewrite length_map))).
    cbn [heap trace]. rewrite insert_snoc.
    set (f2 := df_set f1 "accessibility_gap" _).
    assert (H2 : heap (mkState (h ++ [f2]) t) !! length h = Some f2)
      by apply lookup_snoc.
    destruct Hmiss as [Hm|[Hm|Hw]]; [congruence | congruence |].
    exists "services_within_walking". eexists.
    split; [|split; [cbn; auto | exact Hw]].
    apply bind_raise. apply getitem_missing with (f := f2); [exact H2|].
    unfold f2, f1. rewrite !df_col_set_ne by done. exact Hw. }
  destruct Hrun as (c & st' & Hrun & Hin & Hnone).
  exists c, st'. split; [exact Hrun|]. split; [exact Hin|].
  split; [exact Hnone|]. eapply Hkeep; eauto.
Qed.

(** X20. On a frame without rows the desert classifier raises
    [ZeroDivisionError]: it divides by the number of cells for its report
    after the selection is made. *)
Lemma deserts_of_no_cells st r f thr nearest within :
  heap st !! r = Some f -> frame_ok f ->
  df_col f "nearest_distance_km" = Some nearest ->
  df_col f "services_within_walking" = Some within ->
  index f = 0%nat ->
  exists st',
    identify_service_deserts r thr st = (Raise ZeroDivisionError, st') /\
    forall r0 f0, heap st !! r0 = Some f0 -> heap st' !! r0 = Some f0.
Proof.
  intros Hr Hok Hn Hw Hz.
  pose proof (frame_ok_col _ _ _ Hok Hn) as Ln.
  pose proof (frame_ok_col _ _ _ Hok Hw) as Lw.
  destruct (identify_service_deserts_run st r f thr nearest within Hr Hn Hw Ln Lw)
    as [t' Hrun].
  rewrite Hz in Hrun. eexists. split; [exact Hrun|].
  intros r0 f0 Hr0. cbn [heap].
  rewrite lookup_app_l by (eapply lookup_lt_Some; eauto). exact Hr0.
Qed.

(** * What is written to disk *)

Lemma quiet_ret {A} (a : A) : quiet (ret a).
Proof. by intros st. Qed.

Lemma quiet_raise {A} e : quiet (@raise A e).
Proof. by intros st. Qed.

Lemma quiet_out_of_fuel {A} : quiet (@out_of_fuel A).
Proof. by intros st. Qed.

Lemma quiet_bind {A B} (m : M A) (k : A -> M B) :
  quiet m -> (forall a, quiet (k a)) -> quiet (bind m k).
Proof.
  intros Hm Hk st. unfold bind. specialize (Hm st).
  destruct (m st) as [[a|e|] st1]; cbn [snd] in *; [|exact Hm|exact Hm].
  by rewrite Hk.
Qed.

Lemma quiet_if {A} (b : bool) (m1 m2 : M A) :
  quiet m1 -> quiet m2 -> quiet (if b then m1 else m2).
Proof. by destruct b. Qed.

Lemma quiet_lift {A} (o : result A) : quiet (lift o).
Proof. destruct o; [apply quiet_ret | apply quiet_raise]. Qed.

Lemma written_files_app t t' :
  written_files (t ++ t') = written_files t ++ written_files t'.
Proof. unfold written_files. apply flat_map_app. Qed.

Lemma quiet_print text args : quiet (print text args).
Proof.
  intros st. cbn [print emit snd trace]. rewrite written_files_app.
  cbn. by rewrite app_nil_r.
Qed.

Lemma quiet_os_makedirs path : quiet (os_makedirs path).
Proof.
  intros st. cbn [os_makedirs emit snd trace]. rewrite written_files_app.
  cbn. by rewrite app_nil_r.
Qed.

Lemma quiet_deref r : quiet (deref r).
Proof. intros st. unfold deref. by destruct (heap st !! r). Qed.

Lemma quiet_alloc f : quiet (alloc f).
Proof. by intros st. Qed.

Lemma quiet_assign r f : quiet (assign r f).
Proof. by intros st. Qed.

Lemma quiet_mapM {A B} (g : A -> M B) l :
  (forall x, quiet (g x)) -> quiet (mapM g l).
Proof.
  intros Hg. induction l as [|x l IH]; cbn [mapM].
  - apply quiet_ret.
  - apply quiet_bind; [apply Hg|]. intros y.
    apply quiet_bind; [exact IH|]. intros ys. apply quiet_ret.
Qed.

Lemma quiet_forM_ {A} (g : A -> M unit) l :
  (forall x, quiet (g x)) -> quiet (forM_ l g).
Proof.
  intros Hg. induction l as [|x l IH]; cbn [forM_].
  - apply quiet_ret.
  - apply quiet_bind; [apply Hg | intros _; exact IH].
Qed.

Lemma quiet_try_except {A} (m : M A) h :
  quiet m -> (forall e, quiet (h e)) -> quiet (try_except m h).
Proof.
  intros Hm Hh st. unfold try_except. specialize (Hm st).
  destruct (m st) as [[a|e|] st1]; cbn [snd] in *; [exact Hm| |exact Hm].
  by rewrite Hh.
Qed.

Lemma quiet_match_option {A B} (o : option A) (g : A -> M B) (d : M B) :
  (forall a, quiet (g a)) -> quiet d ->
  quiet (match o with Some a => g a | None => d end).
Proof. destruct o; auto. Qed.

Lemma quiet_fold_left {A B} (g : M B -> A -> M B) (l : list A) (m : M B) :
  (forall acc x, quiet acc -> quiet (g acc x)) -> quiet m ->
  quiet (fold_left g l m).
Proof.
  intros Hg. revert m. induction l as [|x l IH]; intros m Hm; cbn [fold_left];
    [exact Hm|]. apply IH. by apply Hg.
Qed.

Ltac silent :=
  repeat first
    [ apply quiet_ret | apply quiet_raise | apply quiet_out_of_fuel
    | apply quiet_lift | apply quiet_print | apply quiet_os_makedirs
    | apply quiet_deref | apply quiet_alloc | apply quiet_assign
    | apply quiet_bind; [| intros ?]
    | apply quiet_if
    | apply quiet_mapM; intros ?
    | apply quiet_forM_; intros ?
    | apply quiet_match_option; [intros ? |]
    | assumption ].

Lemma quiet_len r : quiet (len r).
Proof. unfold len. silent. Qed.

Lemma quiet_getitem r c : quiet (getitem r c).
Proof. unfold getitem. silent. Qed.

Lemma quiet_get_or r c d : quiet (get_or r c d).
Proof. unfold get_or. silent. Qed.

Lemma quiet_setitem r c s : quiet (setitem r c s).
Proof. unfold setitem. silent. Qed.

Lemma quiet_setitem_scalar r c x : quiet (setitem_scalar r c x).
Proof. unfold setitem_scalar. silent. Qed.

Lemma quiet_loc_set r m c x : quiet (loc_set r m c x).
Proof. unfold loc_set. silent. Qed.

Lemma quiet_copy r : quiet (copy r).
Proof. unfold copy. silent. Qed.

Lemma quiet_select r m : quiet (select r m).
Proof. unfold select. silent. Qed.

Lemma quiet_getitems r cs : quiet (getitems r cs).
Proof. unfold getitems. silent. Qed.

Lemma quiet_pd_DataFrame records : quiet (pd_DataFrame records).
Proof. unfold pd_DataFrame. silent. Qed.

Lemma quiet_iterrows r : quiet (iterrows r).
Proof. unfold iterrows. silent. Qed.

Lemma quiet_dict_get (d : dict) c : quiet (dict_get d c).
Proof. unfold dict_get. silent. Qed.

Lemma quiet_sort_values r c : quiet (sort_values r c).
Proof. unfold sort_values. silent. Qed.

Lemma quiet_iloc r i : quiet (iloc r i).
Proof. unfold iloc. silent. Qed.

Lemma quiet_nlargest r n c : quiet (nlargest r n c).
Proof. unfold nlargest. silent. Qed.

Lemma quiet_head r n : quiet (head r n).
Proof. unfold head. silent. Qed.

Lemma quiet_merge l r k : quiet (merge l r k).
Proof. unfold merge. silent. Qed.

Lemma quiet_py_truediv a b : quiet (py_truediv a b).
Proof. unfold py_truediv. destruct b; silent. Qed.

Ltac silent' :=
  repeat first
    [ apply quiet_len | apply quiet_getitem | apply quiet_get_or
    | apply quiet_setitem | apply quiet_setitem_scalar | apply quiet_loc_set
    | apply quiet_copy | apply quiet_select | apply quiet_getitems
    | apply quiet_pd_DataFrame | apply quiet_iterrows | apply quiet_dict_get
    | apply quiet_sort_values | apply quiet_iloc | apply quiet_nlargest
    | apply quiet_head | apply quiet_merge | apply quiet_py_truediv
    | apply quiet_ret | apply quiet_raise | apply quiet_out_of_fuel
    | apply quiet_lift | apply quiet_print | apply quiet_os_makedirs
    | apply quiet_deref | apply quiet_alloc | apply quiet_assign
    | apply quiet_bind; [| intros ?]
    | apply quiet_if
    | apply quiet_mapM; intros ?
    | apply quiet_forM_; intros ?
    | apply quiet_match_option; [intros ? |]
    | assumption ].

Section Quiet.

Variable np_cos : num -> num.
Variable geodesic_km : num -> num -> num -> num -> result num.
Variable os_listdir : string -> result (list string).
Variable path_exists : string -> bool.
Variable pd_read_csv : string -> result DataFrame.
Variable today : string.
Variable raster_read : string -> num -> num -> result (option num).
Variable rasterio_installed : bool.

Lemma quiet_load_data city business_type :
  quiet (load_data os_listdir pd_read_csv city business_type).
Proof. unfold load_data. silent'. destruct (filter _ a); silent'. Qed.

Lemma quiet_lng_loop fuel (bounds : dict) lat lat_step lng_step :
  forall lng cell_id cells,
    quiet (lng_loop num_add fuel bounds lat lat_step lng_step lng cell_id cells).
Proof.
  induction fuel as [|fuel IH]; intros lng cell_id cells; cbn [lng_loop];
    silent'. apply IH.
Qed.

Lemma quiet_lat_loop fuel inner (bounds : dict) lat_step lng_step :
  forall lat cell_id cells,
    quiet (lat_loop num_add fuel inner bounds lat_step lng_step lat cell_id cells).
Proof.
  induction fuel as [|fuel IH]; intros lat cell_id cells; cbn [lat_loop];
    silent'; [apply quiet_lng_loop | apply IH].
Qed.

Lemma quiet_create_analysis_grid fuel (bounds : dict) g :
  quiet (create_analysis_grid np_cos fuel bounds g).
Proof. unfold create_analysis_grid, create_analysis_grid_with. silent'. apply quiet_lat_loop. Qed.

Lemma quiet_calculate_distance_matrix grid places :
  quiet (calculate_distance_matrix geodesic_km grid places).
Proof. unfold calculate_distance_matrix. silent'. Qed.

Lemma quiet_analyze_accessibility grid places distances walking :
  quiet (analyze_accessibility grid places distances walking).
Proof. unfold analyze_accessibility, cell_accessibility. silent'. Qed.

Lemma quiet_identify_service_deserts r thr :
  quiet (identify_service_deserts r thr).
Proof. unfold identify_service_deserts. silent'. Qed.

Lemma quiet_calculate_opportunity_scores r :
  quiet (calculate_opportunity_scores r).
Proof. unfold calculate_opportunity_scores. silent'. Qed.

Lemma quiet_get_available_business_types city :
  quiet (get_available_business_types os_listdir path_exists city).
Proof. unfold get_available_business_types. silent'. Qed.

Lemma quiet_get_population_for_point lat lng path :
  quiet (get_population_for_point raster_read rasterio_installed lat lng path).
Proof.
  unfold get_population_for_point. silent'.
  destruct (raster_read path lat lng) as [[v|]|e]; silent'.
Qed.

Lemma quiet_recalculate r : quiet (recalculate_opportunity_with_population r).
Proof. unfold recalculate_opportunity_with_population. silent'. Qed.

End Quiet.

Lemma writes_upto_raise {A} files e : writes_upto files (@raise A e).
Proof.
  intros st. exists []. rewrite app_nil_r. split; [reflexivity|].
  split; [by left | discriminate].
Qed.

Lemma writes_upto_quiet_bind {A B} files (m : M A) (k : A -> M B) :
  quiet m -> (forall a, writes_upto files (k a)) -> writes_upto files (bind m k).
Proof.
  intros Hm Hk st. unfold bind. specialize (Hm st).
  destruct (m st) as [[a|e|] st1]; cbn [snd] in *.
  - destruct (Hk a st1) as (new & Hnew & Hcases). exists new.
    rewrite Hnew, Hm. by split.
  - exists []. rewrite app_nil_r. split; [exact Hm|]. split; [by left|discriminate].
  - exists []. rewrite app_nil_r. split; [exact Hm|]. split; [by left|discriminate].
Qed.

Lemma writes_upto_bind_quiet {A B} files (m : M A) (k : A -> M B) :
  writes_upto files m -> (forall a, quiet (k a)) -> writes_upto files (bind m k).
Proof.
  intros Hm Hk st. unfold bind. destruct (Hm st) as (new & Hnew & Hor & Hok).
  destruct (m st) as [[a|e|] st1]; cbn [fst snd] in *.
  - exists new. rewrite Hk, Hnew. split; [reflexivity|]. split; [exact Hor|].
    intros _ _. by apply (Hok a).
  - exists new. split; [exact Hnew|]. split; [exact Hor | discriminate].
  - exists new. split; [exact Hnew|]. split; [exact Hor | discriminate].
Qed.

Lemma writes_exactly_upto {A} files (m : M A) :
  writes_exactly files m -> writes_upto files m.
Proof.
  intros Hm st. exists files. split; [apply Hm|]. split; [by right | auto].
Qed.

Lemma writes_exactly_bind_quiet {A B} files (m : M A) (k : A -> M B) :
  writes_exactly files m -> (forall a, quiet (k a)) ->
  writes_exactly files (bind m k).
Proof.
  intros Hm Hk st. unfold bind. specialize (Hm st).
  destruct (m st) as [[a|e|] st1]; cbn [snd] in *; [|exact Hm|exact Hm].
  by rewrite Hk.
Qed.

Lemma writes_exactly_to_csv f path : writes_exactly [path] (to_csv f path).
Proof.
  intros st. cbn [to_csv emit snd trace]. by rewrite written_files_app.
Qed.

Lemma save_analysis_writes today df city business_type :
  writes_upto [analysis_file today city business_type]
              (save_analysis today df city business_type).
Proof.
  unfold save_analysis. fold (analysis_file today city business_type).
  apply writes_upto_quiet_bind; [apply quiet_os_makedirs|]. intros _.
  apply writes_upto_quiet_bind; [apply quiet_deref|]. intros f.
  apply writes_exactly_upto.
  apply writes_exactly_bind_quiet; [apply writes_exactly_to_csv|]. intros _.
  silent'.
Qed.

Lemma analyze_city_writes np_cos geodesic_km os_listdir pd_read_csv today
    fuel city business_type :
  writes_upto [analysis_file today city business_type]
              (analyze_city np_cos geodesic_km os_listdir pd_read_csv today
                            fuel city business_type).
Proof.
  unfold analyze_city.
  apply writes_upto_quiet_bind; [apply quiet_print|]. intros _.
  destruct (assoc city CITY_BOUNDS) as [bounds|]; [|apply writes_upto_raise].
  apply writes_upto_quiet_bind; [apply quiet_load_data|]. intros places.
  apply writes_upto_quiet_bind; [apply quiet_create_analysis_grid|]. intros grid.
  apply writes_upto_quiet_bind; [apply quiet_calculate_distance_matrix|].
  intros distances.
  apply writes_upto_quiet_bind; [apply quiet_analyze_accessibility|].
  intros accessibility.
  apply writes_upto_quiet_bind; [apply quiet_identify_service_deserts|].
  intros deserts.
  apply writes_upto_quiet_bind; [apply quiet_calculate_opportunity_scores|].
  intros results.
  apply writes_upto_bind_quiet; [apply save_analysis_writes|]. intros filename.
  silent'.
Qed.

(** X21. The analysis of a city and a type writes one CSV file, the analysis
    file of that city, type and day, and no other: exactly that file when
    it returns, that file or nothing when it raises. *)
Lemma analyze_city_writes_its_file np_cos geodesic_km os_listdir pd_read_csv
    today fuel city business_type st :
  exists new,
    written_files
      (trace (snd (analyze_city np_cos geodesic_km os_listdir pd_read_csv today
                                fuel city business_type st)))
    = written_files (trace st) ++ new /\
    (new = [] \/ new = [analysis_file today city business_type]) /\
    (forall results,
        fst (analyze_city np_cos geodesic_km os_listdir pd_read_csv today
                          fuel city business_type st) = Ok results ->
        new = [analysis_file today city business_type]).
Proof. apply analyze_city_writes. Qed.

Lemma batch_loop_writes np_cos geodesic_km os_listdir pd_read_csv today
    fuel city total :
  forall types idx summary,
    appends (batch_loop np_cos geodesic_km os_listdir pd_read_csv today
                        fuel city total idx types summary)
            (fun new => sublist new (map (analysis_file today city) types)).
Proof.
  induction types as [|biz_type rest IH]; intros idx summary st;
    cbn [batch_loop].
  - exists []. by rewrite app_nil_r.
  - rewrite (bind_ok _ _ _ _ _ (print_run _ _ _)).
    rewrite (bind_ok _ _ _ _ _ (print_run _ _ _)).
    rewrite (bind_ok _ _ _ _ _ (print_run _ _ _)).
    cbn [heap trace]. unfold bind at 1. unfold try_except.
    match goal with
    | |- context [bind (analyze_city _ _ _ _ _ _ _ _) _ ?s] => set (st0 := s)
    end.
    assert (Hst0 : written_files (trace st0) = written_files (trace st)).
    { unfold st0. cbn [trace]. rewrite !written_files_app. cbn.
      by rewrite !app_nil_r. }
    match goal with
    | |- context [bind (analyze_city ?a ?b ?c ?d ?e ?f ?g ?h) ?k st0] =>
        destruct (writes_upto_bind_quiet [analysis_file today city biz_type]
                    (analyze_city a b c d e f g h) k
                    (analyze_city_writes _ _ _ _ _ _ _ _)
                    ltac:(intros r; apply quiet_bind;
                            [apply quiet_load_data | intros ?; silent']) st0)
          as (new1 & Hnew1 & Hor & _);
        destruct (bind (analyze_city a b c d e f g h) k st0)
          as [[summary1|e1|] st1]
    end; cbn [snd] in Hnew1.
    + destruct (IH (S idx) summary1 st1) as (new2 & Hnew2 & Hsub).
      exists (new1 ++ new2). rewrite Hnew2, Hnew1, Hst0, app_assoc.
      split; [reflexivity|]. cbn [map].
      destruct Hor as [->| ->]; cbn [app];
        [by apply sublist_cons | by apply sublist_skip].
    + unfold bind at 1. cbn [print emit]. cbn [ret].
      match goal with
      | |- context [batch_loop _ _ _ _ _ _ _ _ _ _ ?s ?st2] =>
          destruct (IH (S idx) s st2) as (new2 & Hnew2 & Hsub)
      end.
      exists (new1 ++ new2). rewrite Hnew2. cbn [trace].
      rewrite written_files_app. cbn [written_files flat_map app].
      rewrite app_nil_r, Hnew1, Hst0, app_assoc.
      split; [reflexivity|]. cbn [map].
      destruct Hor as [->| ->]; cbn [app];
        [by apply sublist_cons | by apply sublist_skip].
    + exists new1. cbn [snd]. rewrite Hnew1, Hst0. split; [reflexivity|].
      cbn [map]. destruct Hor as [->| ->];
        [apply sublist_nil_l | apply sublist_skip, sublist_nil_l].
Qed.

(** X22. The batch run writes analysis files of the types it found and nothing
    else: at most one per type, in the order of the types, each under the
    name of the city, the type and the day. Nothing is written into
    [data/raw]. *)
Lemma batch_writes_analysis_files np_cos geodesic_km os_listdir path_exists
    pd_read_csv today fuel city types st :
  get_available_business_types os_listdir path_exists city st = (Ok types, st) ->
  exists new,
    written_files
      (trace (snd (analyze_all_business_types np_cos geodesic_km os_listdir
                     path_exists pd_read_csv today fuel city st)))
    = written_files (trace st) ++ new /\
    sublist new (map (analysis_file today city) types).
Proof.
  intros Htypes. unfold analyze_all_business_types.
  rewrite (bind_ok _ _ _ _ _ Htypes).
  destruct types as [|t0 rest].
  - exists []. rewrite app_nil_r. split; [|constructor].
    assert (H : quiet (print ("No data found for " ++ city)%string [] ;;;
                       print "Run data collection first: python src/collect_data.py" [] ;;;
                       @ret (list (string * info)) [])) by silent'.
    apply H.
  - set (types := t0 :: rest).
    do 6 rewrite (bind_ok _ _ _ _ _ (print_run _ _ _)).
    cbn [heap trace]. unfold bind at 1.
    match goal with
    | |- context [batch_loop _ _ _ _ _ _ _ _ _ _ _ ?s] => set (st0 := s)
    end.
    assert (Hst0 : written_files (trace st0) = written_files (trace st)).
    { unfold st0. cbn [trace]. rewrite !written_files_app. cbn.
      by rewrite !app_nil_r. }
    destruct (batch_loop_writes np_cos geodesic_km os_listdir pd_read_csv today
                fuel city (length types) types 1%nat [] st0)
      as (new & Hnew & Hsub).
    destruct (batch_loop _ _ _ _ _ _ _ _ _ _ _ st0) as [[summary|e|] st1];
      cbn [snd] in Hnew.
    + exists new. split; [|exact Hsub].
      assert (H : quiet (print separator [] ;;;
                         print ("BATCH ANALYSIS COMPLETE - " ++ city)%string [] ;;;
                         print separator [] ;;;
                         print "Business Type / Status / Locations / Deserts / Avg Score" [] ;;;
                         print rule [] ;;;
                         forM_ summary summary_row ;;;
                         print separator [] ;;; ret summary)).
      { silent'. unfold summary_row. destruct (snd x); silent'. }
      rewrite H, Hnew, Hst0. reflexivity.
    + exists new. split; [|exact Hsub]. cbn [snd]. by rewrite Hnew, Hst0.
    + exists new. split; [|exact Hsub]. cbn [snd]. by rewrite Hnew, Hst0.
Qed.

Lemma enrich_file_writes geodesic_km pd_read_csv raster_read rasterio_installed
    pop_raster filepath :
  appends (enrich_file geodesic_km pd_read_csv raster_read rasterio_installed
                       pop_raster filepath)
          (fun new => new = [] \/
                      contains "_enriched" filepath = false /\
                      new = [enriched_file filepath]).
Proof.
  unfold enrich_file. destruct (contains "_enriched" filepath) eqn:E.
  - intros st. exists []. rewrite app_nil_r. split; [apply quiet_print | by left].
  - assert (H : writes_upto [enriched_file filepath]
                  (enrich_file geodesic_km pd_read_csv raster_read
                               rasterio_installed pop_raster filepath)).
    { unfold enrich_file. rewrite E.
      apply writes_upto_quiet_bind; [apply quiet_print|]. intros _.
      apply writes_upto_quiet_bind; [apply quiet_lift|]. intros f.
      apply writes_upto_quiet_bind; [apply quiet_alloc|]. intros df.
      apply writes_upto_quiet_bind; [apply quiet_iterrows|]. intros rows.
      apply writes_upto_quiet_bind.
      { apply quiet_mapM. intros row.
        apply quiet_bind; [apply quiet_dict_get|]. intros lat.
        apply quiet_bind; [apply quiet_dict_get|]. intros lng.
        apply quiet_get_population_for_point. }
      intros populations.
      apply writes_upto_quiet_bind; [apply quiet_setitem|]. intros _.
      apply writes_upto_quiet_bind; [apply quiet_iterrows|]. intros cells.
      apply writes_upto_quiet_bind.
      { apply quiet_mapM. intros cell0. silent'.
        apply quiet_fold_left; [|apply quiet_ret].
        intros acc other Hacc. silent'. }
      intros pop_1km.
      apply writes_upto_quiet_bind; [apply quiet_setitem|]. intros _.
      apply writes_upto_quiet_bind; [apply quiet_recalculate|]. intros df'.
      apply writes_upto_quiet_bind; [apply quiet_deref|]. intros f'.
      apply writes_exactly_upto.
      apply writes_exactly_bind_quiet; [apply writes_exactly_to_csv|].
      intros _. silent'. }
    unfold enrich_file in H. rewrite E in H.
    intros st. destruct (H st) as (new & Hnew & Hor & _).
    exists new. split; [exact Hnew|]. destruct Hor as [->| ->]; auto.
Qed.

Lemma enrich_files_write geodesic_km pd_read_csv raster_read rasterio_installed
    pop_raster files :
  appends (forM_ files (enrich_file geodesic_km pd_read_csv raster_read
                                    rasterio_installed pop_raster))
          (fun new =>
             Forall (fun path => exists filepath,
                         In filepath files /\
                         contains "_enriched" filepath = false /\
                         path = enriched_file filepath) new).
Proof.
  induction files as [|filepath files IH]; intros st; cbn [forM_].
  - exists []. rewrite app_nil_r. split; [reflexivity | constructor].
  - unfold bind.
    destruct (enrich_file_writes geodesic_km pd_read_csv raster_read
                rasterio_installed pop_raster filepath st) as (new1 & Hnew1 & Hor).
    assert (H1 : Forall (fun path => exists fp,
                           In fp (filepath :: files) /\
                           contains "_enriched" fp = false /\
                           path = enriched_file fp) new1).
    { destruct Hor as [->|[E ->]]; [constructor|].
      constructor; [|constructor]. exists filepath. split; [by left | auto]. }
    destruct (enrich_file _ _ _ _ _ _ st) as [[[]|e|] st1]; cbn [snd] in *.
    + destruct (IH st1) as (new2 & Hnew2 & Hall). exists (new1 ++ new2).
      rewrite Hnew2, Hnew1, app_assoc. split; [reflexivity|].
      apply Forall_app. split; [exact H1|].
      eapply Forall_impl; [exact Hall|]. intros path (fp & Hin & Hrest).
      exists fp. split; [by right | exact Hrest].
    + exists new1. by split.
    + exists new1. by split.
Qed.

Lemma enrich_all_writes geodesic_km pd_read_csv raster_read rasterio_installed
    pop_raster city files :
  appends (match files with
           | [] =>
               print ("No analysis files found for " ++ city)%string [] ;;;
               print ("Run analysis first: python src/analyze.py " ++ city)%string []
           | _ =>
               print "Found analysis files to enrich" [of_nat (length files)] ;;;
               forM_ files (enrich_file geodesic_km pd_read_csv raster_read
                                        rasterio_installed pop_raster) ;;;
               print "COMPLETE!" []
           end)
          (fun new =>
             Forall (fun path => exists filepath,
                         In filepath files /\
                         contains "_enriched" filepath = false /\
                         path = enriched_file filepath) new).
Proof.
  intros st1. destruct files as [|f0 fs].
  - exists []. rewrite app_nil_r. split; [|constructor].
    assert (H : quiet (print ("No analysis files found for " ++ city)%string [] ;;;
                       print ("Run analysis first: python src/analyze.py "
                              ++ city)%string [])) by silent'.
    apply H.
  - unfold bind at 1. cbn [print emit]. unfold bind at 1.
    set (st2 := mkState (heap st1) _).
    assert (Hst2 : written_files (trace st2) = written_files (trace st1)).
    { unfold st2. cbn [trace]. rewrite written_files_app. cbn.
      by rewrite app_nil_r. }
    destruct (enrich_files_write geodesic_km pd_read_csv raster_read
                rasterio_installed pop_raster (f0 :: fs) st2)
      as (new & Hnew & Hall).
    exists new. split; [|exact Hall].
    destruct (forM_ (f0 :: fs) _ st2) as [[[]|e|] st3]; cbn [snd] in *.
    + cbn [print emit snd trace]. rewrite written_files_app. cbn.
      by rewrite app_nil_r, Hnew, Hst2.
    + by rewrite Hnew, Hst2.
    + by rewrite Hnew, Hst2.
Qed.

(** X23. The enrichment writes only files named after an analysis file that
    [glob] found for the city and that does not hold [_enriched] in its
    name, with [.csv] replaced by [_enriched.csv]. *)
Lemma enrichment_writes_enriched_files geodesic_km path_exists glob pd_read_csv
    raster_read rasterio_installed city country st :
  exists new,
    written_files
      (trace (snd (add_population_to_analysis geodesic_km path_exists glob
                     pd_read_csv raster_read rasterio_installed city country st)))
    = written_files (trace st) ++ new /\
    Forall (fun path => exists filepath,
                (In filepath
                    (glob ("data/processed/" ++ city
                           ++ "_*_analysis_filtered_*.csv")%string) \/
                 In filepath
                    (glob ("data/processed/" ++ city
                           ++ "_*_analysis_*.csv")%string)) /\
                contains "_enriched" filepath = false /\
                path = enriched_file filepath) new.
Proof.
  unfold add_population_to_analysis.
  unfold bind at 1. cbn [print emit]. unfold bind at 1.
  set (st0 := mkState (heap st) _).
  assert (Hst0 : written_files (trace st0) = written_files (trace st)).
  { unfold st0. cbn [trace]. rewrite written_files_app. cbn.
    by rewrite app_nil_r. }
  assert (Hcheck : quiet (check_for_existing_population_data path_exists)).
  { unfold check_for_existing_population_data.
    destruct (find path_exists possible_files); silent'. }
  pose proof (Hcheck st0) as Hq.
  destruct (check_for_existing_population_data path_exists st0)
    as [[[pop_raster|]|e|] st1]; cbn [snd] in Hq.
  2:{ exists []. rewrite app_nil_r. split; [|constructor].
      assert (H : quiet (expected_path <-
                           download_worldpop_data_manual_instructions country ;;
                         print "Script paused. Please download the file and re-run." []))
        by (unfold download_worldpop_data_manual_instructions; silent').
      by rewrite H, Hq, Hst0. }
  2:{ exists []. rewrite app_nil_r. split; [|constructor]. cbn [snd].
      by rewrite Hq, Hst0. }
  2:{ exists []. rewrite app_nil_r. split; [|constructor]. cbn [snd].
      by rewrite Hq, Hst0. }
  set (filtered := glob ("data/processed/" ++ city
                         ++ "_*_analysis_filtered_*.csv")%string).
  set (plain := glob ("data/processed/" ++ city ++ "_*_analysis_*.csv")%string).
  cbv zeta.
  destruct filtered as [|f0 fs] eqn:Ef.
  - destruct (enrich_all_writes geodesic_km pd_read_csv raster_read
                rasterio_installed pop_raster city
                (filter (fun f => negb (contains "_enriched" f)) plain) st1)
      as (new & Hnew & Hall).
    exists new. split; [by rewrite Hnew, Hq, Hst0|].
    eapply Forall_impl; [exact Hall|]. intros path (fp & Hin & Hrest).
    exists fp. split; [|exact Hrest]. right.
    apply list_elem_of_In, list_elem_of_filter in Hin as [_ Hin].
    by apply list_elem_of_In.
  - destruct (enrich_all_writes geodesic_km pd_read_csv raster_read
                rasterio_installed pop_raster city (f0 :: fs) st1)
      as (new & Hnew & Hall).
    exists new. split; [by rewrite Hnew, Hq, Hst0|].
    eapply Forall_impl; [exact Hall|]. intros path (fp & Hin & Hrest).
    exists fp. split; [|exact Hrest]. by left.
Qed.

(** ** Enriched names *)

Lemma enriched_name_marked (filepath : string) :
  contains ".csv" filepath = true ->
  contains "_enriched" (enriched_file filepath) = true.
Proof.
  unfold enriched_file, py_replace.
  induction filepath as [|a s IH]; [discriminate|].
  intros H. cbn [replace_from].
  destruct (String.prefix ".csv" (String a s)) eqn:E.
  - reflexivity.
  - cbn [contains] in H. rewrite E in H. cbn [orb] in H.
    cbn [contains]. rewrite (IH H). apply orb_true_r.
Qed.

(** X24. The file that the enrichment writes for an analysis file is not
    enriched again: given its name, the enrichment of one file only
    prints that it skips it, reads nothing and writes nothing. *)
Lemma enriched_file_is_skipped geodesic_km pd_read_csv raster_read
    rasterio_installed pop_raster filepath st :
  contains ".csv" filepath = true ->
  enrich_file geodesic_km pd_read_csv raster_read rasterio_installed
              pop_raster (enriched_file filepath) st
  = (Ok tt,
     mkState (heap st)
             (trace st ++ [Printed ("Skipping (already enriched): "
                                    ++ enriched_file filepath)%string []])).
Proof.
  intros H. unfold enrich_file. by rewrite (enriched_name_marked _ H).
Qed.

(** * The analysis of a city, from the places file to the saved scores *)

Lemma assoc_of_keys {A} k (l : list (string * A)) :
  In k (keys l) -> exists v, assoc k l = Some v.
Proof.
  induction l as [|[k' v'] l IH]; [by intros []|]. cbn [keys map fst assoc].
  intros Hin. destruct (String.eqb k k') eqn:E; [by eexists|].
  apply IH. destruct Hin as [->|H]; [by rewrite String.eqb_refl in E | exact H].
Qed.

Lemma keys_take_rows f (idxs : list nat) :
  keys (take_rows f idxs) = keys (columns f).
Proof. unfold keys, take_rows. rewrite map_map. reflexivity. Qed.

Lemma nlargest_run st r f (n : nat) c s :
  heap st !! r = Some f -> df_col f c = Some s ->
  exists order,
    nlargest r n c st
    = (Ok (length (heap st)),
       mkState (heap st ++ [mkDF (length order) (take_rows f order)]) (trace st)).
Proof.
  intros Hr Hc. unfold nlargest.
  rewrite (bind_ok _ _ _ _ _ (deref_run _ _ _ Hr)). rewrite Hc.
  eexists. reflexivity.
Qed.

Lemma getitems_present st r f (cs : list string) :
  heap st !! r = Some f -> Forall (fun c => In c (keys (columns f))) cs ->
  exists cols,
    getitems r cs st
    = (Ok (length (heap st)),
       mkState (heap st ++ [mkDF (index f) cols]) (trace st)) /\
    keys cols = cs.
Proof.
  intros Hr Hcs.
  assert (H : exists cols,
            Forall2 (fun c col => col.1 = c /\ df_col f c = Some col.2) cs cols).
  { induction Hcs as [|c cs Hc _ (cols & IH)]; [exists []; constructor|].
    destruct (assoc_of_keys _ _ Hc) as [s Hs].
    exists ((c, s) :: cols). constructor; [by split | exact IH]. }
  destruct H as (cols & Hcols). exists cols.
  split; [by apply getitems_run|].
  clear - Hcols. induction Hcols as [|c [k s] cs cols [Hk _] _ IH]; [reflexivity|].
  unfold keys in *. cbn [map fst] in *. by rewrite Hk, IH.
Qed.

Lemma keys_assoc_set_new {A} k (v : A) (l : list (string * A)) :
  ~ In k (keys l) -> keys (assoc_set k v l) = keys l ++ [k].
Proof.
  induction l as [|[k' v'] l IH]; intros Hk; [reflexivity|].
  cbn [assoc_set]. destruct (String.eqb k k') eqn:E.
  - apply String.eqb_eq in E. subst k'. exfalso. apply Hk. by left.
  - cbn [keys map fst app] in *. f_equal. apply IH. intros H. apply Hk. by right.
Qed.

Lemma keys_scored_frame f density nearest within :
  keys (columns f) = accessibility_columns ->
  keys (columns (scored_frame f density nearest within))
  = accessibility_columns ++ score_columns.
Proof.
  intros Hk. unfold scored_frame, df_set. cbv zeta. cbn [columns].
  set (cg := competition_gap_of f density).
  set (ag := accessibility_gap_of nearest).
  set (v := map viability_of within).
  assert (K1 : keys (assoc_set "competition_gap" cg (columns f))
               = accessibility_columns ++ ["competition_gap"]).
  { rewrite keys_assoc_set_new; rewrite Hk; [reflexivity|].
    cbn; intuition discriminate. }
  assert (K2 : keys (assoc_set "accessibility_gap" ag
                       (assoc_set "competition_gap" cg (columns f)))
               = (accessibility_columns ++ ["competition_gap"])
                 ++ ["accessibility_gap"]).
  { rewrite keys_assoc_set_new; rewrite K1; [reflexivity|].
    cbn; intuition discriminate. }
  assert (K3 : keys (assoc_set "viability" v
                       (assoc_set "accessibility_gap" ag
                          (assoc_set "competition_gap" cg (columns f))))
               = ((accessibility_columns ++ ["competition_gap"])
                  ++ ["accessibility_gap"]) ++ ["viability"]).
  { rewrite keys_assoc_set_new; rewrite K2; [reflexivity|].
    cbn; intuition discriminate. }
  rewrite keys_assoc_set_new; rewrite K3; [reflexivity|].
  cbn; intuition discriminate.
Qed.

Lemma load_data_total os_listdir pd_read_csv city business_type names p st :
  os_listdir "data/raw" = Return names ->
  Exists (fun f => startswith f (city ++ "_" ++ business_type ++ "_")%string = true)
         names ->
  (forall path, pd_read_csv path = Return p) ->
  exists t',
    load_data os_listdir pd_read_csv city business_type st
    = (Ok (length (heap st)), mkState (heap st ++ [p]) t').
Proof.
  intros Hls Hsome Hread. unfold load_data. rewrite Hls.
  rewrite (bind_ok _ _ _ _ _ (eq_refl : lift (Return names) st = (Ok names, st))).
  set (prefix := (city ++ "_" ++ business_type ++ "_")%string) in *.
  assert (Hne : filter (fun f => startswith f prefix) names <> []).
  { apply Exists_exists in Hsome as (n & Hin & Hn).
    assert (Hf : n ∈ filter (fun f => startswith f prefix) names).
    { apply list_elem_of_filter. split; [by rewrite Hn | exact Hin]. }
    intros E. rewrite E in Hf. by apply not_elem_of_nil in Hf. }
  destruct (filter (fun f => startswith f prefix) names) as [|f0 rest];
    [congruence|].
  rewrite (bind_ok _ _ _ _ _ (print_run _ _ _)). rewrite Hread.
  rewrite (bind_ok _ _ _ _ _ (eq_refl : lift (Return p) _ = (Ok p, _))).
  rewrite (bind_ok _ _ _ _ _ (alloc_run _ _)). cbn [heap trace].
  rewrite (bind_ok _ _ _ _ _ (len_run (mkState (heap st ++ [p]) _) _ _
                                      (lookup_snoc _ _))).
  rewrite (bind_ok _ _ _ _ _ (print_run _ _ _)). eexists. reflexivity.
Qed.

Lemma save_analysis_run today st r f city business_type :
  heap st !! r = Some f ->
  save_analysis today r city business_type st
  = (Ok (analysis_file today city business_type),
     mkState (heap st)
             (trace st ++
              [MakeDirs "data/processed";
               ToCsv (analysis_file today city business_type) f;
               Printed ("Analysis saved: "
                        ++ analysis_file today city business_type)%string []])).
Proof.
  intros Hr. unfold save_analysis.
  fold (analysis_file today city business_type).
  unfold os_makedirs, to_csv, print, emit, bind, deref. cbn [heap trace].
  rewrite Hr. unfold ret. cbn [heap trace]. by rewrite <- !app_assoc.
Qed.

(** X25. With a places file that has rows and a grid that is not empty, the
    analysis of a configured city goes through: it returns the scored
    frame, one row per grid cell with the seven accessibility columns and
    the four score columns, and that frame is what it has saved in the
    analysis file, the only file it wrote. *)
Lemma analyze_city_succeeds np_cos geodesic_km os_listdir pd_read_csv today
    dist fuel city business_type (bounds : dict) north south east west c
    (m n : nat) names p pids plats plngs st :
  assoc city CITY_BOUNDS = Some bounds ->
  assoc "north" bounds = Some (Fin north) ->
  assoc "south" bounds = Some (Fin south) ->
  assoc "east" bounds = Some (Fin east) ->
  assoc "west" bounds = Some (Fin west) ->
  np_cos (center_lat north south) = Fin c -> 0 < c ->
  steps south (0.5 / 111) north m ->
  steps west (0.5 / (111 * c)) east n ->
  (m < fuel)%nat -> (n < fuel)%nat -> (0 < m * n)%nat ->
  os_listdir "data/raw" = Return names ->
  Exists (fun f => startswith f (city ++ "_" ++ business_type ++ "_")%string = true)
         names ->
  (forall path, pd_read_csv path = Return p) ->
  frame_ok p -> (0 < index p)%nat ->
  df_col p "place_id" = Some pids ->
  df_col p "lat" = Some plats ->
  df_col p "lng" = Some plngs ->
  (forall a b c d, geodesic_km a b c d = Return (dist a b c d)) ->
  exists results deserts st' scored,
    analyze_city np_cos geodesic_km os_listdir pd_read_csv today
                 fuel city business_type st
    = (Ok (results, deserts), st') /\
    heap st' !! results = Some scored /\
    index scored = (m * n)%nat /\
    keys (columns scored) = accessibility_columns ++ score_columns /\
    In (ToCsv (analysis_file today city business_type) scored) (trace st') /\
    written_files (trace st')
    = written_files (trace st) ++ [analysis_file today city business_type].
Proof.
  intros Hcity Hn Hs He Hw Hc Hcpos Hm Hk Hfm Hfn Hpos Hls Hsome Hread
         Hokp Hpp Hpids Hplats Hplngs Hgeo.
  assert (Hrun : exists results deserts st' scored,
    analyze_city np_cos geodesic_km os_listdir pd_read_csv today
                 fuel city business_type st
    = (Ok (results, deserts), st') /\
    heap st' !! results = Some scored /\
    index scored = (m * n)%nat /\
    keys (columns scored) = accessibility_columns ++ score_columns /\
    In (ToCsv (analysis_file today city business_type) scored) (trace st')).
  { unfold analyze_city.
    rewrite (bind_ok _ _ _ _ _ (print_run _ _ _)). rewrite Hcity.
    (* 1. the places *)
    set (st0 := mkState (heap st) _). set (h := heap st).
    destruct (load_data_total os_listdir pd_read_csv city business_type names p
                st0 Hls Hsome Hread) as (t1 & Hload).
    rewrite (bind_ok _ _ _ _ _ Hload). cbn [heap st0]. fold h.
    (* 2. the grid *)
    set (cells := grid_rows m n (0.5 / 111) (0.5 / (111 * c)) west south 0).
    set (G := frame_of_records cells).
    rewrite (bind_ok _ _ _ _ _
               (create_analysis_grid_cells np_cos bounds north south east west
                  0.5 c m n fuel (mkState (h ++ [p]) t1)
                  Hn Hs He Hw ltac:(lra) Hc Hcpos Hm Hk Hfm Hfn)).
    fold cells. fold G. cbn [heap trace].
    rewrite <- app_assoc. cbn [app]. rewrite length_app. cbn [length].
    assert (Lcells : length cells = (m * n)%nat) by apply length_grid_rows.
    assert (Hne : cells <> []).
    { intros E. rewrite E in Lcells. simpl in Lcells. lia. }
    assert (HokG : frame_ok G) by apply frame_of_records_ok.
    assert (HGcol : forall k, In k grid_columns ->
               df_col G k = Some (map (fun d => default NaN (assoc k d)) cells)).
    { intros k Hin. apply (frame_of_records_col grid_columns);
        [apply grid_columns_NoDup | exact Hne | apply grid_rows_keys | exact Hin]. }
    assert (HGid : df_col G "cell_id" = Some (map of_nat (seq 0 (index G)))).
    { rewrite HGcol by (by left). f_equal. unfold cells.
      rewrite grid_rows_ids. cbn [index G frame_of_records]. by rewrite Lcells. }
    pose proof (HGcol "center_lat" ltac:(cbn; auto 10)) as HGlat.
    pose proof (HGcol "center_lng" ltac:(cbn; auto 10)) as HGlng.
    set (lats := map (fun d => default NaN (assoc "center_lat" d)) cells) in *.
    set (lngs := map (fun d => default NaN (assoc "center_lng" d)) cells) in *.
    (* 3. the distances *)
    set (st2 := mkState (h ++ [p; G]) _).
    assert (Hp2 : heap st2 !! length h = Some p).
    { cbn [heap st2]. replace (length h) with (length h + 0)%nat by lia.
      by apply lookup_app_nth. }
    assert (HG2 : heap st2 !! (length h + 1)%nat = Some G).
    { cbn [heap st2]. by apply lookup_app_nth. }
    rewrite (bind_ok _ _ _ _ _
               (calculate_distance_matrix_run geodesic_km dist st2 _ _ G p
                  _ lats lngs pids plats plngs Hgeo HG2 Hp2
                  HGid HGlat HGlng Hpids Hplats Hplngs)).
    set (records := distance_records dist (index G) (index p)
                      (map of_nat (seq 0 (index G))) lats lngs pids plats plngs).
    set (T := frame_of_records records).
    cbn [heap trace st2]. rewrite <- app_assoc. cbn [app].
    rewrite length_app. cbn [length].
    assert (HneT : records <> []).
    { intros E. apply (f_equal (@length _)) in E. unfold records in E.
      unfold distance_records in E. rewrite length_flat_map_seq in E.
      cbn [index G frame_of_records length] in E. rewrite Lcells in E. nia. }
    assert (HTcol : forall k, In k distance_columns ->
               df_col T k = Some (map (fun d => default NaN (assoc k d)) records)).
    { intros k Hin. apply (frame_of_records_col distance_columns);
        [apply distance_columns_NoDup | exact HneT
         | apply distance_records_keys | exact Hin]. }
    (* 4. the accessibility frame *)
    set (st3 := mkState (h ++ [p; G; T]) _).
    assert (HG3 : heap st3 !! (length h + 1)%nat = Some G).
    { cbn [heap st3]. by apply lookup_app_nth. }
    assert (HT3 : heap st3 !! (length h + 2)%nat = Some T).
    { cbn [heap st3]. by apply lookup_app_nth. }
    destruct (analyze_accessibility_table st3 (length h + 1)%nat (length h)
                (length h + 2)%nat G T lats lngs _ _ (Fin 1.0) HG3 HT3 HokG
                (frame_of_records_ok _)
                ltac:(cbn [index G frame_of_records]; lia) HGid HGlat HGlng
                (HTcol "cell_id" ltac:(cbn; auto 10))
                (HTcol "distance_km" ltac:(cbn; auto 10)))
      as (new & t3 & A & Hacc & HAidx & HokA & HAkeys & _).
    rewrite (bind_ok _ _ _ _ _ Hacc). cbn [heap st3].
    set (h4 := (h ++ [p; G; T]) ++ new).
    replace ((h ++ [p; G; T]) ++ new ++ [A]) with (h4 ++ [A])
      by (unfold h4; by rewrite <- !app_assoc).
    assert (HA : forall k, In k accessibility_columns ->
               exists s, df_col A k = Some s /\ length s = index A).
    { intros k Hin. rewrite <- HAkeys in Hin.
      destruct (assoc_of_keys _ _ Hin) as [s Hcol]. exists s.
      split; [exact Hcol|]. eapply frame_ok_col; eauto. }
    destruct (HA "nearest_distance_km" ltac:(cbn; auto 10)) as (nearest & Hnear & Lnear).
    destruct (HA "services_within_walking" ltac:(cbn; auto 10)) as (within & Hwith & Lwith).
    destruct (HA "density_per_km2" ltac:(cbn; auto 10)) as (density & Hdens & Ldens).
    (* 5. the deserts *)
    set (st4 := mkState (h4 ++ [A]) t3).
    assert (HA4 : heap st4 !! length h4 = Some A) by apply lookup_snoc.
    destruct (identify_service_deserts_run st4 _ A (Fin 1.5) nearest within
                HA4 Hnear Hwith Lnear Lwith) as (t4 & Hdes).
    assert (HAS : exists k, index A = S k).
    { destruct (index A) as [|k] eqn:E; [|by eexists].
      cbn [index G frame_of_records] in HAidx. lia. }
    destruct HAS as (k & HAS). rewrite HAS in Hdes.
    rewrite (bind_ok _ _ _ _ _ Hdes). cbn [heap st4].
    set (D := df_mask A (desert_mask (Fin 1.5) nearest within)).
    rewrite <- app_assoc. cbn [app].
    (* 6. the scores *)
    set (st5 := mkState (h4 ++ [A; D; D]) t4).
    assert (HA5 : heap st5 !! length h4 = Some A).
    { cbn [heap st5]. replace (length h4) with (length h4 + 0)%nat by lia.
      by apply lookup_app_nth. }
    destruct (calculate_opportunity_scores_run st5 _ A density nearest within
                HA5 Hdens Hnear Hwith Ldens Lnear Lwith) as (t5 & Hsc).
    rewrite (bind_ok _ _ _ _ _ Hsc). cbn [heap st5].
    set (scored := scored_frame A density nearest within).
    rewrite <- app_assoc. cbn [app]. rewrite length_app. cbn [length].
    (* 7. saving and the report *)
    set (st6 := mkState (h4 ++ [A; D; D; scored]) t5).
    assert (Hs6 : forall rest t0,
               heap (mkState (h4 ++ [A; D; D; scored] ++ rest) t0)
               !! (length h4 + 3)%nat = Some scored).
    { intros rest t0. cbn [heap]. by apply lookup_app_nth. }
    pose proof (Hs6 [] t5) as Hs60. rewrite app_nil_r in Hs60.
    rewrite (bind_ok _ _ _ _ _
               (save_analysis_run today st6 _ scored city business_type Hs60)).
    rewrite (bind_ok _ _ _ _ _ (print_run _ _ _)).
    rewrite (bind_ok _ _ _ _ _ (print_run _ _ _)).
    cbn [heap trace st6].
    assert (Hkeys : keys (columns scored)
                    = accessibility_columns ++ score_columns)
      by (by apply keys_scored_frame).
    assert (Hscore : exists s, df_col scored "opportunity_score" = Some s).
    { apply assoc_of_keys. rewrite Hkeys. cbn. auto 20. }
    destruct Hscore as (score & Hscore).
    set (t7 := (_ ++ [Printed "Top 5 opportunity areas:" []])).
    pose proof (Hs6 [] t7) as Hs7. rewrite app_nil_r in Hs7.
    destruct (nlargest_run _ _ _ 5 _ _ Hs7 Hscore) as (order & Hlarge).
    rewrite (bind_ok _ _ _ _ _ Hlarge). cbn [heap trace].
    set (L := mkDF (length order) (take_rows scored order)).
    rewrite <- app_assoc. cbn [app].
    assert (HL : heap (mkState (h4 ++ [A; D; D; scored; L]) t7)
                 !! length (h4 ++ [A; D; D; scored]) = Some L).
    { rewrite length_app. by apply lookup_app_nth. }
    assert (Hfive : Forall (fun c => In c (keys (columns L)))
                      [ "center_lat"; "center_lng"; "opportunity_score";
                        "services_within_walking"; "nearest_distance_km" ]).
    { cbn [columns L]. rewrite keys_take_rows, Hkeys.
      repeat (apply Forall_cons_2; [cbn; auto 20|]). apply Forall_nil_2. }
    destruct (getitems_present _ _ L _ HL Hfive) as (cols & Htop & Hcols).
    rewrite (bind_ok _ _ _ _ _ Htop). cbn [heap trace].
    rewrite <- app_assoc. cbn [app].
    set (top5 := mkDF (index L) cols).
    assert (Htop5 : heap (mkState (h4 ++ [A; D; D; scored; L; top5]) t7)
                    !! length (h4 ++ [A; D; D; scored; L]) = Some top5).
    { rewrite length_app. by apply lookup_app_nth. }
    assert (Hshown : exists s, df_col top5 "opportunity_score" = Some s).
    { apply assoc_of_keys. cbn [columns top5]. rewrite Hcols. cbn. auto. }
    destruct Hshown as (shown & Hshown).
    rewrite (bind_ok _ _ _ _ _ (getitem_run _ _ _ _ _ Htop5 Hshown)).
    rewrite (bind_ok _ _ _ _ _ (print_run _ _ _)).
    eexists _, _, _, scored. split; [reflexivity|]. cbn [heap trace].
    split; [apply (Hs6 [L; top5] t7)|].
    split; [cbn [index scored scored_frame df_set]; rewrite HAidx;
            cbn [index G frame_of_records]; exact Lcells|].
    split; [exact Hkeys|].
    unfold t7. rewrite !in_app_iff. left. left. left. right.
    cbn. auto. }
  destruct Hrun as (results & deserts & st' & scored & Hrun & Hres & Hidx
                    & Hkeys & Hin).
  exists results, deserts, st', scored. split; [exact Hrun|].
  split; [exact Hres|]. split; [exact Hidx|]. split; [exact Hkeys|].
  split; [exact Hin|].
  destruct (analyze_city_writes np_cos geodesic_km os_listdir pd_read_csv today
              fuel city business_type st) as (new & Hnew & _ & Hok).
  rewrite Hrun in Hnew, Hok. cbn [fst snd] in *.
  by rewrite Hnew, (Hok _ eq_refl).
Qed.

(** * The enrichment of one analysis file *)

Lemma get_population_run raster_read rasterio_installed lat lng path st :
  exists t',
    get_population_for_point raster_read rasterio_installed lat lng path st
    = (Ok (point_population raster_read rasterio_installed path lat lng),
       mkState (heap st) (trace st ++ t')).
Proof.
  unfold get_population_for_point, point_population.
  destruct rasterio_installed; cbn [negb].
  - destruct (raster_read path lat lng) as [[value|]|e].
    + exists []. rewrite app_nil_r. destruct (num_ltb value (Fin 0)); by destruct st.
    + exists []. rewrite app_nil_r. by destruct st.
    + eexists. reflexivity.
  - eexists. unfold bind, print, emit, ret. cbn [heap trace].
    by rewrite <- app_assoc.
Qed.

(** A loop whose turns only print. *)
Lemma mapM_prints {A B C} (f : A -> M B) (r : C -> A) (g : C -> B)
    (l : list C) :
  (forall i st, exists t', f (r i) st = (Ok (g i), mkState (heap st) (trace st ++ t'))) ->
  forall st, exists t',
    mapM f (map r l) st = (Ok (map g l), mkState (heap st) (trace st ++ t')).
Proof.
  intros H. induction l as [|x l IH]; intros st; cbn [mapM map].
  - exists []. rewrite app_nil_r. by destruct st.
  - destruct (H x st) as (t1 & H1). rewrite (bind_ok _ _ _ _ _ H1).
    destruct (IH (mkState (heap st) (trace st ++ t1))) as (t2 & H2).
    rewrite (bind_ok _ _ _ _ _ H2). cbn [heap trace].
    exists (t1 ++ t2). by rewrite app_assoc.
Qed.

Lemma fold_left_rows_run {A B C} (G : M B -> A -> M B) (r : C -> A)
    (G' : B -> C -> B) st :
  (forall acc a i, acc st = (Ok a, st) -> G acc (r i) st = (Ok (G' a i), st)) ->
  forall (l : list C) acc a,
    acc st = (Ok a, st) ->
    fold_left G (map r l) acc st = (Ok (fold_left G' l a), st).
Proof.
  intros H. induction l as [|x l IH]; intros acc a Hacc; cbn [fold_left map];
    [exact Hacc|]. apply IH. by apply H.
Qed.

Lemma map_zip_nth {A} (g : num -> num -> A) (lats lngs : Series) :
  length lats = length lngs ->
  map (fun i => g (nth i lats NaN) (nth i lngs NaN)) (seq 0 (length lats))
  = zip_with g lats lngs.
Proof.
  revert lngs. induction lats as [|x lats IH]; intros [|y lngs] H;
    try discriminate; [reflexivity|].
  cbn [length seq map zip_with nth]. f_equal.
  rewrite <- seq_shift, map_map. apply IH. by injection H.
Qed.

(** The enrichment of one file run to its end. *)
Lemma enrich_file_run geodesic_km pd_read_csv raster_read rasterio_installed
    dist pop_raster filepath f lats lngs original st :
  contains "_enriched" filepath = false ->
  pd_read_csv filepath = Return f ->
  frame_ok f ->
  df_col f "center_lat" = Some lats ->
  df_col f "center_lng" = Some lngs ->
  df_col f "opportunity_score" = Some original ->
  (forall a b c d, geodesic_km a b c d = Return (dist a b c d)) ->
  exists extra t1 stats,
    enrich_file geodesic_km pd_read_csv raster_read rasterio_installed
                pop_raster filepath st
    = (Ok tt,
       mkState (heap st ++
                [enriched_frame raster_read rasterio_installed dist pop_raster
                                f lats lngs original] ++ extra)
               (t1 ++
                [ToCsv (enriched_file filepath)
                       (enriched_frame raster_read rasterio_installed dist
                                       pop_raster f lats lngs original);
                 Printed ("Saved: " ++ enriched_file filepath)%string stats])).
Proof.
  intros Hname Hread Hok Hlats Hlngs Horig Hgeo.
  pose proof (frame_ok_col _ _ _ Hok Hlats) as Llats.
  pose proof (frame_ok_col _ _ _ Hok Hlngs) as Llngs.
  pose proof (frame_ok_col _ _ _ Hok Horig) as Lorig.
  set (pops := zip_with (point_population raster_read rasterio_installed pop_raster)
                        lats lngs).
  set (pop1 := zip_with (nearby_population dist lats lngs pops) lats lngs).
  assert (Lpops : length pops = index f)
    by (unfold pops; rewrite length_zip_with; lia).
  assert (Lpop1 : length pop1 = index f)
    by (unfold pop1; rewrite length_zip_with; lia).
  set (f1 := df_set f "population" pops).
  set (f2 := df_set f1 "population_1km" pop1).
  set (F := enriched_frame raster_read rasterio_installed dist pop_raster
                           f lats lngs original).
  destruct st as [h t].
  unfold enrich_file. rewrite Hname.
  rewrite (bind_ok _ _ _ _ _ (print_run _ _ _)). rewrite Hread.
  rewrite (bind_ok _ _ _ _ _ (eq_refl : lift (Return f) _ = (Ok f, _))).
  rewrite (bind_ok _ _ _ _ _ (alloc_run _ _)). cbn [heap trace].
  set (t0 := t ++ [Printed ("Processing: " ++ filepath)%string []]).
  assert (H0 : forall tr, heap (mkState (h ++ [f]) tr) !! length h = Some f)
    by (intros; apply lookup_snoc).
  rewrite (bind_ok _ _ _ _ _ (iterrows_run _ _ _ (H0 t0))).
  (* the population of every cell *)
  match goal with
  | |- context [mapM ?body (map (row_at f) ?l)] =>
      destruct (mapM_prints body (row_at f)
                  (fun i => point_population raster_read rasterio_installed
                              pop_raster (nth i lats NaN) (nth i lngs NaN))
                  l) with (st := mkState (h ++ [f]) t0) as (tp & Hpops)
  end.
  { intros i s.
    rewrite (bind_ok _ _ _ _ _
               (dict_get_run _ _ _ s (assoc_row_at f _ _ i Hlats))).
    rewrite (bind_ok _ _ _ _ _
               (dict_get_run _ _ _ s (assoc_row_at f _ _ i Hlngs))).
    apply get_population_run. }
  rewrite (bind_ok _ _ _ _ _ Hpops). clear Hpops. cbn [heap trace].
  rewrite <- Llats, (map_zip_nth _ lats lngs) by lia. fold pops.
  rewrite (bind_ok _ _ _ _ _ (setitem_run _ _ _ _ _ (H0 (t0 ++ tp)) Lpops)).
  cbn [heap trace]. rewrite insert_snoc. fold f1.
  assert (H1 : forall tr, heap (mkState (h ++ [f1]) tr) !! length h = Some f1)
    by (intros; apply lookup_snoc).
  rewrite (bind_ok _ _ _ _ _ (iterrows_run _ _ _ (H1 (t0 ++ tp)))).
  (* the population within 1 km *)
  assert (Hlats1 : df_col f1 "center_lat" = Some lats)
    by (unfold f1; rewrite df_col_set_ne by done; exact Hlats).
  assert (Hlngs1 : df_col f1 "center_lng" = Some lngs)
    by (unfold f1; rewrite df_col_set_ne by done; exact Hlngs).
  assert (Hpops1 : df_col f1 "population" = Some pops)
    by (unfold f1; apply df_col_set_eq).
  set (st1 := mkState (h ++ [f1]) (t0 ++ tp)).
  match goal with
  | |- context [mapM ?body (map (row_at f1) ?l)] =>
      assert (Hloop : mapM body (map (row_at f1) l) st1
                = (Ok (map (fun i => nearby_population dist lats lngs pops
                                       (nth i lats NaN) (nth i lngs NaN)) l),
                   st1))
  end.
  { apply mapM_map_run. intros i _.
    rewrite (bind_ok _ _ _ _ _
               (dict_get_run _ _ _ st1 (assoc_row_at f1 _ _ i Hlats1))).
    rewrite (bind_ok _ _ _ _ _
               (dict_get_run _ _ _ st1 (assoc_row_at f1 _ _ i Hlngs1))).
    rewrite (bind_ok _ _ _ _ _ (iterrows_run _ _ _ (H1 (t0 ++ tp)))).
    unfold nearby_population. rewrite Llats. change (index f1) with (index f).
    apply fold_left_rows_run; [|reflexivity].
    intros acc a j Hacc.
    rewrite (bind_ok _ _ _ _ _ Hacc).
    rewrite (bind_ok _ _ _ _ _
               (dict_get_run _ _ _ st1 (assoc_row_at f1 _ _ j Hlats1))).
    rewrite (bind_ok _ _ _ _ _
               (dict_get_run _ _ _ st1 (assoc_row_at f1 _ _ j Hlngs1))).
    rewrite Hgeo.
    rewrite (bind_ok _ _ _ _ _ (eq_refl : lift (Return _) st1 = (Ok _, st1))).
    destruct (num_leb _ (Fin 1.0)); [|reflexivity].
    by rewrite (bind_ok _ _ _ _ _
                  (dict_get_run _ _ _ st1 (assoc_row_at f1 _ _ j Hpops1))). }
  rewrite (bind_ok _ _ _ _ _ Hloop). clear Hloop.
  change (index f1) with (index f).
  rewrite <- Llats, (map_zip_nth _ lats lngs) by lia. fold pop1.
  unfold st1.
  rewrite (bind_ok _ _ _ _ _ (setitem_run _ _ _ _ _ (H1 (t0 ++ tp)) Lpop1)).
  cbn [heap trace]. rewrite insert_snoc. fold f2.
  (* the new scores *)
  set (st2 := mkState (h ++ [f2]) (t0 ++ tp)).
  assert (H2 : heap st2 !! length h = Some f2) by apply lookup_snoc.
  assert (Hok2 : frame_ok f2)
    by (unfold f2, f1; repeat apply frame_ok_set; auto).
  assert (Hp2 : df_col f2 "population_1km" = Some pop1)
    by (unfold f2; apply df_col_set_eq).
  assert (Ho2 : df_col f2 "opportunity_score" = Some original)
    by (unfold f2, f1; rewrite !df_col_set_ne by done; exact Horig).
  destruct (recalculate_run st2 _ f2 pop1 original H2 Hok2 Hp2 Ho2)
    as (zeroed & t3 & Hrecalc).
  rewrite (bind_ok _ _ _ _ _ Hrecalc). clear Hrecalc.
  cbn [heap st2]. rewrite insert_snoc.
  change (rescored_frame f2 pop1 original) with F.
  rewrite <- app_assoc. cbn [app].
  assert (H3 : forall rest tr, heap (mkState (h ++ [F; zeroed] ++ rest) tr)
                               !! length h = Some F).
  { intros rest tr. cbn [heap].
    replace (length h) with (length h + 0)%nat by lia. by apply lookup_app_nth. }
  pose proof (H3 [] t3) as H30. rewrite app_nil_r in H30.
  rewrite (bind_ok _ _ _ _ _ (deref_run _ _ _ H30)).
  unfold to_csv at 1. unfold bind at 1. cbn [emit heap trace].
  fold (enriched_file filepath).
  set (t4 := t3 ++ [ToCsv (enriched_file filepath) F]).
  pose proof (H3 [] t4) as H31. rewrite app_nil_r in H31.
  assert (Hp3 : df_col F "population_1km" = Some pop1).
  { unfold F, enriched_frame. cbv zeta. fold pops. fold pop1. fold f1. fold f2.
    rewrite rescored_frame_other by done. exact Hp2. }
  rewrite (bind_ok _ _ _ _ _ (getitem_run _ _ _ _ _ H31 Hp3)).
  rewrite (bind_ok _ _ _ _ _ (getitem_run _ _ _ _ _ H31 Hp3)).
  rewrite (bind_ok _ _ _ _ _ (getitem_run _ _ _ _ _ H31 Hp3)).
  assert (LF : index F = index f) by reflexivity.
  rewrite (bind_ok _ _ _ _ _
             (select_run _ _ _ (map (fun x => num_gtb x (Fin 0)) pop1) H31
                         ltac:(rewrite length_map, LF; exact Lpop1))).
  cbn [heap trace]. rewrite <- app_assoc. cbn [app].
  set (populated := df_mask F _).
  assert (H4 : heap (mkState (h ++ [F; zeroed; populated]) t4)
                 !! length (h ++ [F; zeroed]) = Some populated).
  { rewrite length_app. by apply lookup_app_nth. }
  rewrite (bind_ok _ _ _ _ _ (len_run _ _ _ H4)).
  pose proof (H3 [populated] t4) as H32.
  rewrite (bind_ok _ _ _ _ _ (getitem_run _ _ _ _ _ H32 Hp3)).
  rewrite (bind_ok _ _ _ _ _
             (select_run _ _ _ (map (fun x => num_eqb x (Fin 0)) pop1) H32
                         ltac:(rewrite length_map, LF; exact Lpop1))).
  cbn [heap trace]. rewrite <- !app_assoc. cbn [app].
  set (empty := df_mask F _).
  assert (H5 : heap (mkState (h ++ [F; zeroed; populated; empty]) t4)
                 !! length (h ++ [F; zeroed; populated]) = Some empty).
  { rewrite length_app. by apply lookup_app_nth. }
  rewrite (bind_ok _ _ _ _ _ (len_run _ _ _ H5)).
  rewrite print_run. cbn [heap trace].
  exists [zeroed; populated; empty], t3. eexists.
  unfold t4. rewrite <- app_assoc. reflexivity.
Qed.

Lemma lookup_zip_with_nth {A} (g : num -> num -> A) (lats lngs : Series)
    (i : nat) lat lng :
  lats !! i = Some lat -> lngs !! i = Some lng ->
  zip_with g lats lngs !! i = Some (g lat lng).
Proof. intros H1 H2. by apply lookup_zip_with. Qed.

(** X26. The enrichment of an analysis file saves, under the enriched name, the
    frame read from the file with three things added: the population of
    every cell as read from the raster, the population within 1 km of it,
    which is the sum over the cells whose centres lie within 1.0 km, and
    the demand-weighted re-scoring of the frame on that sum; the score
    found in the file is kept as [opportunity_score_original]. *)
Lemma enrichment_saves_rescored_frame geodesic_km pd_read_csv raster_read
    rasterio_installed dist pop_raster filepath f lats lngs original st :
  contains "_enriched" filepath = false ->
  pd_read_csv filepath = Return f ->
  frame_ok f ->
  df_col f "center_lat" = Some lats ->
  df_col f "center_lng" = Some lngs ->
  df_col f "opportunity_score" = Some original ->
  (forall a b c d, geodesic_km a b c d = Return (dist a b c d)) ->
  exists st' saved populations,
    enrich_file geodesic_km pd_read_csv raster_read rasterio_installed
                pop_raster filepath st = (Ok tt, st') /\
    In (ToCsv (enriched_file filepath) saved) (trace st') /\
    index saved = index f /\
    df_col saved "population" = Some populations /\
    df_col saved "opportunity_score_original" = Some original /\
    (exists population_1km,
        df_col saved "population_1km" = Some population_1km /\
        saved = rescored_frame
                  (df_set (df_set f "population" populations)
                          "population_1km" population_1km)
                  population_1km original) /\
    forall (i : nat) lat lng,
      lats !! i = Some lat -> lngs !! i = Some lng ->
      populations !! i
      = Some (point_population raster_read rasterio_installed pop_raster lat lng) /\
      cell saved "population_1km" i
      = Some (nearby_population dist lats lngs populations lat lng).
Proof.
  intros Hname Hread Hok Hlats Hlngs Horig Hgeo.
  destruct (enrich_file_run geodesic_km pd_read_csv raster_read
              rasterio_installed dist pop_raster filepath f lats lngs original
              st Hname Hread Hok Hlats Hlngs Horig Hgeo)
    as (extra & t1 & stats & Hrun).
  eexists _, _, _. split; [exact Hrun|]. cbn [trace].
  split; [apply in_app_iff; right; by left|]. split; [reflexivity|].
  unfold enriched_frame. cbv zeta.
  split; [|split; [|split]].
  - rewrite rescored_frame_other by done. rewrite df_col_set_ne by done.
    apply df_col_set_eq.
  - unfold rescored_frame. cbv zeta. rewrite df_col_set_ne by done.
    apply df_col_set_eq.
  - eexists. split; [|reflexivity].
    rewrite rescored_frame_other by done. apply df_col_set_eq.
  - intros i lat lng Hlat Hlng. split; [by apply lookup_zip_with_nth|].
    unfold cell. rewrite rescored_frame_other by done. rewrite df_col_set_eq.
    by apply lookup_zip_with_nth.
Qed.

Lemma nearby_population_zero dist (lats lngs populations : Series) lat lng :
  (forall j : nat, (j < length lats)%nat -> nth j populations NaN = Fin 0) ->
  exists q, nearby_population dist lats lngs populations lat lng = Fin q /\ q == 0.
Proof.
  intros Hzero. unfold nearby_population.
  assert (H : forall (l : list nat) q0,
             Forall (fun j => (j < length lats)%nat) l -> q0 == 0 ->
             exists q,
               fold_left (fun acc j =>
                            if num_leb (dist lat lng (nth j lats NaN)
                                             (nth j lngs NaN)) (Fin 1.0)
                            then num_add acc (nth j populations NaN) else acc)
                         l (Fin q0) = Fin q /\ q == 0).
  { induction l as [|j l IH]; intros q0 Hall Hq0; cbn [fold_left].
    - by exists q0.
    - apply Forall_cons_1 in Hall as [Hj Hall].
      destruct (num_leb _ (Fin 1.0)); [|by apply IH].
      rewrite (Hzero j Hj). cbn [num_add]. apply IH; [exact Hall | lra]. }
  apply H; [|reflexivity].
  apply List.Forall_forall. intros j Hj. apply in_seq in Hj. lia.
Qed.

(** X27. When the raster cannot be read at all, because the raster library is
    not installed or because every read fails, the enrichment still saves
    an enriched file, and in it every cell has the demand score 0 and the
    opportunity score 0. *)
Lemma enrichment_without_population geodesic_km pd_read_csv raster_read
    rasterio_installed dist pop_raster filepath f lats lngs original st :
  (rasterio_installed = false \/
   forall lat lng, exists e, raster_read pop_raster lat lng = Throws e) ->
  contains "_enriched" filepath = false ->
  pd_read_csv filepath = Return f ->
  frame_ok f ->
  df_col f "center_lat" = Some lats ->
  df_col f "center_lng" = Some lngs ->
  df_col f "opportunity_score" = Some original ->
  (forall a b c d, geodesic_km a b c d = Return (dist a b c d)) ->
  exists st' saved,
    enrich_file geodesic_km pd_read_csv raster_read rasterio_installed
                pop_raster filepath st = (Ok tt, st') /\
    In (ToCsv (enriched_file filepath) saved) (trace st') /\
    index saved = index f /\
    forall i : nat, (i < index f)%nat ->
      cell saved "demand_score" i = Some (Fin 0) /\
      cell saved "opportunity_score" i = Some (Fin 0).
Proof.
  intros Hnone Hname Hread Hok Hlats Hlngs Horig Hgeo.
  destruct (enrich_file_run geodesic_km pd_read_csv raster_read
              rasterio_installed dist pop_raster filepath f lats lngs original
              st Hname Hread Hok Hlats Hlngs Horig Hgeo)
    as (extra & t1 & stats & Hrun).
  pose proof (frame_ok_col _ _ _ Hok Hlats) as Llats.
  pose proof (frame_ok_col _ _ _ Hok Hlngs) as Llngs.
  pose proof (frame_ok_col _ _ _ Hok Horig) as Lorig.
  eexists _, _. split; [exact Hrun|]. cbn [trace].
  split; [apply in_app_iff; right; by left|]. split; [reflexivity|].
  intros i Hi.
  assert (Hpoint : forall lat lng,
             point_population raster_read rasterio_installed pop_raster lat lng
             = Fin 0).
  { intros lat lng. unfold point_population.
    destruct Hnone as [->|Hfail]; [reflexivity|].
    destruct rasterio_installed; [|reflexivity]. cbn [negb].
    by destruct (Hfail lat lng) as [e ->]. }
  unfold enriched_frame. cbv zeta.
  set (pops := zip_with (point_population raster_read rasterio_installed pop_raster)
                        lats lngs).
  set (pop1 := zip_with (nearby_population dist lats lngs pops) lats lngs).
  set (f2 := df_set (df_set f "population" pops) "population_1km" pop1).
  assert (Lpops : length pops = index f)
    by (unfold pops; rewrite length_zip_with; lia).
  assert (Lpop1 : length pop1 = index f)
    by (unfold pop1; rewrite length_zip_with; lia).
  assert (Hok2 : frame_ok f2)
    by (unfold f2; repeat apply frame_ok_set; auto).
  assert (Hzero : forall j : nat, (j < length lats)%nat -> nth j pops NaN = Fin 0).
  { intros j Hj.
    destruct (lookup_lt_is_Some_2 lats j Hj) as [lat Hlat].
    destruct (lookup_lt_is_Some_2 lngs j ltac:(lia)) as [lng Hlng].
    apply nth_lookup_Some with (d := NaN).
    unfold pops. rewrite (lookup_zip_with_nth _ _ _ _ _ _ Hlat Hlng).
    by rewrite Hpoint. }
  destruct (lookup_lt_is_Some_2 lats i ltac:(lia)) as [lat Hlat].
  destruct (lookup_lt_is_Some_2 lngs i ltac:(lia)) as [lng Hlng].
  destruct (nearby_population_zero dist lats lngs pops lat lng Hzero)
    as (q & Hq & Hq0).
  assert (Hpi : pop1 !! i = Some (Fin q)).
  { unfold pop1. rewrite (lookup_zip_with_nth _ _ _ _ _ _ Hlat Hlng).
    by rewrite Hq. }
  assert (E : num_ltb (Fin q) (Fin 100) = true) by (apply Qltb_lt; lra).
  split.
  - destruct (rescored_demand f2 pop1 original i _ Lpop1 Hpi) as (d0 & _ & H).
    by rewrite H, E.
  - destruct (rescored_score f2 pop1 original i _ Hok2 Lpop1 Hpi)
      as (cg & ag & dem & v & _ & _ & _ & _ & H).
    by rewrite H, E.
Qed.

(** * Nothing to work on *)

(** X28. Without the directory [data/raw], or without a file of the city in
    it, the batch run analyses nothing and raises nothing: it prints two
    lines and returns an empty summary. *)
Lemma batch_without_data np_cos geodesic_km os_listdir path_exists pd_read_csv
    today fuel city names st :
  (path_exists "data/raw" = false \/
   os_listdir "data/raw" = Return names /\
   Forall (fun file => startswith file (city ++ "_")%string = false) names) ->
  analyze_all_business_types np_cos geodesic_km os_listdir path_exists
                             pd_read_csv today fuel city st
  = (Ok [],
     mkState (heap st)
             (trace st ++
              [Printed ("No data found for " ++ city)%string [];
               Printed "Run data collection first: python src/collect_data.py"
                       []])).
Proof.
  intros Hnone.
  assert (Htypes : get_available_business_types os_listdir path_exists city st
                   = (Ok [], st)).
  { unfold get_available_business_types.
    destruct (path_exists "data/raw") eqn:Hdir; cbn [negb]; [|reflexivity].
    destruct Hnone as [|[Hls Hall]]; [discriminate|]. rewrite Hls.
    unfold lift, bind, ret. f_equal. f_equal.
    replace (flat_map _ names) with (@nil string); [reflexivity|].
    symmetry. clear Hls. induction Hall as [|file names Hfile _ IH]; [reflexivity|].
    cbn [flat_map]. rewrite Hfile, IH. reflexivity. }
  unfold analyze_all_business_types. rewrite (bind_ok _ _ _ _ _ Htypes).
  unfold bind, print, emit, ret. cbn [heap trace]. by rewrite <- app_assoc.
Qed.

(** X29. With a population raster on disk but no analysis file of the city,
    the enrichment says so and returns: nothing is read, nothing is
    written, nothing is raised. *)
Lemma enrichment_without_analysis_files geodesic_km path_exists glob
    pd_read_csv raster_read rasterio_installed city country st :
  Exists (fun path => path_exists path = true) possible_files ->
  glob ("data/processed/" ++ city ++ "_*_analysis_filtered_*.csv")%string = [] ->
  glob ("data/processed/" ++ city ++ "_*_analysis_*.csv")%string = [] ->
  exists report,
    add_population_to_analysis geodesic_km path_exists glob pd_read_csv
                               raster_read rasterio_installed city country st
    = (Ok tt, mkState (heap st) (trace st ++ report)) /\
    Forall writes_no_file report /\
    List.last report (Printed "" [])
    = Printed ("Run analysis first: python src/analyze.py " ++ city)%string [].
Proof.
  intros Hraster Hfiltered Hplain. unfold add_population_to_analysis.
  rewrite Hfiltered, Hplain.
  unfold check_for_existing_population_data.
  destruct (find path_exists possible_files) as [raster|] eqn:Hfind.
  - eexists. cbv zeta. rewrite filter_nil.
    unfold bind, print, emit, ret. cbn [heap trace].
    rewrite <- !app_assoc. cbn [app]. split; [reflexivity|].
    split; [repeat constructor | reflexivity].
  - exfalso. apply Exists_exists in Hraster as (path & Hin & Hpath).
    apply list_elem_of_In in Hin.
    by rewrite (find_none _ _ Hfind path Hin) in Hpath.
Qed.

(** * Worked inputs for the further properties *)

Lemma load_data_without_file_witness :
  listing "data/raw" = Return ["milan_pharmacy_20240101.csv"] /\
  Forall (fun f => startswith f ("milan" ++ "_" ++ "cafe" ++ "_")%string = false)
         ["milan_pharmacy_20240101.csv"] /\
  load_data listing read_places "milan" "cafe" (mkState [] [])
  = (Raise (FileNotFoundError ("No data found for " ++ "milan" ++ " " ++ "cafe")%string),
     mkState [] []).
Proof.
  split; [reflexivity|]. split; [repeat constructor|].
  apply (load_data_without_file listing read_places "milan" "cafe"
           ["milan_pharmacy_20240101.csv"] (mkState [] []));
    [reflexivity | repeat constructor].
Defined.

Lemma load_data_reads_latest_witness :
  two_listings "data/raw"
  = Return ["milan_pharmacy_20240101.csv"; "milan_cafe_20240101.csv"] /\
  Exists (fun f => startswith f ("milan" ++ "_" ++ "cafe" ++ "_")%string = true)
         ["milan_pharmacy_20240101.csv"; "milan_cafe_20240101.csv"] /\
  exists latest,
    In latest ["milan_pharmacy_20240101.csv"; "milan_cafe_20240101.csv"] /\
    startswith latest ("milan" ++ "_" ++ "cafe" ++ "_")%string = true /\
    (forall f, In f ["milan_pharmacy_20240101.csv"; "milan_cafe_20240101.csv"] ->
               startswith f ("milan" ++ "_" ++ "cafe" ++ "_")%string = true ->
               String.leb f latest = true) /\
    forall g, read_places ("data/raw/" ++ latest)%string = Return g ->
      load_data two_listings read_places "milan" "cafe" (mkState [] [])
      = (Ok (length (heap (mkState [] []))),
         mkState (heap (mkState [] []) ++ [g])
                 (trace (mkState [] []) ++
                  [Printed ("Loading: data/raw/" ++ latest)%string [];
                   Printed ("Loaded " ++ "cafe" ++ " locations")%string
                           [of_nat (index g)]])).
Proof.
  split; [reflexivity|].
  split; [apply Exists_cons_tl, Exists_cons_hd; reflexivity|].
  apply (load_data_reads_latest two_listings read_places "milan" "cafe"
           ["milan_pharmacy_20240101.csv"; "milan_cafe_20240101.csv"]
           (mkState [] []));
    [reflexivity | apply Exists_cons_tl, Exists_cons_hd; reflexivity].
Defined.

Lemma business_types_sorted_words_witness :
  always_there "data/raw" = true /\
  two_listings "data/raw"
  = Return ["milan_pharmacy_20240101.csv"; "milan_cafe_20240101.csv"] /\
  exists types,
    get_available_business_types two_listings always_there "milan" (mkState [] [])
    = (Ok types, mkState [] []) /\
    Sorted (fun a b => String.leb a b = true) types /\
    NoDup types /\
    Forall (fun business_type => contains "_" business_type = false) types.
Proof.
  split; [reflexivity|]. split; [reflexivity|].
  apply (business_types_sorted_words two_listings always_there "milan"
           ["milan_pharmacy_20240101.csv"; "milan_cafe_20240101.csv"]
           (mkState [] [])); reflexivity.
Defined.

Lemma collected_file_is_analysable_witness :
  always_there "data/raw" = true /\
  listing "data/raw" = Return ["milan_pharmacy_20240101.csv"] /\
  (forall path, exists f, read_places path = Return f) /\
  contains "_" "milan" = false /\
  contains "_" "pharmacy" = false /\
  contains "." ("milan" ++ "_" ++ "pharmacy" ++ "_" ++ "20240101")%string = false /\
  In ("milan" ++ "_" ++ "pharmacy" ++ "_" ++ "20240101" ++ ".csv")%string
     ["milan_pharmacy_20240101.csv"] /\
  (exists types,
      get_available_business_types listing always_there "milan" (mkState [] [])
      = (Ok types, mkState [] []) /\
      In "pharmacy" types) /\
  exists places st',
    load_data listing read_places "milan" "pharmacy" (mkState [] [])
    = (Ok places, st').
Proof.
  split; [reflexivity|]. split; [reflexivity|].
  split; [intros path; eexists; reflexivity|].
  split; [reflexivity|]. split; [reflexivity|]. split; [reflexivity|].
  split; [left; reflexivity|].
  apply (collected_file_is_analysable listing always_there read_places
           "milan" "pharmacy" "20240101" ["milan_pharmacy_20240101.csv"]
           (mkState [] []));
    [reflexivity | reflexivity | intros path; eexists; reflexivity
     | reflexivity | reflexivity | reflexivity | left; reflexivity].
Defined.

Lemma milan_rows : steps 45.395 (0.5 / 111) 45.535 32.
Proof.
  apply steps_intro; [reflexivity | vm_compute; reflexivity|].
  intros k [= <-]. vm_compute. discriminate.
Defined.

Lemma milan_columns : steps 9.065 (0.5 / (111 * 0.7013)) 9.280 34.
Proof.
  apply steps_intro; [reflexivity | vm_compute; reflexivity|].
  intros k [= <-]. vm_compute. discriminate.
Defined.

Lemma grid_size_not_positive_never_ends_witness :
  assoc "north" milan = Some (Fin 45.535) /\
  assoc "south" milan = Some (Fin 45.395) /\
  assoc "east" milan = Some (Fin 9.280) /\
  assoc "west" milan = Some (Fin 9.065) /\
  45.395 <= 45.535 /\ 9.065 <= 9.280 /\
  cos_table (center_lat 45.535 45.395) = Fin 0.7013 /\ 0 < 0.7013 /\
  0 <= 0 /\
  create_analysis_grid cos_table 1000 milan (Fin 0) (mkState [] [])
  = (OutOfFuel, mkState [] []).
Proof.
  split; [reflexivity|]. split; [reflexivity|]. split; [reflexivity|].
  split; [reflexivity|]. split; [discriminate|]. split; [discriminate|].
  split; [reflexivity|]. split; [reflexivity|]. split; [discriminate|].
  apply (grid_size_not_positive_never_ends cos_table milan 45.535 45.395
           9.280 9.065 0 0.7013 1000 (mkState [] []));
    [reflexivity | reflexivity | reflexivity | reflexivity | discriminate
     | discriminate | reflexivity | reflexivity | discriminate].
Defined.

Lemma sample_grid_ok : frame_ok sample_grid.
Proof. repeat constructor. Defined.

Lemma sample_places_ok : frame_ok sample_places.
Proof. repeat constructor. Defined.

Lemma sample_distances_ok : frame_ok sample_distances.
Proof. repeat constructor. Defined.

Lemma distance_matrix_rows_witness :
  (forall a b c d, geodesic_zero a b c d = Return (flat_distance a b c d)) /\
  heap (mkState [sample_grid; sample_places] []) !! 0%nat = Some sample_grid /\
  heap (mkState [sample_grid; sample_places] []) !! 1%nat = Some sample_places /\
  frame_ok sample_grid /\ frame_ok sample_places /\
  df_col sample_grid "cell_id" = Some [Fin 0; Fin 1] /\
  df_col sample_grid "center_lat" = Some [Fin 45.40; Fin 45.41] /\
  df_col sample_grid "center_lng" = Some [Fin 9.10; Fin 9.11] /\
  df_col sample_places "place_id" = Some [Fin 1; Fin 2] /\
  df_col sample_places "lat" = Some [Fin 45.40; Fin 45.50] /\
  df_col sample_places "lng" = Some [Fin 9.10; Fin 9.20] /\
  exists table t',
    calculate_distance_matrix geodesic_zero 0%nat 1%nat
                              (mkState [sample_grid; sample_places] [])
    = (Ok 2%nat, mkState ([sample_grid; sample_places] ++ [table]) t') /\
    index table = (2 * 2)%nat /\
    forall (i j : nat) id lat lng pid plat plng,
      cell sample_grid "cell_id" i = Some id ->
      cell sample_grid "center_lat" i = Some lat ->
      cell sample_grid "center_lng" i = Some lng ->
      cell sample_places "place_id" j = Some pid ->
      cell sample_places "lat" j = Some plat ->
      cell sample_places "lng" j = Some plng ->
      cell table "cell_id" (i * 2 + j) = Some id /\
      cell table "place_id" (i * 2 + j) = Some pid /\
      cell table "distance_km" (i * 2 + j)
      = Some (flat_distance lat lng plat plng).
Proof.
  split; [reflexivity|]. split; [reflexivity|]. split; [reflexivity|].
  split; [exact sample_grid_ok|]. split; [exact sample_places_ok|].
  split; [reflexivity|]. split; [reflexivity|]. split; [reflexivity|].
  split; [reflexivity|]. split; [reflexivity|]. split; [reflexivity|].
  apply (distance_matrix_rows geodesic_zero flat_distance
           (mkState [sample_grid; sample_places] []) 0%nat 1%nat
           sample_grid sample_places [Fin 0; Fin 1] [Fin 45.40; Fin 45.41]
           [Fin 9.10; Fin 9.11] [Fin 1; Fin 2] [Fin 45.40; Fin 45.50]
           [Fin 9.10; Fin 9.20]);
    [reflexivity | reflexivity | reflexivity | exact sample_grid_ok
     | exact sample_places_ok | reflexivity | reflexivity | reflexivity
     | reflexivity | reflexivity | reflexivity].
Defined.

Lemma no_places_no_columns_witness :
  heap (mkState [sample_grid; header_only_places] []) !! 0%nat
  = Some sample_grid /\
  heap (mkState [sample_grid; header_only_places] []) !! 1%nat
  = Some header_only_places /\
  df_col sample_grid "cell_id" = Some [Fin 0; Fin 1] /\
  df_col sample_grid "center_lat" = Some [Fin 45.40; Fin 45.41] /\
  df_col sample_grid "center_lng" = Some [Fin 9.10; Fin 9.11] /\
  index header_only_places = 0%nat /\
  exists t',
    calculate_distance_matrix geodesic_zero 0%nat 1%nat
                              (mkState [sample_grid; header_only_places] [])
    = (Ok 2%nat,
       mkState ([sample_grid; header_only_places] ++ [empty_frame]) t') /\
    fst (analyze_accessibility 0%nat 1%nat 2%nat (Fin 1.0)
           (mkState ([sample_grid; header_only_places] ++ [empty_frame]) t'))
    = Raise (KeyError "cell_id").
Proof.
  split; [reflexivity|]. split; [reflexivity|]. split; [reflexivity|].
  split; [reflexivity|]. split; [reflexivity|]. split; [reflexivity|].
  apply (no_places_no_columns geodesic_zero
           (mkState [sample_grid; header_only_places] []) 0%nat 1%nat
           sample_grid header_only_places
           [Fin 45.40; Fin 45.41] [Fin 9.10; Fin 9.11] (Fin 0) [Fin 1] (Fin 1.0));
    reflexivity.
Defined.

Lemma sample_distances_finite :
  Forall finite_nonneg [Fin 0.8; Fin 2.5; Fin 0.3].
Proof. repeat constructor; eexists; (split; [reflexivity | discriminate]). Defined.

Lemma nearest_is_least_distance_witness :
  heap (mkState [sample_distances] []) !! 0%nat = Some sample_distances /\
  frame_ok sample_distances /\
  df_col sample_distances "cell_id" = Some [Fin 0; Fin 1; Fin 0] /\
  df_col sample_distances "distance_km" = Some [Fin 0.8; Fin 2.5; Fin 0.3] /\
  Forall finite_nonneg [Fin 0.8; Fin 2.5; Fin 0.3] /\
  distances_of [Fin 0; Fin 1; Fin 0] [Fin 0.8; Fin 2.5; Fin 0.3] (Fin 0) <> [] /\
  exists record st' nearest,
    cell_accessibility 0%nat (Fin 1.0) (Fin 0) (mkState [sample_distances] [])
    = (Ok record, st') /\
    assoc "nearest_distance_km" record = Some (Fin nearest) /\
    In (Fin nearest)
       (distances_of [Fin 0; Fin 1; Fin 0] [Fin 0.8; Fin 2.5; Fin 0.3] (Fin 0)) /\
    (forall q,
        In (Fin q)
           (distances_of [Fin 0; Fin 1; Fin 0] [Fin 0.8; Fin 2.5; Fin 0.3] (Fin 0)) ->
        nearest <= q) /\
    assoc "services_within_walking" record
    = Some (of_nat (count_true
                      (map (fun x => num_leb x (Fin 1.0))
                           (distances_of [Fin 0; Fin 1; Fin 0]
                                         [Fin 0.8; Fin 2.5; Fin 0.3] (Fin 0))))) /\
    exists density,
      assoc "density_per_km2" record = Some (Fin density) /\
      density * np_pi
      == inject_Z (Z.of_nat (count_true
                               (map (fun x => num_leb x (Fin 1.0))
                                    (distances_of [Fin 0; Fin 1; Fin 0]
                                                  [Fin 0.8; Fin 2.5; Fin 0.3]
                                                  (Fin 0))))).
Proof.
  split; [reflexivity|]. split; [exact sample_distances_ok|].
  split; [reflexivity|]. split; [reflexivity|].
  split; [exact sample_distances_finite|]. split; [discriminate|].
  apply (nearest_is_least_distance (mkState [sample_distances] []) 0%nat
           sample_distances [Fin 0; Fin 1; Fin 0] [Fin 0.8; Fin 2.5; Fin 0.3]
           (Fin 1.0) (Fin 0));
    [reflexivity | exact sample_distances_ok | reflexivity | reflexivity
     | exact sample_distances_finite | discriminate].
Defined.

Lemma analyzer_one_row_per_cell_witness :
  heap (mkState [sample_grid; sample_distances] []) !! 0%nat = Some sample_grid /\
  heap (mkState [sample_grid; sample_distances] []) !! 1%nat
  = Some sample_distances /\
  frame_ok sample_grid /\ frame_ok sample_distances /\
  (0 < index sample_grid)%nat /\
  df_col sample_grid "cell_id" = Some (map of_nat (seq 0 (index sample_grid))) /\
  df_col sample_grid "center_lat" = Some [Fin 45.40; Fin 45.41] /\
  df_col sample_grid "center_lng" = Some [Fin 9.10; Fin 9.11] /\
  df_col sample_distances "cell_id" = Some [Fin 0; Fin 1; Fin 0] /\
  df_col sample_distances "distance_km" = Some [Fin 0.8; Fin 2.5; Fin 0.3] /\
  exists accessibility st' table,
    analyze_accessibility 0%nat 0%nat 1%nat (Fin 1.0)
                          (mkState [sample_grid; sample_distances] [])
    = (Ok accessibility, st') /\
    heap st' !! accessibility = Some table /\
    heap (mkState [sample_grid; sample_distances] []) !! accessibility = None /\
    index table = index sample_grid /\
    keys (columns table) = accessibility_columns /\
    df_col table "center_lat" = Some [Fin 45.40; Fin 45.41] /\
    df_col table "center_lng" = Some [Fin 9.10; Fin 9.11] /\
    forall (i : nat) k, (i < index sample_grid)%nat -> In k record_columns ->
      cell table k i
      = assoc k (accessibility_record (Fin 1.0) (of_nat i)
                   (distances_of [Fin 0; Fin 1; Fin 0]
                                 [Fin 0.8; Fin 2.5; Fin 0.3] (of_nat i))).
Proof.
  split; [reflexivity|]. split; [reflexivity|].
  split; [exact sample_grid_ok|]. split; [exact sample_distances_ok|].
  split; [simpl; lia|]. split; [reflexivity|]. split; [reflexivity|].
  split; [reflexivity|]. split; [reflexivity|]. split; [reflexivity|].
  apply (analyzer_one_row_per_cell (mkState [sample_grid; sample_distances] [])
           0%nat 0%nat 1%nat sample_grid sample_distances
           [Fin 45.40; Fin 45.41] [Fin 9.10; Fin 9.11]
           [Fin 0; Fin 1; Fin 0] [Fin 0.8; Fin 2.5; Fin 0.3] (Fin 1.0));
    [reflexivity | reflexivity | exact sample_grid_ok
     | exact sample_distances_ok | simpl; lia | reflexivity | reflexivity
     | reflexivity | reflexivity | reflexivity].
Defined.

Lemma cell_without_records_witness :
  heap (mkState [sample_distances] []) !! 0%nat = Some sample_distances /\
  frame_ok sample_distances /\
  df_col sample_distances "cell_id" = Some [Fin 0; Fin 1; Fin 0] /\
  df_col sample_distances "distance_km" = Some [Fin 0.8; Fin 2.5; Fin 0.3] /\
  Forall (fun k => num_eqb k (Fin 7) = false) [Fin 0; Fin 1; Fin 0] /\
  exists density,
    density == 0 /\
    cell_accessibility 0%nat (Fin 1.0) (Fin 7) (mkState [sample_distances] [])
    = (Ok [ ("cell_id", Fin 7);
            ("services_within_walking", of_nat 0);
            ("nearest_distance_km", PInf);
            ("avg_distance_top3_km", PInf);
            ("density_per_km2", Fin density) ],
       mkState ([sample_distances] ++ repeat (emptied sample_distances) 6) []).
Proof.
  split; [reflexivity|]. split; [exact sample_distances_ok|].
  split; [reflexivity|]. split; [reflexivity|]. split; [repeat constructor|].
  apply (cell_without_records (mkState [sample_distances] []) 0%nat
           sample_distances [Fin 0; Fin 1; Fin 0] [Fin 0.8; Fin 2.5; Fin 0.3]
           (Fin 1.0) (Fin 7));
    [reflexivity | exact sample_distances_ok | reflexivity | reflexivity
     | repeat constructor].
Defined.

Lemma sample_enriched_ok : frame_ok sample_enriched.
Proof. repeat constructor. Defined.

Lemma sample_counts_ok : frame_ok sample_counts.
Proof. repeat constructor. Defined.

Lemma sample_unscored_ok : frame_ok sample_unscored.
Proof. repeat constructor. Defined.

Lemma rescoring_is_in_place_witness :
  heap (mkState [sample_grid; sample_enriched] []) !! 1%nat
  = Some sample_enriched /\
  frame_ok sample_enriched /\
  df_col sample_enriched "population_1km" = Some [Fin 50; Fin 200] /\
  df_col sample_enriched "opportunity_score" = Some [Fin 9; Fin 4.8] /\
  exists st' f',
    recalculate_opportunity_with_population
      1%nat (mkState [sample_grid; sample_enriched] []) = (Ok 1%nat, st') /\
    heap st' !! 1%nat = Some f' /\
    index f' = index sample_enriched /\
    (forall c, c <> "demand_score" -> c <> "opportunity_score_original" ->
               c <> "opportunity_score" ->
               df_col f' c = df_col sample_enriched c) /\
    (forall r0 f0, r0 <> 1%nat ->
                   heap (mkState [sample_grid; sample_enriched] []) !! r0
                   = Some f0 ->
                   heap st' !! r0 = Some f0).
Proof.
  split; [reflexivity|]. split; [exact sample_enriched_ok|].
  split; [reflexivity|]. split; [reflexivity|].
  apply (rescoring_is_in_place (mkState [sample_grid; sample_enriched] [])
           1%nat sample_enriched [Fin 50; Fin 200] [Fin 9; Fin 4.8]);
    [reflexivity | exact sample_enriched_ok | reflexivity | reflexivity].
Defined.

Lemma sample_counts_finite : Forall finite_nonneg [Fin 150; Fin 200].
Proof. repeat constructor; eexists; (split; [reflexivity | discriminate]). Defined.

Lemma rescoring_without_subscores_witness :
  heap (mkState [sample_counts] []) !! 0%nat = Some sample_counts /\
  frame_ok sample_counts /\
  df_col sample_counts "population_1km" = Some [Fin 150; Fin 200] /\
  df_col sample_counts "opportunity_score" = Some [Fin 9; Fin 4.8] /\
  df_col sample_counts "competition_gap" = None /\
  df_col sample_counts "accessibility_gap" = None /\
  df_col sample_counts "viability" = None /\
  Forall finite_nonneg [Fin 150; Fin 200] /\
  exists st' f',
    recalculate_opportunity_with_population 0%nat (mkState [sample_counts] [])
    = (Ok 0%nat, st') /\
    heap st' !! 0%nat = Some f' /\
    forall (i : nat) p m,
      [Fin 150; Fin 200] !! i = Some (Fin p) -> 100 <= p ->
      is_maximum m [Fin 150; Fin 200] ->
      exists score,
        cell f' "opportunity_score" i = Some (Fin score) /\
        score == 3 * (p / m) + 0.5.
Proof.
  split; [reflexivity|]. split; [exact sample_counts_ok|].
  split; [reflexivity|]. split; [reflexivity|]. split; [reflexivity|].
  split; [reflexivity|]. split; [reflexivity|].
  split; [exact sample_counts_finite|].
  apply (rescoring_without_subscores (mkState [sample_counts] []) 0%nat
           sample_counts [Fin 150; Fin 200] [Fin 9; Fin 4.8]);
    [reflexivity | exact sample_counts_ok | reflexivity | reflexivity
     | reflexivity | reflexivity | reflexivity | exact sample_counts_finite].
Defined.

Lemma rescoring_fails_half_done_witness :
  heap (mkState [sample_unscored] []) !! 0%nat = Some sample_unscored /\
  frame_ok sample_unscored /\
  df_col sample_unscored "population_1km" = Some [Fin 50; Fin 200] /\
  df_col sample_unscored "opportunity_score" = None /\
  df_col sample_unscored "demand_score" = None /\
  exists st' f' demand,
    recalculate_opportunity_with_population 0%nat (mkState [sample_unscored] [])
    = (Raise (KeyError "opportunity_score"), st') /\
    heap st' !! 0%nat = Some f' /\
    df_col f' "demand_score" = Some demand /\
    length demand = index sample_unscored.
Proof.
  split; [reflexivity|]. split; [exact sample_unscored_ok|].
  split; [reflexivity|]. split; [reflexivity|]. split; [reflexivity|].
  apply (rescoring_fails_half_done (mkState [sample_unscored] []) 0%nat
           sample_unscored [Fin 50; Fin 200]);
    [reflexivity | exact sample_unscored_ok | reflexivity | reflexivity
     | reflexivity].
Defined.

Lemma rescoring_twice_witness :
  heap (mkState [sample_enriched] []) !! 0%nat = Some sample_enriched /\
  frame_ok sample_enriched /\
  df_col sample_enriched "population_1km" = Some [Fin 50; Fin 200] /\
  df_col sample_enriched "opportunity_score" = Some [Fin 9; Fin 4.8] /\
  exists st1 st2 f1 f2 score,
    recalculate_opportunity_with_population 0%nat (mkState [sample_enriched] [])
    = (Ok 0%nat, st1) /\
    heap st1 !! 0%nat = Some f1 /\
    recalculate_opportunity_with_population 0%nat st1 = (Ok 0%nat, st2) /\
    heap st2 !! 0%nat = Some f2 /\
    df_col f1 "opportunity_score_original" = Some [Fin 9; Fin 4.8] /\
    df_col f1 "opportunity_score" = Some score /\
    df_col f2 "opportunity_score" = Some score /\
    df_col f2 "demand_score" = df_col f1 "demand_score" /\
    df_col f2 "opportunity_score_original" = Some score.
Proof.
  split; [reflexivity|]. split; [exact sample_enriched_ok|].
  split; [reflexivity|]. split; [reflexivity|].
  apply (rescoring_twice (mkState [sample_enriched] []) 0%nat sample_enriched
           [Fin 50; Fin 200] [Fin 9; Fin 4.8]);
    [reflexivity | exact sample_enriched_ok | reflexivity | reflexivity].
Defined.

Lemma unserved_cell_scores_nine_witness :
  heap (mkState [sample_accessibility] []) !! 0%nat = Some sample_accessibility /\
  accessibility_frame sample_accessibility
    [Fin 0; Fin 0.6; Fin 2.2] [PInf; Fin 0.4; Fin 1.5] [Fin 0; Fin 2; Fin 7] /\
  [Fin 0; Fin 0.6; Fin 2.2] !! 0%nat = Some (Fin 0) /\ 0 == 0 /\
  [PInf; Fin 0.4; Fin 1.5] !! 0%nat = Some PInf /\
  (PInf = PInf \/ exists q, PInf = Fin q /\ 3 <= q) /\
  [Fin 0; Fin 2; Fin 7] !! 0%nat = Some (Fin 0) /\ 0 == 0 /\
  exists st' f' score,
    calculate_opportunity_scores 0%nat (mkState [sample_accessibility] [])
    = (Ok 1%nat, st') /\
    heap st' !! 1%nat = Some f' /\
    cell f' "opportunity_score" 0 = Some (Fin score) /\
    score == 9.
Proof.
  split; [reflexivity|]. split; [exact sample_accessibility_frame|].
  split; [reflexivity|]. split; [reflexivity|]. split; [reflexivity|].
  split; [left; reflexivity|]. split; [reflexivity|]. split; [reflexivity|].
  apply (unserved_cell_scores_nine (mkState [sample_accessibility] []) 0%nat
           sample_accessibility [Fin 0; Fin 0.6; Fin 2.2]
           [PInf; Fin 0.4; Fin 1.5] [Fin 0; Fin 2; Fin 7] 0%nat 0 PInf 0);
    [reflexivity | exact sample_accessibility_frame | reflexivity
     | reflexivity | reflexivity | left; reflexivity | reflexivity
     | reflexivity].
Defined.

Lemma sample_pair_frame :
  accessibility_frame sample_pair
    [Fin 0.3; Fin 0.6] [Fin 0.5; Fin 0.5] [Fin 2; Fin 2].
Proof. split; data_model. Defined.

Lemma less_competition_scores_higher_witness :
  heap (mkState [sample_pair] []) !! 0%nat = Some sample_pair /\
  accessibility_frame sample_pair
    [Fin 0.3; Fin 0.6] [Fin 0.5; Fin 0.5] [Fin 2; Fin 2] /\
  [Fin 0.3; Fin 0.6] !! 0%nat = Some (Fin 0.3) /\
  [Fin 0.3; Fin 0.6] !! 1%nat = Some (Fin 0.6) /\ 0.3 <= 0.6 /\
  [Fin 0.5; Fin 0.5] !! 0%nat = Some (Fin 0.5) /\
  [Fin 0.5; Fin 0.5] !! 1%nat = Some (Fin 0.5) /\
  [Fin 2; Fin 2] !! 0%nat = Some (Fin 2) /\
  [Fin 2; Fin 2] !! 1%nat = Some (Fin 2) /\
  exists st' f' si sj,
    calculate_opportunity_scores 0%nat (mkState [sample_pair] [])
    = (Ok 1%nat, st') /\
    heap st' !! 1%nat = Some f' /\
    cell f' "opportunity_score" 0 = Some (Fin si) /\
    cell f' "opportunity_score" 1 = Some (Fin sj) /\
    sj <= si.
Proof.
  split; [reflexivity|]. split; [exact sample_pair_frame|].
  split; [reflexivity|]. split; [reflexivity|]. split; [discriminate|].
  split; [reflexivity|]. split; [reflexivity|]. split; [reflexivity|].
  split; [reflexivity|].
  apply (less_competition_scores_higher (mkState [sample_pair] []) 0%nat
           sample_pair [Fin 0.3; Fin 0.6] [Fin 0.5; Fin 0.5] [Fin 2; Fin 2]
           0%nat 1%nat 0.3 0.6 (Fin 0.5) 2);
    [reflexivity | exact sample_pair_frame | reflexivity | reflexivity
     | discriminate | reflexivity | reflexivity | reflexivity | reflexivity].
Defined.

Lemma header_only_places_ok : frame_ok header_only_places.
Proof. repeat constructor. Defined.

Lemma scorer_missing_column_witness :
  heap (mkState [header_only_places] []) !! 0%nat = Some header_only_places /\
  frame_ok header_only_places /\
  (df_col header_only_places "density_per_km2" = None \/
   df_col header_only_places "nearest_distance_km" = None \/
   df_col header_only_places "services_within_walking" = None) /\
  exists c st',
    calculate_opportunity_scores 0%nat (mkState [header_only_places] [])
    = (Raise (KeyError c), st') /\
    In c ["density_per_km2"; "nearest_distance_km"; "services_within_walking"] /\
    df_col header_only_places c = None /\
    heap st' !! 0%nat = Some header_only_places.
Proof.
  split; [reflexivity|]. split; [exact header_only_places_ok|].
  split; [left; reflexivity|].
  apply (scorer_missing_column (mkState [header_only_places] []) 0%nat
           header_only_places);
    [reflexivity | exact header_only_places_ok | left; reflexivity].
Defined.

Lemma no_cells_ok : frame_ok no_cells.
Proof. repeat constructor. Defined.

Lemma deserts_of_no_cells_witness :
  heap (mkState [no_cells] []) !! 0%nat = Some no_cells /\
  frame_ok no_cells /\
  df_col no_cells "nearest_distance_km" = Some [] /\
  df_col no_cells "services_within_walking" = Some [] /\
  index no_cells = 0%nat /\
  exists st',
    identify_service_deserts 0%nat (Fin 1.5) (mkState [no_cells] [])
    = (Raise ZeroDivisionError, st') /\
    forall r0 f0, heap (mkState [no_cells] []) !! r0 = Some f0 ->
                  heap st' !! r0 = Some f0.
Proof.
  split; [reflexivity|]. split; [exact no_cells_ok|].
  split; [reflexivity|]. split; [reflexivity|]. split; [reflexivity|].
  apply (deserts_of_no_cells (mkState [no_cells] []) 0%nat no_cells (Fin 1.5)
           [] []);
    [reflexivity | exact no_cells_ok | reflexivity | reflexivity | reflexivity].
Defined.

Lemma batch_writes_analysis_files_witness :
  get_available_business_types two_listings always_there "milan"
                               (mkState [] [])
  = (Ok ["cafe"; "pharmacy"], mkState [] []) /\
  exists new,
    written_files
      (trace (snd (analyze_all_business_types cos_table geodesic_zero
                     two_listings always_there read_places "20240102" 35
                     "milan" (mkState [] []))))
    = written_files (trace (mkState [] [])) ++ new /\
    sublist new (map (analysis_file "20240102" "milan") ["cafe"; "pharmacy"]).
Proof.
  split; [vm_compute; reflexivity|].
  apply (batch_writes_analysis_files cos_table geodesic_zero two_listings
           always_there read_places "20240102" 35 "milan"
           ["cafe"; "pharmacy"] (mkState [] []));
    vm_compute; reflexivity.
Defined.

Lemma enriched_file_is_skipped_witness :
  contains ".csv" sample_analysis_file = true /\
  enrich_file geodesic_zero read_scored flat_raster true
              "data/population/worldpop_ITA_2020.tif"
              (enriched_file sample_analysis_file) (mkState [] [])
  = (Ok tt,
     mkState [] ([] ++ [Printed ("Skipping (already enriched): "
                                 ++ enriched_file sample_analysis_file)%string
                                []])).
Proof.
  split; [reflexivity|].
  apply (enriched_file_is_skipped geodesic_zero read_scored flat_raster true
           "data/population/worldpop_ITA_2020.tif" sample_analysis_file
           (mkState [] []));
    reflexivity.
Defined.

Lemma analyze_city_succeeds_witness :
  assoc "milan" CITY_BOUNDS = Some milan /\
  assoc "north" milan = Some (Fin 45.535) /\
  assoc "south" milan = Some (Fin 45.395) /\
  assoc "east" milan = Some (Fin 9.280) /\
  assoc "west" milan = Some (Fin 9.065) /\
  cos_table (center_lat 45.535 45.395) = Fin 0.7013 /\ 0 < 0.7013 /\
  steps 45.395 (0.5 / 111) 45.535 32 /\
  steps 9.065 (0.5 / (111 * 0.7013)) 9.280 34 /\
  (32 < 35)%nat /\ (34 < 35)%nat /\ (0 < 32 * 34)%nat /\
  listing "data/raw" = Return ["milan_pharmacy_20240101.csv"] /\
  Exists (fun f => startswith f ("milan" ++ "_" ++ "pharmacy" ++ "_")%string
                   = true)
         ["milan_pharmacy_20240101.csv"] /\
  (forall path, read_places path = Return sample_places) /\
  frame_ok sample_places /\ (0 < index sample_places)%nat /\
  df_col sample_places "place_id" = Some [Fin 1; Fin 2] /\
  df_col sample_places "lat" = Some [Fin 45.40; Fin 45.50] /\
  df_col sample_places "lng" = Some [Fin 9.10; Fin 9.20] /\
  (forall a b c d, geodesic_zero a b c d = Return (flat_distance a b c d)) /\
  exists results deserts st' scored,
    analyze_city cos_table geodesic_zero listing read_places "20240102"
                 35 "milan" "pharmacy" (mkState [] [])
    = (Ok (results, deserts), st') /\
    heap st' !! results = Some scored /\
    index scored = (32 * 34)%nat /\
    keys (columns scored) = accessibility_columns ++ score_columns /\
    In (ToCsv (analysis_file "20240102" "milan" "pharmacy") scored)
       (trace st') /\
    written_files (trace st')
    = written_files (trace (mkState [] []))
      ++ [analysis_file "20240102" "milan" "pharmacy"].
Proof.
  split; [reflexivity|]. split; [reflexivity|]. split; [reflexivity|].
  split; [reflexivity|]. split; [reflexivity|]. split; [reflexivity|].
  split; [reflexivity|]. split; [exact milan_rows|].
  split; [exact milan_columns|]. split; [lia|]. split; [lia|].
  split; [simpl; lia|]. split; [reflexivity|].
  split; [apply Exists_cons_hd; reflexivity|]. split; [reflexivity|].
  split; [exact sample_places_ok|]. split; [simpl; lia|].
  split; [reflexivity|]. split; [reflexivity|]. split; [reflexivity|].
  split; [reflexivity|].
  apply (analyze_city_succeeds cos_table geodesic_zero listing read_places
           "20240102" flat_distance 35 "milan" "pharmacy" milan
           45.535 45.395 9.280 9.065 0.7013 32 34
           ["milan_pharmacy_20240101.csv"] sample_places
           [Fin 1; Fin 2] [Fin 45.40; Fin 45.50] [Fin 9.10; Fin 9.20]
           (mkState [] []));
    [reflexivity | reflexivity | reflexivity | reflexivity | reflexivity
     | reflexivity | reflexivity | exact milan_rows | exact milan_columns
     | lia | lia | simpl; lia | reflexivity
     | apply Exists_cons_hd; reflexivity | reflexivity
     | exact sample_places_ok | simpl; lia | reflexivity | reflexivity
     | reflexivity | reflexivity].
Defined.

Lemma sample_scored_ok : frame_ok sample_scored.
Proof. repeat constructor. Defined.

Lemma enrichment_saves_rescored_frame_witness :
  contains "_enriched" sample_analysis_file = false /\
  read_scored sample_analysis_file = Return sample_scored /\
  frame_ok sample_scored /\
  df_col sample_scored "center_lat" = Some [Fin 45.40; Fin 45.41] /\
  df_col sample_scored "center_lng" = Some [Fin 9.10; Fin 9.11] /\
  df_col sample_scored "opportunity_score" = Some [Fin 9; Fin 4.8] /\
  (forall a b c d, geodesic_zero a b c d = Return (flat_distance a b c d)) /\
  exists st' saved populations,
    enrich_file geodesic_zero read_scored flat_raster true
                "data/population/worldpop_ITA_2020.tif" sample_analysis_file
                (mkState [] []) = (Ok tt, st') /\
    In (ToCsv (enriched_file sample_analysis_file) saved) (trace st') /\
    index saved = index sample_scored /\
    df_col saved "population" = Some populations /\
    df_col saved "opportunity_score_original" = Some [Fin 9; Fin 4.8] /\
    (exists population_1km,
        df_col saved "population_1km" = Some population_1km /\
        saved = rescored_frame
                  (df_set (df_set sample_scored "population" populations)
                          "population_1km" population_1km)
                  population_1km [Fin 9; Fin 4.8]) /\
    forall (i : nat) lat lng,
      [Fin 45.40; Fin 45.41] !! i = Some lat ->
      [Fin 9.10; Fin 9.11] !! i = Some lng ->
      populations !! i
      = Some (point_population flat_raster true
                               "data/population/worldpop_ITA_2020.tif" lat lng) /\
      cell saved "population_1km" i
      = Some (nearby_population flat_distance [Fin 45.40; Fin 45.41]
                                [Fin 9.10; Fin 9.11] populations lat lng).
Proof.
  split; [reflexivity|]. split; [reflexivity|].
  split; [exact sample_scored_ok|]. split; [reflexivity|].
  split; [reflexivity|]. split; [reflexivity|]. split; [reflexivity|].
  apply (enrichment_saves_rescored_frame geodesic_zero read_scored flat_raster
           true flat_distance "data/population/worldpop_ITA_2020.tif"
           sample_analysis_file sample_scored [Fin 45.40; Fin 45.41]
           [Fin 9.10; Fin 9.11] [Fin 9; Fin 4.8] (mkState [] []));
    [reflexivity | reflexivity | exact sample_scored_ok | reflexivity
     | reflexivity | reflexivity | reflexivity].
Defined.

Lemma enrichment_without_population_witness :
  (true = false \/
   forall lat lng, exists e,
       no_raster "data/population/worldpop_ITA_2020.tif" lat lng = Throws e) /\
  contains "_enriched" sample_analysis_file = false /\
  read_scored sample_analysis_file = Return sample_scored /\
  frame_ok sample_scored /\
  df_col sample_scored "center_lat" = Some [Fin 45.40; Fin 45.41] /\
  df_col sample_scored "center_lng" = Some [Fin 9.10; Fin 9.11] /\
  df_col sample_scored "opportunity_score" = Some [Fin 9; Fin 4.8] /\
  (forall a b c d, geodesic_zero a b c d = Return (flat_distance a b c d)) /\
  exists st' saved,
    enrich_file geodesic_zero read_scored no_raster true
                "data/population/worldpop_ITA_2020.tif" sample_analysis_file
                (mkState [] []) = (Ok tt, st') /\
    In (ToCsv (enriched_file sample_analysis_file) saved) (trace st') /\
    index saved = index sample_scored /\
    forall i : nat, (i < index sample_scored)%nat ->
      cell saved "demand_score" i = Some (Fin 0) /\
      cell saved "opportunity_score" i = Some (Fin 0).
Proof.
  split; [right; intros lat lng; eexists; reflexivity|].
  split; [reflexivity|]. split; [reflexivity|].
  split; [exact sample_scored_ok|]. split; [reflexivity|].
  split; [reflexivity|]. split; [reflexivity|]. split; [reflexivity|].
  apply (enrichment_without_population geodesic_zero read_scored no_raster
           true flat_distance "data/population/worldpop_ITA_2020.tif"
           sample_analysis_file sample_scored [Fin 45.40; Fin 45.41]
           [Fin 9.10; Fin 9.11] [Fin 9; Fin 4.8] (mkState [] []));
    [right; intros lat lng; eexists; reflexivity | reflexivity | reflexivity
     | exact sample_scored_ok | reflexivity | reflexivity | reflexivity
     | reflexivity].
Defined.

Lemma batch_without_data_witness :
  (no_file "data/raw" = false \/
   listing "data/raw" = Return ["milan_pharmacy_20240101.csv"] /\
   Forall (fun file => startswith file ("rome" ++ "_")%string = false)
          ["milan_pharmacy_20240101.csv"]) /\
  analyze_all_business_types cos_table geodesic_zero listing no_file
                             read_places "20240102" 35 "rome" (mkState [] [])
  = (Ok [],
     mkState []
             ([] ++
              [Printed ("No data found for " ++ "rome")%string [];
               Printed "Run data collection first: python src/collect_data.py"
                       []])).
Proof.
  split; [left; reflexivity|].
  apply (batch_without_data cos_table geodesic_zero listing no_file
           read_places "20240102" 35 "rome" ["milan_pharmacy_20240101.csv"]
           (mkState [] []));
    left; reflexivity.
Defined.

Lemma enrichment_without_analysis_files_witness :
  Exists (fun path => always_there path = true) possible_files /\
  no_glob ("data/processed/" ++ "milan" ++ "_*_analysis_filtered_*.csv")%string
  = [] /\
  no_glob ("data/processed/" ++ "milan" ++ "_*_analysis_*.csv")%string = [] /\
  exists report,
    add_population_to_analysis geodesic_zero always_there no_glob read_scored
                               flat_raster true "milan" "ITA" (mkState [] [])
    = (Ok tt, mkState [] ([] ++ report)) /\
    Forall writes_no_file report /\
    List.last report (Printed "" [])
    = Printed ("Run analysis first: python src/analyze.py " ++ "milan")%string
              [].
Proof.
  split; [apply Exists_cons_hd; reflexivity|]. split; [reflexivity|].
  split; [reflexivity|].
  apply (enrichment_without_analysis_files geodesic_zero always_there no_glob
           read_scored flat_raster true "milan" "ITA" (mkState [] []));
    [apply Exists_cons_hd; reflexivity | reflexivity | reflexivity].
Defined.

(** * Configuration errors, case by case *)






(** * The grid under any addition *)

Lemma stepped_S add start step k :
  stepped add start step (S k) = add (stepped add start step k) step.
Proof.
  revert start. induction k as [|k IH]; intros start; [reflexivity|].
  change (stepped add start step (S (S k)))
    with (stepped add (add start step) step (S k)).
  rewrite IH. reflexivity.
Qed.

Lemma turns_O add start step bound :
  turns add start step bound 0 -> num_leb start bound = false.
Proof. intros [_ H]. exact H. Qed.

Lemma turns_S add start step bound n :
  turns add start step bound (S n) ->
  num_leb start bound = true /\ turns add (add start step) step bound n.
Proof.
  intros [Hle Hgt]. split; [apply (Hle 0%nat); lia|]. split; [|exact Hgt].
  intros k Hk. apply (Hle (S k)). lia.
Qed.

Lemma turnsb_turns add start step bound n :
  turnsb add start step bound n = true -> turns add start step bound n.
Proof.
  unfold turnsb. intros H. apply andb_prop in H as [Hall Hlast]. split.
  - intros k Hk. rewrite forallb_forall in Hall. apply Hall.
    apply in_seq. lia.
  - by apply negb_true_iff.
Qed.

Lemma never_backb_never_back add start step n :
  never_backb add start step n = true -> never_back add start step n.
Proof.
  unfold never_backb. intros H k Hk. rewrite forallb_forall in H. apply H.
  apply in_seq. lia.
Qed.

Lemma lng_loop_records add (bounds : dict) east lat lat_step lng_step (n : nat) :
  assoc "east" bounds = Some east ->
  forall fuel lng cell_id cells st,
    turns add lng lng_step east n -> (n < fuel)%nat ->
    lng_loop add fuel bounds lat lat_step lng_step lng cell_id cells st
    = (Ok (cells ++ row_records add n lat lat_step lng_step lng cell_id,
           (cell_id + n)%nat), st).
Proof.
  intros He. induction n as [|n IH]; intros fuel lng cell_id cells st Ht Hfuel;
    (destruct fuel as [|fuel]; [lia|]); cbn [lng_loop];
    rewrite (bind_ok _ _ _ _ _ (dict_get_run _ _ _ st He)).
  - rewrite (turns_O _ _ _ _ Ht). cbn [row_records].
    by rewrite app_nil_r, Nat.add_0_r.
  - apply turns_S in Ht as [E Ht]. rewrite E.
    rewrite (IH fuel _ (S cell_id) _ st Ht ltac:(lia)).
    rewrite <- app_assoc. cbn [app row_records].
    by replace (S cell_id + n)%nat with (cell_id + S n)%nat by lia.
Qed.

Lemma lat_loop_records add (bounds : dict) north east west lat_step lng_step
    (n inner : nat) :
  assoc "north" bounds = Some north ->
  assoc "east" bounds = Some east ->
  assoc "west" bounds = Some west ->
  turns add west lng_step east n -> (n < inner)%nat ->
  forall m fuel lat cell_id cells st,
    turns add lat lat_step north m -> (m < fuel)%nat ->
    lat_loop add fuel inner bounds lat_step lng_step lat cell_id cells st
    = (Ok (cells ++ grid_records add m n lat_step lng_step west lat cell_id,
           (cell_id + m * n)%nat), st).
Proof.
  intros Hn He Hw Hcols Hinner. induction m as [|m IH];
    intros fuel lat cell_id cells st Ht Hfuel;
    (destruct fuel as [|fuel]; [lia|]); cbn [lat_loop];
    rewrite (bind_ok _ _ _ _ _ (dict_get_run _ _ _ st Hn)).
  - rewrite (turns_O _ _ _ _ Ht). cbn [grid_records].
    by rewrite app_nil_r, Nat.add_0_r.
  - apply turns_S in Ht as [E Ht]. rewrite E.
    rewrite (bind_ok _ _ _ _ _ (dict_get_run _ _ _ st Hw)).
    rewrite (bind_ok _ _ _ _ _
               (lng_loop_records add bounds east lat lat_step lng_step n He
                  inner west cell_id cells st Hcols Hinner)).
    cbn [fst snd].
    rewrite (IH fuel _ (cell_id + n)%nat _ st Ht ltac:(lia)).
    rewrite <- app_assoc. cbn [grid_records].
    by replace (cell_id + n + m * n)%nat with (cell_id + S m * n)%nat by lia.
Qed.

Lemma length_row_records add n lat lat_step lng_step lng cell_id :
  length (row_records add n lat lat_step lng_step lng cell_id) = n.
Proof.
  revert lng cell_id. induction n as [|n IH]; intros lng cell_id;
    cbn [row_records length]; [reflexivity | by rewrite IH].
Qed.

Lemma length_grid_records add m n lat_step lng_step west lat cell_id :
  length (grid_records add m n lat_step lng_step west lat cell_id)
  = (m * n)%nat.
Proof.
  revert lat cell_id. induction m as [|m IH]; intros lat cell_id;
    cbn [grid_records]; [reflexivity|].
  rewrite length_app, length_row_records, IH. lia.
Qed.

Lemma row_records_keys add n lat lat_step lng_step lng cell_id :
  Forall (fun d => keys d = grid_columns)
         (row_records add n lat lat_step lng_step lng cell_id).
Proof.
  revert lng cell_id. induction n as [|n IH]; intros lng cell_id;
    cbn [row_records]; constructor; [reflexivity | apply IH].
Qed.

Lemma grid_records_keys add m n lat_step lng_step west lat cell_id :
  Forall (fun d => keys d = grid_columns)
         (grid_records add m n lat_step lng_step west lat cell_id).
Proof.
  revert lat cell_id. induction m as [|m IH]; intros lat cell_id;
    cbn [grid_records]; [constructor|].
  apply Forall_app. split; [apply row_records_keys | apply IH].
Qed.

Lemma row_records_ids add n lat lat_step lng_step lng cell_id :
  map (fun d => default NaN (assoc "cell_id" d))
      (row_records add n lat lat_step lng_step lng cell_id)
  = map of_nat (seq cell_id n).
Proof.
  revert lng cell_id. induction n as [|n IH]; intros lng cell_id;
    cbn [row_records map seq]; [reflexivity|]. by rewrite IH.
Qed.

Lemma grid_records_ids add m n lat_step lng_step west lat cell_id :
  map (fun d => default NaN (assoc "cell_id" d))
      (grid_records add m n lat_step lng_step west lat cell_id)
  = map of_nat (seq cell_id (m * n)).
Proof.
  revert lat cell_id. induction m as [|m IH]; intros lat cell_id;
    cbn [grid_records]; [reflexivity|].
  rewrite map_app, row_records_ids, IH.
  replace (S m * n)%nat with (n + m * n)%nat by lia.
  by rewrite seq_app, map_app.
Qed.

Lemma row_records_lookup add n lat lat_step lng_step :
  forall lng cell_id (j : nat), (j < n)%nat ->
    row_records add n lat lat_step lng_step lng cell_id !! j
    = Some (grid_cell (cell_id + j) lat (stepped add lng lng_step j)
                      lat_step lng_step).
Proof.
  induction n as [|n IH]; intros lng cell_id j Hj; [lia|].
  destruct j as [|j]; cbn [row_records].
  - by rewrite Nat.add_0_r.
  - change ((?x :: ?l) !! S j) with (l !! j).
    rewrite IH by lia. cbn [stepped].
    by replace (S cell_id + j)%nat with (cell_id + S j)%nat by lia.
Qed.

Lemma grid_records_lookup add m n lat_step lng_step west :
  forall lat cell_id (i j : nat), (i < m)%nat -> (j < n)%nat ->
    grid_records add m n lat_step lng_step west lat cell_id !! (i * n + j)%nat
    = Some (grid_cell (cell_id + i * n + j) (stepped add lat lat_step i)
                      (stepped add west lng_step j) lat_step lng_step).
Proof.
  induction m as [|m IH]; intros lat cell_id i j Hi Hj; [lia|].
  cbn [grid_records]. destruct i as [|i].
  - rewrite lookup_app_l by (rewrite length_row_records; lia).
    cbn [Nat.mul Nat.add stepped]. rewrite row_records_lookup by exact Hj.
    by rewrite Nat.add_0_r.
  - rewrite lookup_app_r by (rewrite length_row_records; lia).
    rewrite length_row_records.
    replace (S i * n + j - n)%nat with (i * n + j)%nat by lia.
    rewrite IH by lia. cbn [stepped].
    by replace (cell_id + n + i * n + j)%nat
         with (cell_id + S i * n + j)%nat by lia.
Qed.

(** The grid builder run to its end under [add]: the frame of
    [grid_records]. *)
Lemma create_analysis_grid_records np_cos add (bounds : dict)
    north south east west g c (m n fuel : nat) st :
  assoc "north" bounds = Some (Fin north) ->
  assoc "south" bounds = Some (Fin south) ->
  assoc "east" bounds = Some (Fin east) ->
  assoc "west" bounds = Some (Fin west) ->
  np_cos (center_lat north south) = Fin c -> 0 < c ->
  turns add (Fin south) (Fin (g / 111)) (Fin north) m ->
  turns add (Fin west) (Fin (g / (111 * c))) (Fin east) n ->
  (m < fuel)%nat -> (n < fuel)%nat ->
  create_analysis_grid_with np_cos add fuel bounds (Fin g) st
  = (Ok (length (heap st)),
     mkState (heap st ++ [frame_of_records
                            (grid_records add m n (Fin (g / 111))
                                          (Fin (g / (111 * c)))
                                          (Fin west) (Fin south) 0)])
             (trace st ++ [Printed "Created analysis grid cells"
                                   [of_nat (m * n)]])).
Proof.
  intros Hn Hs He Hw Hc Hcpos Hm Hk Hfm Hfn.
  unfold create_analysis_grid_with.
  rewrite (bind_ok _ _ _ _ _ (dict_get_run _ _ _ _ Hn)).
  rewrite (bind_ok _ _ _ _ _ (dict_get_run _ _ _ _ Hs)).
  fold (center_lat north south). rewrite Hc.
  rewrite (bind_ok _ _ _ _ _ (dict_get_run _ _ _ _ Hs)).
  change (num_div (Fin g) (Fin 111)) with (Fin (g / 111)).
  assert (E : num_div (Fin g) (num_mul (Fin 111) (Fin c)) = Fin (g / (111 * c))).
  { cbn [num_div num_mul]. destruct (Qeqb (111 * c) 0) eqn:Ez; [|reflexivity].
    apply Qeqb_eq in Ez. lra. }
  rewrite E.
  rewrite (bind_ok _ _ _ _ _
             (lat_loop_records add bounds (Fin north) (Fin east) (Fin west)
                (Fin (g / 111)) (Fin (g / (111 * c))) n fuel Hn He Hw Hk Hfn
                m fuel (Fin south) 0%nat [] st Hm Hfm)).
  cbn [fst app]. unfold pd_DataFrame.
  rewrite (bind_ok _ _ _ _ _ (alloc_run _ _)).
  rewrite (bind_ok _ _ _ _ _
             (len_run (mkState (heap st ++ [_]) (trace st)) _ _
                      (lookup_snoc _ _))).
  rewrite (bind_ok _ _ _ _ _ (print_run _ _ _)).
  cbn [frame_of_records index heap trace].
  by rewrite length_grid_records.
Qed.

(** X5. Whatever the rounding of the two [+=], the cells of the grid are
    numbered 0, 1, 2, ... in the order in which they were made: when the
    latitude loop makes [m] turns and the longitude loop [n], the grid has
    [m * n] rows, the seven grid columns, and the ids 0 to [m * n - 1], so
    that no two cells share an id. *)
Lemma grid_cell_ids_consecutive np_cos add (bounds : dict)
    north south east west g c (m n fuel : nat) st :
  assoc "north" bounds = Some (Fin north) ->
  assoc "south" bounds = Some (Fin south) ->
  assoc "east" bounds = Some (Fin east) ->
  assoc "west" bounds = Some (Fin west) ->
  np_cos (center_lat north south) = Fin c -> 0 < c ->
  turns add (Fin south) (Fin (g / 111)) (Fin north) m ->
  turns add (Fin west) (Fin (g / (111 * c))) (Fin east) n ->
  (m < fuel)%nat -> (n < fuel)%nat -> (0 < m * n)%nat ->
  exists grid t',
    create_analysis_grid_with np_cos add fuel bounds (Fin g) st
    = (Ok (length (heap st)), mkState (heap st ++ [grid]) t') /\
    index grid = (m * n)%nat /\
    keys (columns grid) = grid_columns /\
    df_col grid "cell_id" = Some (map of_nat (seq 0 (m * n))).
Proof.
  intros Hn Hs He Hw Hc Hcpos Hm Hk Hfm Hfn Hpos.
  eexists. eexists. split.
  { eapply create_analysis_grid_records; eauto. }
  set (cells := grid_records add m n (Fin (g / 111)) (Fin (g / (111 * c)))
                             (Fin west) (Fin south) 0).
  assert (Hne : cells <> []).
  { intros E. apply (f_equal (@length _)) in E.
    unfold cells in E. rewrite length_grid_records in E. simpl in E. lia. }
  split; [apply length_grid_records|]. split.
  - apply frame_of_records_keys;
      [apply grid_columns_NoDup | exact Hne | apply grid_records_keys].
  - rewrite (frame_of_records_col grid_columns);
      [| apply grid_columns_NoDup | exact Hne | apply grid_records_keys
       | by left].
    f_equal. apply grid_records_ids.
Qed.

Lemma num_leb_trans x y z :
  num_leb x y = true -> num_leb y z = true -> num_leb x z = true.
Proof.
  destruct x as [a| | |], y as [b| | |], z as [d| | |];
    try reflexivity; try discriminate.
  rewrite !num_leb_fin. lra.
Qed.

Lemma never_back_from add start step n (i : nat) :
  never_back add start step n -> (i < n)%nat ->
  num_leb start start = true ->
  num_leb start (stepped add start step i) = true.
Proof.
  intros Hback Hi Hrefl. induction i as [|i IH]; [exact Hrefl|].
  eapply num_leb_trans; [apply IH; lia | apply Hback; lia].
Qed.

(** X6. Whatever the rounding of the two [+=], the grid is laid out row by
    row from the south-west corner: row [i * n + j] has the latitude reached
    after [i] additions of the latitude step to the south bound and the
    longitude reached after [j] additions of the longitude step to the west
    bound; no centre lies beyond the north or east bound, and none before
    the south or west bound as long as the additions never go backwards. *)
Lemma grid_centres_inside_bounds np_cos add (bounds : dict)
    north south east west g c (m n fuel : nat) st :
  assoc "north" bounds = Some (Fin north) ->
  assoc "south" bounds = Some (Fin south) ->
  assoc "east" bounds = Some (Fin east) ->
  assoc "west" bounds = Some (Fin west) ->
  np_cos (center_lat north south) = Fin c -> 0 < c ->
  turns add (Fin south) (Fin (g / 111)) (Fin north) m ->
  turns add (Fin west) (Fin (g / (111 * c))) (Fin east) n ->
  (m < fuel)%nat -> (n < fuel)%nat ->
  exists grid t',
    create_analysis_grid_with np_cos add fuel bounds (Fin g) st
    = (Ok (length (heap st)), mkState (heap st ++ [grid]) t') /\
    forall i j : nat, (i < m)%nat -> (j < n)%nat ->
      let lat := stepped add (Fin south) (Fin (g / 111)) i in
      let lng := stepped add (Fin west) (Fin (g / (111 * c))) j in
      cell grid "center_lat" (i * n + j) = Some lat /\
      cell grid "center_lng" (i * n + j) = Some lng /\
      num_leb lat (Fin north) = true /\
      num_leb lng (Fin east) = true /\
      (never_back add (Fin south) (Fin (g / 111)) m ->
       num_leb (Fin south) lat = true) /\
      (never_back add (Fin west) (Fin (g / (111 * c))) n ->
       num_leb (Fin west) lng = true).
Proof.
  intros Hn Hs He Hw Hc Hcpos Hm Hk Hfm Hfn.
  eexists. eexists. split.
  { eapply create_analysis_grid_records; eauto. }
  intros i j Hi Hj lat lng.
  set (cells := grid_records add m n (Fin (g / 111)) (Fin (g / (111 * c)))
                             (Fin west) (Fin south) 0).
  assert (Hne : cells <> []).
  { intros E. apply (f_equal (@length _)) in E.
    unfold cells in E. rewrite length_grid_records in E. simpl in E. nia. }
  assert (Hcol : forall k, In k grid_columns ->
             cell (frame_of_records cells) k (i * n + j)
             = assoc k (grid_cell (i * n + j) lat lng (Fin (g / 111))
                                  (Fin (g / (111 * c))))).
  { intros k Hin. unfold cell.
    rewrite (frame_of_records_col grid_columns);
      [| apply grid_columns_NoDup | exact Hne | apply grid_records_keys
       | exact Hin].
    rewrite list_lookup_fmap. unfold cells.
    rewrite (grid_records_lookup add m n _ _ _ _ 0%nat i j Hi Hj).
    cbn [fmap option_fmap option_map Nat.add]. fold lat lng.
    destruct Hin as [<-|[<-|[<-|[<-|[<-|[<-|[<-|[]]]]]]]]; reflexivity. }
  split; [apply Hcol; cbn; auto|]. split; [apply Hcol; cbn; auto|].
  split; [apply (proj1 Hm); exact Hi|]. split; [apply (proj1 Hk); exact Hj|].
  split; intros Hback.
  - apply never_back_from with (n := m); [exact Hback | exact Hi|].
    apply num_leb_fin. lra.
  - apply never_back_from with (n := n); [exact Hback | exact Hj|].
    apply num_leb_fin. lra.
Qed.


(** * Worked inputs for the grid under binary64 addition *)

Lemma half_degree_rows :
  turns binary64_add (Fin 0) (Fin (0.5 / 111)) (Fin 0.5) 111.
Proof. apply turnsb_turns. vm_compute. reflexivity. Defined.

Lemma half_degree_columns :
  turns binary64_add (Fin 0) (Fin (0.5 / (111 * 0.7013))) (Fin 0) 1.
Proof. apply turnsb_turns. vm_compute. reflexivity. Defined.

Lemma half_degree_rows_forward :
  never_back binary64_add (Fin 0) (Fin (0.5 / 111)) 111.
Proof. apply never_backb_never_back. vm_compute. reflexivity. Defined.

Lemma half_degree_columns_forward :
  never_back binary64_add (Fin 0) (Fin (0.5 / (111 * 0.7013))) 1.
Proof. apply never_backb_never_back. vm_compute. reflexivity. Defined.

(** In exact arithmetic the 112th latitude is 0.5 itself and is still inside
    the bounds; in binary64 the sum has crept just above 0.5 by then. *)
Example rounding_changes_row_count :
  turns num_add (Fin 0) (Fin (0.5 / 111)) (Fin 0.5) 112 /\
  turns binary64_add (Fin 0) (Fin (0.5 / 111)) (Fin 0.5) 111 /\
  index_of_grid (create_analysis_grid_with cos_table num_add 200 half_degree
                   (Fin 0.5) (mkState [] [])) = Some 112%nat /\
  index_of_grid (create_analysis_grid_with cos_table binary64_add 200
                   half_degree (Fin 0.5) (mkState [] [])) = Some 111%nat.
Proof.
  split; [apply turnsb_turns; vm_compute; reflexivity|].
  split; [exact half_degree_rows|].
  split; vm_compute; reflexivity.
Qed.

Lemma grid_cell_ids_consecutive_witness :
  assoc "north" half_degree = Some (Fin 0.5) /\
  assoc "south" half_degree = Some (Fin 0) /\
  assoc "east" half_degree = Some (Fin 0) /\
  assoc "west" half_degree = Some (Fin 0) /\
  cos_table (center_lat 0.5 0) = Fin 0.7013 /\ 0 < 0.7013 /\
  turns binary64_add (Fin 0) (Fin (0.5 / 111)) (Fin 0.5) 111 /\
  turns binary64_add (Fin 0) (Fin (0.5 / (111 * 0.7013))) (Fin 0) 1 /\
  (111 < 200)%nat /\ (1 < 200)%nat /\ (0 < 111 * 1)%nat /\
  exists grid t',
    create_analysis_grid_with cos_table binary64_add 200 half_degree (Fin 0.5)
                              (mkState [] [])
    = (Ok 0%nat, mkState ([] ++ [grid]) t') /\
    index grid = (111 * 1)%nat /\
    keys (columns grid) = grid_columns /\
    df_col grid "cell_id" = Some (map of_nat (seq 0 (111 * 1))).
Proof.
  split; [reflexivity|]. split; [reflexivity|]. split; [reflexivity|].
  split; [reflexivity|]. split; [reflexivity|]. split; [reflexivity|].
  split; [exact half_degree_rows|]. split; [exact half_degree_columns|].
  split; [lia|]. split; [lia|]. split; [lia|].
  apply (grid_cell_ids_consecutive cos_table binary64_add half_degree
           0.5 0 0 0 0.5 0.7013 111 1 200 (mkState [] []));
    [reflexivity | reflexivity | reflexivity | reflexivity | reflexivity
     | reflexivity | exact half_degree_rows | exact half_degree_columns
     | lia | lia | lia].
Defined.

Lemma grid_centres_inside_bounds_witness :
  assoc "north" half_degree = Some (Fin 0.5) /\
  assoc "south" half_degree = Some (Fin 0) /\
  assoc "east" half_degree = Some (Fin 0) /\
  assoc "west" half_degree = Some (Fin 0) /\
  cos_table (center_lat 0.5 0) = Fin 0.7013 /\ 0 < 0.7013 /\
  turns binary64_add (Fin 0) (Fin (0.5 / 111)) (Fin 0.5) 111 /\
  turns binary64_add (Fin 0) (Fin (0.5 / (111 * 0.7013))) (Fin 0) 1 /\
  (111 < 200)%nat /\ (1 < 200)%nat /\
  never_back binary64_add (Fin 0) (Fin (0.5 / 111)) 111 /\
  never_back binary64_add (Fin 0) (Fin (0.5 / (111 * 0.7013))) 1 /\
  exists grid t',
    create_analysis_grid_with cos_table binary64_add 200 half_degree (Fin 0.5)
                              (mkState [] [])
    = (Ok 0%nat, mkState ([] ++ [grid]) t') /\
    forall i j : nat, (i < 111)%nat -> (j < 1)%nat ->
      let lat := stepped binary64_add (Fin 0) (Fin (0.5 / 111)) i in
      let lng := stepped binary64_add (Fin 0) (Fin (0.5 / (111 * 0.7013))) j in
      cell grid "center_lat" (i * 1 + j) = Some lat /\
      cell grid "center_lng" (i * 1 + j) = Some lng /\
      num_leb lat (Fin 0.5) = true /\
      num_leb lng (Fin 0) = true /\
      (never_back binary64_add (Fin 0) (Fin (0.5 / 111)) 111 ->
       num_leb (Fin 0) lat = true) /\
      (never_back binary64_add (Fin 0) (Fin (0.5 / (111 * 0.7013))) 1 ->
       num_leb (Fin 0) lng = true).
Proof.
  split; [reflexivity|]. split; [reflexivity|]. split; [reflexivity|].
  split; [reflexivity|]. split; [reflexivity|]. split; [reflexivity|].
  split; [exact half_degree_rows|]. split; [exact half_degree_columns|].
  split; [lia|]. split; [lia|].
  split; [exact half_degree_rows_forward|].
  split; [exact half_degree_columns_forward|].
  apply (grid_centres_inside_bounds cos_table binary64_add half_degree
           0.5 0 0 0 0.5 0.7013 111 1 200 (mkState [] []));
    [reflexivity | reflexivity | reflexivity | reflexivity | reflexivity
     | reflexivity | exact half_degree_rows | exact half_degree_columns
     | lia | lia].
Defined.


(** * The batch driver, type by type *)

Lemma bind_ok_inv {A B} (m : M A) (k : A -> M B) st b st' :
  bind m k st = (Ok b, st') ->
  exists a s1, m st = (Ok a, s1) /\ k a s1 = (Ok b, st').
Proof.
  unfold bind. destruct (m st) as [[a | e |] s1]; try discriminate.
  intros H. by exists a, s1.
Qed.

Lemma extends_refl st : extends (heap st) st.
Proof. exists []. by rewrite app_nil_r. Qed.

Lemma extends_trans h st st' :
  extends h st -> extends (heap st) st' -> extends h st'.
Proof.
  intros [new H] [new' H']. exists (new ++ new'). by rewrite H', H, app_assoc.
Qed.

(** A run that [preserves] every [extends] only adds frames. *)
Lemma extends_run {A} (m : M A) st r st' :
  (forall h, preserves (extends h) m) -> m st = (r, st') ->
  extends (heap st) st'.
Proof.
  intros Hm E. pose proof (Hm (heap st) st (extends_refl st)) as H.
  by rewrite E in H.
Qed.

Lemma extends_emit h e : preserves (extends h) (emit e).
Proof. intros st [new H]. by exists new. Qed.

Lemma extends_mapM {A B} h (g : A -> M B) l :
  (forall x, preserves (extends h) (g x)) -> preserves (extends h) (mapM g l).
Proof.
  intros Hg. induction l as [|x l IH]; cbn [mapM]; [apply preserves_ret|].
  apply preserves_bind; [apply Hg | intros y].
  apply preserves_bind; [exact IH | intros ys; apply preserves_ret].
Qed.

Lemma extends_getitems h r cs : preserves (extends h) (getitems r cs).
Proof.
  unfold getitems. apply preserves_bind; [apply preserves_deref | intros f].
  apply preserves_bind; [| intros cols; apply extends_alloc].
  apply extends_mapM. intros c.
  destruct (df_col f c); [apply preserves_ret | apply preserves_raise].
Qed.

Lemma extends_nlargest h r n c : preserves (extends h) (nlargest r n c).
Proof.
  unfold nlargest. apply preserves_bind; [apply preserves_deref | intros f].
  destruct (df_col f c); [apply extends_alloc | apply preserves_raise].
Qed.

Lemma extends_save_analysis today h df city business_type :
  preserves (extends h) (save_analysis today df city business_type).
Proof.
  unfold save_analysis, os_makedirs, to_csv.
  apply preserves_bind; [apply extends_emit | intros _].
  apply preserves_bind; [apply preserves_deref | intros f].
  apply preserves_bind; [apply extends_emit | intros _].
  apply preserves_bind; [apply extends_emit | intros _; apply preserves_ret].
Qed.

Lemma extends_calculate_opportunity_scores h r :
  preserves (extends h) (calculate_opportunity_scores r).
Proof.
  intros st H. eapply extends_trans; [exact H|].
  apply calculate_opportunity_scores_extends.
Qed.

Lemma print_ok_inv text args st u st' :
  print text args st = (Ok u, st') -> st' = after st [Printed text args].
Proof. rewrite print_run. by intros [= _ <-]. Qed.

Lemma len_ok_inv r st n st' :
  len r st = (Ok n, st') ->
  st' = st /\ exists f, heap st !! r = Some f /\ n = index f.
Proof.
  unfold len, bind, deref. destruct (heap st !! r) as [f|]; [|discriminate].
  intros [= <- <-]. split; [reflexivity | by exists f].
Qed.

Lemma getitem_ok_inv r c st s st' :
  getitem r c st = (Ok s, st') ->
  st' = st /\ exists f, heap st !! r = Some f /\ df_col f c = Some s.
Proof.
  unfold getitem, bind, deref. destruct (heap st !! r) as [f|]; [|discriminate].
  destruct (df_col f c) as [s0|] eqn:E; [|discriminate].
  intros [= <- <-]. split; [reflexivity | by exists f].
Qed.

Lemma py_truediv_ok_inv a b st x st' :
  py_truediv a b st = (Ok x, st') -> st' = st.
Proof. destruct b; [discriminate | by intros [= _ <-]]. Qed.

Lemma nlargest_ok_inv r n c st r' st' :
  nlargest r n c st = (Ok r', st') ->
  exists f s, heap st !! r = Some f /\ df_col f c = Some s.
Proof.
  unfold nlargest, bind, deref. destruct (heap st !! r) as [f|]; [|discriminate].
  destruct (df_col f c) as [s|] eqn:E; [|discriminate].
  intros _. by exists f, s.
Qed.

(** The frame of deserts that the classifier hands back is in the heap. *)
Lemma identify_service_deserts_returned r thr st deserts st' :
  identify_service_deserts r thr st = (Ok deserts, st') ->
  exists found, heap st' !! deserts = Some found.
Proof.
  unfold identify_service_deserts. intros H.
  apply bind_ok_inv in H as (nearest & s1 & _ & H).
  apply bind_ok_inv in H as (within & s2 & _ & H).
  apply bind_ok_inv in H as (selected & s3 & _ & H).
  apply bind_ok_inv in H as (deserts0 & s4 & _ & H).
  apply bind_ok_inv in H as (u1 & s5 & _ & H).
  apply bind_ok_inv in H as (total & s6 & _ & H).
  apply bind_ok_inv in H as (u2 & s7 & _ & H).
  apply bind_ok_inv in H as (n & s8 & Hlen & H).
  apply bind_ok_inv in H as (u3 & s9 & Hp1 & H).
  apply bind_ok_inv in H as (share & s10 & Hdiv & H).
  apply bind_ok_inv in H as (u4 & s11 & Hp2 & H).
  injection H as <- <-.
  apply len_ok_inv in Hlen as (-> & found & Hfound & _).
  apply print_ok_inv in Hp1 as ->. apply py_truediv_ok_inv in Hdiv as ->.
  apply print_ok_inv in Hp2 as ->. by exists found.
Qed.

(** A places file that was loaded once is loaded again, in whatever state:
    the listing and the file do not depend on the state. *)
Lemma load_data_again os_listdir pd_read_csv city business_type st0 p0 st0' st :
  load_data os_listdir pd_read_csv city business_type st0 = (Ok p0, st0') ->
  exists loaded t',
    load_data os_listdir pd_read_csv city business_type st
    = (Ok (length (heap st)), mkState (heap st ++ [loaded]) t').
Proof.
  unfold load_data. destruct (os_listdir "data/raw") as [names | e].
  - rewrite (bind_ok _ _ _ _ _ (eq_refl : lift (Return names) st0 = (Ok names, st0))).
    rewrite (bind_ok _ _ _ _ _ (eq_refl : lift (Return names) st = (Ok names, st))).
    destruct (filter _ names) as [|f0 rest]; [discriminate|].
    rewrite !(bind_ok _ _ _ _ _ (print_run _ _ _)).
    destruct (pd_read_csv _) as [loaded | e]; [|discriminate].
    intros _.
    rewrite (bind_ok _ _ _ _ _ (eq_refl : lift (Return loaded) _ = (Ok loaded, _))).
    rewrite (bind_ok _ _ _ _ _ (alloc_run _ _)). cbn [heap trace].
    rewrite (bind_ok _ _ _ _ _ (len_run (mkState (heap st ++ [loaded]) _) _ _
                                        (lookup_snoc _ _))).
    rewrite (bind_ok _ _ _ _ _ (print_run _ _ _)). eexists _, _. reflexivity.
  - discriminate.
Qed.

Section Driver.

Variable np_cos : num -> num.
Variable geodesic_km : num -> num -> num -> num -> result num.
Variable os_listdir : string -> result (list string).
Variable path_exists : string -> bool.
Variable pd_read_csv : string -> result DataFrame.
Variable today : string.

(** An analysis that returned leaves its two frames in the heap, the scored
    one with its [opportunity_score] column, and had loaded the places. *)
Lemma analyze_city_returned fuel city business_type st results deserts st' :
  analyze_city np_cos geodesic_km os_listdir pd_read_csv today
               fuel city business_type st
  = (Ok (results, deserts), st') ->
  (exists found, heap st' !! deserts = Some found) /\
  (exists scored score,
      heap st' !! results = Some scored /\
      df_col scored "opportunity_score" = Some score) /\
  (exists s0 p0 s0',
      load_data os_listdir pd_read_csv city business_type s0 = (Ok p0, s0')).
Proof.
  unfold analyze_city. intros H.
  apply bind_ok_inv in H as (u0 & s0 & _ & H).
  destruct (assoc city CITY_BOUNDS) as [bounds|]; [|discriminate].
  apply bind_ok_inv in H as (places & s1 & Hload & H).
  apply bind_ok_inv in H as (grid & s2 & _ & H).
  apply bind_ok_inv in H as (distances & s3 & _ & H).
  apply bind_ok_inv in H as (accessibility & s4 & _ & H).
  apply bind_ok_inv in H as (deserts0 & s5 & Hdes & H).
  apply bind_ok_inv in H as (results0 & s6 & Hscore & H).
  apply bind_ok_inv in H as (filename & s7 & Hsave & H).
  apply bind_ok_inv in H as (u1 & s8 & Hp1 & H).
  apply bind_ok_inv in H as (u2 & s9 & Hp2 & H).
  apply bind_ok_inv in H as (largest & s10 & Hlargest & H).
  apply bind_ok_inv in H as (top5 & s11 & Htop5 & H).
  apply bind_ok_inv in H as (shown & s12 & Hshown & H).
  apply bind_ok_inv in H as (u3 & s13 & Hp3 & H).
  injection H as <- <- <-.
  apply print_ok_inv in Hp1 as ->. apply print_ok_inv in Hp2 as ->.
  apply print_ok_inv in Hp3 as ->.
  apply getitem_ok_inv in Hshown as (-> & _).
  pose proof (extends_run _ _ _ _ (fun h => extends_getitems h _ _) Htop5)
    as E11.
  pose proof (extends_run _ _ _ _ (fun h => extends_nlargest h _ _ _) Hlargest)
    as E10.
  pose proof (extends_run _ _ _ _
                (fun h => extends_save_analysis today h _ _ _) Hsave) as E7.
  pose proof (extends_run _ _ _ _
                (fun h => extends_calculate_opportunity_scores h _) Hscore)
    as E6.
  cbn [after heap] in *.
  split; [|split].
  - destruct (identify_service_deserts_returned _ _ _ _ _ Hdes)
      as [found Hfound].
    exists found. eapply extends_lookup; [|exact Hfound].
    eapply extends_trans; [|exact E11]. eapply extends_trans; [|exact E10].
    eapply extends_trans; [exact E6|]. destruct E7 as [new E7].
    exists new. exact E7.
  - apply nlargest_ok_inv in Hlargest as (scored & score & Hscored & Hcol).
    exists scored, score. split; [|exact Hcol].
    eapply extends_lookup; [|exact Hscored].
    eapply extends_trans; [|exact E11]. exact E10.
  - by exists s0, places, s1.
Qed.

(** One turn of the driver's loop on a type that is not in the summary
    yet: the entry [recorded] for it is appended. *)
Lemma batch_turn fuel city biz_type summary st :
  terminates (analyze_city np_cos geodesic_km os_listdir pd_read_csv today
                           fuel city biz_type) ->
  ~ In biz_type (keys summary) ->
  exists entry s2,
    try_except
      (r <- analyze_city np_cos geodesic_km os_listdir pd_read_csv today
                         fuel city biz_type ;;
       places <- load_data os_listdir pd_read_csv city biz_type ;;
       total_locations <- len places ;;
       service_deserts <- len (snd r) ;;
       score <- getitem (fst r) "opportunity_score" ;;
       ret (assoc_set biz_type
                      (Success total_locations service_deserts
                               (series_mean score) (series_max score))
                      summary))
      (fun e =>
         print ("Error analyzing " ++ biz_type) [] ;;;
         ret (assoc_set biz_type (Error e) summary)) st
    = (Ok (summary ++ [(biz_type, entry)]), s2) /\
    recorded os_listdir pd_read_csv city biz_type
             (analyze_city np_cos geodesic_km os_listdir pd_read_csv today
                           fuel city biz_type st)
             entry s2.
Proof.
  intros Hterm Hfresh.
  assert (Hset : forall entry,
             assoc_set biz_type entry summary = summary ++ [(biz_type, entry)]).
  { intros entry. apply assoc_set_fresh.
    clear -Hfresh. induction summary as [|[k v] l IH]; [reflexivity|].
    cbn [assoc]. destruct (String.eqb biz_type k) eqn:E.
    - apply String.eqb_eq in E. subst k. exfalso. apply Hfresh. by left.
    - apply IH. intros Hin. apply Hfresh. by right. }
  specialize (Hterm st). unfold try_except, recorded.
  destruct (analyze_city _ _ _ _ _ fuel city biz_type st)
    as [[[results deserts] | e |] s1] eqn:Hrun.
  - destruct (analyze_city_returned _ _ _ _ _ _ _ Hrun)
      as ((found & Hfound) & (scored & score & Hscored & Hcol)
          & (s0 & p0 & s0' & Hload)).
    destruct (load_data_again _ _ _ _ _ _ _ s1 Hload) as (loaded & t' & Hagain).
    pose proof (lookup_lt_Some _ _ _ Hfound) as Lfound.
    pose proof (lookup_lt_Some _ _ _ Hscored) as Lscored.
    set (s2 := mkState (heap s1 ++ [loaded]) t') in *.
    assert (Hloaded : heap s2 !! length (heap s1) = Some loaded)
      by apply lookup_snoc.
    assert (Hfound2 : heap s2 !! deserts = Some found)
      by (cbn [s2 heap]; by rewrite lookup_app_l).
    assert (Hscored2 : heap s2 !! results = Some scored)
      by (cbn [s2 heap]; by rewrite lookup_app_l).
    exists (Success (index loaded) (index found)
                    (series_mean score) (series_max score)), s2.
    split.
    + unfold bind at 1. rewrite Hrun.
      rewrite (bind_ok _ _ _ _ _ Hagain).
      rewrite (bind_ok _ _ _ _ _ (len_run _ _ _ Hloaded)). cbn [fst snd].
      rewrite (bind_ok _ _ _ _ _ (len_run _ _ _ Hfound2)).
      rewrite (bind_ok _ _ _ _ _ (getitem_run _ _ _ _ _ Hscored2 Hcol)).
      by rewrite Hset.
    + exists (length (heap s1)), loaded, found, scored, score.
      by repeat split.
  - exists (Error e), (after s1 [Printed ("Error analyzing " ++ biz_type) []]).
    split; [|by split].
    unfold bind at 1. rewrite Hrun.
    rewrite (bind_ok _ _ _ _ _ (print_run _ _ _)). by rewrite Hset.
  - simpl in Hterm. congruence.
Qed.

(** The loop of the driver never stops early: with analyses that end, it
    returns the summary extended by one entry per type, as [batch_run]
    describes them. *)
Lemma batch_loop_isolates fuel city total :
  (forall business_type,
      terminates (analyze_city np_cos geodesic_km os_listdir pd_read_csv
                               today fuel city business_type)) ->
  forall types idx summary st,
    NoDup (keys summary ++ types) ->
    exists entries st',
      batch_loop np_cos geodesic_km os_listdir pd_read_csv today
                 fuel city total idx types summary st
      = (Ok (summary ++ entries), st') /\
      keys entries = types /\
      batch_run np_cos geodesic_km os_listdir pd_read_csv today
                fuel city total idx types st entries st'.
Proof.
  intros Hterm. induction types as [|biz_type rest IH];
    intros idx summary st Hnd.
  - exists [], st. rewrite app_nil_r. by repeat split.
  - cbn [batch_loop].
    assert (Hfresh : ~ In biz_type (keys summary)).
    { apply NoDup_app in Hnd as (_ & Hnd & _). intros Hin.
      apply (Hnd biz_type); [by apply list_elem_of_In | by left]. }
    rewrite (bind_ok _ _ _ _ _ (print_run _ _ _)).
    rewrite (bind_ok _ _ _ _ _ (print_run _ _ _)).
    rewrite (bind_ok _ _ _ _ _ (print_run _ _ _)).
    cbn [heap trace]. rewrite <- !app_assoc. cbn [app].
    match goal with
    | |- context [bind (try_except _ _) _ ?s] => set (s0 := s)
    end.
    destruct (batch_turn fuel city biz_type summary s0 (Hterm biz_type) Hfresh)
      as (entry & s2 & Hturn & Hrec).
    rewrite (bind_ok _ _ _ _ _ Hturn).
    destruct (IH (S idx) (summary ++ [(biz_type, entry)]) s2)
      as (entries & st' & Hrun & Hkeys & Hspec).
    { unfold keys. rewrite map_app. cbn [map fst].
      rewrite <- app_assoc. exact Hnd. }
    exists ((biz_type, entry) :: entries), st'.
    split; [by rewrite Hrun, <- app_assoc|].
    split; [cbn [keys map fst]; f_equal; exact Hkeys|].
    cbn [batch_run]. split; [reflexivity|]. exists s2. split; [|exact Hspec].
    exact Hrec.
Qed.

End Driver.

(** C9. With enough fuel the batch driver returns, whatever the analyses of
    the single types do. Its summary has one entry per business type found,
    in order; every type is analysed, in the state the type before it left,
    and its entry is the error its own analysis raised or the figures of
    its own success; a failure changes nothing for the types after it. The
    output ends with the status table: its heading, one row per entry, and
    the closing separator. *)
Theorem batch_isolates_failures np_cos geodesic_km os_listdir path_exists
    pd_read_csv today city :
  cos_positive_at np_cos city ->
  exists fuel0, forall fuel types st st0,
    (fuel0 <= fuel)%nat ->
    get_available_business_types os_listdir path_exists city st
      = (Ok types, st0) ->
    types <> [] ->
    exists summary finished,
      analyze_all_business_types np_cos geodesic_km os_listdir path_exists
                                 pd_read_csv today fuel city st
      = (Ok summary,
         after finished (table_header city ++ map summary_line summary
                         ++ [Printed separator []])) /\
      keys summary = types /\
      batch_run np_cos geodesic_km os_listdir pd_read_csv today
                fuel city (length types) 1 types
                (after st (batch_header city types)) summary finished.
Proof.
  intros Hcos.
  destruct (analyze_city_terminates np_cos geodesic_km os_listdir pd_read_csv
              today city Hcos) as [fuel0 Hterm].
  exists fuel0. intros fuel types st st0 Hfuel Htypes Hne.
  destruct (get_available_business_types_run _ _ _ _ _ _ Htypes) as [-> Hnd].
  unfold analyze_all_business_types. rewrite (bind_ok _ _ _ _ _ Htypes).
  destruct types as [|biz_type rest]; [congruence|].
  set (types := biz_type :: rest) in *.
  do 6 rewrite (bind_ok _ _ _ _ _ (print_run _ _ _)).
  cbn [heap trace]. rewrite <- !app_assoc. cbn [app].
  destruct (batch_loop_isolates np_cos geodesic_km os_listdir pd_read_csv today
              fuel city (length types) (fun bt => Hterm fuel bt Hfuel)
              types 1%nat [] (after st (batch_header city types)))
    as (summary & finished & Hrun & Hkeys & Hspec); [exact Hnd|].
  cbn [app] in Hrun. unfold after, batch_header in Hrun.
  rewrite (bind_ok _ _ _ _ _ Hrun).
  do 5 rewrite (bind_ok _ _ _ _ _ (print_run _ _ _)).
  rewrite (bind_ok _ _ _ _ _ (summary_rows_run _ _)).
  rewrite (bind_ok _ _ _ _ _ (print_run _ _ _)).
  exists summary, finished. split; [|split; [exact Hkeys | exact Hspec]].
  unfold ret, after, table_header. cbn [heap trace].
  by rewrite <- !app_assoc.
Qed.


Lemma batch_isolates_failures_witness :
  cos_positive_at cos_table "milan" /\
  exists fuel0, forall fuel types st st0,
    (fuel0 <= fuel)%nat ->
    get_available_business_types two_listings always_there "milan" st
      = (Ok types, st0) ->
    types <> [] ->
    exists summary finished,
      analyze_all_business_types cos_table geodesic_zero two_listings
                                 always_there read_header_only "20240102"
                                 fuel "milan" st
      = (Ok summary,
         after finished (table_header "milan" ++ map summary_line summary
                         ++ [Printed separator []])) /\
      keys summary = types /\
      batch_run cos_table geodesic_zero two_listings read_header_only
                "20240102" fuel "milan" (length types) 1 types
                (after st (batch_header "milan" types)) summary finished.
Proof.
  split; [exact cos_table_positive|].
  apply (batch_isolates_failures cos_table geodesic_zero two_listings
           always_there read_header_only "20240102" "milan"
           cos_table_positive).
Defined.

(** The two business types found in the directory are both processed, both
    fail on their empty tables, and both get an error row in the status
    table that ends the output. *)
Example batch_of_two_failures :
  let run := analyze_all_business_types cos_table geodesic_zero two_listings
               always_there read_header_only "20240102" 40 "milan"
               (mkState [] []) in
  fst run = Ok [ ("cafe", Error (KeyError "cell_id"));
                 ("pharmacy", Error (KeyError "cell_id")) ] /\
  skipn (length (trace (snd run)) - 3) (trace (snd run))
  = [ Printed "cafe ERROR" []; Printed "pharmacy ERROR" [];
      Printed separator [] ].
Proof. vm_compute. split; reflexivity. Qed.
